(* ===== verification/_CoqProject ===== *)
-Q . S2P
Prelude.v
MiscTools.v
ToxList.v
Network.v
Host.v
Hex.v
Sign.v
LosslessUDP.v
LosslessInv.v
LosslessSafe.v
LosslessLink.v
LosslessThms.v
Handshake.v
LosslessLive.v
Crypto.v
NetCrypto.v
CryptoThms.v
Session.v
Channel.v
ChannelLive.v
Ping.v
DHTLists.v
DHT.v
DHTDistance.v
DHTSafe.v
DHTThms.v
DHTLookup.v
FriendRequests.v
LANDiscovery.v
Frame.v
NetCryptoInv.v
CryptoLoop.v
Bootstrap.v
BootstrapThms.v
Messenger.v
MessengerThms.v
MessengerInv.v
MessengerLife.v
MessengerSave.v
MessengerLoop.v
Chat.v
ChatLive.v
Tox.v
