(* ===== verification/Prelude.v ===== *)
(** * ProjectTox-Core in Rocq

    A model of the library toxcore (directory toxcore/ of the sources) and of the programs
    in other/ that are built on it, with theorems about them.

    ** The program

    toxcore is an event loop over one UDP socket.  [doMessenger] polls the socket,
    hands each datagram to the handler registered for its first byte, and then lets
    every layer do its periodic work:

    - network.c, util.c: addresses, clocks, random numbers, the socket, datagrams, the
      table of handlers;
    - Lossless_UDP.c: connections that deliver packets in order and without loss;
    - net_crypto.c: encryption, handshakes and encrypted connections on top of them,
      and requests, single encrypted packets that may be routed through the DHT;
    - ping.c, DHT.c: the distributed hash table that finds the address of a friend, the
      punching of NATs, and saving;
    - LAN_discovery.c, friend_requests.c, Messenger.c, tox.c: finding nodes on the local
      network, friend requests, friends and messages, and the public API;
    - other/DHT_bootstrap.c and other/bootstrap_serverdaemon/: nodes that run the DHT
      without a messenger, with their key and configuration files; other/fun/sign.c: a tool
      that signs files.

    ** The model

    Every operation is a function in the state-and-world monad [M] of [Network]: it maps
    the state of its module and a [World] to a result, a new state and a new world, or to
    [None], which stands for undefined behaviour of the C code (an access outside of an
    array, a use of memory that could not be allocated) or for a loop that does not end.
    There is one exception: two reads behind an object, of [free_connections] (one element,
    on every call) and of [handle_SYNC3] (the words behind [temp]), which real machines
    survive, yield arbitrary bytes of the [World] ([over_read] and [over_reads] of
    [Network]); a theorem about them therefore holds whatever these bytes are, and says so where
    it matters (C12, C32).  Writes behind an object are always [None]; a local
    buffer of fixed size is checked with [room] where a length that comes from a packet is
    copied to it.
    The [World] holds what the code reads from outside -- clock readings, random numbers,
    the contents of uninitialised memory, which allocations and which [sendto] fail, the
    datagrams waiting -- and the datagrams sent.  What the system keeps for the process
    (open sockets) or answers to the calls that configure a socket is the [Host].  A
    theorem that quantifies over worlds and hosts covers every behaviour of the
    environment.  [wp m Q] says that [m] is defined, ends and establishes [Q]; [wlp] speaks
    only of the runs that are defined.  The states that are [reachable] or [tox_reachable] are
    those after calls that were defined; likewise the two ends of a connection
    ([end_step]) receive no SYNC packet with more than 8 requests, since C says nothing about
    what comes after it.

    Integers are [Z], kept at their width with [u8] .. [u64] where the C code wraps;
    buffers are lists of bytes; the host is little-endian.  Structs are records with the
    fields of the source; arrays are lists; an access by index that the code does not
    check is [None] outside of the list.  A layer runs an operation of the layer below on
    its part of the state with [zoom].

    ** Files

    - [Prelude]: machine integers, bytes, [memcpy] and friends, search loops, tactics.
    - [MiscTools] (misc_tools.h): the growable array; the quick sort, shown to end and to
      sort.  [ToxList] (misc_tools.h): the linked list on a store of nodes (C40).
    - [Network] (network.c, util.c): addresses, [World], [M], weakest preconditions,
      [networking_poll].  [Host] (network.c, LAN_discovery.c): the socket and the
      broadcast address.
    - [Hex] (testing/misc_tools.c, the daemon, DHT_bootstrap.c): keys as text, with the
      parts of scanf and printf they use (C38).  [Sign] (other/fun/sign.c), over the class
      [CryptoSign] that stands for libsodium (C39).
    - [LosslessUDP] (Lossless_UDP.c): all of its functions.  [LosslessInv]: the invariant
      [conn_wf] of a connection and its preservation.  [LosslessSafe]: the invariant of
      the instance and a rule for every operation; [reachable] states.  [LosslessLink]: two
      ends and a network between them ([session]).  [LosslessThms]: C1, C2, C11 and C13.
      [Handshake]: two instances open a connection by the packets they send each other (C6).
      [LosslessLive]: recovery after losses (C7), for any program that uses the connection
      (class [Progress]).
    - [Crypto] (net_crypto.c): encryption, nonces, requests, handshake packets, over the
      class [CryptoBox] that stands for libsodium and whose documented behaviour is the
      class [CryptoBoxLaws].  [NetCrypto]: crypto connections.  [CryptoThms]: an instance
      of the two classes, C16 and C19.  [Session]: making an encrypted connection (C3).
      [Channel]: two nodes that use one, over a network that loses and reorders (C14).
      [ChannelLive]: what was written on it can always be read (C31).
    - [Ping] (ping.c): the ring of outstanding pings and the queue it implements.
    - [DHTLists], [DHT] (DHT.c, the handlers of ping.c, [cryptopacket_handle]).
      [DHTDistance]: distances, sorting, which nodes a list keeps (C21-C23).  [DHTSafe]: the
      invariant [dht_wf] and a proof for every operation.  [DHTThms]: C15, C24-C27.
      [DHTLookup]: requests, lookups and pings from one node to another and back (C17, C18
      and C20).
    - [FriendRequests] (friend_requests.c), [LANDiscovery] (LAN_discovery.c, C34).
    - [Frame]: which operations leave the datagrams that wait, or a part of the state,
      alone; what the loop of [networking_poll] means.  [NetCryptoInv]: triples [typed] for
      invariants, the invariant [nc_wf] of net_crypto.c and every operation that keeps it.
      [CryptoLoop]: the main loop of net_crypto.c (C12).
    - [Bootstrap] (other/DHT_bootstrap.c and the daemon), [BootstrapThms] (C35-C37).
    - [Messenger] (Messenger.c), [Tox] (tox.c, tox.h).  [MessengerThms]: C28-C30.
      [MessengerInv]: the invariant [instance_wf] of all layers together, every function of
      the interface keeps it, [tox_reachable].  [MessengerLife]: C4, C10 and C33.
      [MessengerSave]: C9.  [MessengerLoop]: the loop that reads a friend's packets (C32).
      [Chat]: a conversation between two clients (C5).  [ChatLive]: what was said in it can
      always be shown (C8), with [doFriends] as the program of [Progress].

    ** What is shown

    - Transport (C1, C2, C6, C7, C11, C13): what is read at one end of an established
      connection is a prefix of what was written at the other, whatever the network does
      short of a SYNC packet with more than 8 requests; and whatever it lost (at most 8 packets
      at a time, and no SYNC packet delayed by 247 others), the two ends can go on to read
      everything that was written; the invariant of every reachable state, in which every call
      with arguments in bounds and every packet but SYNC packets of more than 42 bytes is safe;
      the functional behaviour of opening; the handshake packets, SYNC packets included, take
      two instances from [new_connection] to an established connection on which both agree on
      the first packets; packets mean the same to both ends.
      [SYNC_requests_overflow], [missing_packets_overflow] and
      [free_connections_drops_live] exhibit memory errors of the code: the exact conditions
      under which SYNC requests, [missing_packets] and [free_connections] leave their
      arrays.
    - Encryption (C3, C12, C14, C16, C17, C19, C31): from [crypto_connect] to an established
      connection with the same key and matching nonces at both ends; on such a connection
      the messages read are a prefix of the messages written, under the conditions of C1, and
      under those of C7 all of them can be read in the end; the main loop ends, with no access
      outside of an array but that of [free_connections]; requests, routed or not, reach the handler of the node
      they are for; the nonce is a counter that does not repeat; the effect of writing; round
      trips ([encrypt_decrypt], [request_round_trip], [cryptohandshake_round_trip],
      [read_cryptpacket_inverts], [stream_round_trip]).  [receive_crypto_stops]: one silent
      connection blocks those behind it.
    - DHT (C15, C18, C20-C27): any sequence of calls and packets is safe; a lookup sent to a
      node comes back with the nodes it knows, and they are asked in turn; a friend that
      answers a ping is found; [id_closest] compares distances in one metric (which is not
      the exclusive-or metric, [id_closest_not_xor]); lists are sorted and admit and evict
      nodes as they should; saving and loading; only answers to questions that are outstanding are
      believed, with the exact exception of identifier 0 ([ping_response_zero_id]); the ring of pings is a queue;
      the nodes sent in answers are good, bounded and distinct (but not the closest,
      [get_close_nodes_not_closest]); [DHT_delfriend_mixes] is about a deletion that mixes up
      two friends.
    - Instance (C4, C5, C8-C10, C28-C30, C32-C34): the invariant of an instance with all of
      its layers, through any sequence of calls that run to their end; what a client is shown of a friend's
      messages and actions is a prefix of what the friend said, receipts are only reported
      for messages that were shown, and whatever the network lost there is a way on to
      where all that was said has been shown; polling serves each datagram once, in order; an
      instance that is saved and loaded keeps its keys, its name and its friends; one socket
      is opened and closed; the checksum of an address catches every wrong byte; a friend
      that is added is found; friend requests are accepted once and only with the right
      number; the loop over a friend's packets ends; nodes on one network find each other.
      [short_message_length] and [m_delfriend_empty_slot] are errors of the code;
      [tox_header_agrees] says that tox.h repeats the constants of the library correctly.
    - Programs (C35-C40): both bootstrap programs run from their start on for any number of
      turns of their loops; the keys one of them wrote are those that it, or the other, loads
      later; the outcome of [configure_server] for every configuration, with its memory error;
      keys that are printed are read back; files that are signed (below 2 GiB) check; the linked
      list is a list.

    ** Bounds and fuel

    Structural recursion is used wherever the C loop has a bound known in advance.  The
    other loops take fuel: [partition_loop] and [quick_sort_rec] one more than the length
    (shown enough by [quick_sort_ok]); the passes of Lossless_UDP over its connections
    their number, and [send_data_loop] the number of intervals elapsed (both C12);
    [friend_online] one more than the packets waiting (C32); [poll_loop] one more than the
    datagrams waiting, since each turn takes one (C10); [kill_all_loop] the number of crypto
    connections ([wp_kill_all_loop], C33); [incomings_loop] one more than the number of
    connections, since a connection is returned by [incoming_connection] only once;
    [receive_loop] the number of crypto connections, which does not grow in it (both C12);
    [list_loop] the number of nodes (C40); [digits] ten, the digits of a 32-bit number.  Running out of
    fuel is [None], so a [wp] theorem about an operation shows that it does not happen.

    ** What is not modelled

    Releasing memory ([kill_DHT], [kill_ping] and the like do nothing else); the client's
    callbacks, whose calls are recorded as events and which are taken not to call back into
    the library; libsodium, libconfig, the resolver and the system calls, which are
    parameters; text for the terminal other than keys; the debugging macros of misc_tools.h;
    the branches for Windows; the test programs (testing/, auto_tests/). *)

From stdpp Require Export base list numbers tactics sets gmap.
Local Open Scope Z_scope.

(** [lia] is used with division and modulo by constants throughout. *)
Ltac Zify.zify_post_hook ::= Z.div_mod_to_equations.

(** ** Machine integers

    A w-bit unsigned integer is a [Z] in [0, 2^w); the wrap-around of C's
    unsigned arithmetic is written out with the four functions below. *)

Definition u8 (z : Z) : Z := z mod 256.
Definition u16 (z : Z) : Z := z mod 65536.
Definition u32 (z : Z) : Z := z mod 4294967296.
Definition u64 (z : Z) : Z := z mod 18446744073709551616.

(** Reinterpretation of an unsigned byte as [int8_t]. *)
Definition i8 (z : Z) : Z := if u8 z <? 128 then u8 z else u8 z - 256.

(** Conversion to [int], of 32 bits. *)
Definition i32 (z : Z) : Z := if u32 z <? 2147483648 then u32 z else u32 z - 4294967296.

Definition is_u8 (z : Z) : Prop := 0 <= z < 256.
Definition is_u16 (z : Z) : Prop := 0 <= z < 65536.
Definition is_u32 (z : Z) : Prop := 0 <= z < 4294967296.
Definition is_u64 (z : Z) : Prop := 0 <= z < 18446744073709551616.

Create HintDb tox.
Create Rewrite HintDb tox.
Create Rewrite HintDb toxlen.

Lemma u8_range z : is_u8 (u8 z).
Proof. unfold is_u8, u8. lia. Qed.

Lemma u16_range z : is_u16 (u16 z).
Proof. unfold is_u16, u16. lia. Qed.

Lemma u32_range z : is_u32 (u32 z).
Proof. unfold is_u32, u32. lia. Qed.

Lemma u64_range z : is_u64 (u64 z).
Proof. unfold is_u64, u64. lia. Qed.

Lemma u8_small z : is_u8 z -> u8 z = z.
Proof. unfold is_u8, u8. apply Z.mod_small. Qed.

Lemma u16_small z : is_u16 z -> u16 z = z.
Proof. unfold is_u16, u16. apply Z.mod_small. Qed.

Lemma u32_small z : is_u32 z -> u32 z = z.
Proof. unfold is_u32, u32. apply Z.mod_small. Qed.

Lemma u64_small z : is_u64 z -> u64 z = z.
Proof. unfold is_u64, u64. apply Z.mod_small. Qed.

#[export] Hint Resolve u8_range u16_range u32_range u64_range : tox.
#[export] Hint Rewrite u8_small u16_small u32_small u64_small
  using (unfold is_u8, is_u16, is_u32, is_u64 in *; lia) : tox.

(** [uarith] exposes the modular arithmetic to [lia]. *)
Ltac uarith := unfold u8, u16, u32, u64, is_u8, is_u16, is_u32, is_u64 in *; lia.

(** ** Bytes

    A buffer is a [list Z] of bytes.  The modelled host is little-endian, as the
    x86 targets of the build are; [memcpy] from an integer object produces
    [le_bytes] and [memcpy] into one reads [le_val]. *)

Fixpoint le_bytes (n : nat) (z : Z) : list Z :=
  match n with
  | O => []
  | S k => z mod 256 :: le_bytes k (z / 256)
  end.

Fixpoint le_val (l : list Z) : Z :=
  match l with
  | [] => 0
  | b :: r => b + 256 * le_val r
  end.

Definition bytes_ok (l : list Z) : Prop := Forall is_u8 l.

Lemma length_le_bytes n z : length (le_bytes n z) = n.
Proof. revert z. induction n; intros; simpl; auto. Qed.

Lemma le_bytes_ok n z : bytes_ok (le_bytes n z).
Proof.
  revert z. induction n; intros; simpl; constructor; auto.
  - unfold is_u8. lia.
  - apply IHn.
Qed.

Lemma le_val_bytes n z : le_val (le_bytes n z) = z mod 256 ^ Z.of_nat n.
Proof.
  revert z. induction n as [|n IH]; intros z.
  { simpl. by rewrite Z.mod_1_r. }
  cbn [le_bytes le_val]. rewrite IH, Nat2Z.inj_succ, Z.pow_succ_r by lia.
  rewrite Z.rem_mul_r by lia. lia.
Qed.

Lemma le_val_range l : bytes_ok l -> 0 <= le_val l < 256 ^ Z.of_nat (length l).
Proof.
  induction 1 as [|b r Hb _ IH]; [simpl; lia|].
  cbn [le_val length]. rewrite Nat2Z.inj_succ, Z.pow_succ_r by lia.
  unfold is_u8 in Hb. lia.
Qed.

Lemma le_bytes_val l : bytes_ok l -> le_bytes (length l) (le_val l) = l.
Proof.
  induction 1 as [|b r Hb _ IH]; [done|].
  cbn [le_val length le_bytes]. unfold is_u8 in Hb. f_equal.
  - rewrite Z.mul_comm, Z.mod_add by lia. by apply Z.mod_small.
  - rewrite Z.mul_comm, Z.div_add by lia.
    rewrite Z.div_small by lia. by rewrite Z.add_0_l.
Qed.

(** [htonl]/[ntohl] and [htons]/[ntohs] on a little-endian host: byte swaps. *)
Definition htonl (z : Z) : Z := le_val (rev (le_bytes 4 z)).
Definition ntohl (z : Z) : Z := le_val (rev (le_bytes 4 z)).
Definition htons (z : Z) : Z := le_val (rev (le_bytes 2 z)).
Definition ntohs (z : Z) : Z := le_val (rev (le_bytes 2 z)).

Lemma rev_bytes_ok l : bytes_ok l -> bytes_ok (rev l).
Proof. apply Forall_rev. Qed.

Lemma swap_swap n z :
  le_val (rev (le_bytes n (le_val (rev (le_bytes n z))))) = z mod 256 ^ Z.of_nat n.
Proof.
  pose proof (le_bytes_val (rev (le_bytes n z))) as H.
  rewrite length_rev, length_le_bytes in H.
  rewrite H by apply rev_bytes_ok, le_bytes_ok.
  rewrite rev_involutive. apply le_val_bytes.
Qed.

Lemma ntohl_htonl z : is_u32 z -> ntohl (htonl z) = z.
Proof. intros H. unfold ntohl, htonl. rewrite swap_swap. by apply u32_small. Qed.

Lemma ntohs_htons z : is_u16 z -> ntohs (htons z) = z.
Proof. intros H. unfold ntohs, htons. rewrite swap_swap. by apply u16_small. Qed.

Lemma htonl_range z : is_u32 (htonl z).
Proof.
  unfold htonl. pose proof (le_val_range _ (rev_bytes_ok _ (le_bytes_ok 4 z))) as H.
  by rewrite length_rev, length_le_bytes in H.
Qed.

Lemma ntohl_range z : is_u32 (ntohl z).
Proof. apply htonl_range. Qed.

Lemma lxor_u32 a b : is_u32 a -> is_u32 b -> is_u32 (Z.lxor a b).
Proof.
  intros Ha Hb. assert (E : Z.lxor a b = Z.lxor a b mod 2 ^ 32).
  { rewrite <- Z.land_ones by lia. rewrite <- (Z.mod_small a (2 ^ 32)) at 1 by exact Ha.
    rewrite <- (Z.mod_small b (2 ^ 32)) at 1 by exact Hb.
    rewrite <- !Z.land_ones by lia. apply Z.bits_inj'. intros n Hn.
    rewrite !Z.lxor_spec, !Z.land_spec, Z.lxor_spec.
    destruct (Z.testbit a n), (Z.testbit b n), (Z.testbit (Z.ones 32) n); done. }
  rewrite E. apply u32_range.
Qed.

#[export] Hint Resolve lxor_u32 : tox.
#[export] Hint Resolve htonl_range ntohl_range le_bytes_ok : tox.

(** [bytes_at off n p]: the [n] bytes at offset [off] of [p]. *)
Definition bytes_at (off n : nat) (p : list Z) : list Z := take n (drop off p).

(** [memcmp(a, b, n) == 0]. *)
Definition memcmp_eq (n : nat) (a b : list Z) : bool := bool_decide (take n a = take n b).

(** [memcpy(dst, src, n)] into a buffer: the first [n] bytes are replaced. *)
Definition memcpy (dst src : list Z) (n : nat) : list Z := take n src ++ drop n dst.

Lemma length_memcpy dst src n :
  (n <= length src)%nat -> (n <= length dst)%nat -> length (memcpy dst src n) = length dst.
Proof. intros H1 H2. unfold memcpy. rewrite length_app, length_take, length_drop. lia. Qed.

Definition zeros (n : nat) : list Z := replicate n 0.

Lemma bytes_at_app_l off n p q :
  (off + n <= length p)%nat -> bytes_at off n (p ++ q) = bytes_at off n p.
Proof.
  intros H. unfold bytes_at. rewrite drop_app_le by lia.
  apply take_app_le. rewrite length_drop. lia.
Qed.

Lemma bytes_at_app_r n p q : (length q <= n)%nat -> bytes_at (length p) n (p ++ q) = q.
Proof. intros H. unfold bytes_at. rewrite drop_app_length. by apply take_ge. Qed.

Lemma bytes_at_app_mid n p q r :
  length q = n -> bytes_at (length p) n (p ++ q ++ r) = q.
Proof. intros <-. unfold bytes_at. rewrite drop_app_length. apply take_app_length. Qed.

Lemma length_bytes_at off n p :
  (off + n <= length p)%nat -> length (bytes_at off n p) = n.
Proof. intros H. unfold bytes_at. rewrite length_take, length_drop. lia. Qed.

Lemma length_bytes_at_le off n p : (length (bytes_at off n p) <= n)%nat.
Proof. unfold bytes_at. rewrite length_take. lia. Qed.

Lemma bytes_at_drop n off p : (length p - off <= n)%nat -> bytes_at off n p = drop off p.
Proof. intros H. apply take_ge. rewrite length_drop. lia. Qed.

Lemma bytes_at_ok off n p : bytes_ok p -> bytes_ok (bytes_at off n p).
Proof. intros H. apply Forall_take, Forall_drop, H. Qed.

Lemma memcmp_eq_refl n a : memcmp_eq n a a = true.
Proof. unfold memcmp_eq. by apply bool_decide_eq_true. Qed.

Lemma memcmp_eq_true n a b : memcmp_eq n a b = true <-> take n a = take n b.
Proof. unfold memcmp_eq. apply bool_decide_eq_true. Qed.

Lemma memcmp_eq_full n a b :
  length a = n -> length b = n -> memcmp_eq n a b = true <-> a = b.
Proof.
  intros <- Hb. rewrite memcmp_eq_true, firstn_all. rewrite <- Hb, firstn_all. done.
Qed.

Lemma memcmp_eq_sym n a b : memcmp_eq n a b = memcmp_eq n b a.
Proof. unfold memcmp_eq. apply bool_decide_ext. done. Qed.

Lemma length_zeros n : length (zeros n) = n.
Proof. apply length_replicate. Qed.

#[export] Hint Rewrite length_le_bytes length_zeros @length_app @length_take @length_drop : toxlen.

(** ** Search loops

    [first_index P l] is the loop "for i in 0..len-1: if P(l[i]) return i",
    which the sources use everywhere. *)

Fixpoint first_index_from {A} (P : A -> bool) (i : nat) (l : list A) : option nat :=
  match l with
  | [] => None
  | x :: r => if P x then Some i else first_index_from P (S i) r
  end.

Definition first_index {A} (P : A -> bool) (l : list A) : option nat :=
  first_index_from P 0 l.

Section first_index.
Context {A : Type} (P : A -> bool).

Lemma first_index_from_Some l i k :
  first_index_from P i l = Some k <->
  exists j x, k = (i + j)%nat /\ l !! j = Some x /\ P x = true /\
    forall j' y, (j' < j)%nat -> l !! j' = Some y -> P y = false.
Proof.
  revert i. induction l as [|x r IH]; intros i; simpl.
  { split; [done|]. intros (j & x & _ & H & _). by rewrite lookup_nil in H. }
  destruct (P x) eqn:E.
  - split.
    + intros [= <-]. exists 0%nat, x. split_and!; [lia|done|done|intros; lia].
    + intros ([|j] & y & -> & Hy & HP & Hlt); [f_equal; lia|].
      specialize (Hlt 0%nat x ltac:(lia) eq_refl). congruence.
  - rewrite IH. split.
    + intros (j & y & -> & Hy & HP & Hlt). exists (S j), y. split_and!; [lia|done|done|].
      intros [|j'] z Hj Hz; simpl in Hz; [congruence|]. apply (Hlt j'); auto. lia.
    + intros ([|j] & y & -> & Hy & HP & Hlt); simpl in Hy; [congruence|].
      exists j, y. split_and!; [lia|done|done|]. intros j' z Hj Hz. apply (Hlt (S j')); auto. lia.
Qed.

Lemma first_index_Some l k :
  first_index P l = Some k <->
  exists x, l !! k = Some x /\ P x = true /\
    forall j y, (j < k)%nat -> l !! j = Some y -> P y = false.
Proof.
  unfold first_index. rewrite first_index_from_Some. split.
  - intros (j & x & -> & H). by exists x.
  - intros (x & H). by exists k, x.
Qed.

Lemma first_index_from_None l i :
  first_index_from P i l = None <-> Forall (fun x => P x = false) l.
Proof.
  revert i. induction l as [|x r IH]; intros i; simpl; [split; [constructor|done]|].
  rewrite Forall_cons_iff. destruct (P x) eqn:E; [|rewrite IH]; naive_solver.
Qed.

Lemma first_index_None l :
  first_index P l = None <-> forall j x, l !! j = Some x -> P x = false.
Proof. unfold first_index. rewrite first_index_from_None. apply Forall_lookup. Qed.

Lemma first_index_lt l k : first_index P l = Some k -> (k < length l)%nat.
Proof. rewrite first_index_Some. intros (x & H & _). by apply lookup_lt_Some in H. Qed.
End first_index.

(** ** Case analysis on the boolean tests of the models *)

Ltac bool_to_prop :=
  repeat match goal with
  | H : (_ && _) = true |- _ => apply andb_true_iff in H as [? ?]
  | H : (_ || _) = false |- _ => apply orb_false_iff in H as [? ?]
  | H : (_ && _) = false |- _ => apply andb_false_iff in H
  | H : (_ || _) = true |- _ => apply orb_true_iff in H
  | H : negb _ = true |- _ => apply negb_true_iff in H
  | H : negb _ = false |- _ => apply negb_false_iff in H
  | H : (_ =? _) = true |- _ => apply Z.eqb_eq in H
  | H : (_ =? _) = false |- _ => apply Z.eqb_neq in H
  | H : (_ <? _) = true |- _ => apply Z.ltb_lt in H
  | H : (_ <? _) = false |- _ => apply Z.ltb_ge in H
  | H : (_ <=? _) = true |- _ => apply Z.leb_le in H
  | H : (_ <=? _) = false |- _ => apply Z.leb_gt in H
  | H : bool_decide _ = true |- _ => apply bool_decide_eq_true in H
  | H : bool_decide _ = false |- _ => apply bool_decide_eq_false in H
  end.

(** [case_if] splits the outermost conditional of the goal. *)
Ltac case_if :=
  match goal with
  | |- context [if ?b then _ else _] => destruct b eqn:?; bool_to_prop
  end.

Ltac case_in H :=
  match type of H with
  | context [if ?b then _ else _] => destruct b eqn:?; bool_to_prop
  end.

(** Changing an element that is there is writing the changed one. *)
Lemma alter_as_insert {A} (f : A -> A) i (l : list A) x :
  l !! i = Some x -> alter f i l = <[i := f x]> l.
Proof.
  intros Hx. apply list_eq. intros j. destruct (decide (i = j)) as [<-|Hij].
  - rewrite list_lookup_alter_eq, Hx, list_lookup_insert_eq by (by eapply lookup_lt_Some). done.
  - by rewrite list_lookup_alter_ne, list_lookup_insert_ne.
Qed.

(** ** Shrinking an array

    The loop "for (i = n; i != 0; --i) if (live(a[i - 1])) break;": the length left
    when the dead elements at the end are dropped. *)

Fixpoint shrink {A} (live : A -> bool) (l : list A) (i : nat) : nat :=
  match i with
  | O => O
  | S k =>
    match l !! k with
    | Some x => if live x then i else shrink live l k
    | None => shrink live l k
    end
  end.

Lemma shrink_le {A} (live : A -> bool) l i : (shrink live l i <= i)%nat.
Proof. induction i as [|i IH]; simpl; [lia|]. destruct (l !! i) as [x|]; [destruct (live x)|]; lia. Qed.

(** No live element is dropped. *)
Lemma shrink_keeps {A} (live : A -> bool) l i j x :
  (j < i)%nat -> l !! j = Some x -> live x = true -> (j < shrink live l i)%nat.
Proof.
  intros Hj Hx Hl. induction i as [|i IH]; [lia|]. simpl.
  destruct (decide (j = i)) as [->|]; [rewrite Hx, Hl; lia|].
  destruct (l !! i) as [y|]; [destruct (live y)|]; try lia; apply IH; lia.
Qed.

(** What is left ends in a live element. *)
Lemma shrink_last {A} (live : A -> bool) l i k :
  shrink live l i = S k -> exists x, l !! k = Some x /\ live x = true.
Proof.
  induction i as [|i IH]; simpl; [done|].
  destruct (l !! i) as [y|] eqn:E; [destruct (live y) eqn:El|]; auto.
  intros [= <-]. eauto.
Qed.
