(* ===== verification/MiscTools.v ===== *)
(** * misc_tools.h: the growable array and the generic quick sort

    [tox_array] is the array that Lossless_UDP keeps its connections in;
    [make_quick_sort] is the macro DHT.c instantiates at [ClientPair]. *)

From S2P Require Import Prelude.
From stdpp Require Import sorting.
Local Open Scope Z_scope.

(** ** tox_array

    [len] elements of [elem_size] bytes at [data]: a list of elements.  [realloc]
    may fail: its outcome is the argument [nomem]. *)

Section tox_array.
Context {A : Type}.

Record tox_array := mk_tox_array { ta_data : list A }.

Definition ta_len (arr : tox_array) : Z := Z.of_nat (length (ta_data arr)).

Definition tox_array_init : tox_array := mk_tox_array [].

Definition tox_array_delete (arr : tox_array) : tox_array := mk_tox_array [].

(** The callers test the value of [tox_array_push_ptr] against 0, which the
    failure path returns; the success path is the non-zero one.  [item] is what
    the new element holds: the pushed item, or, for a NULL item, whatever the
    memory [realloc] returned contains. *)
Definition tox_array_push_ptr (nomem : bool) (arr : tox_array) (item : A) : Z * tox_array :=
  if nomem then (0, arr) else (1, mk_tox_array (ta_data arr ++ [item])).

Definition tox_array_pop (nomem : bool) (arr : tox_array) (num : Z) : tox_array :=
  if num =? 0 then arr
  else if ta_len arr <? num then arr
  else if ta_len arr =? num then mk_tox_array []
  else if nomem then arr
  else mk_tox_array (take (Z.to_nat (ta_len arr - num)) (ta_data arr)).

(** Access by index; [None] outside of the array. *)
Definition tox_array_get (arr : tox_array) (i : Z) : option A :=
  if (0 <=? i) then ta_data arr !! Z.to_nat i else None.

Definition tox_array_set (arr : tox_array) (i : Z) (x : A) : tox_array :=
  mk_tox_array (<[Z.to_nat i := x]> (ta_data arr)).

Lemma tox_array_get_Some arr i x :
  tox_array_get arr i = Some x <-> 0 <= i /\ ta_data arr !! Z.to_nat i = Some x.
Proof.
  unfold tox_array_get. destruct (Z.leb_spec 0 i); [naive_solver|].
  split; [done|lia].
Qed.

Lemma tox_array_get_lt arr i : 0 <= i < ta_len arr -> is_Some (tox_array_get arr i).
Proof.
  unfold tox_array_get, ta_len. intros H. destruct (Z.leb_spec 0 i); [|lia].
  apply lookup_lt_is_Some. lia.
Qed.

Lemma tox_array_pop_prefix nomem arr num :
  exists n, ta_data (tox_array_pop nomem arr num) = take n (ta_data arr).
Proof.
  assert (forall l : list A, exists n, l = take n l) as H
    by (intros l; exists (length l); by rewrite firstn_all).
  unfold tox_array_pop. repeat case_if; [apply H|apply H|by exists 0%nat|apply H|by eexists].
Qed.
End tox_array.

Arguments tox_array : clear implicits.

(** ** Quick sort *)

(** What [cmpfn] must satisfy: -1, 0, 1 for less, equal and greater, in a total
    preorder. *)
Class CmpOrder {A} (cmp : A -> A -> Z) : Prop := {
  cmp_values x y : cmp x y = -1 \/ cmp x y = 0 \/ cmp x y = 1;
  cmp_refl x : cmp x x = 0;
  cmp_flip x y : cmp x y = - cmp y x;
  cmp_trans x y z : cmp x y <> 1 -> cmp y z <> 1 -> cmp x z <> 1
}.

Section quick_sort.
Context {A : Type} (cmp : A -> A -> Z).

(** The [while (_l_ <= _r_)] loop around the pivot value [p]. *)
Fixpoint partition_loop (fuel : nat) (p : A) (arr : list A) (l r : Z)
  : option (list A * Z * Z) :=
  match fuel with
  | O => None
  | S f =>
    if l <=? r then
      match arr !! Z.to_nat l, arr !! Z.to_nat r with
      | Some xl, Some xr =>
        if cmp xl p =? -1 then partition_loop f p arr (l + 1) r
        else if cmp xr p =? 1 then partition_loop f p arr l (r - 1)
        else partition_loop f p (<[Z.to_nat r := xl]> (<[Z.to_nat l := xr]> arr))
               (l + 1) (r - 1)
      | _, _ => None
      end
    else Some (arr, l, r)
  end.

(** The recursive function, on the array [arr] of length [n]. *)
Fixpoint quick_sort_rec (fuel : nat) (arr : list A) : option (list A) :=
  match fuel with
  | O => None
  | S f =>
    let n := length arr in
    if Z.of_nat n <? 2 then Some arr
    else
      match arr !! (n / 2)%nat with
      | None => None
      | Some p =>
        match partition_loop (S n) p arr 0 (Z.of_nat n - 1) with
        | None => None
        | Some (arr1, l, r) =>
          let k := Z.to_nat (r + 1) in
          match quick_sort_rec f (take k arr1) with
          | None => None
          | Some lpart =>
            let arr2 := lpart ++ drop k arr1 in
            match quick_sort_rec f (drop (Z.to_nat l) arr2) with
            | None => None
            | Some rpart => Some (take (Z.to_nat l) arr2 ++ rpart)
            end
          end
        end
      end
  end.

Definition quick_sort (arr : list A) : option (list A) :=
  quick_sort_rec (S (length arr)) arr.

Context `{!CmpOrder cmp}.

Let le (x y : A) : Prop := cmp x y <> 1.

Lemma cmp_le_total x y : le x y \/ le y x.
Proof. unfold le. pose proof (cmp_flip x y). lia. Qed.

(** Loop invariant: below [l] nothing is greater than the pivot, above [r]
    nothing is less; and either the pivot is still between the two or a swap
    has moved both ends. *)
Record part_inv (p : A) (arr0 arr : list A) (l r : Z) : Prop := {
  pi_perm : arr ≡ₚ arr0;
  pi_bounds : 0 <= l /\ r < Z.of_nat (length arr) /\ l <= r + 2;
  pi_low : forall k x, arr !! k = Some x -> Z.of_nat k < l -> le x p;
  pi_high : forall k x, arr !! k = Some x -> r < Z.of_nat k -> le p x;
  pi_pivot :
    (1 <= l /\ r <= Z.of_nat (length arr) - 2) \/
    (exists m, l <= Z.of_nat m <= r /\ arr !! m = Some p)
}.

Lemma part_inv_incr_l p arr0 arr l r x :
  part_inv p arr0 arr l r -> l <= r -> arr !! Z.to_nat l = Some x ->
  cmp x p = -1 -> part_inv p arr0 arr (l + 1) r.
Proof.
  intros [H1 H2 H3 H4 H5] Hlr Hx Hc. split; auto; [lia| |].
  - intros k y Hy Hk. destruct (decide (Z.of_nat k = l)) as [<-|]; [|apply (H3 k); auto; lia].
    rewrite Nat2Z.id in Hx. unfold le. simplify_eq. lia.
  - destruct H5 as [H5|(m & Hm & Hp)]; [left; lia|]. right. exists m. split; [|done].
    destruct (decide (Z.of_nat m = l)) as [<-|]; [|lia].
    rewrite Nat2Z.id in Hx. simplify_eq. rewrite cmp_refl in Hc. done.
Qed.

Lemma part_inv_decr_r p arr0 arr l r x :
  part_inv p arr0 arr l r -> l <= r -> arr !! Z.to_nat r = Some x ->
  cmp x p = 1 -> part_inv p arr0 arr l (r - 1).
Proof.
  intros [H1 H2 H3 H4 H5] Hlr Hx Hc. split; auto; [lia| |].
  - intros k y Hy Hk. destruct (decide (Z.of_nat k = r)) as [<-|]; [|apply (H4 k); auto; lia].
    rewrite Nat2Z.id in Hx. assert (y = x) as -> by congruence. unfold le. pose proof (cmp_flip p x). lia.
  - destruct H5 as [H5|(m & Hm & Hp)]; [left; lia|]. right. exists m. split; [|done].
    destruct (decide (Z.of_nat m = r)) as [<-|]; [|lia].
    rewrite Nat2Z.id in Hx. simplify_eq. rewrite cmp_refl in Hc. done.
Qed.

Lemma part_inv_swap p arr0 arr l r xl xr :
  part_inv p arr0 arr l r -> l <= r ->
  arr !! Z.to_nat l = Some xl -> arr !! Z.to_nat r = Some xr ->
  cmp xl p <> -1 -> cmp xr p <> 1 ->
  part_inv p arr0 (<[Z.to_nat r := xl]> (<[Z.to_nat l := xr]> arr)) (l + 1) (r - 1).
Proof.
  intros [H1 H2 H3 H4 H5] Hlr Hl Hr Hcl Hcr.
  assert (Hpl : le p xl) by (unfold le; pose proof (cmp_flip p xl); pose proof (cmp_values xl p); lia).
  split.
  - by rewrite Permutation_insert_swap.
  - rewrite !length_insert. lia.
  - intros k y Hy Hk. rewrite !list_lookup_insert_Some, length_insert in Hy.
    destruct Hy as [(<- & <- & ?)|(? & [(<- & <- & ?)|(? & Hy)])].
    + assert (l = r) as -> by lia. simplify_eq. done.
    + done.
    + apply (H3 k); auto. lia.
  - intros k y Hy Hk. rewrite !list_lookup_insert_Some, length_insert in Hy.
    destruct Hy as [(<- & <- & ?)|(? & [(<- & <- & ?)|(? & Hy)])].
    + done.
    + assert (l = r) as -> by lia. lia.
    + apply (H4 k); auto. lia.
  - rewrite !length_insert. left. lia.
Qed.

Lemma partition_loop_ok fuel p arr0 arr l r :
  part_inv p arr0 arr l r -> Z.max 0 (r - l + 1) < Z.of_nat fuel ->
  exists arr' l' r',
    partition_loop fuel p arr l r = Some (arr', l', r') /\
    part_inv p arr0 arr' l' r' /\ r' < l'.
Proof.
  revert arr l r. induction fuel as [|f IH]; intros arr l r Hinv Hf.
  { destruct Hinv as [_ ? _ _ _]. lia. }
  cbn [partition_loop]. destruct (Z.leb_spec l r) as [Hlr|]; [|by eauto 10].
  pose proof (pi_bounds _ _ _ _ _ Hinv) as Hb.
  destruct (lookup_lt_is_Some_2 arr (Z.to_nat l)) as [xl Hl]; [lia|].
  destruct (lookup_lt_is_Some_2 arr (Z.to_nat r)) as [xr Hr]; [lia|].
  rewrite Hl, Hr. destruct (Z.eqb_spec (cmp xl p) (-1)).
  { apply IH; [by eapply part_inv_incr_l|lia]. }
  destruct (Z.eqb_spec (cmp xr p) 1).
  { apply IH; [by eapply part_inv_decr_r|lia]. }
  apply IH; [by eapply part_inv_swap|lia].
Qed.

Lemma part_inv_init p arr :
  (2 <= length arr)%nat -> arr !! (length arr / 2)%nat = Some p ->
  part_inv p arr arr 0 (Z.of_nat (length arr) - 1).
Proof.
  intros Hlen Hp. split; [done|lia|intros; lia| |].
  - intros k x Hx Hk. apply lookup_lt_Some in Hx. lia.
  - right. exists (length arr / 2)%nat. split; [|done].
    apply lookup_lt_Some in Hp. lia.
Qed.

(** What the partition leaves: the array splits into a part that is not greater
    than the pivot, at most one element equal to it, and a part not less. *)
Lemma part_inv_exit p arr0 arr l r :
  part_inv p arr0 arr l r -> r < l ->
  0 <= l /\ 0 <= r + 1 /\ r + 1 < Z.of_nat (length arr) /\ l <= r + 2 /\
  1 <= l <= Z.of_nat (length arr).
Proof.
  intros [_ Hb _ _ Hp] Hlr. destruct Hp as [Hp|(m & Hm & _)]; lia.
Qed.

(** The elements of the three parts, by position. *)
Lemma part_inv_take p arr0 arr l r x k :
  part_inv p arr0 arr l r -> Z.of_nat k <= l -> x ∈ take k arr -> le x p.
Proof.
  intros [_ _ Hlow _ _] Hk Hx. apply list_elem_of_lookup in Hx as [i Hi].
  apply lookup_take_Some in Hi as [Hi ?]. apply (Hlow i); auto. lia.
Qed.

Lemma part_inv_drop p arr0 arr l r x k :
  part_inv p arr0 arr l r -> r < Z.of_nat k -> x ∈ drop k arr -> le p x.
Proof.
  intros [_ _ _ Hhigh _] Hk Hx. apply list_elem_of_lookup in Hx as [i Hi].
  rewrite lookup_drop in Hi. apply (Hhigh (k + i)%nat); auto. lia.
Qed.

Lemma Sorted_glue p l1 l2 :
  StronglySorted le l1 -> StronglySorted le l2 ->
  (forall x, x ∈ l1 -> le x p) -> (forall x, x ∈ l2 -> le p x) ->
  StronglySorted le (l1 ++ l2).
Proof.
  intros H1 H2 Hp1 Hp2. apply StronglySorted_app_2; auto.
  intros x y Hx Hy. apply (cmp_trans x p y); [by apply Hp1|by apply Hp2].
Qed.

Lemma StronglySorted_short (l : list A) : (length l < 2)%nat -> StronglySorted le l.
Proof.
  destruct l as [|x [|y l]]; simpl; [repeat constructor..|lia].
Qed.

Lemma quick_sort_rec_ok fuel arr :
  (length arr < fuel)%nat ->
  exists arr', quick_sort_rec fuel arr = Some arr' /\ arr' ≡ₚ arr /\ StronglySorted le arr'.
Proof.
  revert arr. induction fuel as [|f IH]; intros arr Hf; [lia|]. cbn [quick_sort_rec].
  destruct (Z.ltb_spec (Z.of_nat (length arr)) 2).
  { exists arr. split_and!; auto. apply StronglySorted_short. lia. }
  destruct (lookup_lt_is_Some_2 arr (length arr / 2)%nat) as [p Hp]; [apply Nat.div_lt; lia|]. rewrite Hp.
  destruct (partition_loop_ok (S (length arr)) p arr arr 0 (Z.of_nat (length arr) - 1))
    as (arr1 & l & r & -> & Hinv & Hlr); [apply part_inv_init; auto; lia|lia|].
  pose proof (part_inv_exit _ _ _ _ _ Hinv Hlr) as Hb.
  pose proof (pi_perm _ _ _ _ _ Hinv) as Hperm.
  pose proof (Permutation_length Hperm) as Hlen.
  set (k := Z.to_nat (r + 1)).
  destruct (IH (take k arr1)) as (lpart & -> & Hpl & Hsl).
  { rewrite length_take. lia. }
  assert (Hll : length lpart = k).
  { rewrite (Permutation_length Hpl), length_take. lia. }
  assert (Hdrop : drop (Z.to_nat l) (lpart ++ drop k arr1) = drop (Z.to_nat l) arr1).
  { rewrite drop_app_ge by lia. rewrite Hll, drop_drop. f_equal. lia. }
  assert (Htake : take (Z.to_nat l) (lpart ++ drop k arr1)
                  = lpart ++ take (Z.to_nat l - k) (drop k arr1)).
  { rewrite take_app_ge by lia. by rewrite Hll. }
  rewrite Hdrop, Htake.
  destruct (IH (drop (Z.to_nat l) arr1)) as (rpart & -> & Hpr & Hsr).
  { rewrite length_drop. lia. }
  eexists. split_and!; [done| |].
  - rewrite Hpl, Hpr, <- Hperm. rewrite <- (take_drop k arr1) at 4. rewrite <- app_assoc.
    f_equiv. rewrite <- (take_drop (Z.to_nat l - k) (drop k arr1)) at 2. f_equiv.
    rewrite drop_drop. by replace (k + (Z.to_nat l - k))%nat with (Z.to_nat l) by lia.
  - assert (Hmid : forall x, x ∈ take (Z.to_nat l - k) (drop k arr1) -> le x p /\ le p x).
    { intros x Hx. split.
      - apply (part_inv_take p arr arr1 l r x (Z.to_nat l)); [done|lia|].
        rewrite <- (take_drop k arr1), take_app_ge by (rewrite length_take; lia).
        apply elem_of_app. right. rewrite length_take.
        by replace (k `min` length arr1)%nat with k by lia.
      - apply (part_inv_drop p arr arr1 l r x k); [done|lia|].
        by eapply subseteq_take. }
    apply (Sorted_glue p); auto.
    + apply (Sorted_glue p); auto.
      * apply StronglySorted_short. rewrite length_take. lia.
      * intros x Hx. rewrite Hpl in Hx. by eapply (part_inv_take p _ arr1 l r x k); [|lia|].
      * intros x Hx. by apply Hmid.
    + intros x [Hx|Hx]%elem_of_app; [|by apply Hmid].
      rewrite Hpl in Hx. by eapply (part_inv_take p _ arr1 l r x k); [|lia|].
    + intros x Hx. rewrite Hpr in Hx. by eapply (part_inv_drop p _ arr1 l r x (Z.to_nat l)); [|lia|].
Qed.

Lemma quick_sort_ok arr :
  exists arr', quick_sort arr = Some arr' /\ arr' ≡ₚ arr /\ StronglySorted le arr'.
Proof. apply quick_sort_rec_ok. lia. Qed.
End quick_sort.

(** Sorting commutes with a change of representation of the elements. *)
Section quick_sort_map.
Context {A B : Type} (f : A -> B) (cmp : B -> B -> Z).

Lemma partition_loop_map fuel p arr l r :
  partition_loop cmp fuel (f p) (map f arr) l r =
  option_map (fun '(a, l, r) => (map f a, l, r))
    (partition_loop (fun x y => cmp (f x) (f y)) fuel p arr l r).
Proof.
  revert arr l r. induction fuel as [|n IH]; intros arr l r; simpl; [done|].
  case_if; [|done]. rewrite !list_lookup_fmap.
  destruct (arr !! Z.to_nat l) as [xl|]; [|done]. destruct (arr !! Z.to_nat r) as [xr|]; [|done].
  simpl fmap. cbn iota. case_if; [apply IH|]. case_if; [apply IH|].
  rewrite <- IH. by rewrite !list_fmap_insert.
Qed.

Lemma quick_sort_map arr :
  quick_sort cmp (map f arr) = option_map (map f) (quick_sort (fun x y => cmp (f x) (f y)) arr).
Proof.
  unfold quick_sort. rewrite length_map. generalize (S (length arr)). intros fuel. revert arr.
  induction fuel as [|n IH]; intros arr; cbn [quick_sort_rec]; [done|].
  rewrite length_map. case_if; [done|]. rewrite list_lookup_fmap.
  destruct (arr !! (length arr / 2)%nat) as [p|]; [|done]. simpl fmap. cbn iota.
  rewrite partition_loop_map. destruct (partition_loop _ _ _ _ _ _) as [[[arr1 l] r]|]; [|done].
  cbn [option_map]. rewrite firstn_map, IH.
  destruct (quick_sort_rec _ n (take _ arr1)) as [lp|]; [|done]. cbn [option_map].
  rewrite skipn_map, <- map_app, skipn_map, IH.
  destruct (quick_sort_rec _ n (drop _ _)) as [rp|]; [|done]. cbn [option_map].
  by rewrite firstn_map, map_app.
Qed.
End quick_sort_map.
