(* ===== verification/ToxList.v ===== *)
(** * misc_tools.h: the intrusive doubly linked list [tox_list]

    A [tox_list] is a pair of pointers embedded in a larger structure; a list is a ring
    of them through a head that holds no data.  The store maps the addresses of the
    [tox_list] members that exist to their contents; following a pointer to anything
    else is undefined behaviour, [None].  The operations follow the C code assignment by
    assignment, so that they are right about aliasing too (the head may be its own
    neighbour). *)

From S2P Require Import Prelude.
From stdpp Require Import gmap.
Local Open Scope Z_scope.

(** ** The operations *)

Record tox_list := mk_tox_list { prev : Z; next : Z }.

Abbreviation store := (gmap Z tox_list).

Definition load_prev (h : store) (a : Z) : option Z := prev <$> h !! a.
Definition load_next (h : store) (a : Z) : option Z := next <$> h !! a.
Definition store_prev (h : store) (a x : Z) : option store :=
  n ← h !! a; Some (<[a := mk_tox_list x (next n)]> h).
Definition store_next (h : store) (a x : Z) : option store :=
  n ← h !! a; Some (<[a := mk_tox_list (prev n) x]> h).

(** [GET_PARENT]: the structure a member belongs to, from the member's offset in it. *)
Definition GET_PARENT (x offset : Z) : Z := u64 (x - offset).

(** [&tmp->lst_name]: the member of a structure, at its offset. *)
Definition member (tmp offset : Z) : Z := u64 (tmp + offset).

Lemma member_parent x offset : is_u64 x -> member (GET_PARENT x offset) offset = x.
Proof. unfold member, GET_PARENT. uarith. Qed.

Definition tox_list_init (h : store) (lst : Z) : option store :=
  h1 ← store_next h lst lst; store_prev h1 lst lst.

Definition tox_list_add (h : store) (lst new_lst : Z) : option store :=
  h1 ← tox_list_init h new_lst;
  a ← load_next h1 lst;
  h2 ← store_next h1 new_lst a;
  b ← load_next h2 new_lst;
  h3 ← store_prev h2 b new_lst;
  h4 ← store_next h3 lst new_lst;
  store_prev h4 new_lst lst.

Definition tox_list_remove (h : store) (lst : Z) : option store :=
  n ← load_next h lst;
  p ← load_prev h lst;
  h1 ← store_next h p n;
  p' ← load_prev h1 lst;
  n' ← load_next h1 lst;
  store_prev h1 n' p'.

(** The loop of the two macros: [tox_tmp] runs from the neighbour of [lst] until it is [lst]
    again, and [tmp] is the structure it is a member of, at [offset].  [body] is the statement
    under the macro, which is given [tmp] and may change the store.  At the end, and from the
    start when the list is empty, [tmp] is no structure, only the result of the subtraction;
    the loop does not follow it, but the statements after it can see it, against which the
    comment on the macros warns. *)
Section for_each.
Context {S : Type} (offset : Z) (body : Z -> store * S -> option (store * S)) (step : store -> Z -> option Z).

Fixpoint list_loop (fuel : nat) (lst tox_tmp tmp : Z) (st : store * S) : option (store * S) :=
  if tox_tmp =? lst then Some st
  else
    match fuel with
    | O => None
    | Datatypes.S f =>
      st' ← body tmp st;
      t ← step (fst st') tox_tmp;
      list_loop f lst t (GET_PARENT t offset) st'
    end.

Definition list_walk (fuel : nat) (lst : Z) (st : store * S) : option (store * S) :=
  t ← step (fst st) lst; list_loop fuel lst t (GET_PARENT t offset) st.
End for_each.

Definition tox_list_for_each {S} (offset : Z) (body : Z -> store * S -> option (store * S)) :=
  list_walk offset body load_prev.
Definition tox_list_for_each_reverse {S} (offset : Z) (body : Z -> store * S -> option (store * S)) :=
  list_walk offset body load_next.

(** ** What a ring represents *)

(** From [p] through [xs] to [q]: each node points to its neighbours. *)
Fixpoint seg (h : store) (p : Z) (xs : list Z) (q : Z) : Prop :=
  match xs with
  | [] => load_next h p = Some q /\ load_prev h q = Some p
  | x :: r => load_next h p = Some x /\ load_prev h x = Some p /\ seg h x r q
  end.

(** The ring of head [lst] holds [xs], the node added last first. *)
Definition ring (h : store) (lst : Z) (xs : list Z) : Prop :=
  NoDup (lst :: xs) /\ seg h lst xs lst.

Lemma seg_app h p xs x ys q : seg h p (xs ++ x :: ys) q <-> seg h p xs x /\ seg h x ys q.
Proof. revert p. induction xs as [|y r IH]; intros p; simpl; [tauto|]. rewrite IH. tauto. Qed.

(** Only the [next] of the nodes before the end and the [prev] of those after the start
    matter. *)
Lemma seg_frame h h' p xs q :
  (forall a, a ∈ p :: xs -> load_next h' a = load_next h a) ->
  (forall a, a ∈ xs ++ [q] -> load_prev h' a = load_prev h a) ->
  seg h p xs q -> seg h' p xs q.
Proof.
  revert p. induction xs as [|x r IH]; intros p Hn Hp; simpl.
  - intros [H1 H2]. rewrite Hn, Hp by set_solver. done.
  - intros (H1 & H2 & H3). rewrite Hn, Hp by set_solver. split_and!; [done|done|].
    apply IH; [intros a Ha; apply Hn; set_solver|intros a Ha; apply Hp; set_solver|done].
Qed.

Lemma load_store_next h h' a x b :
  store_next h a x = Some h' ->
  load_next h' b = (if decide (a = b) then Some x else load_next h b) /\
  load_prev h' b = load_prev h b.
Proof.
  unfold store_next, load_next, load_prev. intros E.
  destruct (h !! a) as [n|] eqn:Ha; simplify_eq/=.
  destruct (decide (a = b)) as [->|Hne]; [by rewrite lookup_insert_eq, Ha|by rewrite lookup_insert_ne].
Qed.

Lemma load_store_prev h h' a x b :
  store_prev h a x = Some h' ->
  load_next h' b = load_next h b /\
  load_prev h' b = (if decide (a = b) then Some x else load_prev h b).
Proof.
  unfold store_prev, load_next, load_prev. intros E.
  destruct (h !! a) as [n|] eqn:Ha; simplify_eq/=.
  destruct (decide (a = b)) as [->|Hne]; [by rewrite lookup_insert_eq, Ha|by rewrite lookup_insert_ne].
Qed.

Lemma store_next_ok h a x y : load_next h a = Some y -> is_Some (store_next h a x).
Proof. unfold load_next, store_next. destruct (h !! a); [by eexists|done]. Qed.

Lemma store_prev_ok h a x y : load_prev h a = Some y -> is_Some (store_prev h a x).
Proof. unfold load_prev, store_prev. destruct (h !! a); [by eexists|done]. Qed.

(** Which nodes have their fields read: a node has both or none. *)
Lemma load_both h a x : load_next h a = Some x -> is_Some (load_prev h a).
Proof. unfold load_next, load_prev. destruct (h !! a); [by eexists|done]. Qed.

Lemma load_both' h a x : load_prev h a = Some x -> is_Some (load_next h a).
Proof. unfold load_next, load_prev. destruct (h !! a); [by eexists|done]. Qed.

(** The first and the last pointers of a segment. *)
Lemma seg_first h p xs q : seg h p xs q ->
  load_next h p = Some (default q (head xs)) /\ load_prev h (default q (head xs)) = Some p.
Proof. destruct xs; simpl; tauto. Qed.

Lemma seg_last h p xs q : seg h p xs q -> load_prev h q = Some (default p (last xs)).
Proof.
  revert p. induction xs as [|x r IH]; intros p; simpl; [tauto|]. intros (_ & _ & H).
  rewrite (IH _ H), last_cons. by destruct (last r).
Qed.

(** [fields h h' d]: [h'] differs from [h] by the [next] and [prev] pointers [d] gives. *)
Definition agree (h h' : store) (dn dp : Z -> option Z) : Prop :=
  forall b, load_next h' b = (match dn b with Some x => Some x | None => load_next h b end) /\
            load_prev h' b = (match dp b with Some x => Some x | None => load_prev h b end).

Lemma tox_list_init_spec h a :
  is_Some (h !! a) ->
  exists h', tox_list_init h a = Some h' /\
    agree h h' (fun b => if decide (a = b) then Some a else None)
               (fun b => if decide (a = b) then Some a else None).
Proof.
  intros [n Hn]. unfold tox_list_init, store_next, store_prev. rewrite Hn. simpl.
  rewrite lookup_insert_eq. simpl. eexists. split; [done|]. intros b. unfold load_next, load_prev.
  destruct (decide (a = b)) as [->|Hne]; [by rewrite !lookup_insert_eq|].
  by rewrite !lookup_insert_ne.
Qed.

(** Adding after [lst]: four pointers change. *)
Lemma tox_list_add_spec h lst new nx :
  lst <> new -> nx <> new -> is_Some (h !! new) -> load_next h lst = Some nx -> is_Some (h !! nx) ->
  exists h', tox_list_add h lst new = Some h' /\
    agree h h' (fun b => if decide (lst = b) then Some new else if decide (new = b) then Some nx else None)
               (fun b => if decide (new = b) then Some lst else if decide (nx = b) then Some new else None).
Proof.
  intros H1 H2 Hnew Hnx Hex. unfold tox_list_add.
  destruct (tox_list_init_spec h new Hnew) as (h1 & -> & A1). simpl.
  destruct (A1 lst) as [E1 _]. rewrite decide_False in E1 by done. rewrite E1, Hnx. simpl.
  destruct (A1 new) as [E2 E2']. rewrite decide_True in E2, E2' by done.
  destruct (store_next_ok h1 new nx new E2) as [h2 Hh2]. rewrite Hh2. simpl.
  pose proof (fun b => load_store_next _ _ _ _ b Hh2) as A2.
  destruct (A2 new) as [E3 _]. rewrite decide_True in E3 by done. rewrite E3. simpl.
  assert (exists y, load_prev h2 nx = Some y) as [y Hy].
  { destruct (A2 nx) as [_ ->], (A1 nx) as [_ ->]. rewrite decide_False by done.
    destruct Hex as [n Hn]. unfold load_prev. rewrite Hn. by eexists. }
  destruct (store_prev_ok h2 nx new y Hy) as [h3 Hh3]. rewrite Hh3. simpl.
  pose proof (fun b => load_store_prev _ _ _ _ b Hh3) as A3.
  assert (exists y, load_next h3 lst = Some y) as [y' Hy'].
  { destruct (A3 lst) as [-> _], (A2 lst) as [-> _]. rewrite decide_False by done. rewrite E1, Hnx. by eexists. }
  destruct (store_next_ok h3 lst new y' Hy') as [h4 Hh4]. rewrite Hh4. simpl.
  pose proof (fun b => load_store_next _ _ _ _ b Hh4) as A4.
  assert (exists y, load_prev h4 new = Some y) as [y2 Hy2].
  { destruct (A4 new) as [_ ->], (A3 new) as [_ ->]. rewrite decide_False by done.
    destruct (A2 new) as [_ ->]. rewrite E2'. by eexists. }
  destruct (store_prev_ok h4 new lst y2 Hy2) as [h5 Hh5]. rewrite Hh5. eexists. split; [done|].
  intros b. destruct (load_store_prev _ _ _ _ b Hh5) as [-> ->]. destruct (A4 b) as [-> ->].
  destruct (A3 b) as [-> ->], (A2 b) as [-> ->], (A1 b) as [-> ->].
  split; repeat case_decide; subst; done.
Qed.

(** Removing [x] between [p] and [n]: two pointers change, none of them in [x]. *)
Lemma tox_list_remove_spec h p x n :
  p <> x -> n <> x -> load_next h p = Some x -> load_prev h x = Some p ->
  load_next h x = Some n -> load_prev h n = Some x ->
  exists h', tox_list_remove h x = Some h' /\
    agree h h' (fun b => if decide (p = b) then Some n else None)
               (fun b => if decide (n = b) then Some p else None).
Proof.
  intros Hp Hn H1 H2 H3 H4. unfold tox_list_remove. rewrite H3, H2. simpl.
  destruct (store_next_ok h p n x H1) as [h1 Hh1]. rewrite Hh1. simpl.
  pose proof (fun b => load_store_next _ _ _ _ b Hh1) as A1.
  destruct (A1 x) as [E1 E2]. rewrite decide_False in E1 by done. rewrite E1, E2, H2, H3. simpl.
  destruct (A1 n) as [_ E3].
  destruct (store_prev_ok h1 n p x) as [h2 Hh2]; [by rewrite E3|]. rewrite Hh2.
  eexists. split; [done|]. intros b. destruct (load_store_prev _ _ _ _ b Hh2) as [-> ->].
  destruct (A1 b) as [-> ->]. split; repeat case_decide; subst; done.
Qed.

Lemma load_next_node h a x : load_next h a = Some x -> is_Some (h !! a).
Proof. unfold load_next. destruct (h !! a); [by eexists|done]. Qed.
Lemma load_prev_node h a x : load_prev h a = Some x -> is_Some (h !! a).
Proof. unfold load_prev. destruct (h !! a); [by eexists|done]. Qed.
Lemma load_node h a : is_Some (load_next h a) <-> is_Some (h !! a).
Proof. unfold load_next. destruct (h !! a); split; intros [? ?]; done || by eexists. Qed.

(** The nodes that exist stay the same. *)
Lemma agree_dom h h' dn dp : agree h h' dn dp -> forall a, is_Some (h !! a) -> is_Some (h' !! a).
Proof.
  intros A a Ha. apply load_node. destruct (A a) as [-> _]. apply load_node in Ha.
  destruct (dn a); [by eexists|done].
Qed.

Lemma ring_add h lst xs new :
  ring h lst xs -> new ∉ lst :: xs -> is_Some (h !! new) ->
  exists h', tox_list_add h lst new = Some h' /\ ring h' lst (new :: xs) /\
    (forall a, is_Some (h !! a) -> is_Some (h' !! a)) /\
    forall lst2 ys, ring h lst2 ys -> (forall a, a ∈ lst2 :: ys -> a ∉ new :: lst :: xs) -> ring h' lst2 ys.
Proof.
  intros [Hnd Hseg] Hnew Hex. destruct (seg_first _ _ _ _ Hseg) as [Hf Hb].
  set (nx := default lst (head xs)) in *.
  assert (Hin : nx ∈ lst :: xs) by (unfold nx; destruct xs; simpl; set_solver).
  destruct (tox_list_add_spec h lst new nx) as (h' & -> & A); [set_solver..|done|done|by eapply load_prev_node|].
  exists h'. split_and!; [done| |by eapply agree_dom|].
  - split; [apply NoDup_cons in Hnd as [? ?]; rewrite !NoDup_cons; set_solver|]. cbn [seg].
    destruct (A lst) as [-> _], (A new) as [E1 ->].
    rewrite !(decide_True _ _ eq_refl) in *. split_and!; [done|done|].
    rewrite decide_False in E1 by set_solver. unfold nx in *. clear Hf. destruct xs as [|x r]; simpl in *.
    + split; [done|]. destruct (A lst) as [_ ->]. rewrite decide_False, decide_True by set_solver. done.
    + split; [done|]. destruct (A x) as [_ ->]. rewrite decide_False, decide_True by set_solver. split; [done|].
      destruct Hseg as (_ & _ & Hseg). eapply seg_frame; [| |exact Hseg]; intros a Ha; destruct (A a) as [E E'].
      * rewrite E, !decide_False; [done| |]; intros <-; [set_solver|by apply NoDup_cons in Hnd as [? _]].
      * apply NoDup_cons in Hnd as [? [? _]%NoDup_cons].
        rewrite E', !decide_False; [done| |]; intros <-; set_solver.
  - intros lst2 ys [Hnd2 Hseg2] Hdis. split; [done|].
    eapply seg_frame; [| |exact Hseg2]; intros a Ha; destruct (A a) as [E E'];
      specialize (Hdis a); [rewrite E|rewrite E']; rewrite !decide_False by set_solver; done.
Qed.

Lemma ring_remove h lst xs x ys :
  ring h lst (xs ++ x :: ys) ->
  exists h', tox_list_remove h x = Some h' /\ ring h' lst (xs ++ ys) /\
    load_prev h' x = load_prev h x /\ load_next h' x = load_next h x /\
    (forall a, is_Some (h !! a) -> is_Some (h' !! a)) /\
    forall lst2 zs, ring h lst2 zs -> (forall a, a ∈ lst2 :: zs -> a ∉ lst :: xs ++ x :: ys) -> ring h' lst2 zs.
Proof.
  intros [Hnd Hseg]. apply seg_app in Hseg as [S1 S2].
  pose proof (seg_last _ _ _ _ S1) as Hp. destruct (seg_first _ _ _ _ S2) as [Hn Hn'].
  set (p := default lst (last xs)) in *. set (n := default lst (head ys)) in *.
  assert (Hpi : p ∈ lst :: xs).
  { unfold p. destruct (last xs) eqn:E; simpl; [|set_solver]. apply last_Some_elem_of in E. set_solver. }
  assert (Hni : n ∈ lst :: ys) by (unfold n; destruct ys; simpl; set_solver).
  assert (Hnd' : NoDup ((lst :: xs) ++ x :: ys)) by done.
  apply NoDup_app in Hnd' as (Hnd1 & Hdis & Hnd2). apply NoDup_cons in Hnd2 as [Hx Hnd2].
  assert (Hpn : load_next h p = Some x).
  { clear -S1. subst p. revert S1. generalize lst as p0. induction xs as [|y r IH]; intros p0; simpl; [tauto|].
    intros (_ & _ & H). specialize (IH _ H). rewrite last_cons. by destruct (last r). }
  destruct (tox_list_remove_spec h p x n) as (h' & -> & A); [set_solver| |done..|].
  { intros ->. apply elem_of_cons in Hni as [->|Hni]; [|done]. apply (Hdis lst); set_solver. }
  exists h'. destruct (A x) as [Ex Ex'].
  assert (Hnx : n <> x) by (intros E; rewrite E in Hni; apply elem_of_cons in Hni as [->|?]; [apply (Hdis lst)|]; set_solver).
  rewrite decide_False in Ex by set_solver. rewrite decide_False in Ex' by done. split_and!; [done| |done|done|by eapply agree_dom|].
  - split.
    { change (lst :: xs ++ ys) with ((lst :: xs) ++ ys). apply NoDup_app. split_and!; [done| |done].
      intros a Ha Hy. apply (Hdis a); [done|set_solver]. }
    assert (S2' : ys <> [] -> seg h' n (tail ys) lst).
    { intros Hne. destruct ys as [|y r]; [done|]. simpl in *. subst n. destruct S2 as (_ & _ & S2).
      eapply seg_frame; [| |exact S2]; intros a Ha; destruct (A a) as [E E'].
      - rewrite E, decide_False; [done|]. intros <-. apply (Hdis p); [done|]. by right.
      - rewrite E', decide_False; [done|]. intros ->. apply NoDup_cons in Hnd2 as [? ?].
        apply elem_of_app in Ha as [?|?]; [set_solver|]. apply (Hdis lst); set_solver. }
    assert (S1' : seg h' lst xs n).
    { clear S2'. destruct (A n) as [_ En], (A p) as [Ep _]. rewrite decide_True in En by done. rewrite decide_True in Ep by done.
      destruct (decide (xs = [])) as [->|Hne]; [subst p; by simpl|].
      destruct (exists_last Hne) as (r & z & ->). unfold p in *. rewrite last_snoc in *. simpl in *.
      apply seg_app in S1 as [S1 _]. apply seg_app. split; [|by simpl].
      change (lst :: r ++ [z]) with ((lst :: r) ++ [z]) in *. apply NoDup_app in Hnd1 as (? & Hz & _).
      eapply seg_frame; [| |exact S1]; intros a Ha; destruct (A a) as [E E'].
      - rewrite E, decide_False; [done|]. intros ->. apply (Hz a); set_solver.
      - rewrite E', decide_False; [done|]. intros ->. apply elem_of_cons in Hni as [->|Hni].
        + apply NoDup_cons in H as [? ?]. apply elem_of_app in Ha as [?|?]; [set_solver|]. apply (Hz lst); set_solver.
        + apply (Hdis a); set_solver. }
    destruct ys as [|y r]; [by rewrite app_nil_r|]. apply seg_app. split; [done|by apply S2'].
  - intros lst2 zs [Hnd3 Hseg3] Hd. split; [done|].
    eapply seg_frame; [| |exact Hseg3]; intros a Ha; destruct (A a) as [E E'];
      specialize (Hd a); [rewrite E|rewrite E']; rewrite !decide_False by set_solver; done.
Qed.

(** ** Walking *)

(** A body that notes the structures it is given. *)
Definition visit (tmp : Z) (st : store * list Z) : option (store * list Z) :=
  Some (fst st, snd st ++ [tmp]).

(** A body that removes the structure it is given, which the macros allow: a removed node
    keeps its pointers. *)
Definition visit_remove (offset tmp : Z) (st : store * list Z) : option (store * list Z) :=
  h ← tox_list_remove (fst st) (member tmp offset); Some (h, snd st ++ [tmp]).

(** The structures with the members [xs]. *)
Definition parents (offset : Z) (xs : list Z) : list Z := map (fun x => GET_PARENT x offset) xs.

Lemma walk_next off h lst p xs acc :
  seg h p xs lst -> lst ∉ xs ->
  exists t, load_next h p = Some t /\
    list_loop off visit load_next (length xs) lst t (GET_PARENT t off) (h, acc) = Some (h, acc ++ parents off xs).
Proof.
  revert p acc. induction xs as [|x r IH]; intros p acc; simpl.
  - intros [H _] _. exists lst. rewrite H, app_nil_r, Z.eqb_refl. done.
  - intros (H1 & H2 & H3) Hl. exists x. split; [done|].
    rewrite (proj2 (Z.eqb_neq x lst)) by set_solver.
    destruct (IH x (acc ++ [GET_PARENT x off]) H3) as (t & Ht & E); [set_solver|].
    rewrite Ht. simpl. rewrite E, <- app_assoc. done.
Qed.

Lemma walk_prev off h lst q xs acc :
  seg h lst xs q -> lst ∉ xs ->
  exists t, load_prev h q = Some t /\
    list_loop off visit load_prev (length xs) lst t (GET_PARENT t off) (h, acc)
      = Some (h, acc ++ parents off (rev xs)).
Proof.
  revert q acc. induction xs as [|x r IH] using rev_ind; intros q acc.
  - intros [_ H] _. exists lst. simpl. rewrite app_nil_r, Z.eqb_refl. done.
  - intros [S1 S2]%seg_app Hl. simpl in S2. exists x. split; [tauto|].
    rewrite length_app, Nat.add_comm. simpl. rewrite (proj2 (Z.eqb_neq x lst)) by set_solver.
    destruct (IH x (acc ++ [GET_PARENT x off]) S1) as (t & Ht & E); [set_solver|].
    rewrite Ht. simpl. rewrite E, rev_app_distr, <- app_assoc. done.
Qed.

Lemma walk_remove off h lst xs acc :
  ring h lst xs -> Forall is_u64 xs ->
  exists h', tox_list_for_each off (visit_remove off) (length xs) lst (h, acc) = Some (h', acc ++ parents off (rev xs)) /\
    ring h' lst [].
Proof.
  unfold tox_list_for_each, list_walk. simpl.
  revert h acc. induction xs as [|x r IH] using rev_ind; intros h acc Hr Hu.
  - exists h. pose proof Hr as [_ [_ H]]. rewrite H. simpl. by rewrite Z.eqb_refl, app_nil_r.
  - apply Forall_app in Hu as [Hu [Hx _]%Forall_cons].
    destruct (ring_remove h lst r x [] Hr) as (h1 & Hh1 & Hr1 & Hp & _ & _).
    rewrite app_nil_r in Hr1.
    destruct (IH h1 (acc ++ [GET_PARENT x off]) Hr1 Hu) as (h' & E & He). exists h'. split; [|done].
    destruct Hr as [Hnd [S1 S2]%seg_app]. simpl in S2. destruct S2 as [_ S2]. rewrite S2. simpl.
    rewrite length_app, Nat.add_comm. simpl.
    rewrite (proj2 (Z.eqb_neq x lst)) by (apply NoDup_cons in Hnd as [? ?]; set_solver).
    assert (Ev : visit_remove off (GET_PARENT x off) (h, acc) = Some (h1, acc ++ [GET_PARENT x off])).
    { unfold visit_remove. simpl. by rewrite member_parent, Hh1. }
    rewrite Ev. simpl. rewrite Hp, (seg_last _ _ _ _ S1). simpl.
    destruct Hr1 as [_ S1']. rewrite (seg_last _ _ _ _ S1') in E. simpl in E.
    rewrite E, rev_app_distr, <- app_assoc. done.
Qed.

(** ** The abstract list *)

Inductive list_op := Add (a : Z) | Remove (a : Z).

(** What a client may do: add a node that exists and is in no list, remove one that is in
    the list. *)
Definition spec_op (lst : Z) (nodes : list Z) (xs : list Z) (o : list_op) : option (list Z) :=
  match o with
  | Add a => if bool_decide (a ∈ nodes /\ a ∉ lst :: xs) then Some (a :: xs) else None
  | Remove a => if bool_decide (a ∈ xs) then Some (filter (fun b : Z => b <> a) xs) else None
  end.

Definition run_op (lst : Z) (h : store) (o : list_op) : option store :=
  match o with
  | Add a => tox_list_add h lst a
  | Remove a => tox_list_remove h a
  end.

Definition spec_ops (lst : Z) (nodes : list Z) (ops : list list_op) : option (list Z) :=
  foldl (fun xs o => xs ≫= fun xs => spec_op lst nodes xs o) (Some []) ops.

Definition run_ops (lst : Z) (h : store) (ops : list list_op) : option store :=
  foldl (fun h o => h ≫= fun h => run_op lst h o) (tox_list_init h lst) ops.

Lemma filter_remove (x : Z) xs ys :
  NoDup (xs ++ x :: ys) -> @eq (list Z) (filter (fun b : Z => b <> x) (xs ++ x :: ys)) (xs ++ ys).
Proof.
  assert (Hid : forall l : list Z, x ∉ l -> @eq (list Z) (filter (fun b : Z => b <> x) l) l).
  { induction l as [|y r IH]; intros Hx; [done|]. rewrite filter_cons_True by set_solver.
    rewrite IH by set_solver. done. }
  intros (_ & Hdis & [Hy _]%NoDup_cons)%NoDup_app.
  rewrite filter_app, filter_cons_False by tauto. rewrite !Hid; [done|done|].
  intros Hx. apply (Hdis x); set_solver.
Qed.

Lemma run_op_ok lst nodes h xs xs' o :
  (forall a, a ∈ nodes -> is_Some (h !! a)) -> ring h lst xs -> spec_op lst nodes xs o = Some xs' ->
  exists h', run_op lst h o = Some h' /\ ring h' lst xs' /\ (forall a, a ∈ nodes -> is_Some (h' !! a)).
Proof.
  intros Hn Hr. destruct o as [a|a]; simpl; case_bool_decide as Ha; intros [= <-].
  - destruct Ha as [Ha Hx]. destruct (ring_add h lst xs a) as (h' & -> & Hr' & Hd & _); [done|done|by apply Hn|].
    exists h'. split_and!; auto.
  - apply list_elem_of_split in Ha as (l1 & l2 & ->).
    destruct (ring_remove h lst l1 a l2 Hr) as (h' & -> & Hr' & _ & _ & Hd & _).
    exists h'. rewrite filter_remove by (destruct Hr as [[? ?]%NoDup_cons _]; done). split_and!; auto.
Qed.

Lemma run_ops_ok lst nodes h ops xs :
  (forall a, a ∈ lst :: nodes -> is_Some (h !! a)) -> spec_ops lst nodes ops = Some xs ->
  exists h', run_ops lst h ops = Some h' /\ ring h' lst xs /\ (forall a, a ∈ nodes -> is_Some (h' !! a)).
Proof.
  intros Hn. revert xs. induction ops as [|o r IH] using rev_ind; intros xs.
  - intros [= <-]. unfold run_ops. simpl. destruct (tox_list_init_spec h lst) as (h' & -> & A); [apply Hn; set_solver|].
    exists h'. split_and!; [done| |].
    + split; [apply NoDup_singleton|]. simpl. destruct (A lst) as [-> ->]. by rewrite decide_True.
    + intros a Ha. eapply agree_dom; [done|]. apply Hn. set_solver.
  - unfold spec_ops, run_ops. rewrite !foldl_app. simpl. fold (spec_ops lst nodes r). fold (run_ops lst h r).
    destruct (spec_ops lst nodes r) as [ys|] eqn:E; [|done]. simpl. intros Ho.
    destruct (IH ys eq_refl) as (h1 & -> & Hr & Hd). simpl. by apply (run_op_ok lst nodes h1 ys).
Qed.

(** Only nodes that exist are in the list. *)
Lemma spec_ops_nodes lst nodes ops xs : spec_ops lst nodes ops = Some xs -> forall a, a ∈ xs -> a ∈ nodes.
Proof.
  revert xs. induction ops as [|o r IH] using rev_ind; intros xs.
  - intros [= <-]. set_solver.
  - unfold spec_ops. rewrite foldl_app. simpl. fold (spec_ops lst nodes r).
    destruct (spec_ops lst nodes r) as [ys|]; [|done]. simpl. specialize (IH ys eq_refl).
    destruct o as [b|b]; simpl; case_bool_decide as Hb; intros [= <-] a Ha.
    + apply elem_of_cons in Ha as [->|Ha]; [tauto|by apply IH].
    + apply list_elem_of_filter in Ha as [_ Ha]. by apply IH.
Qed.

(** ** The contract of the list *)

(** C40: [tox_list] implements a list of structures.  Whatever sequence of additions and
    removals a client makes, as long as it adds only nodes that exist and are not in the
    list and removes only nodes that are in it, no operation follows a bad pointer;
    [tox_list_for_each] then visits exactly the structures that the nodes of the list are
    members of (at any offset), each once, in the order in which they were added,
    [tox_list_for_each_reverse] visits them the other way round, and a walk that removes every
    structure it is given is sound and leaves the list empty.  (Addresses are 64-bit numbers.) *)
Theorem tox_list_refines offset lst nodes h ops xs :
  Forall is_u64 nodes ->
  (forall a, a ∈ lst :: nodes -> is_Some (h !! a)) ->
  spec_ops lst nodes ops = Some xs ->
  exists h' h'', run_ops lst h ops = Some h' /\
    tox_list_for_each offset visit (length xs) lst (h', []) = Some (h', parents offset (rev xs)) /\
    tox_list_for_each_reverse offset visit (length xs) lst (h', []) = Some (h', parents offset xs) /\
    tox_list_for_each offset (visit_remove offset) (length xs) lst (h', []) = Some (h'', parents offset (rev xs)) /\
    tox_list_for_each offset visit 0 lst (h'', []) = Some (h'', []).
Proof.
  intros Hu Hn Hs. destruct (run_ops_ok lst nodes h ops xs Hn Hs) as (h' & Hrun & Hr & _).
  assert (Hux : Forall is_u64 xs).
  { rewrite Forall_forall in *. intros a Ha. by apply Hu, (spec_ops_nodes lst nodes ops xs Hs). }
  destruct (walk_remove offset h' lst xs [] Hr Hux) as (h'' & Hw & _ & He).
  exists h', h''. pose proof Hr as [[Hl _]%NoDup_cons Hseg].
  destruct (walk_prev offset h' lst lst xs [] Hseg Hl) as (t & Ht & E1).
  destruct (walk_next offset h' lst lst xs [] Hseg Hl) as (t' & Ht' & E2).
  destruct (walk_prev offset h'' lst lst [] [] He) as (t'' & Ht'' & E3); [set_solver|].
  split_and!; [done| | |done|]; unfold tox_list_for_each, tox_list_for_each_reverse, list_walk; simpl.
  - by rewrite Ht.
  - by rewrite Ht'.
  - by rewrite Ht''.
Qed.

Definition demo_store : store :=
  list_to_map (map (fun a => (a, mk_tox_list 0 0)) [16; 32; 48; 64]).

Lemma tox_list_refines_witness :
  exists h' h'', run_ops 16 demo_store [Add 32; Add 48; Add 64; Remove 48] = Some h' /\
    tox_list_for_each 8 visit 2 16 (h', []) = Some (h', [24; 56]) /\
    tox_list_for_each_reverse 8 visit 2 16 (h', []) = Some (h', [56; 24]) /\
    tox_list_for_each 8 (visit_remove 8) 2 16 (h', []) = Some (h'', [24; 56]) /\
    tox_list_for_each 8 visit 0 16 (h'', []) = Some (h'', []).
Proof.
  apply (tox_list_refines 8 16 [32; 48; 64] demo_store [Add 32; Add 48; Add 64; Remove 48] [64; 32]).
  - repeat constructor; by vm_compute.
  - intros a Ha. repeat (apply elem_of_cons in Ha as [->|Ha]; [by eexists|]). by apply elem_of_nil in Ha.
  - reflexivity.
Defined.
