(* ===== verification/Network.v ===== *)
(** * network.c, network.h and util.c: addresses, the outside world, the socket

    Every operation of the library runs in the monad [M]: it transforms the state
    [S] of its module and the [World], which holds what the C code reads from
    outside (clocks, random numbers, uninitialised memory, results of [realloc]
    and [sendto], datagrams waiting on the socket) and the datagrams it has sent.
    [None] is undefined behaviour of the C code, or a loop that does not end; a read past
    an array that the code makes on ordinary runs too is [over_read] instead. *)

From S2P Require Import Prelude.
From stdpp Require Import gmap.
Local Open Scope Z_scope.

(** ** Addresses *)

(** [IP_Port]: the 32-bit address, the port (both in network order) and the unused
    padding of the union. *)
Record IP_Port := mkIPP { ip : Z; port : Z; padding : Z }.

#[export] Instance IP_Port_eq_dec : EqDecision IP_Port.
Proof. solve_decision. Defined.

(** The [uint8[8]] member of the union. *)
Definition ipp_bytes (a : IP_Port) : list Z :=
  le_bytes 4 (ip a) ++ le_bytes 2 (port a) ++ le_bytes 2 (padding a).

Definition ipp_uint8 (a : IP_Port) (i : nat) : Z := nth i (ipp_bytes a) 0.

Definition ipp_of_bytes (l : list Z) : IP_Port :=
  mkIPP (le_val (bytes_at 0 4 l)) (le_val (bytes_at 4 2 l)) (le_val (bytes_at 6 2 l)).

Definition ipp_ok (a : IP_Port) : Prop :=
  is_u32 (ip a) /\ is_u16 (port a) /\ is_u16 (padding a).

Definition ipp_zero : IP_Port := mkIPP 0 0 0.

(** [ipp_eq] of util.c (and [ipport_equal] of DHT.c). *)
Definition ipp_eq (a b : IP_Port) : bool := (ip a =? ip b) && (port a =? port b).

Lemma ipp_eq_refl a : ipp_eq a a = true.
Proof. unfold ipp_eq. by rewrite !Z.eqb_refl. Qed.

Lemma ipp_eq_sym a b : ipp_eq a b = ipp_eq b a.
Proof. unfold ipp_eq. by rewrite (Z.eqb_sym (ip a)), (Z.eqb_sym (port a)). Qed.

Lemma ipp_eq_true a b : ipp_eq a b = true <-> ip a = ip b /\ port a = port b.
Proof. unfold ipp_eq. by rewrite andb_true_iff, !Z.eqb_eq. Qed.

Lemma ipp_eq_trans a b c : ipp_eq a b = true -> ipp_eq b c = ipp_eq a c.
Proof. rewrite ipp_eq_true. intros [H1 H2]. unfold ipp_eq. by rewrite H1, H2. Qed.

Lemma length_ipp_bytes a : length (ipp_bytes a) = 8%nat.
Proof. reflexivity. Qed.

Lemma ipp_of_to_bytes a : ipp_ok a -> ipp_of_bytes (ipp_bytes a) = a.
Proof.
  intros (H1 & H2 & H3). destruct a as [i p d]; simpl in *.
  unfold ipp_of_bytes, ipp_bytes. cbn [ip port padding].
  change (bytes_at 0 4 _) with (le_bytes 4 i).
  change (bytes_at 4 2 _) with (le_bytes 2 p).
  change (bytes_at 6 2 _) with (le_bytes 2 d).
  rewrite !le_val_bytes. f_equal; (by apply u32_small) || (by apply u16_small).
Qed.

(** ** The world *)

Record World := mkWorld {
  w_us : list Z;        (** readings of [current_time()], microseconds *)
  w_unix : list Z;      (** readings of [time(NULL)], seconds *)
  w_random : list Z;    (** results of [random_int()] *)
  w_rand : list Z;      (** results of [rand()] *)
  w_seed : list Z;      (** entropy of [crypto_box_keypair()] *)
  w_junk : list Z;      (** bytes read from memory nothing has written *)
  w_nomem : list bool;  (** allocations that fail *)
  w_senderr : list bool;(** calls of [sendto] that fail *)
  w_in : list (IP_Port * list Z);  (** datagrams waiting on the socket *)
  w_out : list (IP_Port * list Z)  (** datagrams sent, oldest first *)
}.

Definition set_us x w := mkWorld x (w_unix w) (w_random w) (w_rand w) (w_seed w)
  (w_junk w) (w_nomem w) (w_senderr w) (w_in w) (w_out w).
Definition set_unix x w := mkWorld (w_us w) x (w_random w) (w_rand w) (w_seed w)
  (w_junk w) (w_nomem w) (w_senderr w) (w_in w) (w_out w).
Definition set_random x w := mkWorld (w_us w) (w_unix w) x (w_rand w) (w_seed w)
  (w_junk w) (w_nomem w) (w_senderr w) (w_in w) (w_out w).
Definition set_rand x w := mkWorld (w_us w) (w_unix w) (w_random w) x (w_seed w)
  (w_junk w) (w_nomem w) (w_senderr w) (w_in w) (w_out w).
Definition set_seed x w := mkWorld (w_us w) (w_unix w) (w_random w) (w_rand w) x
  (w_junk w) (w_nomem w) (w_senderr w) (w_in w) (w_out w).
Definition set_junk x w := mkWorld (w_us w) (w_unix w) (w_random w) (w_rand w) (w_seed w)
  x (w_nomem w) (w_senderr w) (w_in w) (w_out w).
Definition set_nomem x w := mkWorld (w_us w) (w_unix w) (w_random w) (w_rand w) (w_seed w)
  (w_junk w) x (w_senderr w) (w_in w) (w_out w).
Definition set_senderr x w := mkWorld (w_us w) (w_unix w) (w_random w) (w_rand w) (w_seed w)
  (w_junk w) (w_nomem w) x (w_in w) (w_out w).
Definition set_in x w := mkWorld (w_us w) (w_unix w) (w_random w) (w_rand w) (w_seed w)
  (w_junk w) (w_nomem w) (w_senderr w) x (w_out w).
Definition set_out x w := mkWorld (w_us w) (w_unix w) (w_random w) (w_rand w) (w_seed w)
  (w_junk w) (w_nomem w) (w_senderr w) (w_in w) x.

(** A world with a still clock, no failures and an empty socket. *)
Definition still_world (us unix : Z) : World := mkWorld [us] [unix] [] [] [] [] [] [] [] [].

(** ** The monad *)

Definition M (S A : Type) : Type := S -> World -> option (A * S * World).

Section monad.
Context {S : Type}.

Definition retM {A} (a : A) : M S A := fun s w => Some (a, s, w).
Definition bindM {A B} (m : M S A) (k : A -> M S B) : M S B := fun s w =>
  match m s w with
  | Some (a, s', w') => k a s' w'
  | None => None
  end.
Definition ubM {A} : M S A := fun _ _ => None.
Definition getM : M S S := fun s w => Some (s, s, w).
Definition putM (s : S) : M S unit := fun _ w => Some (tt, s, w).
Definition modM (f : S -> S) : M S unit := fun s w => Some (tt, f s, w).
Definition liftO {A} (o : option A) : M S A :=
  match o with Some a => retM a | None => ubM end.
Definition worldM {A} (f : World -> A * World) : M S A := fun s w =>
  let '(a, w') := f w in Some (a, s, w').
Definition getW : M S World := fun s w => Some (w, s, w).

(** "for each x of l", in order. *)
Fixpoint forM {X} (l : list X) (f : X -> M S unit) : M S unit :=
  match l with
  | [] => retM tt
  | x :: r => bindM (f x) (fun _ => forM r f)
  end.
End monad.

Lemma bind_eval {S A B} (m : M S A) (k : A -> M S B) s w a s' w' :
  m s w = Some (a, s', w') -> bindM m k s w = k a s' w'.
Proof. unfold bindM. by intros ->. Qed.

Lemma bind_none {S A B} (m : M S A) (k : A -> M S B) s w : m s w = None -> bindM m k s w = None.
Proof. unfold bindM. by intros ->. Qed.

(** Running an operation of a component on the part of the state it lives in. *)
Definition zoom {S T A} (get : S -> T) (set : T -> S -> S) (m : M T A) : M S A := fun s w =>
  match m (get s) w with
  | Some (a, t, w') => Some (a, set t s, w')
  | None => None
  end.

Declare Scope tox_scope.
Delimit Scope tox_scope with tox.
Notation "x <- c ;; k" := (bindM c (fun x => k))
  (at level 100, c at next level, right associativity) : tox_scope.
Notation "c ;;; k" := (bindM c (fun _ => k))
  (at level 100, right associativity) : tox_scope.
Local Open Scope tox_scope.

(** ** Readings of the world *)

(** A clock keeps its last value when no later reading is scheduled. *)
Definition next_clock (l : list Z) : Z * list Z :=
  match l with
  | [] => (0, [])
  | [t] => (u64 t, [t])
  | t :: r => (u64 t, r)
  end.

Definition next_of {A} (d : A) (l : list A) : A * list A :=
  match l with
  | [] => (d, [])
  | x :: r => (x, r)
  end.

Section readings.
Context {S : Type}.

Definition current_time : M S Z :=
  worldM (fun w => let '(t, r) := next_clock (w_us w) in (t, set_us r w)).

(** [unix_time()] of network.h, [now()] of util.c. *)
Definition unix_time : M S Z :=
  worldM (fun w => let '(t, r) := next_clock (w_unix w) in (t, set_unix r w)).

Definition random_int : M S Z :=
  worldM (fun w => let '(x, r) := next_of 0 (w_random w) in (u32 x, set_random r w)).

(** [rand()] of the C library, RAND_MAX being 2^31 - 1. *)
Definition crand : M S Z :=
  worldM (fun w => let '(x, r) := next_of 0 (w_rand w) in (x mod 2147483648, set_rand r w)).

Definition entropy : M S Z :=
  worldM (fun w => let '(x, r) := next_of 0 (w_seed w) in (x, set_seed r w)).

(** One byte of memory that nothing has written. *)
Definition junk_byte : M S Z :=
  worldM (fun w => let '(x, r) := next_of 0 (w_junk w) in (u8 x, set_junk r w)).

Fixpoint junk_bytes (n : nat) : M S (list Z) :=
  match n with
  | O => retM []
  | Datatypes.S k => b <- junk_byte ;; r <- junk_bytes k ;; retM (b :: r)
  end.

(** A read past the end of an object, in the two places where the code makes one on ordinary
    runs ([free_connections], [handle_SYNC3]): undefined behaviour in C, taken here to find an
    arbitrary byte, so that theorems about what follows hold for whatever is found. *)
Definition over_read : M S Z := junk_byte.

Fixpoint over_reads (n : nat) : M S (list Z) :=
  match n with
  | O => retM []
  | Datatypes.S k => b <- over_read ;; r <- over_reads k ;; retM (b :: r)
  end.

(** Writing [data] to a local buffer of [size] bytes; past its end it is undefined
    behaviour. *)
Definition room (size : Z) (data : list Z) : M S unit :=
  if size <? Z.of_nat (length data) then ubM else retM tt.

(** Whether the next allocation fails. *)
Definition alloc_fails : M S bool :=
  worldM (fun w => let '(x, r) := next_of false (w_nomem w) in (x, set_nomem r w)).

(** [random_64b] of util.c. *)
Definition random_64b : M S Z :=
  r <- random_int ;;
  x <- random_int ;;
  retM (Z.lor (u64 (Z.shiftl r 32)) x).

(** [sendpacket]: [sendto] returns the length, or -1 and nothing is sent.  The
    socket is the one of the instance. *)
Definition sendpacket (ip_port : IP_Port) (data : list Z) : M S Z :=
  worldM (fun w =>
    let '(err, r) := next_of false (w_senderr w) in
    let w1 := set_senderr r w in
    if err then (-1, w1)
    else (Z.of_nat (length data), set_out (w_out w1 ++ [(ip_port, data)]) w1)).

Definition MAX_UDP_PACKET_SIZE : Z := 65507.

(** [receivepacket]: -1 ([None]) when nothing is waiting or the datagram is
    empty; the buffer takes at most [MAX_UDP_PACKET_SIZE] bytes. *)
Definition receivepacket : M S (option (IP_Port * list Z)) :=
  worldM (fun w =>
    match w_in w with
    | [] => (None, w)
    | (src, data) :: r =>
      let w1 := set_in r w in
      match take (Z.to_nat MAX_UDP_PACKET_SIZE) data with
      | [] => (None, w1)
      | d => (Some (src, d), w1)
      end
    end).
End readings.

(** ** Packet handlers *)

Definition NET_PACKET_PING_REQUEST : Z := 0.
Definition NET_PACKET_PING_RESPONSE : Z := 1.
Definition NET_PACKET_GET_NODES : Z := 2.
Definition NET_PACKET_SEND_NODES : Z := 3.
Definition NET_PACKET_HANDSHAKE : Z := 16.
Definition NET_PACKET_SYNC : Z := 17.
Definition NET_PACKET_DATA : Z := 18.
Definition NET_PACKET_CRYPTO : Z := 32.
Definition NET_PACKET_LAN_DISCOVERY : Z := 33.

(** The callbacks the library registers. *)
Inductive packet_handler :=
  | handle_ping_request_cb | handle_ping_response_cb
  | handle_getnodes_cb | handle_sendnodes_cb
  | handle_handshake_cb | handle_SYNC_cb | handle_data_cb
  | cryptopacket_handle_cb | handle_LANdiscovery_cb.

#[export] Instance packet_handler_eq_dec : EqDecision packet_handler.
Proof. solve_decision. Defined.

Record Networking_Core := mkNet { packethandlers : gmap Z packet_handler; sock : Z }.

(** The structure as [calloc] returns it; [new_networking] is in [Host]. *)
Definition net_zero : Networking_Core := mkNet ∅ 0.

Definition networking_registerhandler (net : Networking_Core) (byte : Z)
    (cb : packet_handler) : Networking_Core :=
  mkNet (<[u8 byte := cb]> (packethandlers net)) (sock net).

Section poll.
Context {S : Type} (handlers : S -> gmap Z packet_handler).
Context (dispatch : packet_handler -> IP_Port -> list Z -> M S unit).

(** The loop of [networking_poll]; each turn takes one datagram off the socket. *)
Fixpoint poll_loop (fuel : nat) : M S unit :=
  match fuel with
  | O => ubM
  | Datatypes.S f =>
    r <- receivepacket ;;
    match r with
    | None => retM tt
    | Some (src, data) =>
      if Z.of_nat (length data) <? 1 then poll_loop f
      else
        s <- getM ;;
        match handlers s !! nth 0 data 0 with
        | None => poll_loop f
        | Some cb => dispatch cb src data ;;; poll_loop f
        end
    end
  end.

Definition networking_poll : M S unit :=
  w <- getW ;; poll_loop (Datatypes.S (length (w_in w))).
End poll.

(** ** Weakest preconditions

    [wp m Q s w]: from [s] and [w], [m] runs without undefined behaviour, ends,
    and its result satisfies [Q].  [wlp] only speaks of the runs that end. *)

Definition wp {S A} (m : M S A) (Q : A -> S -> World -> Prop) (s : S) (w : World) : Prop :=
  match m s w with
  | Some (a, s', w') => Q a s' w'
  | None => False
  end.

Definition wlp {S A} (m : M S A) (Q : A -> S -> World -> Prop) (s : S) (w : World) : Prop :=
  match m s w with
  | Some (a, s', w') => Q a s' w'
  | None => True
  end.

Section wp.
Context {S : Type}.
Implicit Types (s : S) (w : World).

Lemma wp_ret {A} (a : A) Q s w : wp (retM a) Q s w = Q a s w.
Proof. done. Qed.

Lemma wp_bind {A B} (m : M S A) (k : A -> M S B) Q s w :
  wp (bindM m k) Q s w = wp m (fun a => wp (k a) Q) s w.
Proof. unfold wp, bindM. by destruct (m s w) as [[[??]?]|]. Qed.

Lemma wp_mono {A} (m : M S A) (P Q : A -> S -> World -> Prop) s w :
  wp m P s w -> (forall a s' w', P a s' w' -> Q a s' w') -> wp m Q s w.
Proof. unfold wp. destruct (m s w) as [[[??]?]|]; auto. Qed.

Lemma wlp_ret {A} (a : A) Q s w : wlp (retM a) Q s w = Q a s w.
Proof. done. Qed.

Lemma wlp_bind {A B} (m : M S A) (k : A -> M S B) Q s w :
  wlp (bindM m k) Q s w = wlp m (fun a => wlp (k a) Q) s w.
Proof. unfold wlp, bindM. by destruct (m s w) as [[[??]?]|]. Qed.

Lemma wlp_mono {A} (m : M S A) (P Q : A -> S -> World -> Prop) s w :
  wlp m P s w -> (forall a s' w', P a s' w' -> Q a s' w') -> wlp m Q s w.
Proof. unfold wlp. destruct (m s w) as [[[??]?]|]; auto. Qed.

Lemma wp_wlp {A} (m : M S A) Q s w : wp m Q s w -> wlp m Q s w.
Proof. unfold wp, wlp. by destruct (m s w) as [[[??]?]|]. Qed.

Lemma wp_Some {A} (m : M S A) Q s w :
  wp m Q s w <-> exists a s' w', m s w = Some (a, s', w') /\ Q a s' w'.
Proof.
  unfold wp. destruct (m s w) as [[[a s'] w']|].
  - split; [by eauto|]. by intros (?&?&?&[= -> -> ->]&?).
  - split; [done|]. by intros (?&?&?&?&?).
Qed.

(** What is known of the result of a run that has ended. *)
Lemma wlp_run {A} {m : M S A} {Q s w a s' w'} : m s w = Some (a, s', w') -> wlp m Q s w -> Q a s' w'.
Proof. unfold wlp. by intros ->. Qed.

(** A run that ends and keeps what it keeps if it ends. *)
Lemma wp_wlp_and {A} (m : M S A) P Q s w :
  wp m P s w -> wlp m Q s w -> wp m (fun a s' w' => P a s' w' /\ Q a s' w') s w.
Proof. unfold wp, wlp. by destruct (m s w) as [[[??]?]|]. Qed.

Lemma wlp_any {A} (m : M S A) (Q : A -> S -> World -> Prop) s w :
  (forall a s' w', Q a s' w') -> wlp m Q s w.
Proof. unfold wlp. by destruct (m s w) as [[[??]?]|]. Qed.

(** An invariant carried through a loop. *)
Lemma wlp_forM {X} (I : S -> World -> Prop) (f : X -> M S unit) l s w :
  (forall x s w, x ∈ l -> I s w -> wlp (f x) (fun _ => I) s w) ->
  I s w -> wlp (forM l f) (fun _ => I) s w.
Proof.
  revert s w. induction l as [|x r IH]; intros s w Hf HI; [done|].
  cbn [forM]. rewrite wlp_bind. eapply wlp_mono; [apply Hf; [by left|done]|].
  intros [] s' w' HI'. apply IH; [|done]. intros. apply Hf; [by right|done].
Qed.

Lemma wp_forM {X} (I : S -> World -> Prop) (f : X -> M S unit) l s w :
  (forall x s w, x ∈ l -> I s w -> wp (f x) (fun _ => I) s w) ->
  I s w -> wp (forM l f) (fun _ => I) s w.
Proof.
  revert s w. induction l as [|x r IH]; intros s w Hf HI; [done|].
  cbn [forM]. rewrite wp_bind. eapply wp_mono; [apply Hf; [by left|done]|].
  intros [] s' w' HI'. apply IH; [|done]. intros. apply Hf; [by right|done].
Qed.
End wp.

Lemma wp_zoom {S T A} (get : S -> T) (set : T -> S -> S) (m : M T A) Q s w :
  wp (zoom get set m) Q s w = wp m (fun a t w' => Q a (set t s) w') (get s) w.
Proof. unfold wp, zoom. by destruct (m (get s) w) as [[[??]?]|]. Qed.

Lemma wlp_zoom {S T A} (get : S -> T) (set : T -> S -> S) (m : M T A) Q s w :
  wlp (zoom get set m) Q s w = wlp m (fun a t w' => Q a (set t s) w') (get s) w.
Proof. unfold wlp, zoom. by destruct (m (get s) w) as [[[??]?]|]. Qed.

(** Rules for the primitive operations, when only the range of what they read
    matters. *)
Section primitive_rules.
Context {S : Type}.
Implicit Types (s : S) (w : World).

Lemma wp_get Q s w : wp getM Q s w = Q s s w.
Proof. done. Qed.
Lemma wp_mod (f : S -> S) Q s w : wp (modM f) Q s w = Q tt (f s) w.
Proof. done. Qed.
Lemma wp_put (s0 : S) Q s w : wp (putM s0) Q s w = Q tt s0 w.
Proof. done. Qed.
Lemma wp_liftO {A} (o : option A) Q s w :
  wp (liftO o) Q s w <-> exists a, o = Some a /\ Q a s w.
Proof. unfold wp. destruct o; simpl; naive_solver. Qed.

Lemma wp_world {A} (f : World -> A * World) Q s w :
  Q (fst (f w)) s (snd (f w)) -> wp (worldM f) Q s w.
Proof. unfold wp, worldM. by destruct (f w). Qed.

Lemma next_clock_u64 l : is_u64 (fst (next_clock l)).
Proof. destruct l as [|t [|t' r]]; simpl; auto with tox. uarith. Qed.

Lemma wp_current_time (Q : Z -> S -> World -> Prop) s w :
  (forall t w', is_u64 t -> Q t s w') -> wp current_time Q s w.
Proof.
  intros H. apply wp_world. pose proof (next_clock_u64 (w_us w)).
  destruct (next_clock (w_us w)). by apply H.
Qed.

Lemma wp_unix_time (Q : Z -> S -> World -> Prop) s w :
  (forall t w', is_u64 t -> Q t s w') -> wp unix_time Q s w.
Proof.
  intros H. apply wp_world. pose proof (next_clock_u64 (w_unix w)).
  destruct (next_clock (w_unix w)). by apply H.
Qed.

Lemma wp_random_int (Q : Z -> S -> World -> Prop) s w :
  (forall x w', is_u32 x -> Q x s w') -> wp random_int Q s w.
Proof. intros H. apply wp_world. destruct (next_of 0 (w_random w)). simpl. apply H. auto with tox. Qed.

Lemma wp_crand (Q : Z -> S -> World -> Prop) s w :
  (forall x w', 0 <= x < 2147483648 -> Q x s w') -> wp crand Q s w.
Proof. intros H. apply wp_world. destruct (next_of 0 (w_rand w)). simpl. apply H. lia. Qed.

Lemma wp_junk_byte (Q : Z -> S -> World -> Prop) s w :
  (forall x w', is_u8 x -> Q x s w') -> wp junk_byte Q s w.
Proof. intros H. apply wp_world. destruct (next_of 0 (w_junk w)). simpl. apply H. auto with tox. Qed.

Lemma wp_junk_bytes n (Q : list Z -> S -> World -> Prop) s w :
  (forall x w', length x = n -> bytes_ok x -> Q x s w') -> wp (junk_bytes n) Q s w.
Proof.
  revert Q s w. induction n as [|n IH]; intros Q s w H; cbn [junk_bytes].
  { rewrite wp_ret. apply H; [done|constructor]. }
  rewrite wp_bind. apply wp_junk_byte. intros b w1 Hb.
  rewrite wp_bind. apply IH. intros r w2 Hr Hok. rewrite wp_ret.
  apply H; [simpl; lia|by constructor].
Qed.

Lemma wp_over_read (Q : Z -> S -> World -> Prop) s w :
  (forall x w', is_u8 x -> Q x s w') -> wp over_read Q s w.
Proof. apply wp_junk_byte. Qed.

Lemma wp_over_reads n (Q : list Z -> S -> World -> Prop) s w :
  (forall x w', length x = n -> bytes_ok x -> Q x s w') -> wp (over_reads n) Q s w.
Proof. apply wp_junk_bytes. Qed.

Lemma wp_room size data (Q : unit -> S -> World -> Prop) s w :
  Z.of_nat (length data) <= size -> Q tt s w -> wp (room size data) Q s w.
Proof. intros H HQ. unfold room. by destruct (Z.ltb_spec size (Z.of_nat (length data))); [lia|]. Qed.

Lemma wlp_room size data (Q : unit -> S -> World -> Prop) s w :
  (Z.of_nat (length data) <= size -> Q tt s w) -> wlp (room size data) Q s w.
Proof.
  intros HQ. unfold room. destruct (Z.ltb_spec size (Z.of_nat (length data))); [done|]. by apply HQ.
Qed.

Lemma room_fits size data s w :
  Z.of_nat (length data) <= size -> room size data s w = Some (tt, s, w).
Proof. intros H. unfold room. by destruct (Z.ltb_spec size (Z.of_nat (length data))); [lia|]. Qed.

Lemma wp_alloc_fails (Q : bool -> S -> World -> Prop) s w :
  (forall x w', Q x s w') -> wp alloc_fails Q s w.
Proof. intros H. apply wp_world. by destruct (next_of false (w_nomem w)). Qed.

Lemma wp_entropy (Q : Z -> S -> World -> Prop) s w :
  (forall x w', Q x s w') -> wp entropy Q s w.
Proof. intros H. apply wp_world. by destruct (next_of 0 (w_seed w)). Qed.

Lemma wp_sendpacket ipp data (Q : Z -> S -> World -> Prop) s w :
  (forall r w', r = -1 \/ r = Z.of_nat (length data) -> Q r s w') ->
  wp (sendpacket ipp data) Q s w.
Proof.
  intros H. apply wp_world. destruct (next_of false (w_senderr w)) as [[] ?]; simpl; auto.
Qed.
End primitive_rules.

Lemma alloc_works {S} (s : S) w : w_nomem w = [] -> alloc_fails s w = Some (false, s, w).
Proof. intros Hw. unfold alloc_fails, worldM. rewrite Hw. simpl. by destruct w; simpl in *; subst. Qed.

(** [wp_step] and [wlp_step] run one operation of the goal. *)
Ltac wp_step :=
  lazymatch goal with
  | |- wp (bindM _ _) _ _ _ => rewrite wp_bind
  | |- wp (retM _) _ _ _ => rewrite wp_ret
  | |- wp getM _ _ _ => rewrite wp_get
  | |- wp (modM _) _ _ _ => rewrite wp_mod
  | |- wp (putM _) _ _ _ => rewrite wp_put
  | |- wp current_time _ _ _ => apply wp_current_time; intros
  | |- wp unix_time _ _ _ => apply wp_unix_time; intros
  | |- wp random_int _ _ _ => apply wp_random_int; intros
  | |- wp crand _ _ _ => apply wp_crand; intros
  | |- wp junk_byte _ _ _ => apply wp_junk_byte; intros
  | |- wp over_read _ _ _ => apply wp_over_read; intros
  | |- wp alloc_fails _ _ _ => apply wp_alloc_fails; intros
  | |- wp entropy _ _ _ => apply wp_entropy; intros
  | |- wp (sendpacket _ _) _ _ _ => apply wp_sendpacket; intros
  | |- wp (if ?b then _ else _) _ _ _ => destruct b eqn:?; bool_to_prop
  end.

Ltac wlp_step :=
  lazymatch goal with
  | |- wlp (bindM _ _) _ _ _ => rewrite wlp_bind
  | |- wlp (retM _) _ _ _ => rewrite wlp_ret
  | |- wlp (if ?b then _ else _) _ _ _ => destruct b eqn:?; bool_to_prop
  | |- wlp ubM _ _ _ => exact I
  | |- wlp _ _ _ _ => apply wp_wlp; wp_step
  end.

(** ** Reading random numbers and memory changes nothing that can be seen *)

(** The clock, the errors of the socket to come and the datagrams sent are as before. *)
Record same_io (w w' : World) : Prop := {
  si_unix : w_unix w' = w_unix w;
  si_senderr : w_senderr w' = w_senderr w;
  si_out : w_out w' = w_out w
}.

Lemma same_io_refl w : same_io w w.
Proof. done. Qed.

Lemma same_io_trans w1 w2 w3 : same_io w1 w2 -> same_io w2 w3 -> same_io w1 w3.
Proof. intros [] []. split; congruence. Qed.

Definition silent {S A} (m : M S A) : Prop :=
  forall s w a s' w', m s w = Some (a, s', w') -> s' = s /\ same_io w w'.

Lemma silent_ret {S A} (a : A) : silent (S := S) (retM a).
Proof. by intros s w ? ? ? [= <- <- <-]. Qed.

Lemma silent_bind {S A B} (m : M S A) (k : A -> M S B) :
  silent m -> (forall a, silent (k a)) -> silent (bindM m k).
Proof.
  intros Hm Hk s w b s' w'. unfold bindM. destruct (m s w) as [[[a s1] w1]|] eqn:E; [|done].
  intros E2. destruct (Hm _ _ _ _ _ E) as [-> H1]. destruct (Hk _ _ _ _ _ _ E2) as [-> H2].
  split; [done|by eapply same_io_trans].
Qed.

Lemma silent_world {S A} (f : World -> A * World) :
  (forall w, same_io w (snd (f w))) -> silent (S := S) (worldM f).
Proof. intros Hf s w a s' w'. unfold worldM. specialize (Hf w). destruct (f w). by intros [= <- <- <-]. Qed.

Lemma silent_random_int {S} : silent (random_int (S := S)).
Proof. apply silent_world. intros w. by destruct (next_of 0 (w_random w)). Qed.

Lemma silent_junk_byte {S} : silent (junk_byte (S := S)).
Proof. apply silent_world. intros w. by destruct (next_of 0 (w_junk w)). Qed.

Lemma silent_room {S} size data : silent (room (S := S) size data).
Proof. unfold room. destruct (size <? _); [done|]. apply silent_ret. Qed.

Create HintDb silent.
#[export] Hint Resolve silent_ret silent_bind silent_random_int silent_junk_byte silent_room : silent.

Lemma silent_junk_bytes {S} n : silent (junk_bytes (S := S) n).
Proof. induction n; cbn [junk_bytes]; auto with silent. Qed.
#[export] Hint Resolve silent_junk_bytes : silent.

Lemma silent_random_64b {S} : silent (random_64b (S := S)).
Proof. unfold random_64b. auto 10 with silent. Qed.

Lemma wp_silent {S A} (m : M S A) (Q : A -> S -> World -> Prop) s w :
  silent m -> wp m (fun a _ _ => forall w', same_io w w' -> Q a s w') s w -> wp m Q s w.
Proof.
  unfold wp. intros Hm. destruct (m s w) as [[[a s'] w']|] eqn:E; [|done].
  destruct (Hm _ _ _ _ _ E) as [-> Hio]. auto.
Qed.
