(* ===== verification/Host.v ===== *)
(** * The operating system as network.c and LAN_discovery.c use it

    [new_networking] opens the socket of an instance, [kill_networking] closes it, and
    [get_broadcast] asks the system for the broadcast address of an interface.  The
    system itself is not part of the program: what it answers is in the fields of [Host]
    below the line, over which the theorems quantify; what it keeps for the process (the
    sockets that are open and their options) is in the fields above. *)

From S2P Require Import Prelude Network.
From stdpp Require Import gmap.
Local Open Scope Z_scope.
Local Open Scope tox_scope.

(** A socket: its options and the address [bind] has given it. *)
Record Sock := mkSock { sk_broadcast : bool; sk_nonblock : bool; sk_bound : option IP_Port }.

Record Host := mkHost {
  at_startup_ran : Z;                   (** the global of network.c *)
  h_seeds : list Z;                     (** the arguments of [srandom] and [srand] *)
  h_socks : gmap Z Sock;                (** open sockets by descriptor *)
  (* ---- answers of the system ---- *)
  h_socket : list Z;                    (** results of [socket] *)
  h_setopt : bool;                      (** whether [setsockopt] and [fcntl] succeed *)
  h_bind : IP_Port -> bool;             (** whether [bind] succeeds *)
  h_ifconf : option (list (list Z));    (** SIOCGIFCONF: the names of the interfaces *)
  h_brdaddr : list Z -> option Z        (** SIOCGIFBRDADDR of an interface *)
}.

Definition set_ran x seeds h := mkHost x seeds (h_socks h) (h_socket h) (h_setopt h) (h_bind h)
  (h_ifconf h) (h_brdaddr h).
Definition set_socks x h := mkHost (at_startup_ran h) (h_seeds h) x (h_socket h) (h_setopt h)
  (h_bind h) (h_ifconf h) (h_brdaddr h).
Definition set_socket x h := mkHost (at_startup_ran h) (h_seeds h) (h_socks h) x (h_setopt h)
  (h_bind h) (h_ifconf h) (h_brdaddr h).

(** ** System calls *)

Definition sock_zero : Sock := mkSock false false None.

(** [socket]: a descriptor, or a negative number. *)
Definition sys_socket : M Host Z :=
  h <- getM ;;
  let '(fd, r) := next_of (-1) (h_socket h) in
  putM (set_socket r (if 0 <=? fd then set_socks (<[fd := sock_zero]> (h_socks h)) h else h)) ;;;
  retM fd.

Definition sys_setopt (f : Sock -> Sock) (fd : Z) : M Host unit :=
  modM (fun h => if h_setopt h then set_socks (alter f fd (h_socks h)) h else h).

Definition sys_bind (fd : Z) (addr : IP_Port) : M Host unit :=
  modM (fun h => if h_bind h addr
                 then set_socks (alter (fun s => mkSock (sk_broadcast s) (sk_nonblock s) (Some addr)) fd
                                   (h_socks h)) h
                 else h).

Definition sys_close (fd : Z) : M Host unit := modM (fun h => set_socks (delete fd (h_socks h)) h).

(** ** network.c *)

Definition at_startup : M Host Z :=
  h <- getM ;;
  if negb (at_startup_ran h =? 0) then retM 0
  else
    t1 <- current_time ;;
    t2 <- current_time ;;
    modM (fun h => set_ran 1 (h_seeds h ++ [u32 t1; u32 t2]) h) ;;;
    retM 0.

(** [None] is NULL.  The results of [setsockopt], [fcntl] and [bind] are not looked at. *)
Definition new_networking (ip port : Z) : M Host (option Networking_Core) :=
  r <- at_startup ;;
  if negb (r =? 0) then retM None
  else
    nomem <- alloc_fails ;;
    if (nomem : bool) then retM None
    else
      fd <- sys_socket ;;
      if fd <? 0 then retM None
      else
        sys_setopt (fun s => mkSock true (sk_nonblock s) (sk_bound s)) fd ;;;
        sys_setopt (fun s => mkSock (sk_broadcast s) true (sk_bound s)) fd ;;;
        sys_bind fd (mkIPP ip (htons port) 0) ;;;
        retM (Some (mkNet ∅ fd)).

Definition kill_networking (net : Networking_Core) : M Host unit := sys_close (sock net).

(** ** LAN_discovery.c *)

Definition MAX_INTERFACES : nat := 16.
Definition lo_name : list Z := [108; 111].

(** The array [i_faces] after SIOCGIFCONF: the entries the system did not fill are
    zero, so their names are empty; all of them are looked at. *)
Definition i_faces (names : list (list Z)) : list (list Z) :=
  take MAX_INTERFACES (names ++ replicate MAX_INTERFACES []).

Definition get_broadcast : M Host Z :=
  fd <- sys_socket ;;
  if fd <? 0 then retM 0
  else
    h <- getM ;;
    match h_ifconf h with
    | None => retM 0
    | Some names =>
      match first_index (fun n => negb (bool_decide (n = lo_name))) (i_faces names) with
      | None => sys_close fd ;;; retM 0
      | Some i =>
        match h_brdaddr h (nth i (i_faces names) []) with
        | None => retM 0
        | Some a => sys_close fd ;;; retM a
        end
      end
    end.

(** [None] for [get_broadcast] failing: the address of all ones. *)
Definition broadcast_ip : M Host Z :=
  a <- get_broadcast ;; retM (if a =? 0 then 4294967295 else a).

(** ** Rules *)

Lemma wp_at_startup Q h w :
  (forall x seeds w', Q 0 (set_ran x seeds h) w') -> wp at_startup Q h w.
Proof.
  intros HQ. unfold at_startup. repeat wp_step; [|apply HQ].
  specialize (HQ (at_startup_ran h) (h_seeds h) w). by destruct h.
Qed.

(** The socket [new_networking] makes, as far as the system lets it. *)
Definition opened (h : Host) (ip port : Z) : Sock :=
  mkSock (h_setopt h) (h_setopt h)
    (if h_bind h (mkIPP ip (htons port) 0) then Some (mkIPP ip (htons port) 0) else None).

(** [new_networking] returns NULL, with no socket open that was not open before, or an
    instance without handlers on a new socket. *)
Lemma wp_new_networking ip port Q h w :
  (forall h' w', h_socks h' = h_socks h -> Q None h' w') ->
  (forall fd h' w', head (h_socket h) = Some fd -> 0 <= fd ->
     h_socks h' = <[fd := opened h ip port]> (h_socks h) -> Q (Some (mkNet ∅ fd)) h' w') ->
  wp (new_networking ip port) Q h w.
Proof.
  intros H0 H1. unfold new_networking. wp_step. apply wp_at_startup. intros x seeds w1. simpl.
  wp_step. apply wp_alloc_fails. intros [] w2; [wp_step; by apply H0|]. wp_step. unfold sys_socket. do 2 wp_step.
  unfold next_of. destruct (h_socket (set_ran x seeds h)) as [|fd r] eqn:E; simpl in E.
  { do 3 wp_step. wp_step; [wp_step; by apply H0|lia]. }
  do 3 wp_step. wp_step; [wp_step; apply H0; case_match; [lia|done]|].
  unfold sys_setopt, sys_bind. repeat wp_step. apply H1; [by rewrite E|lia|].
  replace (0 <=? fd) with true by lia. unfold opened. cbn.
  destruct (h_setopt h) eqn:Es; cbn; rewrite ?Es; cbn; destruct (h_bind h _) eqn:Eb; cbn;
    by rewrite ?alter_insert_eq.
Qed.
