(* ===== verification/Hex.v ===== *)
(** * Keys as text: other/ and testing/misc_tools.c

    The bootstrap programs and the signing tool print keys in base 16 and read them back
    with [sscanf].  A C string is found in memory, a list of bytes: it runs to the first
    zero byte, and looking for that byte beyond the memory that exists is undefined
    behaviour. *)

From S2P Require Import Prelude Network.
Local Open Scope Z_scope.
Local Open Scope tox_scope.

(** ** C strings and conversions of the C library *)

Fixpoint until_zero (l : list Z) : option (list Z) :=
  match l with
  | [] => None
  | b :: r => if b =? 0 then Some [] else cons b <$> until_zero r
  end.

(** The string at [mem + pos]. *)
Definition c_string (mem : list Z) (pos : nat) : option (list Z) := until_zero (drop pos mem).

Definition is_space (b : Z) : bool := (b =? 32) || ((9 <=? b) && (b <=? 13)).

Definition hex_digit (b : Z) : option Z :=
  if (48 <=? b) && (b <=? 57) then Some (b - 48)
  else if (65 <=? b) && (b <=? 70) then Some (b - 55)
  else if (97 <=? b) && (b <=? 102) then Some (b - 87)
  else None.

Fixpoint skip_space (s : list Z) : list Z :=
  match s with
  | b :: r => if is_space b then skip_space r else s
  | [] => []
  end.

(** The value of the hexadecimal digits at the start, and how many there are. *)
Fixpoint hex_value (acc : Z) (n : nat) (s : list Z) : Z * nat :=
  match s with
  | b :: r => match hex_digit b with
              | Some d => hex_value (16 * acc + d) (S n) r
              | None => (acc, n)
              end
  | [] => (acc, n)
  end.

(** [sscanf] with "%<w>x": white space, then in at most [w] characters a sign, the
    prefix 0x and digits; [None] when there are no digits and nothing is assigned. *)
Definition scan_hex (w : nat) (s : list Z) : option Z :=
  let s := take w (skip_space s) in
  let '(neg, s) := match s with
                   | b :: r => if b =? 45 then (true, r) else if b =? 43 then (false, r) else (false, s)
                   | [] => (false, s)
                   end in
  let s := match s with
           | a :: b :: r => if (a =? 48) && ((b =? 120) || (b =? 88)) then r else s
           | _ => s
           end in
  match hex_value 0 0 s with
  | (_, O) => None
  | (v, _) => Some (if neg : bool then - v else v)
  end.

(** A digit of [printf]'s "%X". *)
Definition hex_char (d : Z) : Z := if d <? 10 then 48 + d else 55 + d.

(** "%hhX": no leading zero. *)
Definition printf_hhX (b : Z) : list Z :=
  if b <? 16 then [hex_char b] else [hex_char (b / 16); hex_char (b mod 16)].

(** ** The programs' own conversions *)

(** One turn: [sscanf(pos, "%2hhx", &val[i])]. *)
Definition hex_turn (mem : list Z) (val : list Z) (i : nat) : option (list Z) :=
  s ← c_string mem (2 * i);
  Some (match scan_hex 2 s with Some v => <[i := u8 v]> val | None => val end).

Fixpoint hex_turns (mem : list Z) (val : list Z) (l : list nat) : option (list Z) :=
  match l with
  | [] => Some val
  | i :: r => val' ← hex_turn mem val i; hex_turns mem val' r
  end.

(** The loop runs once per character, although each turn takes two. *)
Definition hex_string_to_bin {S} (mem : list Z) : M S (list Z) :=
  s <- liftO (c_string mem 0) ;;
  nomem <- alloc_fails ;;
  val <- junk_bytes (length s) ;;
  if (nomem : bool) && negb (length s =? 0)%nat then ubM
  else liftO (hex_turns mem val (seq 0 (length s))).

(** One turn of [b16_to_key]; [num1] and [num2] keep their values when nothing is read. *)
Definition b16_turn (mem : list Z) (st : Z * Z * list Z) (i : nat) : option (Z * Z * list Z) :=
  let '(num1, num2, key) := st in
  s1 ← c_string mem (2 * i);
  let num1 := default num1 (scan_hex 1 s1) in
  s2 ← c_string mem (2 * i + 1);
  let num2 := default num2 (scan_hex 1 s2) in
  let num1 := u32 (Z.shiftl num1 4) in
  Some (num1, num2, <[i := u8 (Z.lor (u8 (Z.lor (nth i key 0) num1)) num2)]> key).

Fixpoint b16_turns (mem : list Z) (st : Z * Z * list Z) (l : list nat) : option (Z * Z * list Z) :=
  match l with
  | [] => Some st
  | i :: r => st' ← b16_turn mem st i; b16_turns mem st' r
  end.

Definition b16_to_key (b16_string bs_pubkey : list Z) : option (list Z) :=
  snd <$> b16_turns b16_string (0, 0, bs_pubkey) (seq 0 32).

(** How the daemon prints its key: the two halves of each byte. *)
Definition print_key (key : list Z) : list Z :=
  flat_map (fun b => [hex_char (Z.shiftr (Z.land 240 b) 4); hex_char (Z.land 15 b)]) key.

(** How DHT_bootstrap.c prints its key: on the screen, and in PUBLIC_ID.txt. *)
Definition print_key_screen (key : list Z) : list Z :=
  flat_map (fun b => (if b <? 16 then [48] else []) ++ printf_hhX b) key.
Definition print_key_file (key : list Z) : list Z := flat_map printf_hhX key.

(** ** Lemmas *)

(** The text of a key, two digits per byte. *)
Definition key_text (key : list Z) : list Z :=
  flat_map (fun b => [hex_char (b / 16); hex_char (b mod 16)]) key.

Lemma hex_char_range d : 0 <= d < 16 -> 48 <= hex_char d <= 70.
Proof. intros. unfold hex_char. destruct (Z.ltb_spec d 10); lia. Qed.

Lemma hex_digit_char d : 0 <= d < 16 -> hex_digit (hex_char d) = Some d.
Proof.
  intros. unfold hex_digit, hex_char. destruct (Z.ltb_spec d 10).
  - rewrite (proj2 (Z.leb_le 48 (48 + d))), (proj2 (Z.leb_le (48 + d) 57)) by lia. simpl. f_equal. lia.
  - rewrite (proj2 (Z.leb_gt (55 + d) 57)), andb_false_r by lia.
    rewrite (proj2 (Z.leb_le 65 (55 + d))), (proj2 (Z.leb_le (55 + d) 70)) by lia. simpl. f_equal. lia.
Qed.

Lemma key_text_length key : length (key_text key) = (2 * length key)%nat.
Proof. induction key; simpl; [done|]. unfold key_text in *. lia. Qed.

Lemma byte_digits b : is_u8 b -> 0 <= b / 16 < 16 /\ 0 <= b mod 16 < 16.
Proof. unfold is_u8. lia. Qed.

Lemma print_key_text key : bytes_ok key -> print_key key = key_text key.
Proof.
  intros Hk. unfold print_key, key_text. induction Hk as [|b r Hb _ IH]; [done|]. cbn [flat_map]. rewrite IH.
  f_equal. f_equal.
  - f_equal. change 240 with (Z.shiftl (Z.ones 4) 4). rewrite Z.shiftr_land, Z.shiftr_shiftl_l by lia.
    simpl (4 - 4). rewrite Z.shiftl_0_r, Z.land_comm, Z.land_ones, Z.shiftr_div_pow2 by lia.
    apply Z.mod_small. unfold is_u8 in Hb. lia.
  - change 15 with (Z.ones 4). by rewrite Z.land_comm, Z.land_ones.
Qed.

Lemma print_key_screen_text key : bytes_ok key -> print_key_screen key = key_text key.
Proof.
  intros Hk. unfold print_key_screen, key_text. induction Hk as [|b r Hb _ IH]; [done|]. cbn [flat_map].
  rewrite IH. f_equal. unfold printf_hhX. unfold is_u8 in Hb. destruct (Z.ltb_spec b 16); [|done].
  by rewrite Z.div_small, (Z.mod_small b) by lia.
Qed.

(** Text of digits contains no zero byte. *)
Lemma until_zero_app s r : Forall (fun b => b <> 0) s -> until_zero (s ++ 0 :: r) = Some s.
Proof.
  induction 1 as [|b s Hb _ IH]; [done|]. simpl. rewrite (proj2 (Z.eqb_neq b 0)), IH by done. done.
Qed.

Lemma key_text_nonzero key : bytes_ok key -> Forall (fun b => b <> 0) (key_text key).
Proof.
  intros Hk. unfold key_text. induction Hk as [|b r Hb _ IH]; [constructor|]. cbn [flat_map app].
  destruct (byte_digits b Hb) as [H1 H2].
  pose proof (hex_char_range _ H1). pose proof (hex_char_range _ H2).
  constructor; [lia|]. constructor; [lia|done].
Qed.

(** The string that starts at a position of the text. *)
Lemma c_string_text key rest pos :
  bytes_ok key -> (pos <= length (key_text key))%nat ->
  c_string (key_text key ++ 0 :: rest) pos = Some (drop pos (key_text key)).
Proof.
  intros Hk Hp. unfold c_string. rewrite drop_app_le by done.
  apply until_zero_app, Forall_drop. by apply key_text_nonzero.
Qed.

Lemma drop_key_text key i b :
  key !! i = Some b ->
  drop (2 * i) (key_text key) = hex_char (b / 16) :: hex_char (b mod 16) :: drop (2 * S i) (key_text key).
Proof.
  revert i. induction key as [|c r IH]; intros i; [done|]. destruct i as [|i]; simpl.
  - by intros [= <-].
  - intros Hi. replace (i + S (i + 0))%nat with (S (2 * i)) by lia. cbn [drop].
    rewrite (IH i Hi). do 2 f_equal. f_equal. lia.
Qed.

Lemma is_space_char d : 0 <= d < 16 -> is_space (hex_char d) = false.
Proof.
  intros Hd. pose proof (hex_char_range d Hd). unfold is_space.
  rewrite (proj2 (Z.eqb_neq _ 32)), (proj2 (Z.leb_gt _ 13)) by lia. by rewrite andb_false_r.
Qed.

(** Digits are not taken for a sign or a prefix. *)
Lemma scan_hex_one d s : 0 <= d < 16 -> scan_hex 1 (hex_char d :: s) = Some d.
Proof.
  intros Hd. pose proof (hex_char_range d Hd). pose proof (is_space_char d Hd) as Hs.
  pose proof (hex_digit_char d Hd) as Hx. revert Hs Hx. generalize dependent (hex_char d). intros x Hr Hs Hx.
  unfold scan_hex. simpl. rewrite Hs. simpl. rewrite (proj2 (Z.eqb_neq x 45)), (proj2 (Z.eqb_neq x 43)) by lia.
  rewrite take_0. simpl. by rewrite Hx.
Qed.

Lemma scan_hex_two a b s :
  0 <= a < 16 -> 0 <= b < 16 -> scan_hex 2 (hex_char a :: hex_char b :: s) = Some (16 * a + b).
Proof.
  intros Ha Hb. pose proof (hex_char_range a Ha) as Ra. pose proof (is_space_char a Ha) as Hs.
  pose proof (hex_digit_char a Ha) as Hx. pose proof (hex_char_range b Hb) as Rb.
  pose proof (hex_digit_char b Hb) as Hy.
  revert Ra Hs Hx Rb Hy. generalize (hex_char a) (hex_char b). intros x y Ra Hs Hx Rb Hy.
  unfold scan_hex. simpl. rewrite Hs. simpl.
  rewrite (proj2 (Z.eqb_neq x 45)), (proj2 (Z.eqb_neq x 43)) by lia.
  rewrite (proj2 (Z.eqb_neq y 120)), (proj2 (Z.eqb_neq y 88)), andb_false_r by lia.
  rewrite take_0. simpl. rewrite Hx. simpl. rewrite Hy. reflexivity.
Qed.

(** ** Reading a key back *)

Lemma b16_turns_text key rest i n num1 num2 done_ :
  bytes_ok key -> length done_ = i -> (i + n <= length key)%nat ->
  exists st, b16_turns (key_text key ++ 0 :: rest) (num1, num2, done_ ++ zeros n) (seq i n) = Some st /\
    snd st = done_ ++ take n (drop i key).
Proof.
  intros Hk. revert i num1 num2 done_. induction n as [|n IH]; intros i num1 num2 dn Hd Hn.
  { eexists. split; [reflexivity|]. simpl. by rewrite take_0. }
  destruct (lookup_lt_is_Some_2 key i) as [b Hb]; [lia|].
  assert (Hu : is_u8 b) by (eapply Forall_lookup_1; eassumption).
  destruct (byte_digits b Hu) as [H1 H2]. cbn [seq b16_turns]. unfold b16_turn.
  rewrite !c_string_text by (try done; rewrite key_text_length; lia).
  rewrite (drop_key_text key i b Hb).
  replace (drop (2 * i + 1) (key_text key)) with (hex_char (b mod 16) :: drop (2 * S i) (key_text key)).
  2: { rewrite <- drop_drop, (drop_key_text key i b Hb). reflexivity. }
  cbn [mbind option_bind]. rewrite !scan_hex_one by done. cbn [default from_option id].
  assert (Hv : u8 (Z.lor (u8 (Z.lor (nth i (dn ++ zeros (S n)) 0) (u32 (Z.shiftl (b / 16) 4)))) (b mod 16)) = b).
  { replace (nth i (dn ++ zeros (S n)) 0) with 0 by (by rewrite nth_lookup, lookup_app_r, Hd, Nat.sub_diag by lia).
    rewrite Z.lor_0_l. rewrite (u32_small (Z.shiftl _ _)) by (unfold is_u32; rewrite Z.shiftl_mul_pow2; lia).
    rewrite (u8_small (Z.shiftl _ _)) by (unfold is_u8; rewrite Z.shiftl_mul_pow2; lia).
    assert (E : Z.lor (Z.shiftl (b / 16) 4) (b mod 16) = b).
    { rewrite <- Z.add_nocarry_lor.
      - rewrite Z.shiftl_mul_pow2 by lia. lia.
      - apply Z.bits_inj'. intros k Hk'. rewrite Z.land_spec, Z.bits_0.
        destruct (Z.lt_ge_cases k 4).
        + rewrite Z.shiftl_spec_low by done. done.
        + change (b mod 16) with (b mod 2 ^ 4). rewrite Z.mod_pow2_bits_high by lia. by rewrite andb_false_r. }
    rewrite E. by apply u8_small. }
  rewrite Hv.
  replace (<[i:=b]> (dn ++ zeros (S n))) with ((dn ++ [b]) ++ zeros n).
  2: { rewrite <- app_assoc. rewrite insert_app_r_alt by lia. by rewrite Hd, Nat.sub_diag. }
  destruct (IH (S i) (u32 (Z.shiftl (b / 16) 4)) (b mod 16) (dn ++ [b])) as (st & -> & E);
    [rewrite length_app; simpl; lia|lia|].
  exists st. split; [done|]. rewrite E, <- app_assoc. f_equal.
  rewrite (drop_S key b i Hb). reflexivity.
Qed.

Lemma b16_to_key_text key rest :
  bytes_ok key -> length key = 32%nat -> b16_to_key (key_text key ++ 0 :: rest) (zeros 32) = Some key.
Proof.
  intros Hk Hl. unfold b16_to_key. change (zeros 32) with ([] ++ zeros 32).
  destruct (b16_turns_text key rest 0 32 0 0 [] Hk eq_refl) as (st & -> & E); [lia|].
  simpl. rewrite E. simpl. by rewrite drop_0, take_ge by lia.
Qed.

(** The turns of [hex_string_to_bin]. *)
Lemma hex_turns_app mem val l1 l2 :
  hex_turns mem val (l1 ++ l2) = v ← hex_turns mem val l1; hex_turns mem v l2.
Proof.
  revert val. induction l1 as [|i r IH]; intros val; [done|]. simpl. destruct (hex_turn mem val i); simpl; [apply IH|done].
Qed.

(** Within the text, each turn reads one byte of the key. *)
Lemma hex_turns_text key rest val n :
  bytes_ok key -> (n <= length key <= length val)%nat ->
  hex_turns (key_text key ++ 0 :: rest) val (seq 0 n) = Some (take n key ++ drop n val).
Proof.
  intros Hk. induction n as [|n IH]; intros Hn; [done|].
  rewrite seq_S, hex_turns_app, IH by lia. simpl. unfold hex_turn.
  destruct (lookup_lt_is_Some_2 key n) as [b Hb]; [lia|].
  assert (Hu : is_u8 b) by (eapply Forall_lookup_1; eassumption). destruct (byte_digits b Hu) as [H1 H2].
  rewrite c_string_text by (try done; rewrite key_text_length; lia).
  rewrite (drop_key_text key n b Hb). cbn [mbind option_bind]. rewrite scan_hex_two by done.
  replace (16 * (b / 16) + b mod 16) with b by lia. rewrite u8_small by done. f_equal.
  rewrite (take_S_r key n b Hb), insert_app_r_alt by (rewrite length_take; lia).
  rewrite length_take, Nat.min_l, Nat.sub_diag, <- app_assoc by lia. f_equal.
  destruct (lookup_lt_is_Some_2 val n) as [v Hv]; [lia|]. by rewrite (drop_S val v n Hv).
Qed.

(** Past it, the turns read whatever is there, and write past the key. *)
Lemma until_zero_last m j : (j <= length m)%nat -> is_Some (until_zero (drop j (m ++ [0]))).
Proof.
  intros Hj. rewrite drop_app_le by done. clear Hj. generalize (drop j m) as l.
  induction l as [|b r IH]; simpl; [by eexists|]. destruct (b =? 0); [by eexists|].
  destruct IH as [s ->]. by eexists.
Qed.

Lemma hex_turns_past m val k i n :
  (k <= i)%nat -> (2 * (i + n) <= length m + 2)%nat ->
  exists r, hex_turns (m ++ [0]) val (seq i n) = Some r /\ take k r = take k val /\ length r = length val.
Proof.
  revert i val. induction n as [|n IH]; intros i val Hk Hn; [by exists val|].
  cbn [seq hex_turns]. unfold hex_turn, c_string.
  destruct (until_zero_last m (2 * i)) as [s ->]; [lia|]. cbn [mbind option_bind].
  set (v1 := match scan_hex 2 s with Some v => _ | None => val end).
  destruct (IH (S i) v1) as (r & E & Hr & Hlr); [lia|lia|]. exists r. split; [exact E|].
  rewrite Hr, Hlr. unfold v1. destruct (scan_hex 2 s); [|done]. by rewrite take_insert_ge, length_insert.
Qed.

(** Beyond the memory, a turn is undefined. *)
Lemma hex_turns_ub mem val i n :
  (1 <= n)%nat -> (length mem <= 2 * (i + n) - 2)%nat -> hex_turns mem val (seq i n) = None.
Proof.
  intros Hn Hl. replace n with ((n - 1) + 1)%nat by lia. rewrite seq_app, hex_turns_app. simpl.
  destruct (hex_turns mem val (seq i (n - 1))); [|done]. simpl. unfold hex_turn, c_string.
  rewrite drop_ge by lia. done.
Qed.

(** The whole function, on a text with enough memory behind it. *)
Lemma wp_hex_string_to_bin {S} key m (s : S) w (Q : list Z -> S -> World -> Prop) :
  bytes_ok key -> (2 * length key <= length m + 3)%nat -> w_nomem w = [] ->
  (forall val w', length val = (2 * length key)%nat -> take (length key) val = key ->
     w_nomem w' = [] -> Q val s w') ->
  wp (hex_string_to_bin (key_text key ++ 0 :: m ++ [0])) Q s w.
Proof.
  intros Hk Hm Hw HQ. unfold hex_string_to_bin. rewrite c_string_text by (done || lia). rewrite drop_0.
  cbn [liftO]. do 2 wp_step. rewrite wp_bind. unfold wp at 1. rewrite alloc_works by done. wp_step.
  assert (Hj : wp (junk_bytes (length (key_text key))) (fun val s' w' =>
    s' = s /\ w_nomem w' = [] /\ length val = length (key_text key)) s w).
  { clear HQ. generalize (length (key_text key)). intros n. revert w Hw.
    induction n as [|n IH]; intros w Hw; cbn [junk_bytes]; [by wp_step|].
    wp_step. apply wp_world. destruct (next_of 0 (w_junk w)) as [b r]. cbn [fst snd].
    wp_step. eapply wp_mono; [by apply IH|]. intros v s' w' (-> & ? & ?). wp_step. simpl. auto with lia. }
  eapply wp_mono; [exact Hj|]. intros val s' w' (-> & Hw' & Hval). simpl. apply wp_liftO.
  rewrite key_text_length in *.
  replace (seq 0 (2 * length key)) with (seq 0 (length key) ++ seq (length key) (length key)).
  2: { rewrite <- seq_app. f_equal. lia. }
  rewrite hex_turns_app, hex_turns_text by (done || lia). cbn [mbind option_bind].
  replace (key_text key ++ 0 :: m ++ [0]) with ((key_text key ++ 0 :: m) ++ [0]) by by rewrite <- app_assoc.
  destruct (hex_turns_past (key_text key ++ 0 :: m) (take (length key) key ++ drop (length key) val)
              (length key) (length key) (length key)) as (r & -> & Hr & Hlr);
    [lia|rewrite length_app, key_text_length; simpl; lia|].
  exists r. split; [done|]. apply HQ; [| |done].
  - rewrite Hlr, length_app, length_take, length_drop. lia.
  - rewrite Hr, take_app_le, take_take, take_ge by (rewrite ?length_take; lia). done.
Qed.

(** * Claims *)

(** C38: keys survive being written down.  The daemon and DHT_bootstrap.c print a key as
    the same 64 digits; the daemon's [b16_to_key] reads them back; [hex_string_to_bin] puts
    the key in the first 32 bytes of its result, if the bytes behind the text (62 of them and
    a zero byte after those) may be read, and is undefined if the memory ends before. *)
Theorem key_text_round_trip {S} (key m : list Z) (s : S) (w : World) :
  bytes_ok key -> length key = 32%nat -> (61 <= length m)%nat -> w_nomem w = [] ->
  print_key key = print_key_screen key /\
  b16_to_key (print_key key ++ [0]) (zeros 32) = Some key /\
  wp (hex_string_to_bin (print_key key ++ 0 :: m ++ [0])) (fun val _ _ =>
    length val = 64%nat /\ take 32 val = key) s w /\
  hex_string_to_bin (print_key key ++ [0]) s w = None.
Proof.
  intros Hk Hl Hm Hw. rewrite print_key_text, print_key_screen_text by done.
  assert (Ht : length (key_text key) = 64%nat) by (rewrite key_text_length, Hl; done).
  assert (Hc : forall rest, c_string (key_text key ++ 0 :: rest) 0 = Some (key_text key)).
  { intros rest. by rewrite c_string_text by (done || lia). }
  split_and!; [done|by apply b16_to_key_text| |].
  - apply wp_hex_string_to_bin; [done|lia|done|]. intros val w' Hv Ht' _. rewrite Hl in *. auto with lia.
  - unfold hex_string_to_bin. rewrite Hc. cbn [liftO]. erewrite bind_eval by reflexivity. erewrite bind_eval by (by apply alloc_works).
    pose proof (wp_junk_bytes (length (key_text key)) (fun _ _ _ => True) s w (fun _ _ _ _ => I)) as Hj.
    apply wp_Some in Hj as (val & s1 & w1 & E & _). erewrite bind_eval by exact E. simpl.
    rewrite hex_turns_ub; [done|lia|rewrite length_app; simpl; lia].
Qed.

Lemma key_text_round_trip_witness :
  print_key (replicate 32 171) = print_key_screen (replicate 32 171) /\
  b16_to_key (print_key (replicate 32 171) ++ [0]) (zeros 32) = Some (replicate 32 171) /\
  wp (hex_string_to_bin (print_key (replicate 32 171) ++ 0 :: replicate 100 65 ++ [0])) (fun val _ _ =>
    length val = 64%nat /\ take 32 val = replicate 32 171) tt (still_world 0 0) /\
  hex_string_to_bin (print_key (replicate 32 171) ++ [0]) tt (still_world 0 0) = None.
Proof.
  apply (key_text_round_trip (replicate 32 171) (replicate 100 65) tt (still_world 0 0)).
  - apply Forall_replicate. unfold is_u8. lia.
  - reflexivity.
  - rewrite length_replicate. lia.
  - reflexivity.
Defined.
