(* ===== verification/Sign.v ===== *)
(** * other/fun/sign.c: signing files

    A command line tool over libsodium's ed25519 signatures, which are not part of the
    program: the class [CryptoSign] stands for them and [CryptoSignLaws] for what their
    documentation promises. *)

From S2P Require Import Prelude Network Hex.
From stdpp Require Import gmap.
Local Open Scope Z_scope.
Local Open Scope tox_scope.

Definition crypto_sign_PUBLICKEYBYTES : nat := 32.
Definition crypto_sign_SECRETKEYBYTES : nat := 64.
Definition crypto_sign_BYTES : nat := 64.

Class CryptoSign := {
  crypto_sign_keypair : Z -> list Z * list Z;
  crypto_sign : list Z -> list Z -> list Z;
  crypto_sign_open : list Z -> list Z -> option (list Z)
}.

(** A signed message is the signature, of 64 bytes, followed by the message; opening it with
    the public key gives the message back. *)
Class CryptoSignLaws `{CryptoSign} := {
  sign_keypair_ok seed : length (fst (crypto_sign_keypair seed)) = crypto_sign_PUBLICKEYBYTES /\
                         length (snd (crypto_sign_keypair seed)) = crypto_sign_SECRETKEYBYTES /\
                         bytes_ok (fst (crypto_sign_keypair seed)) /\ bytes_ok (snd (crypto_sign_keypair seed));
  sign_prefix m k : exists sig, length sig = crypto_sign_BYTES /\ crypto_sign m k = sig ++ m;
  sign_open m seed :
    crypto_sign_open (crypto_sign m (snd (crypto_sign_keypair seed))) (fst (crypto_sign_keypair seed)) = Some m
}.

(** Files by name.  [fd_read] is how many bytes [fread] delivers of those of the file;
    [fd_room] how many can be written. *)
Record Disk := mkDisk {
  fd_files : gmap (list Z) (list Z);
  fd_read : list Z -> nat;
  fd_writable : list Z -> bool;
  fd_room : list Z -> nat
}.

Definition put_file (name data : list Z) (d : Disk) : Disk :=
  mkDisk (<[name := data]> (fd_files d)) (fd_read d) (fd_writable d) (fd_room d).

(** -1, -2 or the contents.  The size is an [int]: of a file of 2 GiB or more it is another
    number than the length of the file.  The memory is not checked: [malloc] cannot give as
    much as a negative size is converted to, and [size + 1] overflows for the largest one. *)
Definition load_file (filename : list Z) : M Disk (Z + list Z) :=
  d <- getM ;;
  match fd_files d !! filename with
  | None => retM (inl (-1))
  | Some content =>
    let size := i32 (Z.of_nat (length content)) in
    nomem <- alloc_fails ;;
    if (nomem : bool) || (size <? 0) || (size =? 2147483647) then ubM
    else if negb (Nat.min (Z.to_nat size) (fd_read d filename) =? Z.to_nat size)%nat then retM (inl (-2))
    else retM (inr (take (Z.to_nat size) content))
  end.

(** The arguments of the program; a key is given by the memory at its text. *)
Inductive command :=
  | Generate
  | SignFile (secret_key : list Z) (infile outfile : list Z)
  | CheckFile (public_key : list Z) (infile : list Z)
  | OtherCommand.

Section sign.
Context `{CryptoSign}.

(** The keys as they are printed. *)
Definition sign_generate : M Disk (list Z * list Z) :=
e <- entropy ;;
let keys := crypto_sign_keypair e in
retM (key_text (fst keys), key_text (snd keys)).

(** The bytes [fwrite] is given: [sm] is the signed message, to whose end the signature is
  copied, from the end of the signature on. *)
Definition moved_signature (sm : list Z) (size : nat) : list Z :=
take (length sm) (drop (length sm - size) (sm ++ take crypto_sign_BYTES sm)).

Definition sign_file (secret_hex infile outfile : list Z) : M Disk Z :=
secret_key <- hex_string_to_bin secret_hex ;;
r <- load_file infile ;;
match r with
| inl _ => retM 1
| inr data =>
  nomem <- alloc_fails ;;
  if (nomem : bool) || (length secret_key <? crypto_sign_SECRETKEYBYTES)%nat then ubM
  else
    let sm := crypto_sign data (take crypto_sign_SECRETKEYBYTES secret_key) in
    if negb (length sm - length data =? crypto_sign_BYTES)%nat then retM 1
    else
      d <- getM ;;
      if negb (fd_writable d outfile) then retM 1
      else
        let out := moved_signature sm (length data) in
        modM (put_file outfile (take (fd_room d outfile) out)) ;;;
        retM (if (Nat.min (length out) (fd_room d outfile) =? length sm)%nat then 0 else 1)
end.

(** A file shorter than a signature makes [memcpy] read before the data. *)
Definition check_file (public_hex infile : list Z) : M Disk Z :=
public_key <- hex_string_to_bin public_hex ;;
r <- load_file infile ;;
match r with
| inl _ => retM 1
| inr data =>
  nomem <- alloc_fails ;;
  if (nomem : bool) || (length public_key <? crypto_sign_PUBLICKEYBYTES)%nat
     || (length data <? crypto_sign_BYTES)%nat then ubM
  else
    let n := (length data - crypto_sign_BYTES)%nat in
    let signe := drop n data ++ take n data in
    nomem <- alloc_fails ;;
    if (nomem : bool) then ubM
    else
      retM (match crypto_sign_open signe (take crypto_sign_PUBLICKEYBYTES public_key) with
            | None => 1
            | Some _ => 0
            end)
end.

(** [main]: the exit code. *)
Definition sign_main (c : command) : M Disk Z :=
match c with
| Generate => sign_generate ;;; retM 0
| SignFile k i o => sign_file k i o
| CheckFile k i => check_file k i
| OtherCommand => retM 0
end.
End sign.

(** ** Claims *)

Section thms.
Context `{CryptoSignLaws}.

Lemma moved_signature_eq sig data :
  length sig = crypto_sign_BYTES -> moved_signature (sig ++ data) (length data) = data ++ sig.
Proof.
  intros Hs. unfold moved_signature. rewrite length_app.
  replace (length sig + length data - length data)%nat with (length sig) by lia.
  rewrite (take_app_length' sig) by done. rewrite <- app_assoc, drop_app_length.
  apply take_ge. rewrite length_app. lia.
Qed.

Lemma wp_load_file name content d w Q :
  fd_files d !! name = Some content -> (length content <= fd_read d name)%nat ->
  Z.of_nat (length content) < 2147483647 -> w_nomem w = [] ->
  Q (inr content) d w -> wp (load_file name) Q d w.
Proof.
  intros Hf Hr Hs Hw HQ. unfold load_file. do 2 wp_step. rewrite Hf.
  replace (i32 (Z.of_nat (length content))) with (Z.of_nat (length content)) by (unfold i32; case_match; uarith).
  cbv zeta. wp_step. unfold wp at 1. rewrite alloc_works by done.
  rewrite (proj2 (Z.ltb_ge _ 0)), (proj2 (Z.eqb_neq _ _)), Nat2Z.id by lia. cbn [orb].
  rewrite Nat.min_l, Nat.eqb_refl by done. rewrite take_ge by done. by wp_step.
Qed.

(** A text of a key in memory: a zero byte ends it, and enough memory follows. *)
Definition key_memory (key m : list Z) : list Z := key_text key ++ 0 :: m ++ [0].

(** C39: what is signed checks: with a key pair as [g] prints it (in memory that may be read
  as far as [hex_string_to_bin] goes), and for a file so small that the size of the signed file
  and one byte more fits an [int] (less than 2 GiB), [s] writes the file followed by its
  signature and succeeds, and [c] accepts the file it has written; provided that memory can be
  allocated, and that the files can be read and written in full. *)
Theorem sign_check_round_trip seed (m1 m2 infile outfile content : list Z) (d : Disk) (w : World) :
  (125 <= length m1)%nat -> (61 <= length m2)%nat -> w_nomem w = [] ->
  Z.of_nat (length content) + 64 < 2147483647 ->
  fd_files d !! infile = Some content -> fd_writable d outfile = true ->
  (length content <= fd_read d infile)%nat -> (length content + 64 <= fd_read d outfile)%nat ->
  (length content + 64 <= fd_room d outfile)%nat ->
  let '(pk, sk) := crypto_sign_keypair seed in
  wp (sign_main (SignFile (key_memory sk m1) infile outfile)) (fun r d' w' => r = 0 /\
    (exists sig, fd_files d' !! outfile = Some (content ++ sig) /\ length sig = 64%nat) /\
    wp (sign_main (CheckFile (key_memory pk m2) outfile)) (fun r' d'' _ => r' = 0 /\ d'' = d') d' w') d w.
Proof.
  intros Hm1 Hm2 Hw Hsz Hf Hwr Hrd Hrd2 Hroom.
  destruct (crypto_sign_keypair seed) as [pk sk] eqn:Ek.
  pose proof (sign_keypair_ok seed) as (L1 & L2 & B1 & B2). rewrite Ek in *. cbn [fst snd] in *.
  cbn [sign_main]. unfold sign_file. wp_step. apply wp_hex_string_to_bin; [done|rewrite L2; cbn; lia|done|].
  intros val w1 Hv Htk Hw1. rewrite L2 in *. wp_step. eapply wp_load_file; [done|done|lia|done|]. cbv beta iota.
  wp_step. unfold wp at 1. rewrite alloc_works by done.
  rewrite (proj2 (Nat.ltb_ge _ _)) by (rewrite Hv; lia). cbn [orb]. cbv zeta. rewrite Htk.
  destruct (sign_prefix content sk) as (sig & Ls & Es). pose proof (sign_open content seed) as Ho.
  rewrite Ek in Ho. cbn [fst snd] in Ho. rewrite Es in *.
  replace (length (sig ++ content) - length content)%nat with crypto_sign_BYTES by (rewrite length_app; lia).
  rewrite Nat.eqb_refl. cbn [negb]. cbv iota. do 2 wp_step. rewrite Hwr. cbn [negb]. cbv iota. do 2 wp_step.
  rewrite moved_signature_eq by done.
  assert (Hlen : (length (content ++ sig) <= fd_room d outfile)%nat) by (rewrite length_app, Ls; exact Hroom).
  rewrite Nat.min_l by done. rewrite (take_ge (content ++ sig)) by done.
  rewrite !length_app, (Nat.add_comm (length content)), Nat.eqb_refl. wp_step. split; [done|].
  assert (Hout : fd_files (put_file outfile (content ++ sig) d) !! outfile = Some (content ++ sig)).
  { cbn [fd_files put_file]. by rewrite lookup_insert_eq. }
  split; [by exists sig|]. unfold check_file. wp_step.
  apply wp_hex_string_to_bin; [done|rewrite L1; cbn; lia|done|]. intros val2 w2 Hv2 Htk2 Hw2. rewrite L1 in *.
  wp_step. eapply wp_load_file; [exact Hout|rewrite length_app, Ls; exact Hrd2|rewrite length_app, Ls; unfold crypto_sign_BYTES; lia|done|]. cbv beta iota.
  wp_step. unfold wp at 1. rewrite alloc_works by done.
  rewrite (proj2 (Nat.ltb_ge (length val2) _)) by (rewrite Hv2; lia).
  rewrite (proj2 (Nat.ltb_ge (length (content ++ sig)) _)) by (rewrite length_app; lia). cbn [orb]. cbv zeta.
  wp_step. unfold wp at 1. rewrite alloc_works by done. wp_step.
  replace (length (content ++ sig) - crypto_sign_BYTES)%nat with (length content) by (rewrite length_app; lia).
  rewrite drop_app_length, take_app_length. rewrite Htk2, Ho. done.
Qed.
End thms.

(** ** Witness: a toy signature scheme *)

Module ToySign.
#[export] Instance scheme : CryptoSign := {
  crypto_sign_keypair seed := (le_bytes 32 seed, le_bytes 32 seed ++ zeros 32);
  crypto_sign m k := (take 32 (k ++ zeros 32) ++ zeros 32) ++ m;
  crypto_sign_open sm k := if bool_decide (take 64 sm = take 32 (k ++ zeros 32) ++ zeros 32) then Some (drop 64 sm) else None
}.

#[export] Instance scheme_laws : CryptoSignLaws.
Proof.
  split.
  - intros seed. cbn [crypto_sign_keypair scheme fst snd]. rewrite length_app, length_le_bytes, length_zeros.
    split_and!; [done|done|apply le_bytes_ok|]. apply Forall_app. split; [apply le_bytes_ok|].
    apply Forall_replicate. uarith.
  - intros m k. cbn [crypto_sign scheme]. eexists. split; [|done].
    rewrite length_app, length_take, length_app, !length_zeros. unfold crypto_sign_BYTES. lia.
  - intros m seed. cbn [crypto_sign crypto_sign_open crypto_sign_keypair scheme fst snd].
    assert (E : take 32 ((le_bytes 32 seed ++ zeros 32) ++ zeros 32) = le_bytes 32 seed).
    { rewrite <- app_assoc. by rewrite take_app_length' by (by rewrite length_le_bytes). }
    rewrite E. rewrite (take_app_length' (le_bytes 32 seed)) by (by rewrite length_le_bytes).
    assert (L : length (le_bytes 32 seed ++ zeros 32) = 64%nat) by (by rewrite length_app, length_le_bytes, length_zeros).
    rewrite take_app_length', drop_app_length' by done. by rewrite bool_decide_eq_true_2.
Qed.
End ToySign.

Definition demo_disk : Disk := mkDisk {[ [1] := [5; 6; 7] ]} (fun _ => 1000%nat) (fun _ => true) (fun _ => 1000%nat).

Section witness.
#[local] Existing Instance ToySign.scheme.
#[local] Existing Instance ToySign.scheme_laws.

Lemma sign_check_round_trip_witness :
  let '(pk, sk) := crypto_sign_keypair 9 in
  wp (sign_main (SignFile (key_memory sk (zeros 200)) [1] [2])) (fun r d' w' => r = 0 /\
    (exists sig, fd_files d' !! [2] = Some ([5; 6; 7] ++ sig) /\ length sig = 64%nat) /\
    wp (sign_main (CheckFile (key_memory pk (zeros 200)) [2])) (fun r' d'' _ => r' = 0 /\ d'' = d') d' w')
    demo_disk (still_world 0 0).
Proof.
  apply (sign_check_round_trip 9 (zeros 200) (zeros 200) [1] [2] [5; 6; 7] demo_disk (still_world 0 0)).
  - rewrite length_zeros. lia.
  - rewrite length_zeros. lia.
  - reflexivity.
  - reflexivity.
  - reflexivity.
  - reflexivity.
  - simpl. lia.
  - simpl. lia.
  - simpl. lia.
Defined.
End witness.
