(* ===== verification/LosslessUDP.v ===== *)
(** * Lossless_UDP.h and Lossless_UDP.c: the model

    The reliable packet protocol on top of UDP.  The state is [Lossless_UDP], with
    its array of [Connection]s; one definition per function of the source.  The
    theorems about it are in [LosslessInv] and [LosslessLink]. *)

From S2P Require Import Prelude MiscTools Network.
From stdpp Require Import gmap.
Local Open Scope Z_scope.
Local Open Scope tox_scope.

Definition MAX_DATA_SIZE : Z := 1024.
Definition MAX_QUEUE_NUM : Z := 16.
Definition BUFFER_PACKET_NUM : Z := 16 - 1.
Definition CONNEXION_TIMEOUT : Z := 5.
Definition SYNC_RATE : Z := 2.
Definition DATA_SYNC_RATE : Z := 30.
Definition MAX_SYNC_RATE : Z := 10.

(** ** State *)

Record Data := mkData { d_data : list Z; d_size : Z }.

Definition data_zero : Data := mkData (zeros (Z.to_nat MAX_DATA_SIZE)) 0.

Record Connection := mkConn {
  ip_port : IP_Port;
  status : Z;
  inbound : Z;
  SYNC_rate : Z;
  data_rate : Z;
  last_SYNC : Z;
  last_sent : Z;
  last_recvSYNC : Z;
  last_recvdata : Z;
  killat : Z;
  sendbuffer : list Data;
  recvbuffer : list Data;
  handshake_id1 : Z;
  handshake_id2 : Z;
  recv_packetnum : Z;
  orecv_packetnum : Z;
  sent_packetnum : Z;
  osent_packetnum : Z;
  sendbuff_packetnum : Z;
  successful_sent : Z;
  successful_read : Z;
  req_packets : list Z;
  num_req_paquets : Z;
  recv_counter : Z;
  send_counter : Z;
  timeout : Z
}.

Definition set_ip_port (x : IP_Port) (c : Connection) : Connection :=
    mkConn x (status c) (inbound c) (SYNC_rate c) (data_rate c) (last_SYNC c) (last_sent c)
    (last_recvSYNC c) (last_recvdata c) (killat c) (sendbuffer c) (recvbuffer c) (handshake_id1
    c) (handshake_id2 c) (recv_packetnum c) (orecv_packetnum c) (sent_packetnum c)
    (osent_packetnum c) (sendbuff_packetnum c) (successful_sent c) (successful_read c)
    (req_packets c) (num_req_paquets c) (recv_counter c) (send_counter c) (timeout c).
Definition set_status (x : Z) (c : Connection) : Connection :=
    mkConn (ip_port c) x (inbound c) (SYNC_rate c) (data_rate c) (last_SYNC c) (last_sent c)
    (last_recvSYNC c) (last_recvdata c) (killat c) (sendbuffer c) (recvbuffer c) (handshake_id1
    c) (handshake_id2 c) (recv_packetnum c) (orecv_packetnum c) (sent_packetnum c)
    (osent_packetnum c) (sendbuff_packetnum c) (successful_sent c) (successful_read c)
    (req_packets c) (num_req_paquets c) (recv_counter c) (send_counter c) (timeout c).
Definition set_inbound (x : Z) (c : Connection) : Connection :=
    mkConn (ip_port c) (status c) x (SYNC_rate c) (data_rate c) (last_SYNC c) (last_sent c)
    (last_recvSYNC c) (last_recvdata c) (killat c) (sendbuffer c) (recvbuffer c) (handshake_id1
    c) (handshake_id2 c) (recv_packetnum c) (orecv_packetnum c) (sent_packetnum c)
    (osent_packetnum c) (sendbuff_packetnum c) (successful_sent c) (successful_read c)
    (req_packets c) (num_req_paquets c) (recv_counter c) (send_counter c) (timeout c).
Definition set_SYNC_rate (x : Z) (c : Connection) : Connection :=
    mkConn (ip_port c) (status c) (inbound c) x (data_rate c) (last_SYNC c) (last_sent c)
    (last_recvSYNC c) (last_recvdata c) (killat c) (sendbuffer c) (recvbuffer c) (handshake_id1
    c) (handshake_id2 c) (recv_packetnum c) (orecv_packetnum c) (sent_packetnum c)
    (osent_packetnum c) (sendbuff_packetnum c) (successful_sent c) (successful_read c)
    (req_packets c) (num_req_paquets c) (recv_counter c) (send_counter c) (timeout c).
Definition set_data_rate (x : Z) (c : Connection) : Connection :=
    mkConn (ip_port c) (status c) (inbound c) (SYNC_rate c) x (last_SYNC c) (last_sent c)
    (last_recvSYNC c) (last_recvdata c) (killat c) (sendbuffer c) (recvbuffer c) (handshake_id1
    c) (handshake_id2 c) (recv_packetnum c) (orecv_packetnum c) (sent_packetnum c)
    (osent_packetnum c) (sendbuff_packetnum c) (successful_sent c) (successful_read c)
    (req_packets c) (num_req_paquets c) (recv_counter c) (send_counter c) (timeout c).
Definition set_last_SYNC (x : Z) (c : Connection) : Connection :=
    mkConn (ip_port c) (status c) (inbound c) (SYNC_rate c) (data_rate c) x (last_sent c)
    (last_recvSYNC c) (last_recvdata c) (killat c) (sendbuffer c) (recvbuffer c) (handshake_id1
    c) (handshake_id2 c) (recv_packetnum c) (orecv_packetnum c) (sent_packetnum c)
    (osent_packetnum c) (sendbuff_packetnum c) (successful_sent c) (successful_read c)
    (req_packets c) (num_req_paquets c) (recv_counter c) (send_counter c) (timeout c).
Definition set_last_sent (x : Z) (c : Connection) : Connection :=
    mkConn (ip_port c) (status c) (inbound c) (SYNC_rate c) (data_rate c) (last_SYNC c) x
    (last_recvSYNC c) (last_recvdata c) (killat c) (sendbuffer c) (recvbuffer c) (handshake_id1
    c) (handshake_id2 c) (recv_packetnum c) (orecv_packetnum c) (sent_packetnum c)
    (osent_packetnum c) (sendbuff_packetnum c) (successful_sent c) (successful_read c)
    (req_packets c) (num_req_paquets c) (recv_counter c) (send_counter c) (timeout c).
Definition set_last_recvSYNC (x : Z) (c : Connection) : Connection :=
    mkConn (ip_port c) (status c) (inbound c) (SYNC_rate c) (data_rate c) (last_SYNC c)
    (last_sent c) x (last_recvdata c) (killat c) (sendbuffer c) (recvbuffer c) (handshake_id1 c)
    (handshake_id2 c) (recv_packetnum c) (orecv_packetnum c) (sent_packetnum c) (osent_packetnum
    c) (sendbuff_packetnum c) (successful_sent c) (successful_read c) (req_packets c)
    (num_req_paquets c) (recv_counter c) (send_counter c) (timeout c).
Definition set_last_recvdata (x : Z) (c : Connection) : Connection :=
    mkConn (ip_port c) (status c) (inbound c) (SYNC_rate c) (data_rate c) (last_SYNC c)
    (last_sent c) (last_recvSYNC c) x (killat c) (sendbuffer c) (recvbuffer c) (handshake_id1 c)
    (handshake_id2 c) (recv_packetnum c) (orecv_packetnum c) (sent_packetnum c) (osent_packetnum
    c) (sendbuff_packetnum c) (successful_sent c) (successful_read c) (req_packets c)
    (num_req_paquets c) (recv_counter c) (send_counter c) (timeout c).
Definition set_killat (x : Z) (c : Connection) : Connection :=
    mkConn (ip_port c) (status c) (inbound c) (SYNC_rate c) (data_rate c) (last_SYNC c)
    (last_sent c) (last_recvSYNC c) (last_recvdata c) x (sendbuffer c) (recvbuffer c)
    (handshake_id1 c) (handshake_id2 c) (recv_packetnum c) (orecv_packetnum c) (sent_packetnum
    c) (osent_packetnum c) (sendbuff_packetnum c) (successful_sent c) (successful_read c)
    (req_packets c) (num_req_paquets c) (recv_counter c) (send_counter c) (timeout c).
Definition set_sendbuffer (x : list Data) (c : Connection) : Connection :=
    mkConn (ip_port c) (status c) (inbound c) (SYNC_rate c) (data_rate c) (last_SYNC c)
    (last_sent c) (last_recvSYNC c) (last_recvdata c) (killat c) x (recvbuffer c) (handshake_id1
    c) (handshake_id2 c) (recv_packetnum c) (orecv_packetnum c) (sent_packetnum c)
    (osent_packetnum c) (sendbuff_packetnum c) (successful_sent c) (successful_read c)
    (req_packets c) (num_req_paquets c) (recv_counter c) (send_counter c) (timeout c).
Definition set_recvbuffer (x : list Data) (c : Connection) : Connection :=
    mkConn (ip_port c) (status c) (inbound c) (SYNC_rate c) (data_rate c) (last_SYNC c)
    (last_sent c) (last_recvSYNC c) (last_recvdata c) (killat c) (sendbuffer c) x (handshake_id1
    c) (handshake_id2 c) (recv_packetnum c) (orecv_packetnum c) (sent_packetnum c)
    (osent_packetnum c) (sendbuff_packetnum c) (successful_sent c) (successful_read c)
    (req_packets c) (num_req_paquets c) (recv_counter c) (send_counter c) (timeout c).
Definition set_handshake_id1 (x : Z) (c : Connection) : Connection :=
    mkConn (ip_port c) (status c) (inbound c) (SYNC_rate c) (data_rate c) (last_SYNC c)
    (last_sent c) (last_recvSYNC c) (last_recvdata c) (killat c) (sendbuffer c) (recvbuffer c) x
    (handshake_id2 c) (recv_packetnum c) (orecv_packetnum c) (sent_packetnum c) (osent_packetnum
    c) (sendbuff_packetnum c) (successful_sent c) (successful_read c) (req_packets c)
    (num_req_paquets c) (recv_counter c) (send_counter c) (timeout c).
Definition set_handshake_id2 (x : Z) (c : Connection) : Connection :=
    mkConn (ip_port c) (status c) (inbound c) (SYNC_rate c) (data_rate c) (last_SYNC c)
    (last_sent c) (last_recvSYNC c) (last_recvdata c) (killat c) (sendbuffer c) (recvbuffer c)
    (handshake_id1 c) x (recv_packetnum c) (orecv_packetnum c) (sent_packetnum c)
    (osent_packetnum c) (sendbuff_packetnum c) (successful_sent c) (successful_read c)
    (req_packets c) (num_req_paquets c) (recv_counter c) (send_counter c) (timeout c).
Definition set_recv_packetnum (x : Z) (c : Connection) : Connection :=
    mkConn (ip_port c) (status c) (inbound c) (SYNC_rate c) (data_rate c) (last_SYNC c)
    (last_sent c) (last_recvSYNC c) (last_recvdata c) (killat c) (sendbuffer c) (recvbuffer c)
    (handshake_id1 c) (handshake_id2 c) x (orecv_packetnum c) (sent_packetnum c)
    (osent_packetnum c) (sendbuff_packetnum c) (successful_sent c) (successful_read c)
    (req_packets c) (num_req_paquets c) (recv_counter c) (send_counter c) (timeout c).
Definition set_orecv_packetnum (x : Z) (c : Connection) : Connection :=
    mkConn (ip_port c) (status c) (inbound c) (SYNC_rate c) (data_rate c) (last_SYNC c)
    (last_sent c) (last_recvSYNC c) (last_recvdata c) (killat c) (sendbuffer c) (recvbuffer c)
    (handshake_id1 c) (handshake_id2 c) (recv_packetnum c) x (sent_packetnum c) (osent_packetnum
    c) (sendbuff_packetnum c) (successful_sent c) (successful_read c) (req_packets c)
    (num_req_paquets c) (recv_counter c) (send_counter c) (timeout c).
Definition set_sent_packetnum (x : Z) (c : Connection) : Connection :=
    mkConn (ip_port c) (status c) (inbound c) (SYNC_rate c) (data_rate c) (last_SYNC c)
    (last_sent c) (last_recvSYNC c) (last_recvdata c) (killat c) (sendbuffer c) (recvbuffer c)
    (handshake_id1 c) (handshake_id2 c) (recv_packetnum c) (orecv_packetnum c) x
    (osent_packetnum c) (sendbuff_packetnum c) (successful_sent c) (successful_read c)
    (req_packets c) (num_req_paquets c) (recv_counter c) (send_counter c) (timeout c).
Definition set_osent_packetnum (x : Z) (c : Connection) : Connection :=
    mkConn (ip_port c) (status c) (inbound c) (SYNC_rate c) (data_rate c) (last_SYNC c)
    (last_sent c) (last_recvSYNC c) (last_recvdata c) (killat c) (sendbuffer c) (recvbuffer c)
    (handshake_id1 c) (handshake_id2 c) (recv_packetnum c) (orecv_packetnum c) (sent_packetnum
    c) x (sendbuff_packetnum c) (successful_sent c) (successful_read c) (req_packets c)
    (num_req_paquets c) (recv_counter c) (send_counter c) (timeout c).
Definition set_sendbuff_packetnum (x : Z) (c : Connection) : Connection :=
    mkConn (ip_port c) (status c) (inbound c) (SYNC_rate c) (data_rate c) (last_SYNC c)
    (last_sent c) (last_recvSYNC c) (last_recvdata c) (killat c) (sendbuffer c) (recvbuffer c)
    (handshake_id1 c) (handshake_id2 c) (recv_packetnum c) (orecv_packetnum c) (sent_packetnum
    c) (osent_packetnum c) x (successful_sent c) (successful_read c) (req_packets c)
    (num_req_paquets c) (recv_counter c) (send_counter c) (timeout c).
Definition set_successful_sent (x : Z) (c : Connection) : Connection :=
    mkConn (ip_port c) (status c) (inbound c) (SYNC_rate c) (data_rate c) (last_SYNC c)
    (last_sent c) (last_recvSYNC c) (last_recvdata c) (killat c) (sendbuffer c) (recvbuffer c)
    (handshake_id1 c) (handshake_id2 c) (recv_packetnum c) (orecv_packetnum c) (sent_packetnum
    c) (osent_packetnum c) (sendbuff_packetnum c) x (successful_read c) (req_packets c)
    (num_req_paquets c) (recv_counter c) (send_counter c) (timeout c).
Definition set_successful_read (x : Z) (c : Connection) : Connection :=
    mkConn (ip_port c) (status c) (inbound c) (SYNC_rate c) (data_rate c) (last_SYNC c)
    (last_sent c) (last_recvSYNC c) (last_recvdata c) (killat c) (sendbuffer c) (recvbuffer c)
    (handshake_id1 c) (handshake_id2 c) (recv_packetnum c) (orecv_packetnum c) (sent_packetnum
    c) (osent_packetnum c) (sendbuff_packetnum c) (successful_sent c) x (req_packets c)
    (num_req_paquets c) (recv_counter c) (send_counter c) (timeout c).
Definition set_req_packets (x : list Z) (c : Connection) : Connection :=
    mkConn (ip_port c) (status c) (inbound c) (SYNC_rate c) (data_rate c) (last_SYNC c)
    (last_sent c) (last_recvSYNC c) (last_recvdata c) (killat c) (sendbuffer c) (recvbuffer c)
    (handshake_id1 c) (handshake_id2 c) (recv_packetnum c) (orecv_packetnum c) (sent_packetnum
    c) (osent_packetnum c) (sendbuff_packetnum c) (successful_sent c) (successful_read c) x
    (num_req_paquets c) (recv_counter c) (send_counter c) (timeout c).
Definition set_num_req_paquets (x : Z) (c : Connection) : Connection :=
    mkConn (ip_port c) (status c) (inbound c) (SYNC_rate c) (data_rate c) (last_SYNC c)
    (last_sent c) (last_recvSYNC c) (last_recvdata c) (killat c) (sendbuffer c) (recvbuffer c)
    (handshake_id1 c) (handshake_id2 c) (recv_packetnum c) (orecv_packetnum c) (sent_packetnum
    c) (osent_packetnum c) (sendbuff_packetnum c) (successful_sent c) (successful_read c)
    (req_packets c) x (recv_counter c) (send_counter c) (timeout c).
Definition set_recv_counter (x : Z) (c : Connection) : Connection :=
    mkConn (ip_port c) (status c) (inbound c) (SYNC_rate c) (data_rate c) (last_SYNC c)
    (last_sent c) (last_recvSYNC c) (last_recvdata c) (killat c) (sendbuffer c) (recvbuffer c)
    (handshake_id1 c) (handshake_id2 c) (recv_packetnum c) (orecv_packetnum c) (sent_packetnum
    c) (osent_packetnum c) (sendbuff_packetnum c) (successful_sent c) (successful_read c)
    (req_packets c) (num_req_paquets c) x (send_counter c) (timeout c).
Definition set_send_counter (x : Z) (c : Connection) : Connection :=
    mkConn (ip_port c) (status c) (inbound c) (SYNC_rate c) (data_rate c) (last_SYNC c)
    (last_sent c) (last_recvSYNC c) (last_recvdata c) (killat c) (sendbuffer c) (recvbuffer c)
    (handshake_id1 c) (handshake_id2 c) (recv_packetnum c) (orecv_packetnum c) (sent_packetnum
    c) (osent_packetnum c) (sendbuff_packetnum c) (successful_sent c) (successful_read c)
    (req_packets c) (num_req_paquets c) (recv_counter c) x (timeout c).
Definition set_timeout (x : Z) (c : Connection) : Connection :=
    mkConn (ip_port c) (status c) (inbound c) (SYNC_rate c) (data_rate c) (last_SYNC c)
    (last_sent c) (last_recvSYNC c) (last_recvdata c) (killat c) (sendbuffer c) (recvbuffer c)
    (handshake_id1 c) (handshake_id2 c) (recv_packetnum c) (orecv_packetnum c) (sent_packetnum
    c) (osent_packetnum c) (sendbuff_packetnum c) (successful_sent c) (successful_read c)
    (req_packets c) (num_req_paquets c) (recv_counter c) (send_counter c) x.

(** [memset(connection, 0, sizeof(Connection))]. *)
Definition conn_zero : Connection :=
  mkConn ipp_zero 0 0 0 0 0 0 0 0 0
    (replicate (Z.to_nat MAX_QUEUE_NUM) data_zero) (replicate (Z.to_nat MAX_QUEUE_NUM) data_zero)
    0 0 0 0 0 0 0 0 0 (zeros (Z.to_nat BUFFER_PACKET_NUM)) 0 0 0 0.

Record Lossless_UDP := mkLudp {
  net : Networking_Core;
  connections : tox_array Connection;
  randtable : list (list Z)
}.

Definition set_net (x : Networking_Core) (c : Lossless_UDP) : Lossless_UDP :=
  mkLudp x (connections c) (randtable c).
Definition set_connections (x : tox_array Connection) (c : Lossless_UDP) : Lossless_UDP :=
  mkLudp (net c) x (randtable c).
Definition set_randtable (x : list (list Z)) (c : Lossless_UDP) : Lossless_UDP :=
  mkLudp (net c) (connections c) x.

(** Slot [i % MAX_QUEUE_NUM] of a packet buffer. *)
Definition slot (i : Z) : nat := Z.to_nat (i mod MAX_QUEUE_NUM).
Definition buf_get (buf : list Data) (i : Z) : Data := nth (slot i) buf data_zero.
Definition buf_set (buf : list Data) (i : Z) (d : Data) : list Data := <[slot i := d]> buf.

(** Access to a connection by its index; outside of the array it is undefined
    behaviour. *)
Definition get_conn (connection_id : Z) : M Lossless_UDP Connection :=
  l <- getM ;; liftO (tox_array_get (connections l) connection_id).

Definition put_conn (connection_id : Z) (c : Connection) : M Lossless_UDP unit :=
  modM (fun l => set_connections (tox_array_set (connections l) connection_id c) l).

Definition conn_count (l : Lossless_UDP) : Z := ta_len (connections l).

Definition valid_id (l : Lossless_UDP) (connection_id : Z) : bool :=
  (0 <=? connection_id) && (connection_id <? conn_count l).

(** ** Connections *)

Definition getconnection_id (l : Lossless_UDP) (ipp : IP_Port) : Z :=
  match first_index
          (fun c => (ip (ip_port c) =? ip ipp) && (port (ip_port c) =? port ipp)
                    && (0 <? status c))
          (ta_data (connections l)) with
  | Some i => Z.of_nat i
  | None => -1
  end.

(** [randtable[i][b]]. *)
Definition rt_get (t : list (list Z)) (i : nat) (b : Z) : Z := nth (Z.to_nat b) (nth i t []) 0.
Definition rt_set (t : list (list Z)) (i : nat) (b x : Z) : list (list Z) :=
  <[i := <[Z.to_nat b := x]> (nth i t [])]> t.

(** The loop of [handshake_id] over the bytes [i] of the address. *)
Fixpoint handshake_loop (idx : list nat) (source : IP_Port) (id : Z) : M Lossless_UDP Z :=
  match idx with
  | [] => retM id
  | i :: r =>
    l <- getM ;;
    (if rt_get (randtable l) i (ipp_uint8 source i) =? 0
     then x <- random_int ;;
          modM (fun l => set_randtable (rt_set (randtable l) i (ipp_uint8 source i) x) l)
     else retM tt) ;;;
    l <- getM ;;
    handshake_loop r source (Z.lxor id (rt_get (randtable l) i (ipp_uint8 source i)))
  end.

Definition handshake_id (source : IP_Port) : M Lossless_UDP Z :=
  id <- handshake_loop (seq 0 6) source 0 ;;
  retM (if id =? 0 then 1 else id).

Definition change_handshake (source : IP_Port) : M Lossless_UDP unit :=
  r <- random_int ;;
  let rand := Z.to_nat (u8 (r mod 4)) in
  x <- random_int ;;
  modM (fun l => set_randtable (rt_set (randtable l) rand (ipp_uint8 source rand) x) l).

(** The slot a new connection takes: the first dead one, else one more, whose
    contents both callers clear before anything reads them. *)
Definition free_slot : M Lossless_UDP Z :=
  l <- getM ;;
  match first_index (fun c => status c =? 0) (ta_data (connections l)) with
  | Some i => retM (Z.of_nat i)
  | None =>
    nomem <- alloc_fails ;;
    match tox_array_push_ptr nomem (connections l) conn_zero with
    | (0, _) => retM (-1)
    | (_, arr) => modM (set_connections arr) ;;; retM (ta_len arr - 1)
    end
  end.

Definition new_connection (ipp : IP_Port) : M Lossless_UDP Z :=
  l <- getM ;;
  let connection_id := getconnection_id l ipp in
  if negb (connection_id =? -1) then retM connection_id
  else
    connection_id <- free_slot ;;
    if connection_id =? -1 then retM (-1)
    else
      put_conn connection_id conn_zero ;;;
      hid1 <- handshake_id ipp ;;
      t1 <- current_time ;;
      t2 <- current_time ;;
      r <- crand ;;
      put_conn connection_id
        (set_ip_port ipp (set_status 1 (set_inbound 0 (set_handshake_id1 hid1
        (set_sent_packetnum hid1 (set_sendbuff_packetnum hid1 (set_successful_sent hid1
        (set_SYNC_rate SYNC_RATE (set_data_rate DATA_SYNC_RATE
        (set_last_recvSYNC t1 (set_last_sent t2 (set_killat (u64 (-1))
        (set_send_counter 0 (set_timeout (u8 (CONNEXION_TIMEOUT + r mod CONNEXION_TIMEOUT))
         conn_zero)))))))))))))) ;;;
      retM connection_id.

Definition new_inconnection (ipp : IP_Port) : M Lossless_UDP Z :=
  l <- getM ;;
  if negb (getconnection_id l ipp =? -1) then retM (-1)
  else
    connection_id <- free_slot ;;
    if connection_id =? -1 then retM (-1)
    else
      put_conn connection_id conn_zero ;;;
      r <- crand ;;
      let timeout := CONNEXION_TIMEOUT + r mod CONNEXION_TIMEOUT in
      t1 <- current_time ;;
      t2 <- current_time ;;
      t3 <- current_time ;;
      put_conn connection_id
        (set_ip_port ipp (set_status 2 (set_inbound 2
        (set_SYNC_rate SYNC_RATE (set_data_rate DATA_SYNC_RATE
        (set_last_recvSYNC t1 (set_last_sent t2 (set_send_counter 127
        (set_timeout (u8 timeout) (set_killat (u64 (t3 + 1000000 * timeout))
         conn_zero)))))))))) ;;;
      retM connection_id.

Definition incoming_connection : M Lossless_UDP Z :=
  l <- getM ;;
  match first_index (fun c => inbound c =? 2) (ta_data (connections l)) with
  | Some i =>
    c <- get_conn (Z.of_nat i) ;;
    put_conn (Z.of_nat i) (set_inbound 1 c) ;;;
    retM (Z.of_nat i)
  | None => retM (-1)
  end.

(** The scan of [free_connections]: [i] runs down from [len], looking at element
    [i]; element [len] is past the end of the array and [oob] is the status byte
    found there, which the C code has no right to read. *)
Fixpoint free_scan (conns : list Connection) (oob : Z) (i : nat) : nat :=
  match i with
  | O => O
  | S k =>
    let st := match conns !! i with Some c => status c | None => oob end in
    if negb (st =? 0) then i else free_scan conns oob k
  end.

(** The first element looked at is past the array, whenever there is a connection. *)
Definition free_connections : M Lossless_UDP unit :=
  l <- getM ;;
  oob <- (if conn_count l =? 0 then retM 0 else over_read) ;;
  let i := free_scan (ta_data (connections l)) oob (length (ta_data (connections l))) in
  if conn_count l =? Z.of_nat i then retM tt
  else
    nomem <- alloc_fails ;;
    modM (fun l => set_connections
                     (tox_array_pop nomem (connections l) (conn_count l - Z.of_nat i)) l).

Definition kill_connection (connection_id : Z) : M Lossless_UDP Z :=
  l <- getM ;;
  if valid_id l connection_id then
    c <- get_conn connection_id ;;
    if 0 <? status c then
      put_conn connection_id (set_status 0 c) ;;;
      change_handshake (ip_port c) ;;;
      put_conn connection_id conn_zero ;;;
      free_connections ;;;
      retM 0
    else retM (-1)
  else retM (-1).

Definition kill_connection_in (connection_id seconds : Z) : M Lossless_UDP Z :=
  l <- getM ;;
  if valid_id l connection_id then
    c <- get_conn connection_id ;;
    if 0 <? status c then
      t <- current_time ;;
      put_conn connection_id (set_killat (u64 (t + 1000000 * seconds)) c) ;;;
      retM 0
    else retM (-1)
  else retM (-1).

Definition is_connected (l : Lossless_UDP) (connection_id : Z) : Z :=
  if valid_id l connection_id then
    match tox_array_get (connections l) connection_id with
    | Some c => status c
    | None => 0
    end
  else 0.

Definition connection_ip (l : Lossless_UDP) (connection_id : Z) : IP_Port :=
  if valid_id l connection_id then
    match tox_array_get (connections l) connection_id with
    | Some c => ip_port c
    | None => ipp_zero
    end
  else ipp_zero.

(** ** Packet queues *)

(** On one connection. *)
Definition sendqueue_conn (c : Connection) : Z := u32 (sendbuff_packetnum c - successful_sent c).
Definition recvqueue_conn (c : Connection) : Z := u32 (recv_packetnum c - successful_read c).

Definition sendqueue (l : Lossless_UDP) (connection_id : Z) : Z :=
  if valid_id l connection_id then
    match tox_array_get (connections l) connection_id with
    | Some c => sendqueue_conn c
    | None => 0
    end
  else 0.

Definition recvqueue (l : Lossless_UDP) (connection_id : Z) : Z :=
  if valid_id l connection_id then
    match tox_array_get (connections l) connection_id with
    | Some c => recvqueue_conn c
    | None => 0
    end
  else 0.

(** The result is a (signed) [char]. *)
Definition id_packet (l : Lossless_UDP) (connection_id : Z) : Z :=
  if negb (valid_id l connection_id) || (recvqueue l connection_id =? 0) then -1
  else
    match tox_array_get (connections l) connection_id with
    | Some c =>
      if negb (status c =? 0)
      then i8 (nth 0 (d_data (buf_get (recvbuffer c) (successful_read c))) 0)
      else -1
    | None => -1
    end.

(** [read_packet] on a connection with a non-empty queue: the bytes copied out and
    the connection after. *)
Definition read_packet_conn (c : Connection) : list Z * Connection :=
  let d := buf_get (recvbuffer c) (successful_read c) in
  (take (Z.to_nat (d_size d)) (d_data d),
   set_recvbuffer (buf_set (recvbuffer c) (successful_read c) (mkData (d_data d) 0))
     (set_successful_read (u32 (successful_read c + 1)) c)).

(** Returns the length and the bytes written to [data]. *)
Definition read_packet (connection_id : Z) : M Lossless_UDP (Z * list Z) :=
  l <- getM ;;
  if recvqueue l connection_id =? 0 then retM (0, [])
  else
    c <- get_conn connection_id ;;
    let size := d_size (buf_get (recvbuffer c) (successful_read c)) in
    let '(data, c') := read_packet_conn c in
    put_conn connection_id c' ;;;
    retM (size, data).

Definition write_packet_conn (c : Connection) (data : list Z) : Connection :=
  let d := buf_get (sendbuffer c) (sendbuff_packetnum c) in
  set_sendbuffer
    (buf_set (sendbuffer c) (sendbuff_packetnum c)
       (mkData (memcpy (d_data d) data (length data)) (Z.of_nat (length data))))
    (set_sendbuff_packetnum (u32 (sendbuff_packetnum c + 1)) c).

(** [data] has [length] bytes. *)
Definition write_packet (connection_id : Z) (data : list Z) : M Lossless_UDP Z :=
  l <- getM ;;
  let length := Z.of_nat (length data) in
  if (MAX_DATA_SIZE <? length) || (length =? 0) || (BUFFER_PACKET_NUM <=? sendqueue l connection_id)
  then retM 0
  else
    c <- get_conn connection_id ;;
    put_conn connection_id (write_packet_conn c data) ;;;
    retM 1.

(** The loop of [missing_packets]: [n] turns from packet number [i]; [acc] is what
    has been written to [requested], an array of [BUFFER_PACKET_NUM] words in the
    only caller; writing past it is undefined behaviour. *)
Fixpoint missing_loop (n : nat) (buf : list Data) (i : Z) (acc : list Z) : option (list Z) :=
  match n with
  | O => Some acc
  | S k =>
    if d_size (buf_get buf i) =? 0 then
      if BUFFER_PACKET_NUM <=? Z.of_nat (length acc) then None
      else missing_loop k buf (u32 (i + 1)) (acc ++ [htonl i])
    else missing_loop k buf (u32 (i + 1)) acc
  end.

(** On one connection: the words written to [requested] and the connection after. *)
Definition missing_packets_conn (c : Connection) : option (list Z * Connection) :=
  if BUFFER_PACKET_NUM - 1 <=? recvqueue_conn c then Some ([], c)
  else
    match missing_loop (Z.to_nat (u32 (osent_packetnum c - recv_packetnum c)))
            (recvbuffer c) (recv_packetnum c) [] with
    | None => None
    | Some req =>
      Some (req, if Z.of_nat (length req) =? 0
                 then set_recv_packetnum (osent_packetnum c) c else c)
    end.

Definition missing_packets (connection_id : Z) : M Lossless_UDP (list Z) :=
  c <- get_conn connection_id ;;
  r <- liftO (missing_packets_conn c) ;;
  put_conn connection_id (snd r) ;;;
  retM (fst r).

(** ** Packet sending *)

Definition handshake_packet (hid1 hid2 : Z) : list Z :=
  [NET_PACKET_HANDSHAKE] ++ le_bytes 4 (htonl hid1) ++ le_bytes 4 (htonl hid2).

Definition send_handshake (ipp : IP_Port) (hid1 hid2 : Z) : M Lossless_UDP Z :=
  sendpacket ipp (handshake_packet hid1 hid2).

Definition SYNC_packet (counter recv_num sent_num : Z) (requested : list Z) : list Z :=
  [NET_PACKET_SYNC] ++ [counter] ++ le_bytes 4 (htonl recv_num) ++ le_bytes 4 (htonl sent_num)
  ++ flat_map (le_bytes 4) requested.

Definition send_SYNC (connection_id : Z) : M Lossless_UDP Z :=
  c <- get_conn connection_id ;;
  requested <- missing_packets connection_id ;;
  sendpacket (ip_port c)
    (SYNC_packet (send_counter c) (recv_packetnum c) (sent_packetnum c) requested).

Definition data_packet (c : Connection) (packet_num : Z) : list Z :=
  let d := buf_get (sendbuffer c) packet_num in
  [NET_PACKET_DATA] ++ le_bytes 4 (htonl packet_num) ++ take (Z.to_nat (d_size d)) (d_data d).

Definition send_data_packet (connection_id packet_num : Z) : M Lossless_UDP Z :=
  c <- get_conn connection_id ;;
  sendpacket (ip_port c) (data_packet c packet_num).

(** Dropping the request just served from [req_packets]. *)
Definition pop_request (c : Connection) : Connection :=
  let n := u16 (num_req_paquets c - 1) in
  let k := Z.to_nat n in
  set_req_packets (take k (drop 1 (req_packets c)) ++ drop k (req_packets c))
    (set_num_req_paquets n c).

Definition send_DATA (connection_id : Z) : M Lossless_UDP Z :=
  c <- get_conn connection_id ;;
  if 0 <? num_req_paquets c then
    ret <- send_data_packet connection_id (nth 0 (req_packets c) 0) ;;
    put_conn connection_id (pop_request c) ;;;
    retM ret
  else if negb (sendbuff_packetnum c =? sent_packetnum c) then
    ret <- send_data_packet connection_id (sent_packetnum c) ;;
    put_conn connection_id (set_sent_packetnum (u32 (sent_packetnum c + 1)) c) ;;;
    retM ret
  else retM 0.

(** ** Packet handling *)

(** Word at offset [off] of a packet, in host order. *)
Definition net_word (packet : list Z) (off : nat) : Z := ntohl (le_val (bytes_at off 4 packet)).

(** The fields [handle_handshake] sets when the answer matches. *)
Definition handshake_accept (hid1 hid2 : Z) (c : Connection) : Connection :=
  set_status 2 (set_orecv_packetnum hid2 (set_osent_packetnum hid1
    (set_recv_packetnum hid1 (set_successful_read hid1 c)))).

Definition handle_handshake (source : IP_Port) (packet : list Z) : M Lossless_UDP Z :=
  if negb (Z.of_nat (length packet) =? 1 + 4 + 4) then retM 1
  else
    l <- getM ;;
    let connection_id := getconnection_id l source in
    let hid1 := net_word packet 1 in
    let hid2 := net_word packet 5 in
    if (hid2 =? 0) && (is_connected l connection_id <? 3) then
      id <- handshake_id source ;;
      send_handshake source id hid1 ;;;
      retM 0
    else if negb (is_connected l connection_id =? 1) then retM 1
    else
      c <- get_conn connection_id ;;
      (if hid2 =? handshake_id1 c
       then put_conn connection_id (handshake_accept hid1 hid2 c)
       else retM tt) ;;;
      retM 0.

Definition SYNC_valid (length : Z) : bool :=
  if length <? 4 + 4 + 2 then false
  else if (BUFFER_PACKET_NUM * 4 + 4 + 4 + 2 <? length)
          || negb ((length - 4 - 4 - 2) mod 4 =? 0) then false
  else true.

Definition SYNC1_conn (recv_num sent_num : Z) (c : Connection) : Connection :=
  set_orecv_packetnum recv_num (set_sent_packetnum recv_num
  (set_sendbuff_packetnum recv_num (set_successful_sent recv_num
  (set_osent_packetnum sent_num (set_recv_packetnum sent_num
  (set_successful_read sent_num c)))))).

Definition handle_SYNC1 (source : IP_Port) (recv_num sent_num : Z) : M Lossless_UDP Z :=
  id <- handshake_id source ;;
  if id =? recv_num then
    connection_id <- new_inconnection source ;;
    if negb (connection_id =? -1) then
      c <- get_conn connection_id ;;
      put_conn connection_id (SYNC1_conn recv_num sent_num c) ;;;
      retM connection_id
    else retM (-1)
  else retM (-1).

Definition SYNC2_conn (counter : Z) (c : Connection) : Connection :=
  set_status 3 (set_recv_counter counter (set_send_counter (u8 (send_counter c + 1)) c)).

Definition handle_SYNC2 (connection_id counter recv_num sent_num : Z) : M Lossless_UDP Z :=
  c <- get_conn connection_id ;;
  if recv_num =? orecv_packetnum c then
    put_conn connection_id (SYNC2_conn counter c) ;;;
    send_SYNC connection_id ;;;
    retM 0
  else retM 1.

(** [n] words read past the end of an object. *)
Fixpoint over_read_words {S} (n : nat) : M S (list Z) :=
  match n with
  | O => retM []
  | Datatypes.S k => b <- over_reads 4 ;; r <- over_read_words k ;; retM (le_val b :: r)
  end.

(** The copy loop of [handle_SYNC3]: turn [i] copies [number] words from the
    address of [temp], one word long, to [req_packets + i]: the words after the
    first are read past [temp], whatever follows it on the stack, and a copy that ends past
    [req_packets] is undefined behaviour. *)
Fixpoint req_copy (idx : list nat) (number : nat) (req : list Z) (dst : list Z)
  : M Lossless_UDP (list Z) :=
  match idx with
  | [] => retM dst
  | i :: r =>
    let temp := ntohl (nth i req 0) in
    junk <- over_read_words (number - 1) ;;
    if BUFFER_PACKET_NUM <? Z.of_nat (i + number) then ubM
    else req_copy r number req (take i dst ++ [temp] ++ junk ++ drop (i + number) dst)
  end.

(** The acceptance test of [handle_SYNC3]. *)
Definition SYNC3_ok (c : Connection) (counter recv_num sent_num : Z) : bool :=
  let comp_counter := u8 (counter - recv_counter c) in
  let comp_1 := u32 (recv_num - orecv_packetnum c) in
  let comp_2 := u32 (sent_num - osent_packetnum c) in
  (comp_1 <=? BUFFER_PACKET_NUM) && (comp_2 <=? BUFFER_PACKET_NUM)
  && (comp_counter <? 10) && negb (comp_counter =? 0).

Definition SYNC3_conn (counter recv_num sent_num now : Z) (c : Connection) : Connection :=
  set_orecv_packetnum recv_num (set_osent_packetnum sent_num
  (set_successful_sent recv_num (set_last_recvSYNC now
  (set_recv_counter counter (set_send_counter (u8 (send_counter c + 1)) c))))).

(** [req] holds the [number] words of the packet, as they are in memory. *)
Definition handle_SYNC3 (connection_id counter recv_num sent_num : Z) (req : list Z)
  : M Lossless_UDP Z :=
  c <- get_conn connection_id ;;
  if SYNC3_ok c counter recv_num sent_num then
    now <- current_time ;;
    let c1 := SYNC3_conn counter recv_num sent_num now c in
    let number := length req in
    dst <- req_copy (seq 0 number) number req (req_packets c1) ;;
    put_conn connection_id
      (set_num_req_paquets (Z.of_nat number) (set_req_packets dst c1)) ;;;
    retM 0
  else retM 1.

(** The request words of a SYNC packet, uninterpreted. *)
Definition SYNC_requests (packet : list Z) : list Z :=
  let number := Z.to_nat ((Z.of_nat (length packet) - 4 - 4 - 2) / 4) in
  map (fun k => le_val (bytes_at (10 + 4 * k) 4 packet)) (seq 0 number).

Definition handle_SYNC (source : IP_Port) (packet : list Z) : M Lossless_UDP Z :=
  if negb (SYNC_valid (Z.of_nat (length packet))) then retM 1
  else
    let counter := nth 1 packet 0 in
    let recv_num := net_word packet 2 in
    let sent_num := net_word packet 6 in
    let req := SYNC_requests packet in
    l <- getM ;;
    let connection_id := getconnection_id l source in
    if connection_id =? -1 then handle_SYNC1 source recv_num sent_num
    else
      c <- get_conn connection_id ;;
      if status c =? 2 then handle_SYNC2 connection_id counter recv_num sent_num
      else if status c =? 3 then handle_SYNC3 connection_id counter recv_num sent_num req
      else retM 0.

(** First loop of [add_recv]: is [data_num] one of the [n] numbers from [i]? *)
Fixpoint recv_find (n : nat) (i data_num : Z) : bool :=
  match n with
  | O => false
  | S k => if i =? data_num then true else recv_find k (u32 (i + 1)) data_num
  end.

(** Second loop of [add_recv]: the value of [recv_packetnum] after it. *)
Fixpoint recv_advance (n : nat) (buf : list Data) (i recv : Z) : Z :=
  match n with
  | O => recv
  | S k =>
    if negb (d_size (buf_get buf i) =? 0) then recv_advance k buf (u32 (i + 1)) i
    else recv
  end.

(** Storing a packet in the receive buffer. *)
Definition store_recv (data_num : Z) (data : list Z) (now : Z) (c : Connection) : Connection :=
  let d := buf_get (recvbuffer c) data_num in
  let sent_packet := u32 (data_num - osent_packetnum c) in
  let c1 := set_recvbuffer
              (buf_set (recvbuffer c) data_num
                 (mkData (memcpy (d_data d) data (length data)) (Z.of_nat (length data))))
              (set_last_recvdata now c) in
  if sent_packet <? BUFFER_PACKET_NUM then set_osent_packetnum data_num c1 else c1.

Definition advance_recv (c : Connection) : Connection :=
  let maxnum := u32 (successful_read c + BUFFER_PACKET_NUM) in
  set_recv_packetnum
    (recv_advance (Z.to_nat (u32 (maxnum - recv_packetnum c))) (recvbuffer c)
       (recv_packetnum c) (recv_packetnum c)) c.

Definition add_recv (connection_id data_num : Z) (data : list Z) : M Lossless_UDP Z :=
  if MAX_DATA_SIZE <? Z.of_nat (length data) then retM 1
  else
    c <- get_conn connection_id ;;
    let maxnum := u32 (successful_read c + BUFFER_PACKET_NUM) in
    (if recv_find (Z.to_nat (u32 (maxnum - recv_packetnum c))) (recv_packetnum c) data_num
     then now <- current_time ;; put_conn connection_id (store_recv data_num data now c)
     else retM tt) ;;;
    c <- get_conn connection_id ;;
    put_conn connection_id (advance_recv c) ;;;
    retM 0.

Definition handle_data (source : IP_Port) (packet : list Z) : M Lossless_UDP Z :=
  l <- getM ;;
  let connection_id := getconnection_id l source in
  if connection_id =? -1 then retM 1
  else
    c <- get_conn connection_id ;;
    if negb (status c =? 3) then retM 1
    else if (1 + 4 + MAX_DATA_SIZE <? Z.of_nat (length packet))
            || (Z.of_nat (length packet) <? 1 + 4 + 1) then retM 1
    else add_recv connection_id (net_word packet 1) (drop 5 packet).

(** ** Main loop *)

Definition new_lossless_udp (n : Networking_Core) : Lossless_UDP :=
  let n1 := networking_registerhandler n NET_PACKET_HANDSHAKE handle_handshake_cb in
  let n2 := networking_registerhandler n1 NET_PACKET_SYNC handle_SYNC_cb in
  let n3 := networking_registerhandler n2 NET_PACKET_DATA handle_data_cb in
  mkLudp n3 tox_array_init (replicate 6 (zeros 256)).

Definition kill_lossless_udp (l : Lossless_UDP) : Lossless_UDP :=
  set_connections (tox_array_delete (connections l)) l.

(** [1000000UL / rate]; dividing by zero is undefined behaviour. *)
Definition interval (rate : Z) : M Lossless_UDP Z :=
  if rate =? 0 then ubM else retM (1000000 / rate).

(** [tox_array_for_each]: the bound is read again at every turn. *)
Fixpoint each_conn (fuel : nat) (i : Z) (body : Z -> M Lossless_UDP unit) : M Lossless_UDP unit :=
  l <- getM ;;
  if i <? conn_count l then
    match fuel with
    | O => ubM
    | S f => body i ;;; each_conn f (i + 1) body
    end
  else retM tt.

Definition for_each_conn (body : Z -> M Lossless_UDP unit) : M Lossless_UDP unit :=
  l <- getM ;; each_conn (length (ta_data (connections l))) 0 body.

Definition do_new_conn (temp_time i : Z) : M Lossless_UDP unit :=
  c <- get_conn i ;;
  due <- (if status c =? 1
          then step <- interval (SYNC_rate c) ;; retM (u64 (last_sent c + step) <=? temp_time)
          else retM false) ;;
  (if (due : bool) then
     send_handshake (ip_port c) (handshake_id1 c) 0 ;;;
     put_conn i (set_last_sent temp_time c)
   else retM tt) ;;;
  c <- get_conn i ;;
  (if (0 <? status c) && (u64 (last_recvSYNC c + timeout c * 1000000) <? temp_time)
      && negb (status c =? 4)
   then put_conn i (set_status 4 c)
   else retM tt) ;;;
  c <- get_conn i ;;
  if (0 <? status c) && (killat c <? temp_time)
  then kill_connection i ;;; retM tt
  else retM tt.

Definition do_new : M Lossless_UDP unit :=
  temp_time <- current_time ;; for_each_conn (do_new_conn temp_time).

Definition do_SYNC_conn (temp_time i : Z) : M Lossless_UDP unit :=
  c <- get_conn i ;;
  if (status c =? 2) || (status c =? 3) then
    step <- interval (SYNC_rate c) ;;
    if u64 (last_SYNC c + step) <=? temp_time then
      send_SYNC i ;;;
      c <- get_conn i ;;
      put_conn i (set_last_SYNC temp_time c)
    else retM tt
  else retM tt.

Definition do_SYNC : M Lossless_UDP unit :=
  temp_time <- current_time ;; for_each_conn (do_SYNC_conn temp_time).

(** The inner loop of [do_data]. *)
Fixpoint send_data_loop (fuel : nat) (i j temp_time : Z) : M Lossless_UDP unit :=
  if j <? temp_time then
    match fuel with
    | O => ubM
    | S f =>
      send_DATA i ;;;
      c <- get_conn i ;;
      step <- interval (data_rate c) ;;
      send_data_loop f i (u64 (j + step)) temp_time
    end
  else retM tt.

(** [data_rate] is a 16-bit number, so that each turn of the inner loop moves [j]
    by at least 15 microseconds: the fuel is the number of turns. *)
Definition do_data_conn (temp_time i : Z) : M Lossless_UDP unit :=
  c <- get_conn i ;;
  l <- getM ;;
  if (status c =? 3) && negb (sendqueue l i =? 0) then
    step <- interval (data_rate c) ;;
    if u64 (last_sent c + step) <=? temp_time then
      send_data_loop (Z.to_nat ((temp_time - last_sent c) / Z.max 1 step + 1)) i (last_sent c)
        temp_time ;;;
      c <- get_conn i ;;
      put_conn i (set_last_sent temp_time c)
    else retM tt
  else retM tt.

Definition do_data : M Lossless_UDP unit :=
  temp_time <- current_time ;; for_each_conn (do_data_conn temp_time).

Definition adjust_rates_conn (temp_time i : Z) : M Lossless_UDP unit :=
  c <- get_conn i ;;
  l <- getM ;;
  let c1 := if (status c =? 1) || (status c =? 2) then set_SYNC_rate MAX_SYNC_RATE c else c in
  let c2 :=
    if status c1 =? 3 then
      if negb (sendqueue l i =? 0) then
        set_data_rate (u16 ((BUFFER_PACKET_NUM - num_req_paquets c1) * MAX_SYNC_RATE))
          (set_SYNC_rate MAX_SYNC_RATE c1)
      else if temp_time <? u64 (last_recvdata c1 + 1000000) then set_SYNC_rate MAX_SYNC_RATE c1
      else set_SYNC_rate SYNC_RATE c1
    else c1 in
  put_conn i c2.

Definition adjust_rates : M Lossless_UDP unit :=
  temp_time <- current_time ;; for_each_conn (adjust_rates_conn temp_time).

Definition do_lossless_udp : M Lossless_UDP unit :=
  do_new ;;; do_SYNC ;;; do_data ;;; adjust_rates.
