(* ===== verification/LosslessInv.v ===== *)
(** * Lossless_UDP: the connection invariant

    The receive window of a connection: which slots of [recvbuffer] are filled,
    how far [recv_packetnum] may be ahead of [successful_read]; and that every
    operation of the module keeps it, whatever packets arrive. *)

From S2P Require Import Prelude MiscTools Network LosslessUDP.
Local Open Scope Z_scope.
Local Open Scope tox_scope.

(** ** Slots of the packet buffers *)

Lemma slot_lt i : (slot i < 16)%nat.
Proof. unfold slot, MAX_QUEUE_NUM. lia. Qed.

Lemma slot_u32 i : slot (u32 i) = slot i.
Proof. unfold slot, u32, MAX_QUEUE_NUM. f_equal. lia. Qed.

Lemma slot_u32_add i k : slot (u32 i + k) = slot (i + k).
Proof. unfold slot, u32, MAX_QUEUE_NUM. f_equal. lia. Qed.

Lemma slot_eq i j : slot i = slot j <-> i mod 16 = j mod 16.
Proof. unfold slot, MAX_QUEUE_NUM. lia. Qed.

Lemma slot_add_eq i a b : slot (i + a) = slot (i + b) <-> a mod 16 = b mod 16.
Proof. rewrite slot_eq. lia. Qed.

Lemma buf_get_set_eq buf i j d :
  length buf = 16%nat -> slot i = slot j -> buf_get (buf_set buf i d) j = d.
Proof.
  intros Hlen Hs. unfold buf_get, buf_set. rewrite Hs, nth_lookup.
  rewrite list_lookup_insert_eq; [done|]. pose proof (slot_lt j). lia.
Qed.

Lemma buf_get_set_ne buf i j d :
  slot i <> slot j -> buf_get (buf_set buf i d) j = buf_get buf j.
Proof. intros H. unfold buf_get, buf_set. by rewrite !nth_lookup, list_lookup_insert_ne. Qed.

Lemma buf_get_u32 buf i : buf_get buf (u32 i) = buf_get buf i.
Proof. unfold buf_get. by rewrite slot_u32. Qed.

Lemma buf_get_slot buf i j : slot i = slot j -> buf_get buf i = buf_get buf j.
Proof. unfold buf_get. by intros ->. Qed.

Definition filled (buf : list Data) (i : Z) : Prop := d_size (buf_get buf i) <> 0.

Lemma not_filled buf i : ~ filled buf i <-> d_size (buf_get buf i) = 0.
Proof. unfold filled. lia. Qed.

Lemma filled_slot buf i j : slot i = slot j -> filled buf i <-> filled buf j.
Proof. intros H. unfold filled. by rewrite (buf_get_slot _ _ _ H). Qed.

(** ** What the loops compute *)

(** The packet numbers [missing_packets] finds missing among the [n] from [i]. *)
Fixpoint missing_nums (n : nat) (buf : list Data) (i : Z) : list Z :=
  match n with
  | O => []
  | S k => if d_size (buf_get buf i) =? 0 then i :: missing_nums k buf (u32 (i + 1))
           else missing_nums k buf (u32 (i + 1))
  end.

Lemma missing_loop_spec n buf i acc :
  (length acc <= 15)%nat ->
  missing_loop n buf i acc =
  if (length acc + length (missing_nums n buf i) <=? 15)%nat
  then Some (acc ++ map htonl (missing_nums n buf i)) else None.
Proof.
  revert i acc. induction n as [|n IH]; intros i acc Hacc; simpl.
  { rewrite Nat.add_0_r, app_nil_r. by apply Nat.leb_le in Hacc as ->. }
  unfold BUFFER_PACKET_NUM. destruct (Z.eqb_spec (d_size (buf_get buf i)) 0) as [E|E].
  - destruct (Z.leb_spec (16 - 1) (Z.of_nat (length acc))).
    + simpl. by destruct (Nat.leb_spec (length acc + S (length (missing_nums n buf (u32 (i + 1))))) 15); [lia|].
    + rewrite IH by (rewrite length_app; simpl; lia). rewrite length_app. simpl.
      rewrite <- app_assoc. simpl.
      by replace (length acc + 1 + length (missing_nums n buf (u32 (i + 1))))%nat
        with (length acc + S (length (missing_nums n buf (u32 (i + 1)))))%nat by lia.
  - by apply IH.
Qed.

Lemma missing_nums_nil n buf i :
  missing_nums n buf i = [] -> forall k, 0 <= k < Z.of_nat n -> filled buf (i + k).
Proof.
  revert i. induction n as [|n IH]; intros i H k Hk; [lia|].
  simpl in H. destruct (Z.eqb_spec (d_size (buf_get buf i)) 0); [done|].
  destruct (decide (k = 0)) as [->|]; [by rewrite Z.add_0_r|].
  specialize (IH _ H (k - 1) ltac:(lia)). unfold filled in *.
  rewrite (buf_get_slot _ (i + k) (u32 (i + 1) + (k - 1))); [done|].
  rewrite slot_u32_add. f_equal. lia.
Qed.

Lemma missing_nums_elem n buf i x :
  x ∈ missing_nums n buf i -> is_u32 i ->
  exists k, 0 <= k < Z.of_nat n /\ x = u32 (i + k) /\ ~ filled buf x.
Proof.
  revert i. induction n as [|n IH]; intros i H Hi; simpl in H; [set_solver|].
  assert (Hrec : x ∈ missing_nums n buf (u32 (i + 1)) ->
    exists k, 0 <= k < Z.of_nat (S n) /\ x = u32 (i + k) /\ ~ filled buf x).
  { intros H'. apply IH in H' as (k & Hk & -> & Hf); [|by auto with tox].
    exists (k + 1). split_and!; [lia|lia|uarith|done]. }
  destruct (Z.eqb_spec (d_size (buf_get buf i)) 0) as [E|E]; [|by auto].
  apply elem_of_cons in H as [->|H]; [|by auto].
  exists 0. split_and!; [lia|lia|uarith|]. by apply not_filled.
Qed.

Lemma recv_find_spec n i x :
  is_u32 i -> recv_find n i x = true <-> exists k, 0 <= k < Z.of_nat n /\ x = u32 (i + k).
Proof.
  revert i. induction n as [|n IH]; intros i Hi; simpl.
  { split; [done|]. intros (k & ? & _). lia. }
  destruct (Z.eqb_spec i x) as [<-|Hne].
  { split; [|done]. intros _. exists 0. split; [lia|uarith]. }
  rewrite IH by auto with tox. split.
  - intros (k & ? & ->). exists (k + 1). split; [lia|uarith].
  - intros (k & Hk & ->). exists (k - 1). split; [|uarith].
    destruct (decide (k = 0)) as [->|]; [|lia]. destruct Hne. uarith.
Qed.

(** [recv_advance] stops at the last filled slot of the run that starts at [i]. *)
Lemma recv_advance_spec n buf i recv :
  is_u32 i ->
  (recv_advance n buf i recv = recv /\ (n = O \/ ~ filled buf i)) \/
  (exists k, 0 <= k < Z.of_nat n /\ recv_advance n buf i recv = u32 (i + k) /\
     (forall j, 0 <= j <= k -> filled buf (i + j)) /\
     (k = Z.of_nat n - 1 \/ ~ filled buf (i + k + 1))).
Proof.
  revert i recv. induction n as [|n IH]; intros i recv Hi; simpl; [by auto|].
  destruct (Z.eqb_spec (d_size (buf_get buf i)) 0) as [E|E]; simpl.
  { left. split; [done|]. right. by apply not_filled. }
  right. destruct (IH (u32 (i + 1)) i) as [(-> & Hs)|(k & Hk & -> & Hf & Hs)]; [by auto with tox| |].
  - exists 0. split_and!; [lia|lia|uarith| |].
    + intros j Hj. replace (i + j) with i by lia. done.
    + destruct Hs as [->|Hs]; [by left|right].
      unfold filled in *. by rewrite buf_get_u32, <- (Z.add_0_r i) in Hs.
  - exists (k + 1). split_and!; [lia|lia|uarith| |].
    + intros j Hj. destruct (decide (j = 0)) as [->|]; [by rewrite Z.add_0_r|].
      specialize (Hf (j - 1) ltac:(lia)). unfold filled in *.
      rewrite (buf_get_slot _ (i + j) (u32 (i + 1) + (j - 1))); [done|].
      rewrite slot_u32_add. f_equal. lia.
    + destruct Hs as [->|Hs]; [left; lia|right]. unfold filled in *.
      rewrite (buf_get_slot _ _ (u32 (i + 1) + k + 1)); [done|].
      rewrite <- (Z.add_assoc (u32 _)), slot_u32_add. f_equal. lia.
Qed.

(** ** The invariant of one connection *)

Definition data_ok (d : Data) : Prop := length (d_data d) = 1024%nat /\ 0 <= d_size d <= 1024.

Definition buf_ok (buf : list Data) : Prop := length buf = 16%nat /\ Forall data_ok buf.

Record conn_wf (c : Connection) : Prop := {
  wf_recv_u32 : is_u32 (recv_packetnum c);
  wf_read_u32 : is_u32 (successful_read c);
  wf_osent_u32 : is_u32 (osent_packetnum c);
  wf_sendbuff_u32 : is_u32 (sendbuff_packetnum c);
  wf_sent_u32 : is_u32 (sent_packetnum c);
  wf_ssent_u32 : is_u32 (successful_sent c);
  wf_sendbuf : buf_ok (sendbuffer c);
  wf_recvbuf : buf_ok (recvbuffer c);
  wf_reqs : length (req_packets c) = 15%nat /\ 0 <= num_req_paquets c <= 8;
  (** At most 15 packets are ready to be read ... *)
  wf_window : recvqueue_conn c <= 15;
  (** ... each of them is in its slot ... *)
  wf_filled : forall k, 0 <= k < recvqueue_conn c ->
    filled (recvbuffer c) (successful_read c + k);
  (** ... and the slot of the 16th, which is the one before the next to read, is empty. *)
  wf_gap : ~ filled (recvbuffer c) (successful_read c + 15);
  (** Nothing has been received before the connection is established. *)
  wf_fresh : status c = 1 \/ status c = 2 ->
    recv_packetnum c = successful_read c /\ osent_packetnum c = successful_read c /\
    forall i, ~ filled (recvbuffer c) i;
  wf_status : 0 <= status c <= 4;
  wf_last_sent : is_u64 (last_sent c);
  (** The send rates never are zero. *)
  wf_rates : status c <> 0 -> 0 < SYNC_rate c < 65536 /\ 0 < data_rate c < 65536
}.

(** Unfolds the invariant, leaving the fields an update touches. *)
Ltac conn_wf_cases H :=
  destruct H; constructor; unfold recvqueue_conn in *; simpl in *; auto.

Arguments zeros : simpl never.
Arguments data_zero : simpl never.

Lemma data_zero_ok : data_ok data_zero.
Proof. split; [apply length_zeros|simpl; lia]. Qed.

Lemma zero_not_filled i : ~ filled (replicate (Z.to_nat MAX_QUEUE_NUM) data_zero) i.
Proof.
  apply not_filled. unfold buf_get. rewrite nth_lookup.
  rewrite lookup_replicate_2; [done|apply slot_lt].
Qed.

Lemma conn_zero_wf : conn_wf conn_zero.
Proof.
  assert (buf_ok (replicate (Z.to_nat MAX_QUEUE_NUM) data_zero)).
  { split; [done|]. apply Forall_replicate, data_zero_ok. }
  unfold conn_zero. constructor; unfold recvqueue_conn; cbn [recv_packetnum successful_read
    osent_packetnum sendbuff_packetnum sent_packetnum successful_sent sendbuffer recvbuffer
    req_packets num_req_paquets status SYNC_rate data_rate last_sent]; try (uarith || done).
  apply zero_not_filled.
Qed.

Lemma buf_get_ok buf i : buf_ok buf -> data_ok (buf_get buf i).
Proof.
  intros [Hlen Hall]. unfold buf_get. rewrite nth_lookup.
  destruct (lookup_lt_is_Some_2 buf (slot i)) as [d Hd]; [pose proof (slot_lt i); lia|].
  rewrite Hd. by eapply Forall_lookup_1.
Qed.

Lemma buf_set_ok buf i d : buf_ok buf -> data_ok d -> buf_ok (buf_set buf i d).
Proof.
  intros [Hlen Hall] Hd. split; [unfold buf_set; by rewrite length_insert|].
  by apply Forall_insert.
Qed.

Lemma memcpy_ok d data :
  data_ok d -> (length data <= 1024)%nat ->
  data_ok (mkData (memcpy (d_data d) data (length data)) (Z.of_nat (length data))).
Proof.
  intros [Hl _] Hd. split; simpl; [|lia]. unfold memcpy.
  rewrite length_app, firstn_all, length_drop. lia.
Qed.

(** *** Reading *)

Lemma read_packet_conn_wf c :
  conn_wf c -> recvqueue_conn c <> 0 -> conn_wf (snd (read_packet_conn c)).
Proof.
  intros H Hq. pose proof (wf_recvbuf _ H) as Hb. destruct (Hb) as [Hlen _].
  pose proof (wf_read_u32 _ H). pose proof (wf_recv_u32 _ H). pose proof (wf_window _ H).
  set (d := mkData (d_data (buf_get (recvbuffer c) (successful_read c))) 0).
  assert (Hd : data_ok d) by (destruct (buf_get_ok _ (successful_read c) Hb); split; simpl; auto; lia).
  unfold recvqueue_conn in *.
  assert (Hq' : u32 (recv_packetnum c - u32 (successful_read c + 1))
                = u32 (recv_packetnum c - successful_read c) - 1) by uarith.
  conn_wf_cases H; fold d.
  - uarith.
  - by apply buf_set_ok.
  - lia.
  - intros k Hk. rewrite Hq' in Hk. specialize (wf_filled0 (k + 1) ltac:(lia)).
    unfold filled in *. rewrite buf_get_set_ne.
    + rewrite (buf_get_slot _ _ (successful_read c + (k + 1))); [done|].
      rewrite slot_u32_add. f_equal. lia.
    + rewrite slot_u32_add. rewrite slot_eq. lia.
  - apply not_filled. rewrite buf_get_set_eq; [done..|]. rewrite slot_u32_add, slot_eq. lia.
  - intros Hs. destruct (wf_fresh0 Hs) as (? & _). exfalso. apply Hq. uarith.
Qed.

(** Under the invariant a packet that is read is not empty. *)
Lemma read_packet_conn_size c :
  conn_wf c -> recvqueue_conn c <> 0 ->
  0 < d_size (buf_get (recvbuffer c) (successful_read c)) <= 1024.
Proof.
  intros H Hq. pose proof (wf_filled _ H 0) as Hf. rewrite Z.add_0_r in Hf.
  pose proof (buf_get_ok _ (successful_read c) (wf_recvbuf _ H)) as [_ ?].
  unfold filled in Hf. unfold recvqueue_conn in *.
  assert (d_size (buf_get (recvbuffer c) (successful_read c)) <> 0) by (apply Hf; uarith). lia.
Qed.

(** *** Writing *)

Lemma write_packet_conn_wf c data :
  conn_wf c -> (length data <= 1024)%nat -> conn_wf (write_packet_conn c data).
Proof.
  intros H Hd. unfold write_packet_conn. pose proof (wf_sendbuf _ H) as Hb.
  conn_wf_cases H; [uarith|].
  apply buf_set_ok; [done|]. apply memcpy_ok; [by apply buf_get_ok|done].
Qed.

(** *** Requesting what is missing *)

Lemma missing_packets_conn_wf c req c' :
  conn_wf c -> missing_packets_conn c = Some (req, c') -> conn_wf c'.
Proof.
  intros H. unfold missing_packets_conn, BUFFER_PACKET_NUM.
  destruct (Z.leb_spec (16 - 1 - 1) (recvqueue_conn c)); [by intros [= <- <-]|].
  rewrite missing_loop_spec by (simpl; lia).
  set (n := Z.to_nat _). destruct (_ <=? 15)%nat eqn:E; [|done].
  intros [= <- <-]. rewrite length_map.
  destruct (Z.eqb_spec (Z.of_nat (length (missing_nums n (recvbuffer c) (recv_packetnum c)))) 0)
    as [Hz|]; [|done].
  assert (Hf : forall k, 0 <= k < Z.of_nat n -> filled (recvbuffer c) (recv_packetnum c + k)).
  { apply missing_nums_nil. destruct (missing_nums _ _ _); [done|simpl in Hz; lia]. }
  pose proof (wf_recv_u32 _ H). pose proof (wf_read_u32 _ H). pose proof (wf_osent_u32 _ H).
  pose proof (wf_gap _ H) as Hgap. unfold recvqueue_conn in *.
  (* the run of filled slots stops before the empty one *)
  assert (Hn : u32 (osent_packetnum c - successful_read c)
               = u32 (recv_packetnum c - successful_read c) + Z.of_nat n
               /\ u32 (recv_packetnum c - successful_read c) + Z.of_nat n <= 15).
  { assert (~ 15 - u32 (recv_packetnum c - successful_read c) < Z.of_nat n).
    { intros Hlt. apply Hgap.
      specialize (Hf (15 - u32 (recv_packetnum c - successful_read c)) ltac:(uarith)).
      eapply filled_slot; [|apply Hf]. rewrite slot_eq. uarith. }
    subst n. uarith. }
  destruct Hn as [Hn1 Hn2].
  conn_wf_cases H.
  - lia.
  - intros k Hk. destruct (decide (k < u32 (recv_packetnum c - successful_read c))).
    { apply wf_filled0. lia. }
    specialize (Hf (k - u32 (recv_packetnum c - successful_read c)) ltac:(lia)).
    eapply filled_slot; [|apply Hf]. rewrite slot_eq. uarith.
  - intros Hs. destruct (wf_fresh0 Hs) as (? & ? & ?). split_and!; done.
Qed.

(** *** Receiving *)

Lemma store_recv_wf c data_num data now :
  conn_wf c -> (0 < length data <= 1024)%nat -> status c <> 1 -> status c <> 2 ->
  (exists k, 0 <= k < 15 - recvqueue_conn c /\ data_num = u32 (recv_packetnum c + k)) ->
  conn_wf (store_recv data_num data now c).
Proof.
  intros H Hd Hs1 Hs2 (k & Hk & Hnum).
  pose proof (wf_recvbuf _ H) as Hb. destruct (Hb) as [Hlen _].
  pose proof (wf_read_u32 _ H). pose proof (wf_recv_u32 _ H). pose proof (wf_window _ H).
  assert (is_u32 data_num) by (subst; auto with tox).
  set (d := mkData (memcpy (d_data (buf_get (recvbuffer c) data_num)) data (length data))
              (Z.of_nat (length data))).
  assert (Hdok : data_ok d) by (apply memcpy_ok; [by apply buf_get_ok|lia]).
  assert (Hnz : d_size d <> 0) by (simpl; lia).
  assert (Hoff : slot data_num = slot (successful_read c + (recvqueue_conn c + k))).
  { rewrite slot_eq. unfold recvqueue_conn in *. uarith. }
  assert (Hwf' : conn_wf (set_recvbuffer (buf_set (recvbuffer c) data_num d)
                            (set_last_recvdata now c))).
  { conn_wf_cases H; try tauto.
    - by apply buf_set_ok.
    - intros j Hj. unfold filled in *. rewrite buf_get_set_ne; [by apply wf_filled0|].
      rewrite Hoff, slot_add_eq. uarith.
    - apply not_filled. rewrite buf_get_set_ne; [by apply not_filled|].
      rewrite Hoff, slot_add_eq. uarith. }
  unfold store_recv. fold d. case_if; [|done].
  clear H. conn_wf_cases Hwf'. tauto.
Qed.

Lemma advance_recv_wf c :
  conn_wf c -> status c <> 1 -> status c <> 2 -> conn_wf (advance_recv c).
Proof.
  intros H Hs1 Hs2. pose proof (wf_read_u32 _ H). pose proof (wf_recv_u32 _ H).
  pose proof (wf_window _ H). unfold advance_recv, BUFFER_PACKET_NUM.
  set (n := Z.to_nat _).
  assert (Hn : Z.of_nat n = 15 - recvqueue_conn c)
    by (subst n; unfold recvqueue_conn in *; uarith).
  destruct (recv_advance_spec n (recvbuffer c) (recv_packetnum c) (recv_packetnum c))
    as [(-> & _)|(k & Hk & -> & Hf & _)]; [done| |].
  { by conn_wf_cases H. }
  assert (Hq : u32 (u32 (recv_packetnum c + k) - successful_read c) = recvqueue_conn c + k)
    by (unfold recvqueue_conn in *; uarith).
  conn_wf_cases H; try tauto.
  - auto with tox.
  - lia.
  - intros j Hj. destruct (decide (j < u32 (recv_packetnum c - successful_read c))).
    { apply wf_filled0. lia. }
    specialize (Hf (j - u32 (recv_packetnum c - successful_read c)) ltac:(lia)).
    eapply filled_slot; [|apply Hf]. rewrite slot_eq. uarith.
Qed.

(** *** Handshakes and SYNC packets *)

Lemma handshake_accept_wf hid1 hid2 c :
  conn_wf c -> is_u32 hid1 -> status c = 1 -> conn_wf (handshake_accept hid1 hid2 c).
Proof.
  intros H Hid Hs. destruct (wf_fresh _ H) as (_ & _ & Hnf); [by auto|].
  destruct (wf_rates _ H) as [??]; [lia|].
  conn_wf_cases H.
  - uarith.
  - intros k Hk. exfalso. uarith.
  - lia.
Qed.

Lemma SYNC1_conn_wf recv_num sent_num c :
  conn_wf c -> is_u32 recv_num -> is_u32 sent_num -> status c = 2 ->
  conn_wf (SYNC1_conn recv_num sent_num c).
Proof.
  intros H Hr Hs Hst. destruct (wf_fresh _ H) as (_ & _ & Hnf); [by auto|].
  conn_wf_cases H.
  - uarith.
  - intros k Hk. exfalso. uarith.
Qed.

Lemma SYNC3_conn_wf counter recv_num sent_num now c :
  conn_wf c -> is_u32 recv_num -> is_u32 sent_num -> status c = 3 ->
  conn_wf (SYNC3_conn counter recv_num sent_num now c).
Proof. intros H Hr Hs Hst. conn_wf_cases H. lia. Qed.

Lemma pop_request_wf c :
  conn_wf c -> 0 < num_req_paquets c -> conn_wf (pop_request c).
Proof.
  intros H Hn. pose proof (wf_reqs _ H) as [Hl Hb]. unfold pop_request.
  assert (E : u16 (num_req_paquets c - 1) = num_req_paquets c - 1) by uarith.
  conn_wf_cases H. rewrite E, length_app, length_take, !length_drop. split; lia.
Qed.
