(* ===== verification/LosslessSafe.v ===== *)
(** * Lossless_UDP: the operations keep the invariant

    The invariant of the whole module, and for every function of Lossless_UDP.c
    that it is kept: by [wp] for those that never run into undefined behaviour
    from a well-formed state, by [wlp] for the others. *)

From S2P Require Import Prelude MiscTools Network LosslessUDP LosslessInv.
Local Open Scope Z_scope.
Local Open Scope tox_scope.

Definition table_ok (t : list (list Z)) : Prop :=
  length t = 6%nat /\ Forall (fun row => length row = 256%nat /\ Forall is_u32 row) t.

(** Two live connections never have the same address. *)
Definition addr_unique (conns : list Connection) : Prop :=
  forall i j ci cj, conns !! i = Some ci -> conns !! j = Some cj ->
    status ci <> 0 -> status cj <> 0 -> ipp_eq (ip_port ci) (ip_port cj) = true -> i = j.

Record ludp_wf (l : Lossless_UDP) : Prop := {
  lw_conns : Forall conn_wf (ta_data (connections l));
  lw_unique : addr_unique (ta_data (connections l));
  lw_table : table_ok (randtable l)
}.

Definition conn_at (l : Lossless_UDP) (i : Z) (c : Connection) : Prop :=
  tox_array_get (connections l) i = Some c.

Definition upd (l : Lossless_UDP) (i : Z) (c : Connection) : Lossless_UDP :=
  set_connections (tox_array_set (connections l) i c) l.

(** ** Access to connections *)

Lemma wp_get_conn i Q l w : wp (get_conn i) Q l w <-> exists c, conn_at l i c /\ Q c l w.
Proof. unfold get_conn. rewrite wp_bind, wp_get, wp_liftO. done. Qed.

Lemma wlp_get_conn i Q l w :
  (forall c, conn_at l i c -> Q c l w) -> wlp (get_conn i) Q l w.
Proof.
  intros H. unfold get_conn. rewrite wlp_bind. apply wp_wlp. rewrite wp_get.
  unfold wlp, liftO, retM, ubM. destruct (tox_array_get (connections l) i) eqn:E; auto.
Qed.

Lemma wp_put_conn i c Q l w : wp (put_conn i c) Q l w = Q tt (upd l i c) w.
Proof. done. Qed.

Lemma conn_at_Some l i c :
  conn_at l i c <-> 0 <= i /\ ta_data (connections l) !! Z.to_nat i = Some c.
Proof. apply tox_array_get_Some. Qed.

Lemma conn_at_upd l i c c' : conn_at l i c -> conn_at (upd l i c') i c'.
Proof.
  rewrite !conn_at_Some. intros [? Hc]. split; [done|]. simpl.
  apply list_lookup_insert_eq. by apply lookup_lt_Some in Hc.
Qed.

Lemma conn_at_upd_ne l i j c c' :
  i <> j -> 0 <= i -> conn_at (upd l i c') j c <-> conn_at l j c.
Proof.
  intros Hne Hi. rewrite !conn_at_Some. simpl. split; intros [? Hc]; (split; [done|]).
  - by rewrite list_lookup_insert_ne in Hc by lia.
  - by rewrite list_lookup_insert_ne by lia.
Qed.

Lemma conn_at_wf l i c : ludp_wf l -> conn_at l i c -> conn_wf c.
Proof.
  intros H [_ Hc]%conn_at_Some. by eapply Forall_lookup_1; [apply lw_conns|].
Qed.

Lemma conn_count_upd l i c : conn_count (upd l i c) = conn_count l.
Proof. unfold conn_count, ta_len, upd. simpl. by rewrite length_insert. Qed.

Lemma valid_id_conn l i : valid_id l i = true <-> exists c, conn_at l i c.
Proof.
  unfold valid_id, conn_count, ta_len. rewrite andb_true_iff, Z.leb_le, Z.ltb_lt. split.
  - intros [H1 H2]. destruct (lookup_lt_is_Some_2 (ta_data (connections l)) (Z.to_nat i)) as [c Hc];
      [lia|]. exists c. by apply conn_at_Some.
  - intros [c [H1 H2]%conn_at_Some]. apply lookup_lt_Some in H2. lia.
Qed.

Lemma upd_id l i c : conn_at l i c -> upd l i c = l.
Proof.
  intros [Hi Hc]%conn_at_Some. unfold upd, set_connections, tox_array_set.
  rewrite list_insert_id by done. by destruct l as [? [] ?].
Qed.

(** Replacing a connection by one with the same address. *)
Lemma ludp_wf_upd l i c c' :
  ludp_wf l -> conn_at l i c -> conn_wf c' -> ip_port c' = ip_port c ->
  (status c' <> 0 -> status c <> 0) -> ludp_wf (upd l i c').
Proof.
  intros [H1 H2 H3] [Hi Hc]%conn_at_Some Hwf Hip Hst. split; [| |done].
  - by apply Forall_insert.
  - intros a b ca cb Ha Hb Hsa Hsb He. simpl in *.
    apply list_lookup_insert_Some in Ha as [(<- & <- & _)|(? & Ha)];
    apply list_lookup_insert_Some in Hb as [(<- & <- & _)|(? & Hb)]; auto;
    rewrite ?Hip in *; eapply H2; eauto.
Qed.

Lemma ludp_wf_table l t : ludp_wf l -> table_ok t -> ludp_wf (set_randtable t l).
Proof. intros [H1 H2 H3] Ht. by split. Qed.

(** ** Handshake identifiers *)

Lemma nth_row_ok t i : table_ok t -> (i < 6)%nat -> length (nth i t []) = 256%nat /\ Forall is_u32 (nth i t []).
Proof.
  intros [Hl Ht] Hi. rewrite nth_lookup. destruct (lookup_lt_is_Some_2 t i) as [r Hr]; [lia|].
  rewrite Hr. by apply (Forall_lookup_1 _ _ _ _ Ht Hr).
Qed.

Lemma rt_get_u32 t i b : table_ok t -> (i < 6)%nat -> is_u32 (rt_get t i b).
Proof.
  intros Ht Hi. destruct (nth_row_ok t i Ht Hi) as [_ Hr]. unfold rt_get.
  rewrite nth_lookup. destruct (nth i t [] !! Z.to_nat b) eqn:E; simpl; [|uarith].
  by apply (Forall_lookup_1 _ _ _ _ Hr E).
Qed.

Lemma rt_set_ok t i b x : table_ok t -> (i < 6)%nat -> is_u32 x -> table_ok (rt_set t i b x).
Proof.
  intros Ht Hi Hx. destruct (nth_row_ok t i Ht Hi) as [Hrl Hr]. destruct Ht as [Hl Ht].
  unfold rt_set. split; [by rewrite length_insert|].
  apply Forall_insert; [done|]. rewrite length_insert. split; [done|]. by apply Forall_insert.
Qed.

(** Only the table changes. *)
Definition only_table (l l' : Lossless_UDP) : Prop :=
  exists t, l' = set_randtable t l /\ table_ok t.

Lemma handshake_loop_spec idx src id l w :
  table_ok (randtable l) -> is_u32 id -> Forall (fun i => i < 6)%nat idx ->
  wp (handshake_loop idx src id) (fun id' l' _ => is_u32 id' /\ only_table l l') l w.
Proof.
  revert id l w. induction idx as [|i r IH]; intros id l w Ht Hid Hidx; cbn [handshake_loop].
  { wp_step. split; [done|]. exists (randtable l). by destruct l. }
  apply Forall_cons_iff in Hidx as [Hi Hidx].
  repeat wp_step.
  - eapply wp_mono; [apply IH; auto|].
    + by apply rt_set_ok.
    + apply lxor_u32; [done|]. apply rt_get_u32; [by apply rt_set_ok|done].
    + intros id' l' w'' [Hid' (t & -> & Ht')]. split; [done|]. by exists t.
  - apply IH; auto. apply lxor_u32; [done|]. by apply rt_get_u32.
Qed.

Lemma wp_handshake_id src Q l w :
  table_ok (randtable l) ->
  (forall id l' w', is_u32 id -> id <> 0 -> only_table l l' -> Q id l' w') ->
  wp (handshake_id src) Q l w.
Proof.
  intros Ht HQ. unfold handshake_id. wp_step.
  eapply wp_mono; [apply handshake_loop_spec; auto; [uarith|repeat constructor]|].
  intros id l' w' [Hid Hl]. wp_step. apply HQ; [|case_if; lia|done].
  case_if; [uarith|done].
Qed.

Lemma wp_change_handshake src Q l w :
  table_ok (randtable l) -> (forall l' w', only_table l l' -> Q tt l' w') ->
  wp (change_handshake src) Q l w.
Proof.
  intros Ht HQ. unfold change_handshake. repeat wp_step. apply HQ.
  eexists. split; [done|]. apply rt_set_ok; auto. unfold u8. lia.
Qed.

Lemma only_table_conns l l' : only_table l l' -> connections l' = connections l.
Proof. by intros (t & -> & _). Qed.

Lemma only_table_wf l l' : ludp_wf l -> only_table l l' -> ludp_wf l'.
Proof. intros H (t & -> & Ht). by apply ludp_wf_table. Qed.

Lemma only_table_at l l' i c : only_table l l' -> conn_at l' i c <-> conn_at l i c.
Proof. intros H. unfold conn_at. by rewrite (only_table_conns _ _ H). Qed.

(** ** Creating and killing connections *)

(** A live connection to [ipp]. *)
Definition live_to (ipp : IP_Port) (c : Connection) : bool :=
  (ip (ip_port c) =? ip ipp) && (port (ip_port c) =? port ipp) && (0 <? status c).

Lemma live_to_true ipp c :
  live_to ipp c = true <-> ipp_eq (ip_port c) ipp = true /\ 0 < status c.
Proof. unfold live_to, ipp_eq. by rewrite andb_true_iff, Z.ltb_lt. Qed.

Lemma getconnection_id_none l ipp :
  getconnection_id l ipp = -1 <-> forall i c, conn_at l i c -> live_to ipp c = false.
Proof.
  unfold getconnection_id. fold (live_to ipp).
  destruct (first_index (live_to ipp) (ta_data (connections l))) as [k|] eqn:E.
  - split; [lia|]. intros H. apply first_index_Some in E as (x & Hx & HP & _).
    specialize (H (Z.of_nat k) x). rewrite H in HP; [done|].
    apply conn_at_Some. split; [lia|]. by rewrite Nat2Z.id.
  - split; [|done]. intros _ i c [Hi Hc]%conn_at_Some.
    rewrite first_index_None in E. by eapply E.
Qed.

Lemma getconnection_id_some l ipp i :
  getconnection_id l ipp = i -> i <> -1 ->
  exists c, conn_at l i c /\ live_to ipp c = true.
Proof.
  unfold getconnection_id. fold (live_to ipp).
  destruct (first_index (live_to ipp) (ta_data (connections l))) as [k|] eqn:E; [|lia].
  intros <- _. apply first_index_Some in E as (x & Hx & HP & _).
  exists x. split; [|done]. apply conn_at_Some. split; [lia|]. by rewrite Nat2Z.id.
Qed.

Definition push_zero (l : Lossless_UDP) : Lossless_UDP :=
  set_connections (mk_tox_array (ta_data (connections l) ++ [conn_zero])) l.

(** All slots are taken, and the next allocation fails. *)
Definition no_slot (l : Lossless_UDP) (w : World) : Prop :=
  (forall i c, conn_at l i c -> status c <> 0) /\ exists r, w_nomem w = true :: r.

(** What [free_slot] returns: -1 when no slot can be had, or a dead slot. *)
Lemma wp_free_slot Q l w :
  (forall w', no_slot l w -> Q (-1) l w') ->
  (forall i c w', conn_at l i c -> status c = 0 -> Q i l w') ->
  (forall w', Q (conn_count l) (push_zero l) w') ->
  wp free_slot Q l w.
Proof.
  intros H1 H2 H3. unfold free_slot. repeat wp_step.
  destruct (first_index _ _) as [k|] eqn:E.
  - wp_step. apply first_index_Some in E as (x & Hx & HP & _). apply Z.eqb_eq in HP.
    apply (H2 _ x); [|done]. apply conn_at_Some. split; [lia|]. by rewrite Nat2Z.id.
  - wp_step. apply wp_world. destruct (w_nomem w) as [|[] r] eqn:Em; simpl.
    2: { wp_step. apply H1. split; [|by exists r]. intros i c [_ Hc]%conn_at_Some.
         rewrite first_index_None in E. specialize (E _ _ Hc). by apply Z.eqb_neq. }
    all: repeat wp_step; replace (ta_len _ - 1) with (conn_count l); [apply H3|].
    all: unfold conn_count, ta_len; simpl; rewrite length_app; simpl; lia.
Qed.

Lemma push_zero_wf l : ludp_wf l -> ludp_wf (push_zero l).
Proof.
  intros [H1 H2 H3]. split; [| |done]; simpl.
  - apply Forall_app. split; [done|]. apply Forall_singleton, conn_zero_wf.
  - intros a b ca cb Ha Hb Hsa Hsb He.
    apply lookup_app_Some in Ha as [Ha|[_ [_ <-]%list_lookup_singleton_Some]]; [|done].
    apply lookup_app_Some in Hb as [Hb|[_ [_ <-]%list_lookup_singleton_Some]]; [|done].
    by eapply H2.
Qed.

Lemma push_zero_at l : conn_at (push_zero l) (conn_count l) conn_zero.
Proof.
  unfold conn_count, ta_len. apply conn_at_Some. split; [lia|]. simpl. rewrite Nat2Z.id.
  rewrite lookup_app_r by lia. by rewrite Nat.sub_diag.
Qed.

Lemma push_zero_old l i c : conn_at l i c -> conn_at (push_zero l) i c.
Proof.
  rewrite !conn_at_Some. intros [? Hc]. split; [done|]. simpl. by apply lookup_app_l_Some.
Qed.

(** Filling a dead slot with a connection to an address nobody is connected to. *)
Lemma ludp_wf_fill l i c c' :
  ludp_wf l -> conn_at l i c -> status c = 0 -> conn_wf c' ->
  (forall j cj, conn_at l j cj -> live_to (ip_port c') cj = false) -> ludp_wf (upd l i c').
Proof.
  intros [H1 H2 H3] [Hi Hc]%conn_at_Some Hst Hwf Hnew. split; [| |done].
  { by apply Forall_insert. }
  assert (Hno : forall j cj, ta_data (connections l) !! j = Some cj -> status cj <> 0 ->
    ipp_eq (ip_port cj) (ip_port c') = true -> False).
  { intros j cj Hj Hsj He. specialize (Hnew (Z.of_nat j) cj).
    assert (conn_wf cj) as Hwfj by by eapply Forall_lookup_1.
    assert (live_to (ip_port c') cj = true) as Hl.
    { apply live_to_true. split; [done|]. pose proof (wf_status _ Hwfj). lia. }
    rewrite Hnew in Hl; [done|]. apply conn_at_Some. split; [lia|]. by rewrite Nat2Z.id. }
  intros a b ca cb Ha Hb Hsa Hsb He. simpl in *.
  apply list_lookup_insert_Some in Ha as [(<- & <- & _)|(? & Ha)];
  apply list_lookup_insert_Some in Hb as [(<- & <- & _)|(? & Hb)]; auto.
  - rewrite ipp_eq_sym in He. by destruct (Hno b cb).
  - by destruct (Hno a ca).
  - by eapply H2.
Qed.

Lemma ludp_wf_clear l i c : ludp_wf l -> conn_at l i c -> ludp_wf (upd l i conn_zero).
Proof.
  intros [H1 H2 H3] [Hi Hc]%conn_at_Some. split; [| |done].
  { apply Forall_insert; [done|]. apply conn_zero_wf. }
  intros a b ca cb Ha Hb Hsa Hsb He. simpl in *.
  apply list_lookup_insert_Some in Ha as [(<- & <- & _)|(? & Ha)]; [done|].
  apply list_lookup_insert_Some in Hb as [(<- & <- & _)|(? & Hb)]; [done|]. by eapply H2.
Qed.

(** All connections but [i] are the same. *)
Definition others_same (i : Z) (l l' : Lossless_UDP) : Prop :=
  forall j c, j <> i -> conn_at l j c -> conn_at l' j c.

Lemma others_same_upd i l c : 0 <= i -> others_same i l (upd l i c).
Proof. intros Hi j cj Hj Hc. by apply conn_at_upd_ne. Qed.

Lemma others_same_trans i l1 l2 l3 :
  others_same i l1 l2 -> others_same i l2 l3 -> others_same i l1 l3.
Proof. unfold others_same. eauto. Qed.

Lemma others_same_table i l l' : only_table l l' -> others_same i l l'.
Proof. intros H j c _ Hc. by apply (only_table_at _ _ _ _ H). Qed.

(** A dead slot [i] of [l'], a state that has all of [l] and possibly one slot
    more. *)
Record fresh_slot (l l' : Lossless_UDP) (i : Z) (c : Connection) : Prop := {
  fs_wf : ludp_wf l';
  fs_at : conn_at l' i c;
  fs_dead : status c = 0;
  fs_free : forall c0, conn_at l i c0 -> status c0 = 0;
  fs_same : others_same i l l';
  fs_live : forall j cj, conn_at l' j cj -> status cj <> 0 -> conn_at l j cj
}.

Lemma wp_free_slot_fresh Q l w :
  ludp_wf l -> (forall w', no_slot l w -> Q (-1) l w') ->
  (forall i c l' w', fresh_slot l l' i c -> Q i l' w') -> wp free_slot Q l w.
Proof.
  intros Hwf H1 H2. apply wp_free_slot; [done| |].
  - intros i c w' Hc Hst. apply (H2 i c). split; auto; [|by intros j cj _].
    intros c0 Hc0. unfold conn_at in *. congruence.
  - intros w'. apply (H2 _ conn_zero). split.
    + by apply push_zero_wf.
    + apply push_zero_at.
    + done.
    + intros c0 [_ Hc0]%conn_at_Some. apply lookup_lt_Some in Hc0.
      unfold conn_count, ta_len in Hc0. lia.
    + intros j cj _ Hj. by apply push_zero_old.
    + intros j cj [Hj Hc]%conn_at_Some Hst. simpl in Hc.
      apply conn_at_Some. split; [done|].
      apply lookup_app_Some in Hc as [Hc|[_ [_ <-]%list_lookup_singleton_Some]]; done.
Qed.

Lemma fresh_slot_not_live l l' i c ipp :
  fresh_slot l l' i c -> getconnection_id l ipp = -1 ->
  forall j cj, conn_at l' j cj -> live_to ipp cj = false.
Proof.
  intros Hf Hn j cj Hj. destruct (live_to ipp cj) eqn:E; [|done].
  rewrite getconnection_id_none in Hn. rewrite <- E. eapply Hn, fs_live; eauto.
  apply live_to_true in E. lia.
Qed.

(** The connection [new_connection] sets up. *)
Record conn_started (ipp : IP_Port) (c : Connection) : Prop := {
  st_addr : ip_port c = ipp;
  st_status : status c = 1;
  st_id : handshake_id1 c <> 0 /\ is_u32 (handshake_id1 c);
  st_nums : sent_packetnum c = handshake_id1 c /\ sendbuff_packetnum c = handshake_id1 c /\
            successful_sent c = handshake_id1 c;
  st_timeout : 5 <= timeout c < 10;
  st_none : num_req_paquets c = 0 /\ send_counter c = 0
}.

Definition new_connection_post (ipp : IP_Port) (l : Lossless_UDP) (w : World) (id : Z)
    (l' : Lossless_UDP) : Prop :=
  ludp_wf l' /\
  ( (* already connected *)
    (id = getconnection_id l ipp /\ id <> -1 /\ l' = l) \/
    (* no memory *)
    (id = -1 /\ getconnection_id l ipp = -1 /\ no_slot l w /\ l' = l) \/
    (* a new connection, in a slot that was free *)
    (getconnection_id l ipp = -1 /\ others_same id l l' /\
     (forall c, conn_at l id c -> status c = 0) /\
     exists c, conn_at l' id c /\ conn_started ipp c)).

Ltac ctx_cleanup := repeat match goal with
  | H : is_u64 _ |- _ => clear H
  end.

(** Clearing the free slot, whatever happens to the table, and filling it with a
    connection to an address without a live connection. *)
Lemma fresh_slot_fill l l1 l2 i c ipp c' :
  fresh_slot l l1 i c -> getconnection_id l ipp = -1 -> only_table (upd l1 i conn_zero) l2 ->
  conn_wf c' -> ip_port c' = ipp ->
  ludp_wf (upd l2 i c') /\ others_same i l (upd l2 i c') /\ conn_at (upd l2 i c') i c'.
Proof.
  intros Hf Hnew Hot Hwf' Hip. pose proof (fs_at _ _ _ _ Hf) as Hat.
  assert (0 <= i) as Hi by (apply conn_at_Some in Hat; lia).
  assert (Hat1 : conn_at (upd l1 i conn_zero) i conn_zero) by by eapply conn_at_upd.
  assert (Hat2 : conn_at l2 i conn_zero) by by apply (only_table_at _ _ _ _ Hot).
  assert (Hwf2 : ludp_wf l2).
  { eapply only_table_wf; [|done]. eapply ludp_wf_clear; [apply (fs_wf _ _ _ _ Hf)|done]. }
  split_and!.
  - eapply ludp_wf_fill; [done..|]. rewrite Hip. intros j cj Hj.
    apply (only_table_at _ _ _ _ Hot) in Hj. destruct (decide (i = j)) as [<-|Hne].
    + assert (cj = conn_zero) as -> by (unfold conn_at in *; congruence).
      unfold live_to. simpl. by rewrite andb_false_r.
    + apply conn_at_upd_ne in Hj; [|done..]. by eapply fresh_slot_not_live.
  - eapply others_same_trans; [apply (fs_same _ _ _ _ Hf)|].
    eapply others_same_trans; [by apply others_same_upd|].
    eapply others_same_trans; [by apply others_same_table|]. by apply others_same_upd.
  - by eapply conn_at_upd.
Qed.

Lemma only_table_refl l : table_ok (randtable l) -> only_table l l.
Proof. intros H. exists (randtable l). by destruct l. Qed.

(** A connection built from a cleared one has an empty receive window. *)
Ltac from_zero :=
  let Hz := fresh in
  pose proof conn_zero_wf as Hz; conn_wf_cases Hz;
  unfold SYNC_RATE, DATA_SYNC_RATE; try lia;
  try (intros _; split_and!; [done..|apply zero_not_filled]).

Lemma wp_new_connection ipp Q l w :
  ludp_wf l -> (forall id l' w', new_connection_post ipp l w id l' -> Q id l' w') ->
  wp (new_connection ipp) Q l w.
Proof.
  intros Hwf HQ. unfold new_connection. repeat wp_step.
  { apply HQ. split; [done|]. left. done. }
  apply wp_free_slot_fresh; [done| |].
  { intros w' Hno. simpl. wp_step. apply HQ. split; [done|]. by right; left. }
  intros i c l1 w1 Hf. pose proof (fs_at _ _ _ _ Hf) as Hat.
  destruct (Z.eqb_spec i (-1)); [apply conn_at_Some in Hat; lia|].
  rewrite wp_bind, wp_put_conn, wp_bind. apply wp_handshake_id; [apply (fs_wf _ _ _ _ Hf)|].
  intros hid l2 w2 Hid Hid0 Hot. repeat wp_step. rewrite wp_put_conn. wp_step.
  set (c' := set_ip_port _ _). apply HQ.
  destruct (fresh_slot_fill l l1 l2 i c ipp c') as (Hwf' & Hsame & Hat'); auto.
  { subst c'. from_zero. }
  split; [done|]. right. right. split_and!; [done..|apply (fs_free _ _ _ _ Hf)|].
  exists c'. split; [done|]. subst c'.
  split; simpl; auto. unfold CONNEXION_TIMEOUT, u8. lia.
Qed.

(** The connection [new_inconnection] sets up, before its packet numbers are set. *)
Record conn_inbound (ipp : IP_Port) (c : Connection) : Prop := {
  ci_addr : ip_port c = ipp;
  ci_status : status c = 2;
  ci_inbound : inbound c = 2;
  ci_none : num_req_paquets c = 0 /\ send_counter c = 127
}.

Lemma wp_new_inconnection ipp Q l w :
  ludp_wf l -> (forall w', getconnection_id l ipp <> -1 \/ no_slot l w -> Q (-1) l w') ->
  (forall id c l' w', ludp_wf l' -> getconnection_id l ipp = -1 -> others_same id l l' ->
     conn_at l' id c -> conn_inbound ipp c -> 0 <= id -> Q id l' w') ->
  wp (new_inconnection ipp) Q l w.
Proof.
  intros Hwf HQ1 HQ2. unfold new_inconnection. repeat wp_step; [apply HQ1; by left|].
  apply wp_free_slot_fresh; [done|intros w' Hno; simpl; wp_step; apply HQ1; by right|].
  intros i c l1 w1 Hf. pose proof (fs_at _ _ _ _ Hf) as Hat.
  destruct (Z.eqb_spec i (-1)); [apply conn_at_Some in Hat; lia|].
  rewrite wp_bind, wp_put_conn. repeat wp_step. rewrite wp_put_conn. wp_step.
  set (c' := set_ip_port _ _).
  destruct (fresh_slot_fill l l1 (upd l1 i conn_zero) i c ipp c') as (Hwf' & Hsame & Hat'); auto.
  { apply only_table_refl, (fs_wf _ _ _ _ Hf). }
  { subst c'. from_zero. }
  apply (HQ2 i c'); auto; [done|]. apply conn_at_Some in Hat. lia.
Qed.

Lemma wp_incoming_connection Q l w :
  ludp_wf l -> (forall w', Q (-1) l w') ->
  (forall i c w', conn_at l i c -> inbound c = 2 -> ludp_wf (upd l i (set_inbound 1 c)) ->
     Q i (upd l i (set_inbound 1 c)) w') ->
  wp incoming_connection Q l w.
Proof.
  intros Hwf HQ1 HQ2. unfold incoming_connection. repeat wp_step.
  destruct (first_index _ _) as [k|] eqn:E; [|by wp_step].
  apply first_index_Some in E as (c & Hc & Hin & _). apply Z.eqb_eq in Hin.
  assert (Hat : conn_at l (Z.of_nat k) c).
  { apply conn_at_Some. split; [lia|]. by rewrite Nat2Z.id. }
  wp_step. apply wp_get_conn. exists c. split; [done|]. wp_step. rewrite wp_put_conn. wp_step.
  apply HQ2; auto. eapply ludp_wf_upd; eauto.
  pose proof (conn_at_wf _ _ _ Hwf Hat) as Hcw. by conn_wf_cases Hcw.
Qed.

(** *** Killing *)

Lemma free_scan_le conns oob i : (free_scan conns oob i <= i)%nat.
Proof. induction i as [|i IH]; cbn [free_scan]; [lia|]. case_if; lia. Qed.

(** The array after [free_connections] is a prefix of the array before. *)
Definition prefix_state (l l' : Lossless_UDP) : Prop :=
  exists n t, l' = set_connections (mk_tox_array (take n (ta_data (connections l))))
                     (set_randtable t l) /\ table_ok t.

Lemma prefix_state_wf l l' : ludp_wf l -> prefix_state l l' -> ludp_wf l'.
Proof.
  intros [H1 H2 H3] (n & t & -> & Ht). split; simpl; [by apply Forall_take| |done].
  intros a b ca cb [Ha _]%lookup_take_Some [Hb _]%lookup_take_Some. by eapply H2.
Qed.

Lemma prefix_state_at l l' i c : prefix_state l l' -> conn_at l' i c -> conn_at l i c.
Proof.
  intros (n & t & -> & Ht) [Hi Hc]%conn_at_Some. apply conn_at_Some. split; [done|].
  simpl in Hc. by apply lookup_take_Some in Hc as [? _].
Qed.

Lemma prefix_state_refl l : table_ok (randtable l) -> prefix_state l l.
Proof.
  intros H. exists (length (ta_data (connections l))), (randtable l). rewrite firstn_all.
  destruct l as [? [] ?]. done.
Qed.

Lemma wp_free_connections Q l w :
  table_ok (randtable l) -> (forall l' w', prefix_state l l' -> Q tt l' w') ->
  wp free_connections Q l w.
Proof.
  intros Ht HQ. unfold free_connections. do 2 wp_step. wp_step.
  assert (Hmain : forall oob w', wp
    (let i := free_scan (ta_data (connections l)) oob (length (ta_data (connections l))) in
     if conn_count l =? Z.of_nat i then retM tt
     else nomem <- alloc_fails ;;
          modM (fun l => set_connections
                  (tox_array_pop nomem (connections l) (conn_count l - Z.of_nat i)) l)) Q l w').
  { intros oob w'. cbn zeta. repeat wp_step; apply HQ; [by apply prefix_state_refl|].
    set (k := conn_count l - _).
    destruct (tox_array_pop_prefix x (connections l) k) as [n Hn].
    exists n, (randtable l). split; [|done]. destruct l as [ne [da] rt]. simpl in *.
    unfold set_connections. simpl. f_equal. rewrite <- Hn. by destruct (tox_array_pop _ _ _). }
  wp_step; [wp_step; apply Hmain|wp_step; apply Hmain].
Qed.

Lemma wp_kill_connection i Q l w :
  ludp_wf l -> (forall w', ~ (exists c, conn_at l i c /\ 0 < status c) -> Q (-1) l w') ->
  (forall c l1 l' w', conn_at l i c -> 0 < status c -> only_table (upd l i (set_status 0 c)) l1 ->
     prefix_state (upd l1 i conn_zero) l' -> ludp_wf l' -> Q 0 l' w') ->
  wp (kill_connection i) Q l w.
Proof.
  intros Hwf HQ1 HQ2. unfold kill_connection. do 2 wp_step.
  destruct (valid_id l i) eqn:Ev; wp_step.
  2: { apply HQ1. intros (c & Hc & _). assert (valid_id l i = true); [|congruence].
       apply valid_id_conn. eauto. }
  apply wp_get_conn. apply valid_id_conn in Ev as [c Hc]. exists c. split; [done|].
  wp_step.
  2: { wp_step. apply HQ1. intros (c' & Hc' & ?). unfold conn_at in *. simplify_eq. lia. }
  wp_step. rewrite wp_put_conn. wp_step.
  apply wp_change_handshake; [apply Hwf|]. intros l1 w1 Hot. wp_step. rewrite wp_put_conn. wp_step.
  assert (Hwf1 : ludp_wf (upd l1 i conn_zero)).
  { eapply ludp_wf_clear; [eapply only_table_wf; [|done]|].
    - eapply ludp_wf_upd; eauto. pose proof (conn_at_wf _ _ _ Hwf Hc) as Hcw. conn_wf_cases Hcw; lia.
    - apply (only_table_at _ _ _ _ Hot). by eapply conn_at_upd. }
  apply wp_free_connections; [apply Hwf1|]. intros l' w' Hp. wp_step.
  eapply HQ2; eauto. by eapply prefix_state_wf.
Qed.

Lemma wp_kill_connection_in i secs Q l w :
  ludp_wf l -> (forall r l' w', ludp_wf l' -> Q r l' w') -> wp (kill_connection_in i secs) Q l w.
Proof.
  intros Hwf HQ. unfold kill_connection_in. do 2 wp_step.
  destruct (valid_id l i) eqn:Ev; wp_step; [|by apply HQ].
  apply wp_get_conn. apply valid_id_conn in Ev as [c Hc]. exists c. split; [done|].
  repeat wp_step; [|by apply HQ]. rewrite wp_put_conn. wp_step. apply HQ.
  eapply ludp_wf_upd; eauto. pose proof (conn_at_wf _ _ _ Hwf Hc) as Hcw. by conn_wf_cases Hcw.
Qed.

(** ** Queues *)

Lemma recvqueue_at l i c : conn_at l i c -> recvqueue l i = recvqueue_conn c.
Proof.
  intros Hc. unfold recvqueue. assert (valid_id l i = true) as -> by (apply valid_id_conn; eauto).
  by rewrite Hc.
Qed.

Lemma sendqueue_at l i c : conn_at l i c -> sendqueue l i = sendqueue_conn c.
Proof.
  intros Hc. unfold sendqueue. assert (valid_id l i = true) as -> by (apply valid_id_conn; eauto).
  by rewrite Hc.
Qed.

Lemma is_connected_at l i c : conn_at l i c -> is_connected l i = status c.
Proof.
  intros Hc. unfold is_connected. assert (valid_id l i = true) as -> by (apply valid_id_conn; eauto).
  by rewrite Hc.
Qed.

(** [read_packet] on any index: nothing to read, or the oldest packet. *)
Lemma wp_read_packet i Q l w :
  ludp_wf l ->
  (recvqueue l i = 0 -> Q (0, []) l w) ->
  (forall c, conn_at l i c -> recvqueue_conn c <> 0 ->
     ludp_wf (upd l i (snd (read_packet_conn c))) ->
     Q (d_size (buf_get (recvbuffer c) (successful_read c)), fst (read_packet_conn c))
       (upd l i (snd (read_packet_conn c))) w) ->
  wp (read_packet i) Q l w.
Proof.
  intros Hwf HQ1 HQ2. unfold read_packet. repeat wp_step; [by apply HQ1|].
  assert (exists c, conn_at l i c) as [c Hc].
  { apply valid_id_conn. unfold recvqueue in *. by destruct (valid_id l i). }
  apply wp_get_conn. exists c. split; [done|]. rewrite (recvqueue_at _ _ _ Hc) in *.
  cbn zeta. destruct (read_packet_conn c) as [data c'] eqn:E. wp_step. rewrite wp_put_conn. wp_step.
  specialize (HQ2 c Hc). rewrite E in HQ2. simpl in HQ2. apply HQ2; [done|].
  eapply ludp_wf_upd; eauto.
  - replace c' with (snd (read_packet_conn c)) by by rewrite E.
    apply read_packet_conn_wf; [by eapply conn_at_wf|done].
  - unfold read_packet_conn in E. by simplify_eq.
  - unfold read_packet_conn in E. by simplify_eq.
Qed.

(** [write_packet] to a valid connection. *)
Lemma wp_write_packet i data Q l w c :
  ludp_wf l -> conn_at l i c ->
  (~ ((0 < length data <= 1024)%nat /\ sendqueue_conn c < 15) -> Q 0 l w) ->
  ((0 < length data <= 1024)%nat -> sendqueue_conn c < 15 ->
   ludp_wf (upd l i (write_packet_conn c data)) -> Q 1 (upd l i (write_packet_conn c data)) w) ->
  wp (write_packet i data) Q l w.
Proof.
  intros Hwf Hc HQ1 HQ2. unfold write_packet, MAX_DATA_SIZE, BUFFER_PACKET_NUM.
  rewrite <- (sendqueue_at _ _ _ Hc) in *. repeat wp_step; [apply HQ1; lia|].
  apply wp_get_conn. exists c. split; [done|].
  wp_step. rewrite wp_put_conn. wp_step.
  apply HQ2; [lia|lia|]. eapply ludp_wf_upd; eauto.
  apply write_packet_conn_wf; [by eapply conn_at_wf|lia].
Qed.

Lemma wlp_write_packet i data Q l w :
  ludp_wf l -> (forall r l' w', ludp_wf l' -> Q r l' w') -> wlp (write_packet i data) Q l w.
Proof.
  intros Hwf HQ. destruct (valid_id l i) eqn:E.
  - apply valid_id_conn in E as [c Hc]. apply wp_wlp. eapply wp_write_packet; eauto.
  - unfold write_packet. repeat wlp_step; [by apply HQ|]. apply wlp_get_conn. intros c Hc.
    assert (valid_id l i = true); [|congruence]. apply valid_id_conn. eauto.
Qed.

Lemma wlp_missing_packets i Q l w :
  ludp_wf l ->
  (forall c req c', conn_at l i c -> missing_packets_conn c = Some (req, c') -> ludp_wf (upd l i c') ->
     Q req (upd l i c') w) ->
  wlp (missing_packets i) Q l w.
Proof.
  intros Hwf HQ. unfold missing_packets. wlp_step. apply wlp_get_conn. intros c Hc. wlp_step.
  destruct (missing_packets_conn c) as [[req c']|] eqn:E; [|done]. simpl.
  rewrite wlp_ret. wlp_step. apply wp_wlp. rewrite wp_put_conn. apply HQ with (c := c); auto.
  assert (Heq : ip_port c' = ip_port c /\ status c' = status c).
  { unfold missing_packets_conn in E. repeat case_match; by simplify_eq. }
  destruct Heq as [??].
  simpl; eapply ludp_wf_upd; eauto; [|intros; congruence]. eapply missing_packets_conn_wf; eauto. by eapply conn_at_wf.
Qed.

(** ** Sending *)

Lemma wlp_send_SYNC i Q l w :
  ludp_wf l ->
  (forall c c' r w', conn_at l i c -> conn_at (upd l i c') i c' -> status c' = status c ->
     ludp_wf (upd l i c') -> Q r (upd l i c') w') ->
  wlp (send_SYNC i) Q l w.
Proof.
  intros Hwf HQ. unfold send_SYNC. wlp_step. apply wlp_get_conn. intros c Hc. wlp_step.
  apply wlp_missing_packets; [done|]. intros c0 req c' Hc0 E Hwf'.
  apply wp_wlp. wp_step. eapply HQ; eauto; [by eapply conn_at_upd|].
  unfold missing_packets_conn in E. unfold conn_at in *. repeat case_match; by simplify_eq.
Qed.

Lemma wp_send_data_packet i n Q l w c :
  conn_at l i c -> (forall r w', Q r l w') -> wp (send_data_packet i n) Q l w.
Proof.
  intros Hc HQ. unfold send_data_packet. wp_step. apply wp_get_conn. exists c. split; [done|].
  by wp_step.
Qed.

(** The connection after [send_DATA]. *)
Definition send_DATA_conn (c : Connection) : Connection :=
  if 0 <? num_req_paquets c then pop_request c
  else if negb (sendbuff_packetnum c =? sent_packetnum c)
       then set_sent_packetnum (u32 (sent_packetnum c + 1)) c
       else c.

Lemma send_DATA_conn_wf c : conn_wf c -> conn_wf (send_DATA_conn c).
Proof.
  intros H. unfold send_DATA_conn. repeat case_if; [by apply pop_request_wf| |done].
  conn_wf_cases H. auto with tox.
Qed.

Lemma send_DATA_conn_same c :
  ip_port (send_DATA_conn c) = ip_port c /\ status (send_DATA_conn c) = status c /\
  data_rate (send_DATA_conn c) = data_rate c.
Proof. unfold send_DATA_conn. repeat case_if; done. Qed.

Lemma wp_send_DATA i Q l w c :
  ludp_wf l -> conn_at l i c ->
  (forall r w', ludp_wf (upd l i (send_DATA_conn c)) -> Q r (upd l i (send_DATA_conn c)) w') ->
  wp (send_DATA i) Q l w.
Proof.
  intros Hwf Hc HQ. unfold send_DATA. wp_step. apply wp_get_conn. exists c. split; [done|].
  assert (Hwf' : ludp_wf (upd l i (send_DATA_conn c))).
  { destruct (send_DATA_conn_same c) as (? & ? & _). eapply ludp_wf_upd; eauto; [|intros; congruence].
    apply send_DATA_conn_wf. by eapply conn_at_wf. }
  revert HQ Hwf'. unfold send_DATA_conn. intros HQ Hwf'.
  destruct (0 <? num_req_paquets c) eqn:E1.
  { wp_step. eapply wp_send_data_packet; [done|]. intros r w'. wp_step. rewrite wp_put_conn. wp_step. by apply HQ. }
  destruct (negb (sendbuff_packetnum c =? sent_packetnum c)) eqn:E2.
  { wp_step. eapply wp_send_data_packet; [done|]. intros r w'. wp_step. rewrite wp_put_conn. wp_step. by apply HQ. }
  wp_step. rewrite upd_id in HQ by done. apply HQ. by rewrite upd_id in Hwf'.
Qed.

(** ** Packet handlers *)

Lemma net_word_u32 p off : is_u32 (net_word p off).
Proof. apply ntohl_range. Qed.

#[export] Hint Resolve net_word_u32 : tox.

(** [handle_handshake] never fails on a well-formed state. *)
Lemma wp_handle_handshake src p Q l w :
  ludp_wf l -> (forall r l' w', ludp_wf l' -> Q r l' w') -> wp (handle_handshake src p) Q l w.
Proof.
  intros Hwf HQ. unfold handle_handshake. repeat wp_step; try (by apply HQ).
  - apply wp_handshake_id; [apply Hwf|]. intros id l' w' _ _ Hot. wp_step.
    unfold send_handshake. repeat wp_step. apply HQ. by eapply only_table_wf.
  - apply wp_get_conn. destruct (valid_id l (getconnection_id l src)) eqn:Ev.
    2: { unfold is_connected in *. by rewrite Ev in *. }
    apply valid_id_conn in Ev as [c Hc]. rewrite (is_connected_at _ _ _ Hc) in *.
    exists c. split; [done|]. wp_step. wp_step.
    + rewrite wp_put_conn. wp_step. apply HQ. eapply ludp_wf_upd; eauto.
      * apply handshake_accept_wf; [by eapply conn_at_wf|auto with tox|done].
      * intros _. lia.
    + repeat wp_step. by apply HQ.
Qed.

Lemma wp_handle_SYNC1 src recv_num sent_num Q l w :
  ludp_wf l -> is_u32 recv_num -> is_u32 sent_num ->
  (forall r l' w', ludp_wf l' -> Q r l' w') -> wp (handle_SYNC1 src recv_num sent_num) Q l w.
Proof.
  intros Hwf Hr Hs HQ. unfold handle_SYNC1. wp_step.
  apply wp_handshake_id; [apply Hwf|]. intros id l1 w1 _ _ Hot.
  assert (Hwf1 : ludp_wf l1) by by eapply only_table_wf.
  wp_step; [|wp_step; by apply HQ]. wp_step.
  apply wp_new_inconnection; [done|intros w' _; simpl; wp_step; by apply HQ|].
  intros i c l2 w2 Hwf2 _ _ Hc [_ Hst _ _] Hi.
  destruct (Z.eqb_spec i (-1)); [lia|]. simpl. wp_step. apply wp_get_conn. exists c. split; [done|].
  wp_step. rewrite wp_put_conn. wp_step. apply HQ.
  eapply ludp_wf_upd; eauto. apply SYNC1_conn_wf; [by eapply conn_at_wf|done..].
Qed.

Lemma SYNC2_conn_wf counter c : conn_wf c -> status c = 2 -> conn_wf (SYNC2_conn counter c).
Proof.
  intros Hcw Hst. pose proof (wf_rates _ Hcw ltac:(lia)). unfold SYNC2_conn. conn_wf_cases Hcw; lia.
Qed.

(** When the peer is known to have sent nothing more there is nothing to ask for. *)
Lemma missing_packets_none c :
  osent_packetnum c = recv_packetnum c -> missing_packets_conn c = Some ([], c).
Proof.
  intros E. unfold missing_packets_conn. case_if; [done|].
  rewrite E, Z.sub_diag. cbn. f_equal. f_equal. by destruct c.
Qed.

Lemma wp_send_SYNC_none i Q l w c :
  conn_at l i c -> osent_packetnum c = recv_packetnum c ->
  wp (sendpacket (ip_port c) (SYNC_packet (send_counter c) (recv_packetnum c) (sent_packetnum c) []))
    Q l w -> wp (send_SYNC i) Q l w.
Proof.
  intros Hc E HQ. unfold send_SYNC, missing_packets. wp_step. apply wp_get_conn. exists c. split; [done|].
  wp_step. wp_step. apply wp_get_conn. exists c. split; [done|]. wp_step. apply wp_liftO.
  exists ([], c). split; [by apply missing_packets_none|]. wp_step. rewrite wp_put_conn, wp_ret.
  by rewrite upd_id.
Qed.

Lemma wp_handle_SYNC2 i counter recv_num sent_num Q l w c :
  ludp_wf l -> conn_at l i c -> status c = 2 ->
  (recv_num <> orecv_packetnum c -> Q 1 l w) ->
  (recv_num = orecv_packetnum c -> ludp_wf (upd l i (SYNC2_conn counter c)) ->
   wp (sendpacket (ip_port c) (SYNC_packet (u8 (send_counter c + 1)) (recv_packetnum c)
         (sent_packetnum c) [])) (fun _ => Q 0) (upd l i (SYNC2_conn counter c)) w) ->
  wp (handle_SYNC2 i counter recv_num sent_num) Q l w.
Proof.
  intros Hwf Hc Hst HQ1 HQ2. pose proof (conn_at_wf _ _ _ Hwf Hc) as Hcw.
  destruct (wf_fresh _ Hcw (or_intror Hst)) as (F1 & F2 & _).
  unfold handle_SYNC2. wp_step. apply wp_get_conn. exists c. split; [done|].
  destruct (Z.eqb_spec recv_num (orecv_packetnum c)); [|wp_step; by apply HQ1].
  wp_step. rewrite wp_put_conn. wp_step.
  eapply wp_send_SYNC_none; [by eapply conn_at_upd|simpl; congruence|]. simpl.
  eapply wp_mono; [apply HQ2; [done|]|intros; by wp_step].
  eapply ludp_wf_upd; [done|done|by apply SYNC2_conn_wf|done|by rewrite Hst].
Qed.

Lemma wlp_handle_SYNC2 i counter recv_num sent_num Q l w :
  ludp_wf l -> (forall c, conn_at l i c -> status c = 2) ->
  (forall r l' w', ludp_wf l' -> Q r l' w') -> wlp (handle_SYNC2 i counter recv_num sent_num) Q l w.
Proof.
  intros Hwf Hst HQ. destruct (tox_array_get (connections l) i) as [c|] eqn:Ec.
  - apply wp_wlp. eapply wp_handle_SYNC2; [done|exact Ec|by apply Hst|intros; by apply HQ|].
    intros _ Hwf'. wp_step. by apply HQ.
  - unfold handle_SYNC2. wlp_step. apply wlp_get_conn. unfold conn_at. intros c Hc. congruence.
Qed.

Lemma wp_over_read_words {S} n (Q : list Z -> S -> World -> Prop) s w :
  (forall x w', length x = n -> Q x s w') -> wp (over_read_words n) Q s w.
Proof.
  revert Q s w. induction n as [|n IH]; intros Q s w H; cbn [over_read_words].
  { rewrite wp_ret. by apply H. }
  wp_step. apply wp_over_reads. intros b w1 _ _. wp_step. apply IH. intros r w2 Hr. wp_step.
  apply H. simpl. lia.
Qed.

(** The request list is copied when it has at most eight entries ... *)
Lemma wp_req_copy m k n req dst Q l w :
  (k + m = n)%nat -> (n <= 8)%nat -> length dst = 15%nat ->
  (forall i, (i < k)%nat -> dst !! i = Some (ntohl (nth i req 0))) ->
  (forall dst' w', length dst' = 15%nat ->
     (forall i, (i < n)%nat -> dst' !! i = Some (ntohl (nth i req 0))) -> Q dst' l w') ->
  wp (req_copy (seq k m) n req dst) Q l w.
Proof.
  revert k dst w. induction m as [|m IH]; intros k dst w Hkm Hn Hlen Hpre HQ; cbn [req_copy seq].
  { wp_step. apply HQ; [done|]. intros i Hi. apply Hpre. lia. }
  wp_step. apply wp_over_read_words. intros junk w1 Hj. unfold BUFFER_PACKET_NUM.
  destruct (Z.ltb_spec (16 - 1) (Z.of_nat (k + n))); [lia|].
  apply IH; auto; [lia| |].
  - rewrite !length_app, length_take, length_drop. simpl. lia.
  - intros i Hi. destruct (decide (i = k)) as [->|].
    + rewrite lookup_app_r by (rewrite length_take; lia).
      rewrite length_take. by replace (k - k `min` length dst)%nat with O by lia.
    + rewrite lookup_app_l by (rewrite length_take; lia).
      rewrite lookup_take_lt by lia. apply Hpre. lia.
Qed.

(** ... and with nine or more it runs past the array. *)
Lemma req_copy_ub idx n req dst l w :
  Exists (fun i => 15 < i + n)%nat idx -> req_copy idx n req dst l w = None.
Proof.
  revert dst w. induction idx as [|i r IH]; intros dst w H; [inversion H|].
  cbn [req_copy]. unfold bindM.
  assert (Hj := wp_over_read_words (n - 1) (fun _ s' _ => s' = l) l w (fun _ _ _ => eq_refl)).
  unfold wp in Hj. destruct (over_read_words (n - 1) l w) as [[[junk l1] w1]|]; [subst|done].
  unfold BUFFER_PACKET_NUM. destruct (Z.ltb_spec (16 - 1) (Z.of_nat (i + n))); [done|].
  apply IH. apply Exists_cons in H as [H|H]; [lia|done].
Qed.

Lemma wp_handle_SYNC3 i counter recv_num sent_num req Q l w c :
  ludp_wf l -> is_u32 recv_num -> is_u32 sent_num -> conn_at l i c -> status c = 3 ->
  (length req <= 8)%nat -> (forall r l' w', ludp_wf l' -> Q r l' w') ->
  wp (handle_SYNC3 i counter recv_num sent_num req) Q l w.
Proof.
  intros Hwf Hr Hs Hc Hst Hle HQ. unfold handle_SYNC3. wp_step. apply wp_get_conn. exists c. split; [done|].
  wp_step; [|wp_step; by apply HQ]. do 2 wp_step. wp_step.
  apply wp_req_copy; [lia|done|simpl; by apply (conn_at_wf _ _ _ Hwf Hc)|intros; lia|].
  intros dst' w'' Hlen _. wp_step. rewrite wp_put_conn. wp_step. apply HQ.
  eapply ludp_wf_upd; eauto.
  assert (Hcw : conn_wf (SYNC3_conn counter recv_num sent_num t c)).
  { apply SYNC3_conn_wf; auto. by eapply conn_at_wf. }
  set (c1 := SYNC3_conn _ _ _ _ _) in *. clearbody c1.
  conn_wf_cases Hcw. split; [done|lia].
Qed.

Lemma wlp_handle_SYNC3 i counter recv_num sent_num req Q l w :
  ludp_wf l -> is_u32 recv_num -> is_u32 sent_num -> (forall c, conn_at l i c -> status c = 3) ->
  (forall r l' w', ludp_wf l' -> Q r l' w') ->
  wlp (handle_SYNC3 i counter recv_num sent_num req) Q l w.
Proof.
  intros Hwf Hr Hs Hst HQ. destruct (decide (length req <= 8)%nat) as [Hle|Hgt].
  { destruct (tox_array_get (connections l) i) as [c|] eqn:Ec.
    - apply wp_wlp. eapply wp_handle_SYNC3; [done..|exact Ec|by apply Hst|done|done].
    - unfold handle_SYNC3. wlp_step. apply wlp_get_conn. unfold conn_at. intros c Hc. congruence. }
  unfold handle_SYNC3. wlp_step. apply wlp_get_conn. intros c Hc.
  wlp_step; [|wlp_step; by apply HQ]. do 2 wlp_step. wlp_step.
  unfold wlp. rewrite req_copy_ub; [done|]. apply Exists_exists.
  exists 7%nat. split; [apply elem_of_seq; lia|lia].
Qed.

(** A SYNC packet that asks for at most eight packets. *)
Lemma wp_handle_SYNC src p Q l w :
  ludp_wf l -> (length p <= 42)%nat -> (forall r l' w', ludp_wf l' -> Q r l' w') ->
  wp (handle_SYNC src p) Q l w.
Proof.
  intros Hwf Hlen HQ. unfold handle_SYNC. wp_step; [wp_step; by apply HQ|]. do 2 wp_step. wp_step.
  { apply wp_handle_SYNC1; auto with tox. }
  destruct (getconnection_id_some l src _ eq_refl) as (c & Hc & _); [done|].
  wp_step. apply wp_get_conn. exists c. split; [done|].
  wp_step; [|wp_step; [|wp_step; by apply HQ]].
  - eapply wp_handle_SYNC2; [done..|intros; by apply HQ|]. intros _ Hwf'. wp_step. by apply HQ.
  - eapply wp_handle_SYNC3; auto with tox; [done..|].
    unfold SYNC_requests. rewrite length_map, length_seq. lia.
Qed.

Lemma wlp_handle_SYNC src p Q l w :
  ludp_wf l -> (forall r l' w', ludp_wf l' -> Q r l' w') -> wlp (handle_SYNC src p) Q l w.
Proof.
  intros Hwf HQ. unfold handle_SYNC. wlp_step; [wlp_step; by apply HQ|]. do 2 wlp_step. wlp_step.
  { apply wp_wlp, wp_handle_SYNC1; auto with tox. }
  wlp_step. apply wlp_get_conn. intros c Hc.
  assert (Hone : forall c', conn_at l (getconnection_id l src) c' -> c' = c)
    by (intros c' Hc'; unfold conn_at in *; congruence).
  wlp_step; [|wlp_step; [|wlp_step; by apply HQ]].
  - apply wlp_handle_SYNC2; auto. by intros c' ->%Hone.
  - apply wlp_handle_SYNC3; auto with tox. by intros c' ->%Hone.
Qed.

Lemma store_recv_same data_num data now c :
  status (store_recv data_num data now c) = status c /\
  ip_port (store_recv data_num data now c) = ip_port c.
Proof. unfold store_recv. by case_if. Qed.

(** Incoming data never breaks the receive window, whatever its number. *)
Lemma wp_add_recv i data_num data Q l w c :
  ludp_wf l -> conn_at l i c -> status c = 3 -> (0 < length data)%nat ->
  (forall r l' w', ludp_wf l' -> Q r l' w') -> wp (add_recv i data_num data) Q l w.
Proof.
  intros Hwf Hc Hst Hlen HQ. pose proof (conn_at_wf _ _ _ Hwf Hc) as Hcw.
  unfold add_recv, MAX_DATA_SIZE. wp_step; [wp_step; by apply HQ|].
  wp_step. apply wp_get_conn. exists c. split; [done|]. cbn zeta.
  assert (Hend : forall l1 c1 w1, ludp_wf l1 -> conn_at l1 i c1 -> status c1 = 3 ->
    wp (c <- get_conn i ;; put_conn i (advance_recv c) ;;; retM 0) Q l1 w1).
  { intros l1 c1 w1 Hwf1 Hc1 Hs1. wp_step. apply wp_get_conn. exists c1. split; [done|].
    wp_step. rewrite wp_put_conn. wp_step. apply HQ. eapply ludp_wf_upd; eauto.
    apply advance_recv_wf; [by eapply conn_at_wf|lia..]. }
  wp_step. unfold BUFFER_PACKET_NUM in *. wp_step; [|wp_step; by eapply Hend].
  wp_step. wp_step. rewrite wp_put_conn.
  destruct (store_recv_same data_num data t c) as [Es Ei].
  match goal with H : recv_find _ _ _ = true |- _ =>
    apply recv_find_spec in H as (k & Hk & ->); [|by apply wf_recv_u32] end.
  eapply (Hend _ (store_recv _ data t c)); [|by eapply conn_at_upd|congruence].
  eapply ludp_wf_upd; eauto; [|congruence].
  apply store_recv_wf; [done|lia|lia|lia|]. exists k. split; [|done].
  pose proof (wf_window _ Hcw). pose proof (wf_recv_u32 _ Hcw). pose proof (wf_read_u32 _ Hcw).
  unfold recvqueue_conn in *. uarith.
Qed.

Lemma wp_handle_data src p Q l w :
  ludp_wf l -> (forall r l' w', ludp_wf l' -> Q r l' w') -> wp (handle_data src p) Q l w.
Proof.
  intros Hwf HQ. unfold handle_data. do 2 wp_step. wp_step; [wp_step; by apply HQ|]. wp_step.
  apply wp_get_conn. destruct (getconnection_id_some l src _ eq_refl) as (c & Hc & _); [done|].
  exists c. split; [done|]. repeat wp_step; try by apply HQ.
  eapply wp_add_recv; eauto. rewrite length_drop. lia.
Qed.

(** ** The main loop *)

Lemma wlp_each_conn fuel i body l w (I : Lossless_UDP -> Prop) :
  I l -> 0 <= i ->
  (forall i l w, I l -> 0 <= i < conn_count l -> wlp (body i) (fun _ l' _ => I l') l w) ->
  wlp (each_conn fuel i body) (fun _ l' _ => I l') l w.
Proof.
  intros HI Hi Hbody. revert i l w HI Hi.
  induction fuel as [|n IH]; intros i l w HI Hi; cbn [each_conn];
    wlp_step; apply wp_wlp; rewrite wp_get; (wlp_step; [|by wlp_step]); [done|].
  wlp_step. eapply wlp_mono; [apply Hbody; auto|]. intros [] l' w' HI'. apply IH; [done|lia].
Qed.

Lemma wlp_for_each_conn body l w (I : Lossless_UDP -> Prop) :
  I l ->
  (forall i l w, I l -> 0 <= i < conn_count l -> wlp (body i) (fun _ l' _ => I l') l w) ->
  wlp (for_each_conn body) (fun _ l' _ => I l') l w.
Proof.
  intros HI Hbody. unfold for_each_conn. wlp_step. apply wp_wlp. rewrite wp_get.
  by apply wlp_each_conn.
Qed.

(** When the body never adds connections the loop ends within its bound. *)
Lemma wp_each_conn fuel i body l w (I : Lossless_UDP -> Prop) :
  I l -> 0 <= i -> conn_count l <= i + Z.of_nat fuel ->
  (forall i l w, I l -> 0 <= i < conn_count l ->
     wp (body i) (fun _ l' _ => I l' /\ conn_count l' <= conn_count l) l w) ->
  wp (each_conn fuel i body) (fun _ l' _ => I l') l w.
Proof.
  intros HI Hi Hc Hbody. revert i l w HI Hi Hc.
  induction fuel as [|n IH]; intros i l w HI Hi Hc; cbn [each_conn]; do 2 wp_step;
    (wp_step; [|by wp_step]); [lia|].
  wp_step. eapply wp_mono; [apply Hbody; auto; lia|]. intros [] l' w' [HI' Hle]. apply IH; [done|lia..].
Qed.

Lemma wp_for_each_conn body l w (I : Lossless_UDP -> Prop) :
  I l ->
  (forall i l w, I l -> 0 <= i < conn_count l ->
     wp (body i) (fun _ l' _ => I l' /\ conn_count l' <= conn_count l) l w) ->
  wp (for_each_conn body) (fun _ l' _ => I l') l w.
Proof.
  intros HI Hbody. unfold for_each_conn. do 2 wp_step. apply wp_each_conn; auto; [lia|].
  unfold conn_count, ta_len. lia.
Qed.

Lemma wp_interval rate Q l w :
  rate <> 0 -> Q (1000000 / rate) l w -> wp (interval rate) Q l w.
Proof. intros H HQ. unfold interval. wp_step; [lia|by wp_step]. Qed.

Lemma prefix_state_count l l' : prefix_state l l' -> conn_count l' <= conn_count l.
Proof.
  intros (n & t & -> & _). unfold conn_count, ta_len. simpl. rewrite length_take. lia.
Qed.

Lemma conn_at_range l i : 0 <= i < conn_count l -> exists c, conn_at l i c.
Proof. intros H. apply valid_id_conn. unfold valid_id. apply andb_true_iff. lia. Qed.

(** One turn of [do_new]; [dn_sent] and [dn_timeout] are its first two steps. *)
Lemma wp_do_new_conn t i l w :
  is_u64 t -> ludp_wf l -> 0 <= i < conn_count l ->
  wp (do_new_conn t i) (fun _ l' _ => ludp_wf l' /\ conn_count l' <= conn_count l) l w.
Proof.
  intros Ht Hwf Hi. destruct (conn_at_range _ _ Hi) as [c Hc].
  pose proof (conn_at_wf _ _ _ Hwf Hc) as Hcw. unfold do_new_conn.
  wp_step. apply wp_get_conn. exists c. split; [done|].
  set (rest := (fun due : bool => bindM (if due then _ else _) _)).
  assert (Hrest : forall due w', wp (rest due)
            (fun _ l' _ => ludp_wf l' /\ conn_count l' <= conn_count l) l w').
  { assert (Hend : forall l1 c1 w1, ludp_wf l1 -> conn_at l1 i c1 -> conn_count l1 = conn_count l ->
      wp (c <- get_conn i ;;
          if (0 <? status c) && (killat c <? t) then kill_connection i ;;; retM tt else retM tt)
         (fun _ l' _ => ludp_wf l' /\ conn_count l' <= conn_count l) l1 w1).
    { intros l1 c1 w1 Hwf1 Hc1 Hn. wp_step. apply wp_get_conn. exists c1. split; [done|].
      wp_step; [|wp_step; split; [done|lia]]. wp_step.
      apply wp_kill_connection; [done|intros; wp_step; split; [done|lia]|].
      intros c2 l2 l3 w3 _ _ (t' & -> & _) Hp Hwf3. wp_step. split; [done|].
      apply prefix_state_count in Hp. etransitivity; [done|].
      rewrite conn_count_upd. unfold conn_count in *. simpl. unfold ta_len in *. simpl.
      rewrite length_insert. lia. }
    assert (Hmid : forall l1 c1 w1, ludp_wf l1 -> conn_at l1 i c1 -> conn_count l1 = conn_count l ->
      wp (c <- get_conn i ;;
          (if (0 <? status c) && (u64 (last_recvSYNC c + timeout c * 1000000) <? t)
              && negb (status c =? 4) then put_conn i (set_status 4 c) else retM tt) ;;;
          c <- get_conn i ;;
          if (0 <? status c) && (killat c <? t) then kill_connection i ;;; retM tt else retM tt)
         (fun _ l' _ => ludp_wf l' /\ conn_count l' <= conn_count l) l1 w1).
    { intros l1 c1 w1 Hwf1 Hc1 Hn. wp_step. apply wp_get_conn. exists c1. split; [done|].
      wp_step. wp_step; [rewrite wp_put_conn|wp_step; by eapply Hend].
      eapply Hend; [|by eapply conn_at_upd|by rewrite conn_count_upd].
      eapply ludp_wf_upd; eauto; [|simpl; lia]. pose proof (conn_at_wf _ _ _ Hwf1 Hc1) as Hcw1.
      pose proof (wf_rates _ Hcw1 ltac:(lia)). conn_wf_cases Hcw1; lia. }
    intros due w'. subst rest. cbn beta. wp_step. destruct due; [|wp_step; by eapply Hmid].
    unfold send_handshake. wp_step. wp_step. rewrite wp_put_conn.
    eapply Hmid; [|by eapply conn_at_upd|by rewrite conn_count_upd].
    eapply ludp_wf_upd; eauto. by conn_wf_cases Hcw. }
  wp_step. wp_step; [|by wp_step].
  wp_step. apply wp_interval; [pose proof (wf_rates _ Hcw); lia|]. wp_step. apply Hrest.
Qed.

Lemma wp_do_new Q l w :
  ludp_wf l -> (forall l' w', ludp_wf l' -> Q tt l' w') -> wp do_new Q l w.
Proof.
  intros Hwf HQ. unfold do_new. do 2 wp_step.
  eapply wp_mono; [apply (wp_for_each_conn _ _ _ ludp_wf); [done|]|intros [] l' w'' ?; by apply HQ].
  intros. by apply wp_do_new_conn.
Qed.

Lemma wlp_do_SYNC Q l w :
  ludp_wf l -> (forall l' w', ludp_wf l' -> Q tt l' w') -> wlp do_SYNC Q l w.
Proof.
  intros Hwf HQ. unfold do_SYNC. do 2 wlp_step.
  eapply wlp_mono; [apply (wlp_for_each_conn _ _ _ ludp_wf); [done|]|intros [] l' w'' ?; by apply HQ].
  clear l w w' Hwf HQ. intros i l w Hwf Hi. unfold do_SYNC_conn. wlp_step.
  apply wlp_get_conn. intros c Hc. wlp_step; [|by wlp_step]. wlp_step.
  pose proof (wf_rates _ (conn_at_wf _ _ _ Hwf Hc)) as Hr.
  apply wp_wlp, wp_interval; [lia|]. wlp_step; [|by wlp_step]. wlp_step.
  apply wlp_send_SYNC; [done|]. intros c0 c1 r w1 Hc0 Hc1 Hst Hwf1. wlp_step.
  apply wlp_get_conn. intros c2 Hc2. apply wp_wlp. rewrite wp_put_conn.
  eapply ludp_wf_upd; eauto. pose proof (conn_at_wf _ _ _ Hwf1 Hc2) as Hcw. by conn_wf_cases Hcw.
Qed.

(** The inner loop of [do_data] ends: the clock is far from overflow and each turn
    moves by a positive step. *)
Lemma wp_send_data_loop fuel i j t l w c :
  ludp_wf l -> conn_at l i c -> status c = 3 -> 0 <= j ->
  t + 1000000 < 18446744073709551616 ->
  t - j <= Z.of_nat fuel * (1000000 / data_rate c) ->
  wp (send_data_loop fuel i j t)
     (fun _ l' _ => ludp_wf l' /\ conn_count l' = conn_count l /\
                    exists c', conn_at l' i c' /\ status c' = 3) l w.
Proof.
  revert j l w c. induction fuel as [|f IH]; intros j l w c Hwf Hc Hst Hj Ht Hf; cbn [send_data_loop];
    (wp_step; [|wp_step; by eauto]); [lia|].
  wp_step. eapply wp_send_DATA; [done..|]. intros r w' Hwf'.
  destruct (send_DATA_conn_same c) as (_ & Es & Er). pose proof (conn_at_upd _ _ _ (send_DATA_conn c) Hc) as Hc'.
  wp_step. apply wp_get_conn. exists (send_DATA_conn c). split; [done|].
  pose proof (wf_rates _ (conn_at_wf _ _ _ Hwf Hc) ltac:(lia)) as [_ Hr].
  assert (Hstep : 0 <= 1000000 / data_rate c <= 1000000).
  { split; [apply Z.div_pos; lia|]. apply Z.div_le_upper_bound; nia. }
  wp_step. apply wp_interval; [lia|]. rewrite Er.
  assert (Hu : u64 (j + 1000000 / data_rate c) = j + 1000000 / data_rate c)
    by (apply u64_small; unfold is_u64; lia).
  rewrite Hu. eapply wp_mono.
  - eapply IH; [done|done|congruence|lia|done|rewrite Er; nia].
  - intros [] l'' w'' (H1 & H2 & H3). rewrite conn_count_upd in H2. done.
Qed.

Lemma wp_do_data_conn t i l w :
  is_u64 t -> t + 1000000 < 18446744073709551616 -> ludp_wf l -> 0 <= i < conn_count l ->
  wp (do_data_conn t i) (fun _ l' _ => ludp_wf l' /\ conn_count l' <= conn_count l) l w.
Proof.
  intros Htu Ht Hwf Hi. destruct (conn_at_range _ _ Hi) as [c Hc].
  pose proof (conn_at_wf _ _ _ Hwf Hc) as Hcw. unfold do_data_conn.
  wp_step. apply wp_get_conn. exists c. split; [done|]. do 2 wp_step.
  wp_step; [|wp_step; split; [done|lia]]. wp_step.
  pose proof (wf_rates _ Hcw ltac:(lia)) as [_ Hr]. apply wp_interval; [lia|].
  wp_step; [|wp_step; split; [done|lia]]. wp_step. pose proof (wf_last_sent _ Hcw) as Hls.
  eapply wp_mono; [eapply (wp_send_data_loop _ _ _ _ _ _ c); auto; [apply Hls|]|].
  - assert (1 <= 1000000 / data_rate c) by (apply Z.div_le_lower_bound; lia).
    rewrite Z.max_r by lia. set (st := 1000000 / data_rate c) in *.
    pose proof (Z.div_mod (t - last_sent c) st ltac:(lia)).
    pose proof (Z.mod_pos_bound (t - last_sent c) st ltac:(lia)). nia.
  - intros [] l1 w1 (Hwf1 & Hn & c1 & Hc1 & Hs1). wp_step. apply wp_get_conn. exists c1.
    split; [done|]. rewrite wp_put_conn. rewrite conn_count_upd. split; [|lia].
    eapply ludp_wf_upd; eauto. pose proof (conn_at_wf _ _ _ Hwf1 Hc1) as Hcw1. by conn_wf_cases Hcw1.
Qed.

Lemma wlp_send_data_loop fuel i j t l w :
  ludp_wf l -> wlp (send_data_loop fuel i j t) (fun _ l' _ => ludp_wf l') l w.
Proof.
  revert j l w. induction fuel as [|f IH]; intros j l w Hwf; cbn [send_data_loop];
    (wlp_step; [|by wlp_step]); [done|].
  wlp_step. destruct (valid_id l i) eqn:Ev.
  2: { unfold send_DATA. wlp_step. apply wlp_get_conn. intros c Hc.
       assert (valid_id l i = true); [|congruence]. apply valid_id_conn. eauto. }
  apply valid_id_conn in Ev as [c Hc]. apply wp_wlp. eapply wp_send_DATA; [done..|].
  intros r w' Hwf'. wlp_step. apply wlp_get_conn. intros c1 Hc1. wlp_step.
  unfold interval. wlp_step; [done|]. wlp_step. by apply IH.
Qed.

Lemma wlp_do_data Q l w :
  ludp_wf l -> (forall l' w', ludp_wf l' -> Q tt l' w') -> wlp do_data Q l w.
Proof.
  intros Hwf HQ. unfold do_data. do 2 wlp_step.
  eapply wlp_mono; [apply (wlp_for_each_conn _ _ _ ludp_wf); [done|]|intros [] l' w'' ?; by apply HQ].
  clear l w w' Hwf HQ. intros i l w Hwf Hi. unfold do_data_conn. wlp_step.
  apply wlp_get_conn. intros c Hc. wlp_step. apply wp_wlp. rewrite wp_get.
  wlp_step; [|by wlp_step]. wlp_step. unfold interval. wlp_step; [done|]. wlp_step.
  wlp_step; [|by wlp_step]. wlp_step.
  eapply wlp_mono; [by apply wlp_send_data_loop|]. intros [] l1 w1 Hwf1. wlp_step.
  apply wlp_get_conn. intros c1 Hc1. apply wp_wlp. rewrite wp_put_conn.
  eapply ludp_wf_upd; eauto. pose proof (conn_at_wf _ _ _ Hwf1 Hc1) as Hcw1. by conn_wf_cases Hcw1.
Qed.

Lemma wp_do_data Q l w :
  ludp_wf l -> Forall (fun t => u64 t + 1000000 < 18446744073709551616) (w_us w) ->
  (forall l' w', ludp_wf l' -> Q tt l' w') -> wp do_data Q l w.
Proof.
  intros Hwf Hclock HQ. unfold do_data. wp_step. apply wp_world. cbn beta.
  assert (is_u64 (fst (next_clock (w_us w))) /\
          fst (next_clock (w_us w)) + 1000000 < 18446744073709551616) as [Hu Hb].
  { split; [apply next_clock_u64|].
    destruct Hclock as [|t [|t' r] Ht]; simpl; lia || done. }
  destruct (next_clock (w_us w)) as [t r]. simpl in *.
  eapply wp_mono; [apply (wp_for_each_conn _ _ _ ludp_wf); [done|]|intros [] l' w'' ?; by apply HQ].
  intros. by apply wp_do_data_conn.
Qed.

Lemma wp_adjust_rates Q l w :
  ludp_wf l -> (forall l' w', ludp_wf l' -> Q tt l' w') -> wp adjust_rates Q l w.
Proof.
  intros Hwf HQ. unfold adjust_rates. do 2 wp_step.
  eapply wp_mono; [apply (wp_for_each_conn _ _ _ ludp_wf); [done|]|intros [] l' w'' ?; by apply HQ].
  clear l w w' Hwf HQ. intros i l w Hwf Hi. destruct (conn_at_range _ _ Hi) as [c Hc].
  pose proof (conn_at_wf _ _ _ Hwf Hc) as Hcw. unfold adjust_rates_conn.
  wp_step. apply wp_get_conn. exists c. split; [done|]. do 2 wp_step. rewrite wp_put_conn.
  rewrite conn_count_upd. split; [|lia]. cbn zeta.
  destruct ((status c =? 1) || (status c =? 2)) eqn:E1.
  - assert (Hs : status c = 1 \/ status c = 2) by (bool_to_prop; lia).
    simpl. destruct (Z.eqb_spec (status c) 3); [lia|].
    pose proof (wf_rates _ Hcw ltac:(lia)).
    eapply ludp_wf_upd; eauto. conn_wf_cases Hcw. unfold MAX_SYNC_RATE. lia.
  - destruct (Z.eqb_spec (status c) 3) as [E3|]; [|by rewrite upd_id].
    pose proof (wf_rates _ Hcw ltac:(lia)). pose proof (wf_reqs _ Hcw) as [_ Hreq].
    unfold MAX_SYNC_RATE, SYNC_RATE, BUFFER_PACKET_NUM.
    repeat case_if; (eapply ludp_wf_upd; [done|done| |done|done]); conn_wf_cases Hcw; try lia.
    unfold u16. lia.
Qed.

Lemma wlp_do_lossless_udp Q l w :
  ludp_wf l -> (forall l' w', ludp_wf l' -> Q tt l' w') -> wlp do_lossless_udp Q l w.
Proof.
  intros Hwf HQ. unfold do_lossless_udp. wlp_step. apply wp_wlp, wp_do_new; [done|].
  intros l1 w1 Hwf1. wlp_step. apply wlp_do_SYNC; [done|]. intros l2 w2 Hwf2.
  wlp_step. apply wlp_do_data; [done|]. intros l3 w3 Hwf3.
  by apply wp_wlp, wp_adjust_rates.
Qed.

(** ** Reachable states

    Everything the rest of the program, the network and the clock can do to the
    module, as a step relation. *)

Inductive ludp_call :=
  | Call_new_connection (ipp : IP_Port)
  | Call_incoming_connection
  | Call_kill_connection (i : Z)
  | Call_kill_connection_in (i seconds : Z)
  | Call_read_packet (i : Z)
  | Call_write_packet (i : Z) (data : list Z)
  | Recv_handshake (src : IP_Port) (packet : list Z)
  | Recv_SYNC (src : IP_Port) (packet : list Z)
  | Recv_data (src : IP_Port) (packet : list Z)
  | Call_do_lossless_udp.

Definition run_call (k : ludp_call) : M Lossless_UDP unit :=
  match k with
  | Call_new_connection ipp => new_connection ipp ;;; retM tt
  | Call_incoming_connection => incoming_connection ;;; retM tt
  | Call_kill_connection i => kill_connection i ;;; retM tt
  | Call_kill_connection_in i s => kill_connection_in i s ;;; retM tt
  | Call_read_packet i => read_packet i ;;; retM tt
  | Call_write_packet i data => write_packet i data ;;; retM tt
  | Recv_handshake src p => handle_handshake src p ;;; retM tt
  | Recv_SYNC src p => handle_SYNC src p ;;; retM tt
  | Recv_data src p => handle_data src p ;;; retM tt
  | Call_do_lossless_udp => do_lossless_udp
  end.

Inductive reachable : Lossless_UDP -> Prop :=
  | reach_init n : reachable (new_lossless_udp n)
  | reach_step l w k l' w' :
      reachable l -> run_call k l w = Some (tt, l', w') -> reachable l'.

Lemma new_lossless_udp_wf n : ludp_wf (new_lossless_udp n).
Proof.
  split; simpl; [constructor|by intros ? ? ? ? ?|].
  split; [done|]. apply (Forall_replicate _ 6). split; [apply length_zeros|].
  apply Forall_replicate. uarith.
Qed.

Lemma run_call_wf k l w : ludp_wf l -> wlp (run_call k) (fun _ l' _ => ludp_wf l') l w.
Proof.
  intros Hwf. destruct k; simpl; try (wlp_step).
  - apply wp_wlp, wp_new_connection; [done|]. intros id l' w' [H _]. by wlp_step.
  - apply wp_wlp, wp_incoming_connection; [done|intros; by wlp_step..].
  - apply wp_wlp, wp_kill_connection; [done|intros; by wlp_step..].
  - apply wp_wlp, wp_kill_connection_in; [done|intros; by wlp_step].
  - apply wp_wlp, wp_read_packet; [done|intros; by wlp_step..].
  - apply wlp_write_packet; [done|intros; by wlp_step].
  - apply wp_wlp, wp_handle_handshake; [done|intros; by wlp_step].
  - apply wlp_handle_SYNC; [done|intros; by wlp_step].
  - apply wp_wlp, wp_handle_data; [done|intros; by wlp_step].
  - by apply wlp_do_lossless_udp.
Qed.

Lemma reachable_ludp_wf l : reachable l -> ludp_wf l.
Proof.
  induction 1 as [n|l w k l' w' _ IH Hrun]; [apply new_lossless_udp_wf|].
  exact (wlp_run Hrun (run_call_wf k l w IH)).
Qed.
