(* ===== verification/LosslessLink.v ===== *)
(** * Lossless_UDP: what two ends of a connection deliver to each other

    Two connections in state 3, one at each end, and a network that may lose,
    duplicate, delay and reorder what they send.  Whatever happens, what an end
    reads is a prefix of what the other end wrote: in order, once each, unchanged. *)

From S2P Require Import Prelude MiscTools Network LosslessUDP LosslessInv LosslessSafe.
Local Open Scope Z_scope.
Local Open Scope tox_scope.

(** ** The operations on one connection *)

(** [add_recv] on the connection. *)
Definition recv_conn (data_num : Z) (data : list Z) (now : Z) (c : Connection) : Connection :=
  let maxnum := u32 (successful_read c + BUFFER_PACKET_NUM) in
  if recv_find (Z.to_nat (u32 (maxnum - recv_packetnum c))) (recv_packetnum c) data_num
  then advance_recv (store_recv data_num data now c)
  else advance_recv c.

(** [handle_SYNC3] on the connection, [dst] being what the copy loop leaves in
    [req_packets]. *)
Definition sync_conn (counter recv_num sent_num now : Z) (dst : list Z) (number : nat)
    (c : Connection) : Connection :=
  set_num_req_paquets (Z.of_nat number) (set_req_packets dst (SYNC3_conn counter recv_num sent_num now c)).

(** The number of the packet [send_DATA] sends, if any. *)
Definition next_data (c : Connection) : option Z :=
  if 0 <? num_req_paquets c then Some (nth 0 (req_packets c) 0)
  else if negb (sendbuff_packetnum c =? sent_packetnum c) then Some (sent_packetnum c)
  else None.

Definition slot_payload (buf : list Data) (i : Z) : list Z :=
  let d := buf_get buf i in take (Z.to_nat (d_size d)) (d_data d).

Lemma upd_upd l i c c' : upd (upd l i c) i c' = upd l i c'.
Proof.
  unfold upd, set_connections, tox_array_set. simpl. by rewrite list_insert_insert_eq.
Qed.

(** [add_recv] is [recv_conn] on the connection. *)
Lemma add_recv_is_recv_conn i data_num data l w c :
  (length data <= 1024)%nat -> conn_at l i c ->
  wp (add_recv i data_num data)
     (fun r l' _ => r = 0 /\ exists now, l' = upd l i (recv_conn data_num data now c)) l w.
Proof.
  intros Hlen Hc. unfold add_recv, recv_conn, MAX_DATA_SIZE.
  destruct (Z.ltb_spec 1024 (Z.of_nat (length data))); [lia|].
  wp_step. apply wp_get_conn. exists c. split; [done|]. wp_step.
  destruct (recv_find _ _ _).
  - do 2 wp_step. rewrite wp_put_conn. wp_step. apply wp_get_conn.
    eexists. split; [by eapply conn_at_upd|]. wp_step. rewrite wp_put_conn, wp_ret, upd_upd.
    by eauto.
  - do 2 wp_step. apply wp_get_conn. exists c. split; [done|]. wp_step.
    rewrite wp_put_conn, wp_ret. split; [done|]. by exists 0.
Qed.

(** ** The session *)

Inductive pkt :=
  | PData (num : Z) (payload : list Z)
  | PSync (counter recv_num sent_num : Z) (requests : list Z).

(** One end: its connection, what was written to it and what was read from it,
    and the packets it has sent. *)
Record End := mkEnd {
  e_conn : Connection;
  e_wrote : list (list Z);
  e_read : list (list Z);
  e_net : list pkt
}.

(** What one end does on its own or on receiving a packet its peer has sent at any
    time before.  A SYNC packet that asks for more than eight packets is sent like any other
    ([step_send_SYNC]) but not delivered: [SYNC_valid] lets it through and [handle_SYNC3] then
    writes past [req_packets], after which C says nothing ([SYNC_requests_overflow]). *)
Inductive end_step (peer : list pkt) : End -> End -> Prop :=
  | step_write c wr rd nt data :
      (0 < length data <= 1024)%nat -> sendqueue_conn c < 15 ->
      end_step peer (mkEnd c wr rd nt) (mkEnd (write_packet_conn c data) (wr ++ [data]) rd nt)
  | step_send_DATA c wr rd nt num :
      next_data c = Some num ->
      end_step peer (mkEnd c wr rd nt)
        (mkEnd (send_DATA_conn c) wr rd (PData num (slot_payload (sendbuffer c) num) :: nt))
  | step_send_SYNC c wr rd nt req c' :
      missing_packets_conn c = Some (req, c') ->
      end_step peer (mkEnd c wr rd nt)
        (mkEnd c' wr rd
           (PSync (send_counter c) (recv_packetnum c) (sent_packetnum c) (map ntohl req) :: nt))
  | step_recv_SYNC c wr rd nt counter rn sn reqs now dst :
      PSync counter rn sn reqs ∈ peer -> SYNC3_ok c counter rn sn = true ->
      (length reqs <= 8)%nat -> length dst = 15%nat ->
      (forall i x, reqs !! i = Some x -> dst !! i = Some x) ->
      end_step peer (mkEnd c wr rd nt)
        (mkEnd (sync_conn counter rn sn now dst (length reqs) c) wr rd nt)
  | step_recv_data c wr rd nt num payload now :
      PData num payload ∈ peer ->
      end_step peer (mkEnd c wr rd nt) (mkEnd (recv_conn num payload now c) wr rd nt)
  | step_read c wr rd nt :
      recvqueue_conn c <> 0 ->
      end_step peer (mkEnd c wr rd nt)
        (mkEnd (snd (read_packet_conn c)) wr (rd ++ [fst (read_packet_conn c)]) nt).

Inductive session_step : End * End -> End * End -> Prop :=
  | session_left a b a' : end_step (e_net b) a a' -> session_step (a, b) (a', b)
  | session_right a b b' : end_step (e_net a) b b' -> session_step (a, b) (a, b').

Inductive session : End * End -> End * End -> Prop :=
  | session_refl x : session x x
  | session_next x y z : session x y -> session_step y z -> session x z.

(** A connection that has just been established: [h] is the number of the first
    packet it will send, [k] that of the first it will receive. *)
Record established (h k : Z) (c : Connection) : Prop := {
  es_wf : conn_wf c;
  es_status : status c = 3;
  es_send : sent_packetnum c = u32 h /\ sendbuff_packetnum c = u32 h /\
            successful_sent c = u32 h /\ orecv_packetnum c = u32 h;
  es_recv : recv_packetnum c = u32 k /\ successful_read c = u32 k /\ osent_packetnum c = u32 k;
  es_empty : forall i, ~ filled (recvbuffer c) i;
  es_noreq : num_req_paquets c = 0
}.

(** How many SYNC packets of [S] the end [R] has not seen yet.  A SYNC packet is taken only
    if its counter is 1 to 9 ahead of the last one taken, and taking one lets the receiver
    count on: the two ends pass between them the right to be heard.  [tokens] says that
    one of them has it. *)
Definition ahead (S R : Connection) : Z := u8 (send_counter S - recv_counter R).
Definition tokens (a b : Connection) : Prop := 1 <= ahead a b + ahead b a <= 9.

(** ** One direction of the session

    [log] is what the sender was given to send and [del] what the receiver has
    delivered.  The numbers on the wire are [u32 (h + k)] for [k] an index of [log]:
    the sender is acknowledged up to [a], has sent up to [s]; the receiver has
    delivered up to [r], received without a gap up to [v], and knows of [o]. *)
Record dir_inv (h : Z) (S R : Connection) (log del : list (list Z)) (netS netR : list pkt)
    (a s r v o : Z) : Prop := {
  di_order : 0 <= r /\ r <= v /\ v <= o /\ o <= s /\ s <= Z.of_nat (length log) /\
             0 <= a /\ a <= v /\ Z.of_nat (length log) - a <= 15;
  di_send : sendbuff_packetnum S = u32 (h + Z.of_nat (length log)) /\
            successful_sent S = u32 (h + a) /\ orecv_packetnum S = u32 (h + a) /\
            sent_packetnum S = u32 (h + s);
  di_recv : successful_read R = u32 (h + r) /\ recv_packetnum R = u32 (h + v) /\
            osent_packetnum R = u32 (h + o);
  di_log : Forall (fun p => 0 < length p <= 1024)%nat log;
  di_slots : forall k p, 0 <= k -> Z.of_nat (length log) - 16 <= k ->
    log !! Z.to_nat k = Some p -> slot_payload (sendbuffer S) (h + k) = p;
  di_reqs : forall i, Z.of_nat i < num_req_paquets S ->
    exists k, req_packets S !! i = Some (u32 (h + k)) /\ a <= k < s;
  di_window : forall k, r <= k < r + 15 -> filled (recvbuffer R) (h + k) ->
    k <= o /\ log !! Z.to_nat k = Some (slot_payload (recvbuffer R) (h + k));
  di_del : del = take (Z.to_nat r) log;
  di_data : forall num p, PData num p ∈ netS ->
    exists k, num = u32 (h + k) /\ 0 <= k < s /\ log !! Z.to_nat k = Some p;
  di_syncS : forall counter rn sn reqs, PSync counter rn sn reqs ∈ netS ->
    exists k, sn = u32 (h + k) /\ 0 <= k <= s;
  di_syncR : forall counter rn sn reqs, PSync counter rn sn reqs ∈ netR ->
    exists k, rn = u32 (h + k) /\ 0 <= k <= v /\
      forall i x, reqs !! i = Some x -> exists j, x = u32 (h + j) /\ k <= j < s
}.

Definition dir_ok (h : Z) (S R : Connection) (log del : list (list Z)) (netS netR : list pkt) : Prop :=
  exists a s r v o, dir_inv h S R log del netS netR a s r v o.

(** The sequence numbers do not wrap around onto each other. *)
Definition bounded (log : list (list Z)) : Prop := Z.of_nat (length log) + 64 < 4294967296.

(** The invariant of a step that leaves the role's fields as they are. *)
Ltac dir_same H :=
  destruct H as (a & s & r & v & o & H); exists a, s, r, v, o; destruct H; constructor;
  simpl in *; auto.

Lemma slot_payload_slot buf i j : slot i = slot j -> slot_payload buf i = slot_payload buf j.
Proof. intros H. unfold slot_payload. by rewrite (buf_get_slot _ _ _ H). Qed.

Lemma slot_payload_u32 buf i : slot_payload buf (u32 i) = slot_payload buf i.
Proof. apply slot_payload_slot, slot_u32. Qed.

(** Copying a packet into a slot. *)
Lemma slot_payload_set_eq buf i j data :
  buf_ok buf -> (length data <= 1024)%nat -> slot i = slot j ->
  slot_payload (buf_set buf i (mkData (memcpy (d_data (buf_get buf i)) data (length data))
                                 (Z.of_nat (length data)))) j = data.
Proof.
  intros [Hl _] Hd Hs. unfold slot_payload. rewrite buf_get_set_eq by done. simpl.
  rewrite Nat2Z.id. unfold memcpy. rewrite firstn_all, take_app_length. done.
Qed.

Lemma slot_payload_set_ne buf i j d :
  slot i <> slot j -> slot_payload (buf_set buf i d) j = slot_payload buf j.
Proof. intros H. unfold slot_payload. by rewrite buf_get_set_ne. Qed.

(** *** The sender *)

Lemma dir_write h S R log del netS netR data :
  dir_ok h S R log del netS netR -> bounded log -> conn_wf S ->
  (0 < length data <= 1024)%nat -> sendqueue_conn S < 15 ->
  dir_ok h (write_packet_conn S data) R (log ++ [data]) del netS netR.
Proof.
  intros (a & s & r & v & o & H) Hb Hwf Hd Hq. unfold bounded in Hb.
  exists a, s, r, v, o. pose proof (wf_sendbuf _ Hwf) as Hbuf.
  destruct H as [Hord (Hs1 & Hs2 & Hs3 & Hs4) Hrecv Hlog Hslots Hreqs Hwin Hdel Hdata HsyS HsyR].
  assert (Hroom : Z.of_nat (length log) - a < 15).
  { unfold sendqueue_conn in Hq. rewrite Hs1, Hs2 in Hq. uarith. }
  constructor; simpl; auto; try rewrite length_app; simpl; try lia.
  - split_and!; try done. rewrite Hs1. uarith.
  - apply Forall_app. split; [done|]. by constructor.
  - intros k p Hk Hk' Hp. rewrite Hs1. destruct (decide (k = Z.of_nat (length log))) as [->|].
    + rewrite Nat2Z.id, list_lookup_middle in Hp by done. injection Hp as <-.
      apply slot_payload_set_eq; [done|lia|apply slot_u32].
    + rewrite lookup_app_l in Hp; [|apply lookup_lt_Some in Hp; rewrite length_app in Hp; simpl in Hp; lia].
      rewrite slot_payload_set_ne; [apply Hslots; [done|lia|done]|].
      rewrite slot_u32, slot_eq. apply lookup_lt_Some in Hp. lia.
  - intros k Hk Hf. destruct (Hwin k Hk Hf) as [? ?]. split; [done|].
    by apply lookup_app_l_Some.
  - rewrite take_app_le by lia. done.
  - intros num p Hp. destruct (Hdata num p Hp) as (k & ? & ? & ?). exists k.
    split_and!; [done|lia..|]. by apply lookup_app_l_Some.
Qed.

Lemma dir_send_DATA h S R log del netS netR num :
  dir_ok h S R log del netS netR -> bounded log -> conn_wf S -> next_data S = Some num ->
  dir_ok h (send_DATA_conn S) R log del
    (PData num (slot_payload (sendbuffer S) num) :: netS) netR.
Proof.
  intros (a & s & r & v & o & H) Hb Hwf Hn. unfold bounded in Hb.
  destruct H as [Hord (Hs1 & Hs2 & Hs3 & Hs4) Hrecv Hlog Hslots Hreqs Hwin Hdel Hdata HsyS HsyR].
  assert (Hpkt : forall k, a <= k < Z.of_nat (length log) ->
            log !! Z.to_nat k = Some (slot_payload (sendbuffer S) (u32 (h + k)))).
  { intros k Hk. destruct (lookup_lt_is_Some_2 log (Z.to_nat k)) as [p Hp]; [lia|].
    rewrite Hp, slot_payload_u32. f_equal. symmetry. apply Hslots; [lia..|done]. }
  pose proof (wf_reqs _ Hwf) as [Hrl Hrn].
  unfold next_data, send_DATA_conn in *. destruct (0 <? num_req_paquets S) eqn:E; bool_to_prop.
  - injection Hn as <-. exists a, s, r, v, o.
    destruct (Hreqs 0%nat ltac:(lia)) as (k0 & Hk0 & Hk0').
    assert (E16 : u16 (num_req_paquets S - 1) = num_req_paquets S - 1) by uarith.
    assert (E0 : nth 0 (req_packets S) 0 = u32 (h + k0)) by (by rewrite nth_lookup, Hk0).
    unfold pop_request. rewrite E0, E16. constructor; simpl; auto.
    + intros i Hi. destruct (Hreqs (Datatypes.S i) ltac:(lia)) as (k & Hk & Hk'). exists k. split; [|done].
      rewrite lookup_app_l by (rewrite length_take, length_drop; lia).
      rewrite lookup_take_lt by lia. by rewrite lookup_drop.
    + intros n p [Hp|Hp]%elem_of_cons; [|by auto]. injection Hp as -> ->.
      exists k0. split_and!; [done|lia..|]. apply Hpkt. lia.
    + intros ? ? ? ? [Hp|Hp]%elem_of_cons; [done|]. by eapply HsyS.
  - destruct (Z.eqb_spec (sendbuff_packetnum S) (sent_packetnum S)) as [Eq|Ne]; simpl in *; [done|].
    injection Hn as <-. exists a, (s + 1), r, v, o. rewrite Hs4.
    assert (s < Z.of_nat (length log)).
    { destruct (decide (s = Z.of_nat (length log))) as [->|]; [|lia]. congruence. }
    constructor; simpl; auto; try lia.
    + split_and!; try done. uarith.
    + intros n p [Hp|Hp]%elem_of_cons.
      * injection Hp as -> ->. exists s. split_and!; [done|lia..|]. apply Hpkt. lia.
      * destruct (Hdata n p Hp) as (k & ? & ? & ?). exists k. split_and!; [done|lia..|done].
    + intros ? ? ? ? [Hp|Hp]%elem_of_cons; [done|].
      destruct (HsyS _ _ _ _ Hp) as (k & ? & ?). exists k. split; [done|lia].
    + intros ? ? ? ? Hp. destruct (HsyR _ _ _ _ Hp) as (k & ? & ? & Hx). exists k.
      split_and!; [done|lia..|]. intros i x Hi. destruct (Hx i x Hi) as (j & ? & ?).
      exists j. split; [done|lia].
Qed.

(** What [missing_packets] does to a connection. *)
Lemma missing_packets_conn_cases c req c' :
  conn_wf c -> missing_packets_conn c = Some (req, c') ->
  (c' = c \/ c' = set_recv_packetnum (osent_packetnum c) c) /\
  forall i x, map ntohl req !! i = Some x ->
    exists k, 0 <= k < u32 (osent_packetnum c - recv_packetnum c) /\ x = u32 (recv_packetnum c + k).
Proof.
  intros Hwf. unfold missing_packets_conn. case_if.
  { intros [= <- <-]. split; [by auto|]. by intros [|i] x. }
  rewrite missing_loop_spec by (simpl; lia). case_if; [|done]. intros [= <- <-].
  split; [case_if; auto|]. intros i x Hx. cbn [app] in Hx. rewrite map_map in Hx.
  rewrite list_lookup_fmap in Hx. apply fmap_Some in Hx as (y & Hy & ->).
  apply list_elem_of_lookup_2 in Hy.
  apply missing_nums_elem in Hy as (k & Hk & -> & _); [|apply Hwf].
  pose proof (u32_range (osent_packetnum c - recv_packetnum c)) as Hu. unfold is_u32 in Hu.
  exists k. split; [lia|]. apply ntohl_htonl, u32_range.
Qed.

Lemma dir_send_SYNC_S h S R log del netS netR req S' counter reqs rn :
  dir_ok h S R log del netS netR -> conn_wf S -> missing_packets_conn S = Some (req, S') ->
  dir_ok h S' R log del (PSync counter rn (sent_packetnum S) reqs :: netS) netR.
Proof.
  intros H Hwf Hm. destruct (missing_packets_conn_cases _ _ _ Hwf Hm) as [Hc _].
  destruct H as (a & s & r & v & o & H). exists a, s, r, v, o.
  destruct H as [Hord Hsend Hrecv Hlog Hslots Hreqs Hwin Hdel Hdata HsyS HsyR].
  destruct Hc as [->| ->]; (constructor; simpl; auto;
    [by intros n p [Hp|Hp]%elem_of_cons; auto|]);
    (intros c0 r0 s0 q0 [Hp|Hp]%elem_of_cons; [|by eapply HsyS]);
    injection Hp as -> -> -> ->; exists s; split; [apply Hsend|lia|apply Hsend|lia].
Qed.

Lemma dir_recv_SYNC_S h S R log del netS netR counter rn sn reqs now dst :
  dir_ok h S R log del netS netR -> bounded log ->
  PSync counter rn sn reqs ∈ netR -> SYNC3_ok S counter rn sn = true ->
  (forall i x, reqs !! i = Some x -> dst !! i = Some x) ->
  dir_ok h (sync_conn counter rn sn now dst (length reqs) S) R log del netS netR.
Proof.
  intros (a & s & r & v & o & H) Hb Hin Hok Hdst. unfold bounded in Hb.
  destruct H as [Hord (Hs1 & Hs2 & Hs3 & Hs4) Hrecv Hlog Hslots Hreqs Hwin Hdel Hdata HsyS HsyR].
  destruct (HsyR _ _ _ _ Hin) as (k & -> & Hk & Hx).
  unfold SYNC3_ok, BUFFER_PACKET_NUM in Hok. bool_to_prop. rewrite Hs3 in *.
  assert (a <= k) by uarith.
  exists k, s, r, v, o. constructor; simpl; auto; try lia.
  intros i Hi. destruct (lookup_lt_is_Some_2 reqs i) as [x Hi']; [lia|].
  destruct (Hx i x Hi') as (j & -> & Hj). exists j. split; [by apply Hdst|lia].
Qed.

(** *** The receiver *)

Lemma dir_send_SYNC_R h S R log del netS netR req R' counter sn :
  dir_ok h S R log del netS netR -> bounded log -> conn_wf R ->
  missing_packets_conn R = Some (req, R') ->
  dir_ok h S R' log del netS (PSync counter (recv_packetnum R) sn (map ntohl req) :: netR).
Proof.
  intros (a & s & r & v & o & H) Hb Hwf Hm. unfold bounded in Hb.
  destruct (missing_packets_conn_cases _ _ _ Hwf Hm) as [Hc Hq].
  destruct H as [Hord Hsend (Hr1 & Hr2 & Hr3) Hlog Hslots Hreqs Hwin Hdel Hdata HsyS HsyR].
  assert (Hnew : forall i x, map ntohl req !! i = Some x -> exists j, x = u32 (h + j) /\ v <= j < s).
  { intros i x Hx. destruct (Hq i x Hx) as (k & Hk & ->). rewrite Hr2, Hr3 in *.
    exists (v + k). split; uarith. }
  assert (Hsync : forall v', v <= v' -> forall c0 r0 s0 q0,
            PSync c0 r0 s0 q0 ∈ PSync counter (recv_packetnum R) sn (map ntohl req) :: netR ->
            exists k, r0 = u32 (h + k) /\ 0 <= k <= v' /\
              forall i x, q0 !! i = Some x -> exists j, x = u32 (h + j) /\ k <= j < s).
  { intros v' Hv c0 r0 s0 q0 [Hp|Hp]%elem_of_cons.
    - injection Hp as -> -> -> ->. exists v. split_and!; [done|lia..|done].
    - destruct (HsyR _ _ _ _ Hp) as (k & ? & ? & ?). exists k. split_and!; [done|lia..|done]. }
  destruct Hc as [->| ->].
  - exists a, s, r, v, o. constructor; auto. by apply Hsync.
  - exists a, s, r, o, o. constructor; simpl; auto; try lia. apply Hsync. lia.
Qed.

Lemma dir_recv_SYNC_R h S R log del netS netR counter rn sn reqs now dst n :
  dir_ok h S R log del netS netR -> bounded log ->
  PSync counter rn sn reqs ∈ netS -> SYNC3_ok R counter rn sn = true ->
  dir_ok h S (sync_conn counter rn sn now dst n R) log del netS netR.
Proof.
  intros (a & s & r & v & o & H) Hb Hin Hok. unfold bounded in Hb.
  destruct H as [Hord Hsend (Hr1 & Hr2 & Hr3) Hlog Hslots Hreqs Hwin Hdel Hdata HsyS HsyR].
  destruct (HsyS _ _ _ _ Hin) as (k & -> & Hk).
  unfold SYNC3_ok, BUFFER_PACKET_NUM in Hok. bool_to_prop. rewrite Hr3 in *.
  assert (o <= k) by uarith.
  exists a, s, r, v, k. constructor; simpl; auto; try lia.
  intros j Hj Hf. destruct (Hwin j Hj Hf). split; [lia|done].
Qed.

Lemma dir_read h S R log del netS netR :
  dir_ok h S R log del netS netR -> bounded log -> conn_wf R -> recvqueue_conn R <> 0 ->
  dir_ok h S (snd (read_packet_conn R)) log (del ++ [fst (read_packet_conn R)]) netS netR.
Proof.
  intros (a & s & r & v & o & H) Hb Hwf Hq. unfold bounded in Hb.
  destruct H as [Hord Hsend (Hr1 & Hr2 & Hr3) Hlog Hslots Hreqs Hwin Hdel Hdata HsyS HsyR].
  pose proof (wf_filled _ Hwf 0) as Hf0. pose proof (wf_gap _ Hwf) as Hgap.
  destruct (wf_recvbuf _ Hwf) as [Hlen _].
  pose proof (u32_range (recv_packetnum R - successful_read R)) as Hu. unfold is_u32 in Hu.
  assert (Hf : filled (recvbuffer R) (h + r)).
  { eapply filled_slot; [|apply Hf0; unfold recvqueue_conn in *; lia].
    rewrite Hr1, slot_u32_add. f_equal. lia. }
  destruct (Hwin r ltac:(lia) Hf) as [Hro Hlk].
  assert (r < v).
  { unfold recvqueue_conn in Hq. rewrite Hr1, Hr2 in Hq.
    destruct (decide (r = v)) as [->|]; [exfalso; apply Hq; uarith|lia]. }
  exists a, s, (r + 1), v, o. constructor; simpl; auto; try lia.
  - split_and!; try done. rewrite Hr1. uarith.
  - rewrite Hr1. intros k Hk Hfk. destruct (decide (k = r + 15)) as [->|].
    + exfalso. apply Hgap. unfold filled in *. rewrite buf_get_set_ne in Hfk.
      * eapply filled_slot; [|exact Hfk]. rewrite Hr1, slot_u32_add. f_equal. lia.
      * rewrite slot_u32, slot_eq. lia.
    + assert (slot (u32 (h + r)) <> slot (h + k)) by (rewrite slot_u32, slot_eq; lia).
      rewrite slot_payload_set_ne by done. apply Hwin; [lia|].
      unfold filled in *. by rewrite buf_get_set_ne in Hfk.
  - rewrite Hdel, Z2Nat.inj_add by lia. rewrite Nat.add_1_r.
    erewrite take_S_r; [|exact Hlk]. do 2 f_equal.
    rewrite Hr1. change (slot_payload (recvbuffer R) (u32 (h + r)) = slot_payload (recvbuffer R) (h + r)).
    apply slot_payload_u32.
Qed.

Lemma dir_store h S R log del netS netR k p now :
  dir_ok h S R log del netS netR -> bounded log -> conn_wf R ->
  log !! Z.to_nat k = Some p -> 0 <= k < Z.of_nat (length log) ->
  PData (u32 (h + k)) p ∈ netS ->
  recv_find (Z.to_nat (u32 (u32 (successful_read R + BUFFER_PACKET_NUM) - recv_packetnum R)))
    (recv_packetnum R) (u32 (h + k)) = true ->
  dir_ok h S (store_recv (u32 (h + k)) p now R) log del netS netR.
Proof.
  intros (a & s & r & v & o & H) Hb Hwf Hp Hk Hin Hfind. unfold bounded in Hb.
  destruct H as [Hord Hsend (Hr1 & Hr2 & Hr3) Hlog Hslots Hreqs Hwin Hdel Hdata HsyS HsyR].
  assert (Hlp : (0 < length p <= 1024)%nat) by (by eapply Forall_lookup_1 in Hlog; [|done]).
  pose proof (wf_recvbuf _ Hwf) as Hbuf. destruct (Hbuf) as [Hlen _].
  apply recv_find_spec in Hfind as (j & Hj & Hj'); [|apply Hwf].
  unfold BUFFER_PACKET_NUM in Hj. rewrite Hr1, Hr2 in *.
  pose proof (wf_window _ Hwf) as Hwin15. unfold recvqueue_conn in Hwin15.
  rewrite Hr1, Hr2 in Hwin15.
  assert (v <= k < r + 15) as Hkr by uarith.
  destruct (Hdata _ _ Hin) as (k1 & Hk1 & Hk1' & _). assert (k1 = k) as -> by uarith.
  unfold store_recv, BUFFER_PACKET_NUM. rewrite Hr3.
  set (buf := buf_set _ _ _).
  assert (Hbufk : forall x, r <= x < r + 15 -> filled buf (h + x) ->
            (x = k \/ x <= o) /\ log !! Z.to_nat x = Some (slot_payload buf (h + x))).
  { intros x Hx Hf. destruct (decide (x = k)) as [->|Hne].
    - split; [by left|]. rewrite Hp. f_equal. symmetry.
      apply slot_payload_set_eq; [done|lia|apply slot_u32].
    - assert (Hs : slot (u32 (h + k)) <> slot (h + x)) by (rewrite slot_u32, slot_eq; lia).
      destruct (Hwin x Hx) as [? ?]; [unfold filled, buf in *; by rewrite buf_get_set_ne in Hf|].
      split; [by right|]. unfold buf. by rewrite slot_payload_set_ne. }
  case_if.
  - exists a, s, r, v, k. assert (o <= k) by uarith. constructor; simpl; auto; try lia.
    intros x Hx Hf. destruct (Hbufk x Hx Hf) as [[|] ?]; (split; [lia|done]).
  - exists a, s, r, v, o. assert (k < o) by uarith. constructor; simpl; auto; try lia.
    intros x Hx Hf. destruct (Hbufk x Hx Hf) as [[|] ?]; (split; [lia|done]).
Qed.

Lemma dir_advance h S R log del netS netR :
  dir_ok h S R log del netS netR -> bounded log -> conn_wf R ->
  dir_ok h S (advance_recv R) log del netS netR.
Proof.
  intros (a & s & r & v & o & H) Hb Hwf. unfold bounded in Hb.
  destruct H as [Hord Hsend (Hr1 & Hr2 & Hr3) Hlog Hslots Hreqs Hwin Hdel Hdata HsyS HsyR].
  pose proof (wf_window _ Hwf) as Hwin15. unfold recvqueue_conn in Hwin15.
  unfold advance_recv, BUFFER_PACKET_NUM. set (n := Z.to_nat _).
  assert (Hn : Z.of_nat n = r + 15 - v) by (subst n; rewrite Hr1, Hr2 in *; uarith).
  destruct (recv_advance_spec n (recvbuffer R) (recv_packetnum R) (recv_packetnum R))
    as [(-> & _)|(k & Hk & -> & Hf & _)]; [apply Hwf| |].
  - exists a, s, r, v, o. by constructor.
  - assert (v + k <= o).
    { destruct (Hwin (v + k)) as [? _]; [lia| |done].
      eapply filled_slot; [|apply (Hf k); lia]. rewrite Hr2, slot_u32_add. f_equal. lia. }
    exists a, s, r, (v + k), o. constructor; simpl; auto; try lia.
    + split_and!; [done|rewrite Hr2; uarith|done].
    + intros c0 r0 s0 q0 Hp. destruct (HsyR _ _ _ _ Hp) as (x & ? & ? & ?).
      exists x. split_and!; [done|lia..|done].
Qed.

Lemma recv_conn_wf num p now c :
  conn_wf c -> status c = 3 -> (0 < length p <= 1024)%nat -> conn_wf (recv_conn num p now c).
Proof.
  intros Hwf Hst Hp. unfold recv_conn. case_if; [|apply advance_recv_wf; [done|lia..]].
  apply recv_find_spec in Heqb as (k & Hk & ->); [|apply Hwf].
  pose proof (store_recv_same (u32 (recv_packetnum c + k)) p now c) as [Es _].
  apply advance_recv_wf; [|lia..]. apply store_recv_wf; [done..|lia|lia|].
  exists k. split; [|done]. pose proof (wf_window _ Hwf).
  unfold recvqueue_conn, BUFFER_PACKET_NUM in *. uarith.
Qed.

Lemma recv_conn_status num p now c : status (recv_conn num p now c) = status c.
Proof.
  unfold recv_conn. case_if; [|done]. simpl. apply (store_recv_same num p now c).
Qed.

Lemma dir_recv_data h S R log del netS netR num p now :
  dir_ok h S R log del netS netR -> bounded log -> conn_wf R -> status R = 3 ->
  PData num p ∈ netS -> dir_ok h S (recv_conn num p now R) log del netS netR.
Proof.
  intros H Hb Hwf Hst Hin. pose proof H as (a & s & r & v & o & Hd).
  destruct (di_data _ _ _ _ _ _ _ _ _ _ _ _ Hd _ _ Hin) as (k & -> & Hk & Hlk).
  pose proof (di_log _ _ _ _ _ _ _ _ _ _ _ _ Hd) as Hlog.
  pose proof (di_order _ _ _ _ _ _ _ _ _ _ _ _ Hd) as Hord.
  assert (Hlp : (0 < length p <= 1024)%nat) by (by eapply Forall_lookup_1 in Hlog; [|done]).
  unfold recv_conn. destruct (recv_find _ _ _) eqn:E; [|by apply dir_advance].
  pose proof (store_recv_same (u32 (h + k)) p now R) as [Es _].
  apply dir_advance; [eapply dir_store; eauto; lia|done|].
  apply recv_find_spec in E as (j & Hj & Ej); [|apply Hwf].
  apply store_recv_wf; [done..|lia|lia|].
  exists j. split; [|done]. pose proof (wf_window _ Hwf).
  unfold recvqueue_conn, BUFFER_PACKET_NUM in *. uarith.
Qed.

(** Steps of the receiver's own sending side do not matter to this direction, nor
    steps of the sender's receiving side. *)
Lemma dir_R_other h S R R' log del netS netR p :
  dir_ok h S R log del netS netR ->
  successful_read R' = successful_read R -> recv_packetnum R' = recv_packetnum R ->
  osent_packetnum R' = osent_packetnum R -> recvbuffer R' = recvbuffer R ->
  (forall c r s q, p <> PSync c r s q) ->
  dir_ok h S R' log del netS netR /\ dir_ok h S R' log del netS (p :: netR).
Proof.
  intros (a & s & r & v & o & H) E1 E2 E3 E4 Hp.
  split; exists a, s, r, v, o; destruct H; constructor; rewrite ?E1, ?E2, ?E3, ?E4; auto.
  intros c0 r0 s0 q0 [E|E]%elem_of_cons; [by destruct (Hp c0 r0 s0 q0)|]. by eapply di_syncR0.
Qed.

Lemma dir_S_other h S S' R log del netS netR :
  dir_ok h S R log del netS netR ->
  sendbuff_packetnum S' = sendbuff_packetnum S -> successful_sent S' = successful_sent S ->
  orecv_packetnum S' = orecv_packetnum S -> sent_packetnum S' = sent_packetnum S ->
  sendbuffer S' = sendbuffer S -> req_packets S' = req_packets S ->
  num_req_paquets S' = num_req_paquets S -> dir_ok h S' R log del netS netR.
Proof.
  intros (a & s & r & v & o & H) E1 E2 E3 E4 E5 E6 E7. exists a, s, r, v, o.
  destruct H; constructor; rewrite ?E1, ?E2, ?E3, ?E4, ?E5, ?E6, ?E7; auto.
Qed.

(** ** Both directions *)

Record session_inv (h k : Z) (a b : End) : Prop := {
  si_wf : conn_wf (e_conn a) /\ conn_wf (e_conn b);
  si_status : status (e_conn a) = 3 /\ status (e_conn b) = 3;
  si_ab : dir_ok h (e_conn a) (e_conn b) (e_wrote a) (e_read b) (e_net a) (e_net b);
  si_ba : dir_ok k (e_conn b) (e_conn a) (e_wrote b) (e_read a) (e_net b) (e_net a)
}.

Lemma session_inv_sym h k a b : session_inv h k a b -> session_inv k h b a.
Proof. intros [[? ?] [? ?] ? ?]. by constructor. Qed.

Lemma sync_conn_wf counter rn sn now dst n c :
  conn_wf c -> is_u32 rn -> is_u32 sn -> status c = 3 -> length dst = 15%nat -> (n <= 8)%nat ->
  conn_wf (sync_conn counter rn sn now dst n c).
Proof.
  intros H Hr Hs Hst Hd Hn. pose proof (SYNC3_conn_wf counter rn sn now c H Hr Hs Hst) as H'.
  unfold sync_conn. generalize dependent (SYNC3_conn counter rn sn now c). intros c1 H'.
  conn_wf_cases H'. split; [done|lia].
Qed.

Lemma dir_sync_u32 h S R log del netS netR counter rn sn reqs :
  dir_ok h S R log del netS netR -> PSync counter rn sn reqs ∈ netS -> is_u32 sn.
Proof.
  intros (a & s & r & v & o & H) Hin.
  destruct (di_syncS _ _ _ _ _ _ _ _ _ _ _ _ H _ _ _ _ Hin) as (k & -> & _). apply u32_range.
Qed.

Lemma dir_syncR_u32 h S R log del netS netR counter rn sn reqs :
  dir_ok h S R log del netS netR -> PSync counter rn sn reqs ∈ netR -> is_u32 rn.
Proof.
  intros (a & s & r & v & o & H) Hin.
  destruct (di_syncR _ _ _ _ _ _ _ _ _ _ _ _ H _ _ _ _ Hin) as (k & -> & _). apply u32_range.
Qed.

Lemma dir_data_len h S R log del netS netR num p :
  dir_ok h S R log del netS netR -> PData num p ∈ netS -> (0 < length p <= 1024)%nat.
Proof.
  intros (a & s & r & v & o & H) Hin.
  destruct (di_data _ _ _ _ _ _ _ _ _ _ _ _ H _ _ Hin) as (k & _ & _ & Hlk).
  by eapply Forall_lookup_1 in Hlk; [|apply H].
Qed.

Lemma send_DATA_conn_fields c :
  status (send_DATA_conn c) = status c /\ successful_read (send_DATA_conn c) = successful_read c /\
  recv_packetnum (send_DATA_conn c) = recv_packetnum c /\
  osent_packetnum (send_DATA_conn c) = osent_packetnum c /\
  recvbuffer (send_DATA_conn c) = recvbuffer c.
Proof. unfold send_DATA_conn. by repeat case_if. Qed.

Lemma recv_conn_fields num p now c :
  sendbuff_packetnum (recv_conn num p now c) = sendbuff_packetnum c /\
  successful_sent (recv_conn num p now c) = successful_sent c /\
  orecv_packetnum (recv_conn num p now c) = orecv_packetnum c /\
  sent_packetnum (recv_conn num p now c) = sent_packetnum c /\
  sendbuffer (recv_conn num p now c) = sendbuffer c /\
  req_packets (recv_conn num p now c) = req_packets c /\
  num_req_paquets (recv_conn num p now c) = num_req_paquets c.
Proof. unfold recv_conn, advance_recv, store_recv. by repeat case_if. Qed.

Lemma end_step_inv h k a b a' :
  session_inv h k a b -> end_step (e_net b) a a' ->
  bounded (e_wrote a) -> bounded (e_wrote b) -> session_inv h k a' b.
Proof.
  intros [[Wa Wb] [Sa Sb] Dab Dba] Hst Ba Bb.
  destruct Hst as [c wr rd nt data Hd Hq|c wr rd nt num Hn|c wr rd nt req c' Hm
    |c wr rd nt counter rn sn reqs now dst Hin Hok Hn Hl Hdst|c wr rd nt num p now Hin|c wr rd nt Hq];
    simpl in *.
  - constructor; simpl; auto.
    + split; [|done]. apply write_packet_conn_wf; [done|lia].
    + by apply dir_write.
    + eapply (dir_R_other _ _ _ _ _ _ _ _ (PData 0 [])); eauto; done.
  - destruct (send_DATA_conn_fields c) as (E1 & E2 & E3 & E4 & E5). constructor; simpl; auto.
    + split; [|done]. by apply send_DATA_conn_wf.
    + split; congruence.
    + by apply dir_send_DATA.
    + eapply dir_R_other; eauto; done.
  - pose proof (missing_packets_conn_cases _ _ _ Wa Hm) as [Hc _].
    constructor; simpl; auto.
    + split; [|done]. apply (missing_packets_conn_wf _ _ _ Wa Hm).
    + split; [|done]. by destruct Hc as [->| ->].
    + eapply dir_send_SYNC_S; [done|exact Wa|exact Hm].
    + eapply dir_send_SYNC_R; [done|done|exact Wa|exact Hm].
  - constructor; simpl; auto.
    + split; [|done].
      apply sync_conn_wf; eauto using dir_sync_u32, dir_syncR_u32.
    + by eapply dir_recv_SYNC_S.
    + by eapply dir_recv_SYNC_R.
  - pose proof (dir_data_len _ _ _ _ _ _ _ _ _ Dba Hin) as Hlen. constructor; simpl; auto.
    + split; [|done]. by apply recv_conn_wf.
    + split; [by rewrite recv_conn_status|done].
    + destruct (recv_conn_fields num p now c) as (?&?&?&?&?&?&?). by eapply dir_S_other.
    + by apply dir_recv_data.
  - constructor; simpl; auto.
    + split; [|done]. by apply read_packet_conn_wf.
    + by eapply dir_S_other.
    + by apply (dir_read k _ c).
Qed.

Lemma end_step_wrote peer a a' :
  end_step peer a a' -> (length (e_wrote a) <= length (e_wrote a'))%nat.
Proof. destruct 1; simpl; rewrite ?length_app; lia. Qed.

Lemma session_inv_all h k a b a' b' :
  session_inv h k a b -> session (a, b) (a', b') ->
  bounded (e_wrote a') -> bounded (e_wrote b') -> session_inv h k a' b'.
Proof.
  intros Hi Hs. remember (a, b) as x. remember (a', b') as z. revert a' b' Heqz.
  induction Hs as [x|x y z Hs IH Hstep]; intros a' b' -> Ba Bb.
  { by injection Heqx as -> ->. }
  specialize (IH Heqx). inversion Hstep as [a1 b1 a2 He E1 E2|a1 b1 b2 He E1 E2]; subst.
  - pose proof (end_step_wrote _ _ _ He).
    assert (bounded (e_wrote a1)) by (unfold bounded in *; lia).
    eapply end_step_inv; eauto.
  - pose proof (end_step_wrote _ _ _ He).
    assert (bounded (e_wrote b1)) by (unfold bounded in *; lia).
    apply session_inv_sym. eapply end_step_inv; eauto. apply session_inv_sym. eauto.
Qed.

(** Both ends, freshly established, with nothing in flight. *)
Definition fresh_end (c : Connection) : End := mkEnd c [] [] [].

Lemma established_dir h k S R :
  established h k S -> established k h R ->
  dir_ok h S R [] [] [] [].
Proof.
  intros [_ _ (S1 & S2 & S3 & S4) _ _ Hn] [_ _ _ (R1 & R2 & R3) He _].
  exists 0, 0, 0, 0, 0. constructor; simpl; rewrite ?Z.add_0_r; auto; try lia; try set_solver.
Qed.

Lemma established_inv h k a b :
  established h k a -> established k h b -> session_inv h k (fresh_end a) (fresh_end b).
Proof.
  intros Ha Hb. constructor; simpl.
  - split; [apply Ha|apply Hb].
  - split; [apply Ha|apply Hb].
  - by eapply established_dir.
  - by eapply established_dir.
Qed.

(** What is read at either end is a prefix of what was written at the other. *)
Lemma session_prefix h k a b a' b' :
  established h k a -> established k h b -> session (fresh_end a, fresh_end b) (a', b') ->
  bounded (e_wrote a') -> bounded (e_wrote b') ->
  e_read b' `prefix_of` e_wrote a' /\ e_read a' `prefix_of` e_wrote b'.
Proof.
  intros Ha Hb Hs Ba Bb.
  destruct (session_inv_all _ _ _ _ _ _ (established_inv _ _ _ _ Ha Hb) Hs Ba Bb)
    as [_ _ (s & t & r & v & o & H) (s' & t' & r' & v' & o' & H')].
  rewrite (di_del _ _ _ _ _ _ _ _ _ _ _ _ H), (di_del _ _ _ _ _ _ _ _ _ _ _ _ H').
  split; apply prefix_take.
Qed.

(** ** The packets of a session on the wire

    The steps of a session are what the functions of the module do: the packets
    are those [send_DATA] and [send_SYNC] send, and receiving one is [handle_data]
    or [handle_SYNC] on its bytes. *)

Definition enc (p : pkt) : list Z :=
  match p with
  | PData num payload => [NET_PACKET_DATA] ++ le_bytes 4 (htonl num) ++ payload
  | PSync counter rn sn reqs => SYNC_packet counter rn sn (map htonl reqs)
  end.

Lemma flat_chunk (req : list Z) k :
  (k < length req)%nat ->
  bytes_at (4 * k) 4 (flat_map (le_bytes 4) req) = le_bytes 4 (nth k req 0).
Proof.
  revert k. induction req as [|x r IH]; intros k Hk; simpl in Hk; [lia|].
  destruct k as [|k]; [done|]. cbn [flat_map nth].
  replace (4 * S k)%nat with (length (le_bytes 4 x) + 4 * k)%nat by (rewrite length_le_bytes; lia).
  unfold bytes_at. rewrite drop_app_add. apply IH. lia.
Qed.

Lemma length_flat_words (req : list Z) :
  length (flat_map (le_bytes 4) req) = (4 * length req)%nat.
Proof. induction req as [|x r IH]; [done|]. cbn [flat_map]. rewrite length_app, length_le_bytes, IH. simpl. lia. Qed.

Lemma net_word_bytes z : is_u32 z -> ntohl (le_val (le_bytes 4 (htonl z))) = z.
Proof.
  intros Hz. rewrite le_val_bytes. change (256 ^ Z.of_nat 4) with 4294967296.
  change (htonl z mod 4294967296) with (u32 (htonl z)).
  rewrite u32_small by apply htonl_range. by apply ntohl_htonl.
Qed.

Section sync_packet.
Context (counter rn sn : Z) (reqs : list Z).
Context (Hrn : is_u32 rn) (Hsn : is_u32 sn) (Hreqs : Forall is_u32 reqs).
Let p := enc (PSync counter rn sn reqs).

Lemma sync_length : length p = (10 + 4 * length reqs)%nat.
Proof. unfold p, enc, SYNC_packet. rewrite !length_app, length_flat_words, length_map, !length_le_bytes. simpl. lia. Qed.

Lemma sync_recv_num : net_word p 2 = rn.
Proof. unfold net_word. change (bytes_at 2 4 p) with (le_bytes 4 (htonl rn)). by apply net_word_bytes. Qed.

Lemma sync_sent_num : net_word p 6 = sn.
Proof. unfold net_word. change (bytes_at 6 4 p) with (le_bytes 4 (htonl sn)). by apply net_word_bytes. Qed.

Lemma sync_requests : SYNC_requests p = map htonl reqs.
Proof.
  unfold SYNC_requests. rewrite sync_length.
  replace (Z.to_nat ((Z.of_nat (10 + 4 * length reqs) - 4 - 4 - 2) / 4)) with (length reqs) by lia.
  apply list_eq. intros i. destruct (decide (i < length reqs)%nat) as [Hi|Hi].
  - destruct (lookup_lt_is_Some_2 reqs i Hi) as [x Hx].
    rewrite !list_lookup_fmap, Hx, lookup_seq_lt by done. simpl fmap. f_equal.
    change p with (([NET_PACKET_SYNC] ++ [counter] ++ le_bytes 4 (htonl rn) ++ le_bytes 4 (htonl sn))
      ++ flat_map (le_bytes 4) (map htonl reqs)).
    unfold bytes_at. change (10 + 4 * (0 + i))%nat with (10 + 4 * i)%nat.
    rewrite (drop_app_add' _ _ 10 (4 * i)) by done.
    change (take 4 (drop (4 * i) ?l)) with (bytes_at (4 * i) 4 l).
    rewrite flat_chunk by (by rewrite length_map). rewrite nth_lookup, list_lookup_fmap, Hx. simpl default.
    rewrite le_val_bytes. apply (u32_small (htonl x)), htonl_range.
  - rewrite !lookup_ge_None_2; [done|rewrite length_map; lia|rewrite length_map, length_seq; lia].
Qed.

Lemma sync_valid : (length reqs <= 15)%nat -> SYNC_valid (Z.of_nat (length p)) = true.
Proof.
  intros Hl. rewrite sync_length. unfold SYNC_valid, BUFFER_PACKET_NUM.
  destruct (Z.ltb_spec (Z.of_nat (10 + 4 * length reqs)) (4 + 4 + 2)); [lia|].
  destruct (Z.ltb_spec ((16 - 1) * 4 + 4 + 4 + 2) (Z.of_nat (10 + 4 * length reqs))); [lia|].
  replace (Z.of_nat (10 + 4 * length reqs) - 4 - 4 - 2) with (Z.of_nat (length reqs) * 4) by lia.
  by rewrite Z_mod_mult.
Qed.
End sync_packet.

(** Receiving the bytes of a data packet on an established connection. *)
Lemma wp_handle_data_enc src num payload l w i c Q :
  ludp_wf l -> getconnection_id l src = i -> i <> -1 -> conn_at l i c -> status c = 3 ->
  is_u32 num -> (0 < length payload <= 1024)%nat ->
  (forall now w', Q 0 (upd l i (recv_conn num payload now c)) w') ->
  wp (handle_data src (enc (PData num payload))) Q l w.
Proof.
  intros Hwf Hid Hne Hc Hst Hnum Hlen HQ. unfold handle_data. do 2 wp_step. rewrite Hid.
  destruct (Z.eqb_spec i (-1)); [done|]. wp_step. apply wp_get_conn. exists c. split; [done|].
  rewrite Hst. simpl negb.
  assert (El : length (enc (PData num payload)) = (5 + length payload)%nat).
  { done. }
  rewrite El. unfold MAX_DATA_SIZE. cbn iota.
  destruct (Z.ltb_spec (1 + 4 + 1024) (Z.of_nat (5 + length payload))); [lia|].
  destruct (Z.ltb_spec (Z.of_nat (5 + length payload)) (1 + 4 + 1)); [lia|]. simpl orb. cbn iota.
  change (drop 5 (enc (PData num payload))) with payload.
  replace (net_word (enc (PData num payload)) 1) with num.
  2: { symmetry. apply net_word_bytes, Hnum. }
  eapply wp_mono; [apply add_recv_is_recv_conn; [lia|done]|].
  intros r l' w' (-> & now & ->). apply HQ.
Qed.

(** Receiving the bytes of a SYNC packet on an established connection. *)
Lemma wp_handle_SYNC_enc src counter rn sn reqs l w i c Q :
  ludp_wf l -> getconnection_id l src = i -> i <> -1 -> conn_at l i c -> status c = 3 ->
  is_u32 rn -> is_u32 sn -> Forall is_u32 reqs -> (length reqs <= 8)%nat ->
  (SYNC3_ok c counter rn sn = false -> Q 1 l w) ->
  (forall now dst w', SYNC3_ok c counter rn sn = true -> length dst = 15%nat ->
     (forall j x, reqs !! j = Some x -> dst !! j = Some x) ->
     Q 0 (upd l i (sync_conn counter rn sn now dst (length reqs) c)) w') ->
  wp (handle_SYNC src (enc (PSync counter rn sn reqs))) Q l w.
Proof.
  intros Hwf Hid Hne Hc Hst Hrn Hsn Hreqs Hlen HQ1 HQ0. unfold handle_SYNC.
  rewrite sync_valid by (done || lia). simpl negb. cbn iota.
  rewrite sync_recv_num, sync_sent_num, sync_requests by done.
  change (nth 1 (enc (PSync counter rn sn reqs)) 0) with counter.
  do 2 wp_step. rewrite Hid. destruct (Z.eqb_spec i (-1)); [done|].
  wp_step. apply wp_get_conn. exists c. split; [done|]. rewrite Hst. cbn [Z.eqb Pos.eqb].
  unfold handle_SYNC3. wp_step. apply wp_get_conn. exists c. split; [done|].
  destruct (SYNC3_ok c counter rn sn); [|by wp_step; apply HQ1]. do 2 wp_step. wp_step.
  rewrite length_map.
  apply wp_req_copy; [lia|lia|apply (wf_reqs _ (conn_at_wf _ _ _ Hwf Hc))|intros; lia|].
  intros dst w1 Hdl Hd. wp_step. rewrite wp_put_conn, wp_ret. apply HQ0; [done|done|].
  intros j x Hx. rewrite Hd by (by apply lookup_lt_Some in Hx). f_equal.
  rewrite nth_lookup, list_lookup_fmap, Hx. simpl. apply ntohl_htonl.
  by eapply Forall_lookup_1 in Hreqs.
Qed.
