(* ===== verification/LosslessThms.v ===== *)
(** * Lossless_UDP: the properties

    What the module promises to its callers, and where the code breaks the promise. *)

From S2P Require Import Prelude MiscTools Network LosslessUDP LosslessInv LosslessSafe LosslessLink.
Local Open Scope Z_scope.
Local Open Scope tox_scope.

(** ** A connection and an instance for the examples *)

Definition demo_conn (peer : IP_Port) (h k : Z) : Connection :=
  set_ip_port peer (set_status 3 (set_SYNC_rate 10 (set_data_rate 30 (set_send_counter 1
  (set_sent_packetnum h (set_sendbuff_packetnum h (set_successful_sent h (set_orecv_packetnum h
  (set_recv_packetnum k (set_successful_read k (set_osent_packetnum k conn_zero))))))))))).

Definition demo_peer : IP_Port := mkIPP 1 2 0.

Lemma demo_established h k :
  is_u32 h -> is_u32 k -> established h k (demo_conn demo_peer h k).
Proof.
  intros Hh Hk. constructor; simpl.
  - pose proof conn_zero_wf as Hz. conn_wf_cases Hz; try lia.
    + uarith.
    + intros j Hj. exfalso. uarith.
    + apply zero_not_filled.
  - done.
  - by rewrite u32_small.
  - by rewrite u32_small.
  - apply zero_not_filled.
  - done.
Qed.

Definition demo_ludp (conns : list Connection) : Lossless_UDP :=
  mkLudp net_zero (mk_tox_array conns) (replicate 6 (zeros 256)).

Lemma demo_ludp_wf c : conn_wf c -> ludp_wf (demo_ludp [c]).
Proof.
  intros H. split; simpl.
  - by apply Forall_singleton.
  - intros [|i] [|j] ci cj Hi Hj; try done.
  - apply (new_lossless_udp_wf net_zero).
Qed.

(** ** Delivery *)

(** C1: two connections that have been established with each other, over a network
    that may lose, duplicate, delay and reorder packets: what either end
    has read is, at any time, a prefix of what was written at the other end -- in
    order, without loss or repetition, and unchanged.  Two conditions: fewer than 2^32 - 64
    packets are written, so that packet numbers are not used twice; and no SYNC packet
    that asks for more than eight packets is delivered.  An end does send such a packet
    after nine or more packets were lost, and receiving it is a memory error of
    [handle_SYNC3] ([SYNC_requests_overflow]): the theorem is about the runs without it. *)
Theorem link_in_order h k a b a' b' :
  established h k a -> established k h b ->
  session (fresh_end a, fresh_end b) (a', b') ->
  bounded (e_wrote a') -> bounded (e_wrote b') ->
  e_read b' `prefix_of` e_wrote a' /\ e_read a' `prefix_of` e_wrote b'.
Proof. apply session_prefix. Qed.

(** The steps of an end as functions. *)
Definition end_write (e : End) (data : list Z) : End :=
  mkEnd (write_packet_conn (e_conn e) data) (e_wrote e ++ [data]) (e_read e) (e_net e).
Definition end_send_DATA (e : End) (num : Z) : End :=
  mkEnd (send_DATA_conn (e_conn e)) (e_wrote e) (e_read e)
    (PData num (slot_payload (sendbuffer (e_conn e)) num) :: e_net e).
Definition end_send_SYNC (e : End) (req : list Z) (c' : Connection) : End :=
  mkEnd c' (e_wrote e) (e_read e)
    (PSync (send_counter (e_conn e)) (recv_packetnum (e_conn e)) (sent_packetnum (e_conn e))
       (map ntohl req) :: e_net e).
Definition end_recv (e : End) (p : pkt) : End :=
  match p with
  | PData num payload => mkEnd (recv_conn num payload 0 (e_conn e)) (e_wrote e) (e_read e) (e_net e)
  | PSync counter rn sn reqs =>
    mkEnd (sync_conn counter rn sn 0 (reqs ++ zeros (15 - length reqs)) (length reqs) (e_conn e))
      (e_wrote e) (e_read e) (e_net e)
  end.
Definition end_read (e : End) : End :=
  mkEnd (snd (read_packet_conn (e_conn e))) (e_wrote e)
    (e_read e ++ [fst (read_packet_conn (e_conn e))]) (e_net e).

Section end_functions.
Context (peer : list pkt) (e : End).

Lemma end_write_step data :
  (0 < length data <= 1024)%nat -> sendqueue_conn (e_conn e) < 15 ->
  end_step peer e (end_write e data).
Proof. destruct e. by apply step_write. Qed.

Lemma end_send_DATA_step num :
  next_data (e_conn e) = Some num -> end_step peer e (end_send_DATA e num).
Proof. destruct e. by apply step_send_DATA. Qed.

Lemma end_send_SYNC_step req c' :
  missing_packets_conn (e_conn e) = Some (req, c') -> end_step peer e (end_send_SYNC e req c').
Proof. destruct e. by apply step_send_SYNC. Qed.

Lemma end_recv_data_step num payload :
  PData num payload ∈ peer -> end_step peer e (end_recv e (PData num payload)).
Proof. destruct e. by apply step_recv_data. Qed.

Lemma end_recv_SYNC_step counter rn sn reqs :
  PSync counter rn sn reqs ∈ peer -> SYNC3_ok (e_conn e) counter rn sn = true ->
  (length reqs <= 8)%nat -> end_step peer e (end_recv e (PSync counter rn sn reqs)).
Proof.
  destruct e. intros. apply step_recv_SYNC; auto.
  - rewrite length_app, length_zeros. lia.
  - intros i x Hx. rewrite lookup_app_l; [done|]. by apply lookup_lt_Some in Hx.
Qed.

Lemma end_read_step : recvqueue_conn (e_conn e) <> 0 -> end_step peer e (end_read e).
Proof. destruct e. by apply step_read. Qed.
End end_functions.

(** A session in which a packet is written, sent, acknowledged and read. *)
Definition demo_A0 : End := fresh_end (demo_conn demo_peer 100 200).
Definition demo_B0 : End := fresh_end (demo_conn demo_peer 200 100).
Definition demo_A1 : End := end_write demo_A0 [1; 2; 3].
Definition demo_A2 : End := end_send_DATA demo_A1 100.
Definition demo_A3 : End :=
  end_send_SYNC demo_A2 [] (set_recv_packetnum (osent_packetnum (e_conn demo_A2)) (e_conn demo_A2)).
Definition demo_pkt (n : nat) : pkt := nth n (e_net demo_A3) (PData 0 []).
Definition demo_B1 : End := end_recv demo_B0 (demo_pkt 1).
Definition demo_B2 : End := end_recv demo_B1 (demo_pkt 0).
Definition demo_B3 : End :=
  end_send_SYNC demo_B2 [] (set_recv_packetnum (osent_packetnum (e_conn demo_B2)) (e_conn demo_B2)).
Definition demo_B4 : End := end_read demo_B3.

(** With nothing to request, [send_SYNC] catches up with what the peer has sent. *)
Lemma missing_none c :
  recvqueue_conn c < 14 ->
  missing_nums (Z.to_nat (u32 (osent_packetnum c - recv_packetnum c))) (recvbuffer c)
    (recv_packetnum c) = [] ->
  missing_packets_conn c = Some ([], set_recv_packetnum (osent_packetnum c) c).
Proof.
  intros Hq Hm. unfold missing_packets_conn, BUFFER_PACKET_NUM.
  destruct (Z.leb_spec (16 - 1 - 1) (recvqueue_conn c)); [lia|].
  rewrite missing_loop_spec, Hm by (simpl; lia). done.
Qed.

Lemma demo_session : session (demo_A0, demo_B0) (demo_A3, demo_B4).
Proof.
  assert (Hwin : forall e, e = demo_A2 \/ e = demo_B2 ->
    missing_packets_conn (e_conn e) =
    Some ([], set_recv_packetnum (osent_packetnum (e_conn e)) (e_conn e))).
  { intros e [->| ->]; by apply missing_none; vm_compute. }
  assert (HA1 : end_step [] demo_A0 demo_A1) by (apply end_write_step; [simpl; lia|by vm_compute]).
  assert (HA2 : end_step [] demo_A1 demo_A2) by (apply end_send_DATA_step; by vm_compute).
  assert (HA3 : end_step [] demo_A2 demo_A3) by (apply end_send_SYNC_step, Hwin; auto).
  assert (HB1 : end_step (e_net demo_A3) demo_B0 demo_B1)
    by (apply end_recv_data_step, list_elem_of_further, list_elem_of_here).
  assert (HB2 : end_step (e_net demo_A3) demo_B1 demo_B2)
    by (apply end_recv_SYNC_step; [apply list_elem_of_here|by vm_compute|simpl; lia]).
  assert (HB3 : end_step (e_net demo_A3) demo_B2 demo_B3) by (apply end_send_SYNC_step, Hwin; auto).
  assert (HB4 : end_step (e_net demo_A3) demo_B3 demo_B4) by (apply end_read_step; by vm_compute).
  apply (session_next _ (demo_A3, demo_B3)); [|exact (session_right _ _ _ HB4)].
  apply (session_next _ (demo_A3, demo_B2)); [|exact (session_right _ _ _ HB3)].
  apply (session_next _ (demo_A3, demo_B1)); [|exact (session_right _ _ _ HB2)].
  apply (session_next _ (demo_A3, demo_B0)); [|exact (session_right _ _ _ HB1)].
  apply (session_next _ (demo_A2, demo_B0)); [|exact (session_left _ demo_B0 _ HA3)].
  apply (session_next _ (demo_A1, demo_B0)); [|exact (session_left _ demo_B0 _ HA2)].
  apply (session_next _ (demo_A0, demo_B0)); [|exact (session_left _ demo_B0 _ HA1)].
  apply session_refl.
Qed.

Lemma link_in_order_witness :
  e_read demo_B4 = [[1; 2; 3]] /\
  e_read demo_B4 `prefix_of` e_wrote demo_A3 /\ e_read demo_A3 `prefix_of` e_wrote demo_B4.
Proof.
  split; [by vm_compute|].
  apply (link_in_order 100 200 (demo_conn demo_peer 100 200) (demo_conn demo_peer 200 100)).
  - apply demo_established; unfold is_u32; lia.
  - apply demo_established; unfold is_u32; lia.
  - apply demo_session.
  - unfold bounded. simpl. lia.
  - unfold bounded. simpl. lia.
Defined.

(** ** Safety of the module *)

(** The calls that stay within their buffers on every state that can be reached.  Not among
    them: a SYNC packet of more than eight requests (42 bytes), writing to a connection number
    that is not valid, and the passes of [do_lossless_udp], which need a clock and peers that
    announce few packets (C12). *)
Definition call_in_bounds (l : Lossless_UDP) (k : ludp_call) : Prop :=
  match k with
  | Recv_SYNC _ packet => (length packet <= 42)%nat
  | Call_write_packet i _ => valid_id l i = true
  | Call_do_lossless_udp => False
  | _ => True
  end.

(** C2: in every state the module can reach -- through any calls of the program, any
    packets, clock and random numbers, as long as the calls run to their end in C, that
    is without the memory errors [SYNC_requests_overflow] (a SYNC packet with 9 to 15
    requests), [missing_packets_overflow] and writing to an invalid connection number --
    the invariant [ludp_wf] holds: live connections have different addresses; in each of
    them at most 15 packets are ready to be read, they are all in their slots of the
    receive buffer and the slot 15 past the next to read is empty; nothing is in the
    buffer before the connection is established; the rates the code divides by are not zero.
    And from such a state every call but [do_lossless_udp] does run to its end and keeps the
    invariant: the calls that open, close, read and write (to a valid number), handshake and
    data packets with any bytes, and SYNC packets of at most 42 bytes, that is eight requests.
    (When a connection is closed, [free_connections] reads the element behind the array; its
    value is taken to be arbitrary.) *)
Theorem reachable_invariant l :
  reachable l ->
  ludp_wf l /\
  forall k w, call_in_bounds l k -> wp (run_call k) (fun _ l' _ => ludp_wf l') l w.
Proof.
  intros Hwf%reachable_ludp_wf. split; [done|]. intros k w Hk. destruct k; simpl in Hk; try done; simpl; wp_step.
  - apply wp_new_connection; [done|]. intros id l' w' [H _]. by wp_step.
  - apply wp_incoming_connection; [done|intros; by wp_step..].
  - apply wp_kill_connection; [done|intros; by wp_step..].
  - apply wp_kill_connection_in; [done|intros; by wp_step].
  - apply wp_read_packet; [done|intros; by wp_step..].
  - apply valid_id_conn in Hk as [c Hc]. eapply wp_write_packet; [done..|intros; by wp_step|intros; by wp_step].
  - apply wp_handle_handshake; [done|intros; by wp_step].
  - apply wp_handle_SYNC; [done|done|intros; by wp_step].
  - apply wp_handle_data; [done|intros; by wp_step].
Qed.

Definition demo_world : World := still_world 1000000 5.

(** A reachable state with one connection. *)
Definition demo_call (k : ludp_call) (l : Lossless_UDP) : Lossless_UDP :=
  match run_call k l demo_world with Some (_, l', _) => l' | None => l end.
Definition demo_l1 : Lossless_UDP :=
  demo_call (Call_new_connection demo_peer) (new_lossless_udp net_zero).

Lemma demo_l1_reachable : reachable demo_l1.
Proof.
  unfold demo_l1, demo_call.
  destruct (run_call _ _ demo_world) as [[[[] l'] w']|] eqn:E.
  - eapply reach_step; [apply reach_init|exact E].
  - apply reach_init.
Qed.

Lemma reachable_invariant_witness :
  conn_count demo_l1 = 1 /\ ludp_wf demo_l1 /\
  wp (run_call (Recv_SYNC demo_peer (SYNC_packet 0 1 2 []))) (fun _ l' _ => ludp_wf l') demo_l1 demo_world.
Proof.
  split; [by vm_compute|]. destruct (reachable_invariant demo_l1 demo_l1_reachable) as [H1 H2].
  split; [exact H1|]. apply H2. vm_compute. lia.
Defined.

(** When packets are ready, [read_packet] returns the one that is next, of 1 to
    1024 bytes, and leaves one fewer; at most 15 are ever ready. *)
Theorem read_packet_next l i w :
  reachable l -> recvqueue l i <> 0 ->
  recvqueue l i <= 15 /\
  wp (read_packet i)
    (fun r l' _ => fst r = Z.of_nat (length (snd r)) /\ 0 < fst r <= 1024 /\
       recvqueue l' i = recvqueue l i - 1) l w.
Proof.
  intros Hwf%reachable_ludp_wf Hq.
  assert (exists c, conn_at l i c) as [c Hc].
  { unfold recvqueue in Hq. destruct (valid_id l i) eqn:E; [|done]. by apply valid_id_conn. }
  pose proof (conn_at_wf _ _ _ Hwf Hc) as Hcw. rewrite (recvqueue_at _ _ _ Hc) in *.
  split; [apply Hcw|]. apply wp_read_packet; [done|by rewrite (recvqueue_at _ _ _ Hc)|].
  intros c' Hc' _ _. assert (c' = c) as -> by (unfold conn_at in *; congruence).
  pose proof (read_packet_conn_size _ Hcw Hq) as Hsz.
  pose proof (buf_get_ok _ (successful_read c) (wf_recvbuf _ Hcw)) as [Hl _].
  cbn [fst snd read_packet_conn]. split_and!; [|lia..|].
  - rewrite length_take. lia.
  - rewrite (recvqueue_at _ _ _ (conn_at_upd _ _ _ _ Hc)). unfold recvqueue_conn in *. simpl.
    pose proof (wf_window _ Hcw). unfold recvqueue_conn in *. uarith.
Qed.

(** A state in which the connection is established and a packet is ready. *)
Definition demo_peer_calls : list ludp_call :=
  [Call_new_connection demo_peer;
   Recv_handshake demo_peer (handshake_packet 7 1);
   Recv_SYNC demo_peer (SYNC_packet 127 1 7 []);
   Recv_data demo_peer (enc (PData 7 [42; 43]));
   Recv_SYNC demo_peer (SYNC_packet 128 1 8 []);
   Call_do_lossless_udp].
Definition demo_l2 : Lossless_UDP :=
  fold_left (fun l k => demo_call k l) demo_peer_calls (new_lossless_udp net_zero).

Lemma demo_call_reachable k l : reachable l -> reachable (demo_call k l).
Proof.
  intros H. unfold demo_call. destruct (run_call k l demo_world) as [[[[] l'] w']|] eqn:E; [|done].
  by eapply reach_step.
Qed.

Lemma demo_l2_reachable : reachable demo_l2.
Proof.
  unfold demo_l2. generalize (new_lossless_udp net_zero) (reach_init net_zero).
  induction demo_peer_calls as [|k r IH]; intros l Hl; [done|]. apply IH, demo_call_reachable, Hl.
Qed.

Lemma read_packet_next_witness :
  recvqueue demo_l2 0 = 1 /\
  wp (read_packet 0)
    (fun r l' _ => fst r = Z.of_nat (length (snd r)) /\ 0 < fst r <= 1024 /\
       recvqueue l' 0 = recvqueue demo_l2 0 - 1) demo_l2 demo_world.
Proof.
  split; [by vm_compute|].
  exact (proj2 (read_packet_next demo_l2 0 demo_world demo_l2_reachable
    ltac:(vm_compute; discriminate))).
Defined.

(** C11: [new_connection] returns the live connection to that address if there is one
    and changes nothing; or -1, changing nothing, only when there is none, every slot is
    taken and the allocation of one more fails; or it
    puts a connection in the first handshake state, with a non-zero handshake id
    from which all its packet numbers start and a timeout of 5 to 9 seconds, in a
    slot that was free, and leaves every other connection as it is. *)
Theorem new_connection_ok ipp l w :
  reachable l -> wp (new_connection ipp) (fun id l' _ => new_connection_post ipp l w id l') l w.
Proof. intros Hwf%reachable_ludp_wf. by apply wp_new_connection. Qed.

Lemma new_connection_ok_witness :
  wp (new_connection (mkIPP 9 9 0))
    (fun id l' _ => new_connection_post (mkIPP 9 9 0) demo_l2 demo_world id l') demo_l2 demo_world.
Proof. exact (new_connection_ok _ _ _ demo_l2_reachable). Defined.

(** ** Handshake ids *)

(** An address whose six table entries are drawn. *)
Definition table_drawn (src : IP_Port) (l : Lossless_UDP) : Prop :=
  forall i, (i < 6)%nat -> rt_get (randtable l) i (ipp_uint8 src i) <> 0.

Lemma handshake_loop_stable idx src id l w :
  Forall (fun i => i < 6)%nat idx -> table_drawn src l ->
  handshake_loop idx src id l w =
  Some (fold_left (fun x i => Z.lxor x (rt_get (randtable l) i (ipp_uint8 src i))) idx id, l, w).
Proof.
  intros Hidx Ht. revert id. induction Hidx as [|i r Hi _ IH]; intros id; [done|].
  cbn [handshake_loop fold_left]. unfold bindM at 1, getM at 1. specialize (Ht i Hi).
  destruct (Z.eqb_spec (rt_get (randtable l) i (ipp_uint8 src i)) 0); [done|].
  unfold bindM, retM, getM. apply IH.
Qed.

(** Once the table entries of an address are drawn, [handshake_id] gives the same
    non-zero id every time and changes nothing: the id put in an answer is the one
    the next SYNC of that address is compared with, no state being kept per peer. *)
Theorem handshake_id_stable src l w w' :
  table_drawn src l ->
  exists id, id <> 0 /\ handshake_id src l w = Some (id, l, w) /\
             handshake_id src l w' = Some (id, l, w').
Proof.
  intros Ht. unfold handshake_id, bindM.
  assert (Hs : Forall (fun i => i < 6)%nat (seq 0 6)) by (apply Forall_seq; lia).
  rewrite !(handshake_loop_stable _ _ _ _ _ Hs Ht). unfold retM.
  set (x := fold_left _ _ _). exists (if x =? 0 then 1 else x). split; [|done].
  destruct (Z.eqb_spec x 0); lia.
Qed.

Lemma handshake_id_stable_witness :
  exists id, id <> 0 /\
    handshake_id demo_peer (set_randtable (replicate 6 (replicate 256 3)) (demo_ludp [])) demo_world
    = Some (id, set_randtable (replicate 6 (replicate 256 3)) (demo_ludp []), demo_world).
Proof.
  destruct (handshake_id_stable demo_peer
    (set_randtable (replicate 6 (replicate 256 3)) (demo_ludp [])) demo_world demo_world)
    as (id & H0 & H1 & _).
  - intros i Hi. do 6 (destruct i as [|i]; [by vm_compute|]). lia.
  - by exists id.
Defined.

(** ** Packets on the wire *)

(** C13: the bytes [send_SYNC] puts on the wire mean to [handle_SYNC] what they meant
    to the sender: on an established connection a SYNC packet with at most 8
    requests has exactly the effect of its counter, numbers and requests -- it is
    refused with nothing changed when the numbers or the counter are out of range,
    and else acknowledges, raises what the peer is known to have sent and stores the
    requests, in order.  A data packet has the effect of its number and payload. *)
Theorem wire_round_trip src l w i c counter rn sn reqs num payload :
  ludp_wf l -> getconnection_id l src = i -> i <> -1 -> conn_at l i c -> status c = 3 ->
  is_u32 rn -> is_u32 sn -> Forall is_u32 reqs -> (length reqs <= 8)%nat ->
  is_u32 num -> (0 < length payload <= 1024)%nat ->
  wp (handle_SYNC src (SYNC_packet counter rn sn (map htonl reqs)))
    (fun r l' _ =>
       (SYNC3_ok c counter rn sn = false /\ r = 1 /\ l' = l) \/
       (SYNC3_ok c counter rn sn = true /\ r = 0 /\
        exists now dst, length dst = 15%nat /\ reqs `prefix_of` dst /\
          l' = upd l i (sync_conn counter rn sn now dst (length reqs) c))) l w /\
  wp (handle_data src ([NET_PACKET_DATA] ++ le_bytes 4 (htonl num) ++ payload))
    (fun r l' _ => r = 0 /\ exists now, l' = upd l i (recv_conn num payload now c)) l w.
Proof.
  intros Hwf Hid Hne Hc Hst Hrn Hsn Hreqs Hlen Hnum Hp. split.
  - apply (wp_handle_SYNC_enc src counter rn sn reqs _ _ i c); auto.
    intros now dst w' Hok Hd Hpre. right. split_and!; [done..|]. exists now, dst.
    split_and!; [done| |done]. exists (drop (length reqs) dst).
    apply list_eq. intros j. destruct (decide (j < length reqs)%nat) as [Hj|Hj].
    + destruct (lookup_lt_is_Some_2 reqs j Hj) as [x Hx].
      rewrite lookup_app_l, Hx by done. by apply Hpre.
    + rewrite lookup_app_r, lookup_drop by lia. f_equal. lia.
  - apply (wp_handle_data_enc src num payload _ _ i c); auto. by eauto.
Qed.

Definition demo_one : Lossless_UDP := demo_ludp [demo_conn demo_peer 100 200].

Lemma demo_one_wf : ludp_wf demo_one.
Proof. apply demo_ludp_wf, (demo_established 100 200); unfold is_u32; lia. Qed.

Lemma wire_round_trip_witness :
  wp (handle_data demo_peer ([NET_PACKET_DATA] ++ le_bytes 4 (htonl 200) ++ [1; 2]))
    (fun r l' _ => r = 0 /\ exists now, l' = upd demo_one 0 (recv_conn 200 [1; 2] now
       (demo_conn demo_peer 100 200))) demo_one demo_world.
Proof.
  apply (wire_round_trip demo_peer demo_one demo_world 0 (demo_conn demo_peer 100 200)
    1 100 201 [] 200 [1; 2]).
  - apply demo_one_wf.
  - by vm_compute.
  - lia.
  - done.
  - done.
  - unfold is_u32; lia.
  - unfold is_u32; lia.
  - constructor.
  - simpl; lia.
  - unfold is_u32; lia.
  - simpl; lia.
Defined.

(** ** The main loop *)

(** The peer has not announced more than 15 packets past what was received. *)
Definition window_ok (l : Lossless_UDP) : Prop :=
  Forall (fun c => u32 (osent_packetnum c - recv_packetnum c) <= 15) (ta_data (connections l)).

Lemma window_ok_dec l :
  forallb (fun c => u32 (osent_packetnum c - recv_packetnum c) <=? 15) (ta_data (connections l)) = true ->
  window_ok l.
Proof.
  rewrite forallb_forall. intros H. apply Forall_forall. intros c Hc.
  apply Z.leb_le, H. by apply list_elem_of_In.
Qed.

Lemma missing_nums_length n buf i : (length (missing_nums n buf i) <= n)%nat.
Proof. revert i. induction n as [|n IH]; intros i; simpl; [lia|]. case_if; simpl; specialize (IH (u32 (i + 1))); lia. Qed.

Lemma missing_packets_conn_total c :
  u32 (osent_packetnum c - recv_packetnum c) <= 15 ->
  exists req c', missing_packets_conn c = Some (req, c').
Proof.
  intros H. unfold missing_packets_conn. case_if; [by eauto|].
  rewrite missing_loop_spec by (simpl; lia).
  set (n := Z.to_nat _). assert (n <= 15)%nat by lia.
  pose proof (missing_nums_length n (recvbuffer c) (recv_packetnum c)).
  destruct (Nat.leb_spec (length (@nil Z) + length (missing_nums n (recvbuffer c) (recv_packetnum c))) 15);
    [by eauto|]. simpl in *. lia.
Qed.

Lemma window_ok_upd l i c : 
  window_ok l -> u32 (osent_packetnum c - recv_packetnum c) <= 15 -> window_ok (upd l i c).
Proof. intros H Hc. unfold window_ok. simpl. by apply Forall_insert. Qed.

Lemma window_ok_at l i c :
  window_ok l -> conn_at l i c -> u32 (osent_packetnum c - recv_packetnum c) <= 15.
Proof. intros H [_ Hc]%conn_at_Some. by eapply Forall_lookup_1 in H. Qed.

Lemma missing_packets_conn_window c req c' :
  conn_wf c -> u32 (osent_packetnum c - recv_packetnum c) <= 15 ->
  missing_packets_conn c = Some (req, c') -> u32 (osent_packetnum c' - recv_packetnum c') <= 15.
Proof.
  intros Hwf Hw Hm. destruct (missing_packets_conn_cases _ _ _ Hwf Hm) as [[->| ->] _]; [done|].
  simpl. uarith.
Qed.

Lemma wp_send_SYNC i l w c Q :
  ludp_wf l -> window_ok l -> conn_at l i c ->
  (forall r w' c', ludp_wf (upd l i c') -> window_ok (upd l i c') -> conn_at (upd l i c') i c' ->
     Q r (upd l i c') w') ->
  wp (send_SYNC i) Q l w.
Proof.
  intros Hwf Hw Hc HQ. pose proof (conn_at_wf _ _ _ Hwf Hc) as Hcw.
  pose proof (window_ok_at _ _ _ Hw Hc) as Hcwin.
  destruct (missing_packets_conn_total _ Hcwin) as (req & c' & Hm).
  destruct (missing_packets_conn_cases _ _ _ Hcw Hm) as [Hcase _].
  unfold send_SYNC, missing_packets. wp_step. apply wp_get_conn. exists c. split; [done|].
  wp_step. wp_step. apply wp_get_conn. exists c. split; [done|]. wp_step. apply wp_liftO.
  exists (req, c'). split; [done|]. wp_step. rewrite wp_put_conn, wp_ret. wp_step.
  apply HQ.
  - eapply ludp_wf_upd; eauto using missing_packets_conn_wf; by destruct Hcase as [->| ->].
  - eauto using window_ok_upd, missing_packets_conn_window.
  - by eapply conn_at_upd.
Qed.

Lemma wp_do_SYNC l w :
  ludp_wf l -> window_ok l -> wp do_SYNC (fun _ l' _ => ludp_wf l' /\ window_ok l') l w.
Proof.
  intros Hwf Hw. unfold do_SYNC. do 2 wp_step.
  apply (wp_for_each_conn _ _ _ (fun l => ludp_wf l /\ window_ok l)); [done|].
  clear l w w' Hwf Hw. intros i l w [Hwf Hw] Hi. destruct (conn_at_range _ _ Hi) as [c Hc].
  unfold do_SYNC_conn. wp_step. apply wp_get_conn. exists c. split; [done|].
  wp_step; [|wp_step; by auto with lia]. wp_step.
  pose proof (wf_rates _ (conn_at_wf _ _ _ Hwf Hc)). apply wp_interval; [lia|].
  wp_step; [|wp_step; by auto with lia]. wp_step. eapply wp_send_SYNC; [done..|].
  intros r w1 c1 Hwf1 Hw1 Hc1. wp_step. apply wp_get_conn. exists c1. split; [done|].
  rewrite wp_put_conn, !conn_count_upd. split_and!; [| |lia].
  - eapply ludp_wf_upd; eauto. pose proof (conn_at_wf _ _ _ Hwf1 Hc1) as Hcw. by conn_wf_cases Hcw.
  - apply window_ok_upd; [done|]. apply (window_ok_at _ _ _ Hw1 Hc1).
Qed.

(** Each of the four passes of [do_lossless_udp] over the connections ends, and
    without undefined behaviour, from every reachable state in which no peer has
    announced more than 15 packets beyond what was received: the rates are never
    zero, the loop that sends data ends, and no index leaves its array.  (The clock
    readings are not within a second of overflow.) *)
Theorem passes_terminate l w :
  reachable l -> window_ok l ->
  Forall (fun t => u64 t + 1000000 < 18446744073709551616) (w_us w) ->
  wp do_new (fun _ l' _ => ludp_wf l') l w /\
  wp do_SYNC (fun _ l' _ => ludp_wf l' /\ window_ok l') l w /\
  wp do_data (fun _ l' _ => ludp_wf l') l w /\
  wp adjust_rates (fun _ l' _ => ludp_wf l') l w.
Proof.
  intros Hwf%reachable_ludp_wf Hw Hclock. split_and!.
  - by apply wp_do_new.
  - by apply wp_do_SYNC.
  - by apply wp_do_data.
  - by apply wp_adjust_rates.
Qed.

Lemma passes_terminate_witness :
  wp do_data (fun _ l' _ => ludp_wf l') demo_l2 demo_world.
Proof.
  apply (passes_terminate demo_l2 demo_world demo_l2_reachable).
  - apply window_ok_dec. vm_compute. reflexivity.
  - by apply Forall_singleton.
Defined.

(** ** Where the code breaks its promise *)

Lemma get_conn_at l i c w : conn_at l i c -> get_conn i l w = Some (c, l, w).
Proof. intros H. unfold get_conn. erewrite bind_eval by done. unfold conn_at in H. by rewrite H. Qed.

(** A SYNC packet with 9 to 15 requests, which [SYNC_valid] lets through, makes
    [handle_SYNC] write past the end of [req_packets]: turn [i] of the copy loop
    copies all the words instead of one. *)
Theorem SYNC_requests_overflow src l w i c counter rn sn reqs :
  getconnection_id l src = i -> i <> -1 -> conn_at l i c -> status c = 3 ->
  is_u32 rn -> is_u32 sn -> Forall is_u32 reqs -> (9 <= length reqs <= 15)%nat ->
  SYNC3_ok c counter rn sn = true ->
  handle_SYNC src (SYNC_packet counter rn sn (map htonl reqs)) l w = None.
Proof.
  intros Hid Hne Hc Hst Hrn Hsn Hreqs Hlen Hok. unfold handle_SYNC.
  change (SYNC_packet counter rn sn (map htonl reqs)) with (enc (PSync counter rn sn reqs)).
  rewrite sync_valid, sync_recv_num, sync_sent_num, sync_requests by (done || lia).
  change (nth 1 (enc (PSync counter rn sn reqs)) 0) with counter.
  cbn [negb]. erewrite bind_eval by done. rewrite Hid.
  destruct (Z.eqb_spec i (-1)); [done|].
  erewrite bind_eval by (by apply get_conn_at). rewrite Hst. cbn [Z.eqb Pos.eqb].
  unfold handle_SYNC3. erewrite bind_eval by (by apply get_conn_at). rewrite Hok.
  destruct (current_time l w) as [[[t l'] w']|] eqn:E; [|by apply bind_none].
  rewrite (bind_eval _ _ _ _ _ _ _ E). apply bind_none, req_copy_ub.
  apply Exists_exists. exists (length reqs - 1)%nat. rewrite length_map.
  split; [|lia]. apply elem_of_seq. lia.
Qed.

Lemma SYNC_requests_overflow_witness :
  handle_SYNC demo_peer (SYNC_packet 1 100 200 (map htonl (replicate 9 100))) demo_one demo_world = None.
Proof.
  apply (SYNC_requests_overflow demo_peer demo_one demo_world 0 (demo_conn demo_peer 100 200)).
  - by vm_compute.
  - lia.
  - done.
  - done.
  - unfold is_u32; lia.
  - unfold is_u32; lia.
  - apply Forall_replicate. unfold is_u32; lia.
  - rewrite length_replicate. lia.
  - by vm_compute.
Defined.

(** [missing_packets] writes past [requested] as soon as the peer has announced
    16 packets or more past what was received and none of them has arrived. *)
Theorem missing_packets_overflow l i c w :
  conn_at l i c -> recvqueue_conn c < 14 -> (forall k, ~ filled (recvbuffer c) k) ->
  15 < u32 (osent_packetnum c - recv_packetnum c) ->
  send_SYNC i l w = None.
Proof.
  intros Hc Hq He Hw.
  assert (Hlen : forall n k, length (missing_nums n (recvbuffer c) k) = n).
  { induction n as [|n IH]; intros k; simpl; [done|].
    destruct (proj1 (not_filled _ _) (He k)). rewrite Z.eqb_refl. simpl. by rewrite IH. }
  unfold send_SYNC. erewrite bind_eval by (by apply get_conn_at). apply bind_none.
  unfold missing_packets. erewrite bind_eval by (by apply get_conn_at). apply bind_none.
  unfold missing_packets_conn, BUFFER_PACKET_NUM.
  destruct (Z.leb_spec (16 - 1 - 1) (recvqueue_conn c)); [lia|].
  rewrite missing_loop_spec, Hlen by (simpl; lia).
  destruct (Nat.leb_spec (length (@nil Z) + Z.to_nat (u32 (osent_packetnum c - recv_packetnum c))) 15);
    [simpl in *; lia|done].
Qed.

(** Two SYNC packets of the peer are enough to get there, from a fresh connection. *)
Definition demo_flood : Lossless_UDP :=
  match (handle_SYNC demo_peer (SYNC_packet 1 100 215 []) ;;;
         handle_SYNC demo_peer (SYNC_packet 2 100 216 [])) demo_one demo_world with
  | Some (_, l, _) => l
  | None => demo_one
  end.

Lemma missing_packets_overflow_witness : send_SYNC 0 demo_flood demo_world = None.
Proof.
  set (c := set_recv_counter 2 (set_send_counter 3 (set_last_recvSYNC 1000000
              (set_osent_packetnum 216 (demo_conn demo_peer 100 200))))).
  apply (missing_packets_overflow demo_flood 0 c demo_world).
  - by vm_compute.
  - by vm_compute.
  - apply zero_not_filled.
  - by vm_compute.
Defined.

(** [free_connections] drops the last live connection together with the dead
    ones behind it, when the byte after the array happens to be zero: the scan looks
    at element [i] where [i - 1] is meant, and a live connection [j] is popped. *)
Theorem free_connections_drops_live l w j c r :
  ta_data (connections l) !! j = Some c -> status c <> 0 ->
  (forall k ck, (j < k)%nat -> ta_data (connections l) !! k = Some ck -> status ck = 0) ->
  w_junk w = 0 :: r -> w_nomem w = [] ->
  exists l' w', free_connections l w = Some (tt, l', w') /\
    ta_data (connections l') = take j (ta_data (connections l)).
Proof.
  intros Hj Hst Hdead Hjunk Hmem. pose proof (lookup_lt_Some _ _ _ Hj) as Hlt.
  set (conns := ta_data (connections l)) in *.
  assert (Hscan : forall i, (j <= i <= length conns)%nat -> free_scan conns 0 i = j).
  { induction i as [|i IH]; intros Hi; cbn [free_scan]; [lia|].
    destruct (decide (j = S i)) as [->|Hne].
    - rewrite Hj. destruct (Z.eqb_spec (status c) 0); [done|]. done.
    - assert (E : match conns !! S i with Some c => status c | None => 0 end = 0).
      { destruct (conns !! S i) as [ck|] eqn:Ek; [|done]. eapply (Hdead (S i)); [lia|done]. }
      rewrite E. simpl. apply IH. lia. }
  unfold free_connections. erewrite bind_eval by done. unfold conn_count, ta_len. fold conns.
  destruct (Z.eqb_spec (Z.of_nat (length conns)) 0); [lia|].
  assert (Eb : junk_byte l w = Some (0, l, set_junk r w))
    by (unfold junk_byte, worldM; by rewrite Hjunk).
  rewrite (bind_eval _ _ _ _ _ _ _ Eb), Hscan by lia.
  destruct (Z.eqb_spec (Z.of_nat (length conns)) (Z.of_nat j)); [lia|].
  assert (Ea : alloc_fails l (set_junk r w) = Some (false, l, set_nomem [] (set_junk r w)))
    by (unfold alloc_fails, worldM; simpl; by rewrite Hmem).
  rewrite (bind_eval _ _ _ _ _ _ _ Ea). do 2 eexists. split; [reflexivity|]. unfold tox_array_pop, set_connections, ta_len. simpl. fold conns.
  destruct (Z.eqb_spec (Z.of_nat (length conns) - Z.of_nat j) 0); [lia|].
  destruct (Z.ltb_spec (Z.of_nat (length conns)) (Z.of_nat (length conns) - Z.of_nat j)); [lia|].
  destruct (Z.eqb_spec (Z.of_nat (length conns)) (Z.of_nat (length conns) - Z.of_nat j)).
  - by replace j with 0%nat by lia.
  - simpl. f_equal. lia.
Qed.

(** Killing the second of two connections loses the first. *)
Lemma free_connections_drops_live_witness :
  exists l' w', free_connections (demo_ludp [demo_conn demo_peer 100 200; conn_zero])
                  (set_junk [0] demo_world) = Some (tt, l', w') /\ ta_data (connections l') = [].
Proof.
  apply (free_connections_drops_live
    (demo_ludp [demo_conn demo_peer 100 200; conn_zero]) (set_junk [0] demo_world) 0
    (demo_conn demo_peer 100 200) []).
  - done.
  - done.
  - intros [|[|k]] ck Hk Hck; [lia|by injection Hck as <-|done].
  - done.
  - done.
Defined.
