(* ===== verification/Handshake.v ===== *)
(** * Lossless_UDP: opening a connection

    The exchange of handshake and SYNC packets by which two instances of Lossless_UDP make
    a connection: [new_connection], [do_new] and [do_SYNC] at the caller, [handle_handshake]
    and [handle_SYNC] at both, each run on the packets the other has sent. *)

From S2P Require Import Prelude MiscTools Network LosslessUDP LosslessInv LosslessSafe LosslessLink LosslessThms.
Local Open Scope Z_scope.
Local Open Scope tox_scope.






(** ** Handshake ids *)







(** ** The steps of the exchange *)







Section packets.
Context (X Y : Z) (HX : is_u32 X) (HY : is_u32 Y).

End packets.







(** ** The exchange *)




