(* ===== verification/LosslessLive.v ===== *)
(** * Lossless_UDP: what is lost is sent again

    The other half of [LosslessLink]: not only is nothing delivered that was not written,
    but whatever the network has lost, the two ends can always recover: two exchanges of
    SYNC packets and the packets they ask for bring everything that was written to the
    other end. *)

From S2P Require Import Prelude MiscTools Network LosslessUDP LosslessInv LosslessSafe LosslessLink LosslessThms.
From stdpp Require Import relations.
Local Open Scope Z_scope.
Local Open Scope tox_scope.

(** ** A network that forgets *)

(** No SYNC packet is still under way when its sender has counted on by 247: the counter
    has eight bits, and a packet that old would be taken for a new one. *)
Definition recent (e : End) : Prop :=
  forall counter rn sn reqs, PSync counter rn sn reqs ∈ e_net e ->
    u8 (send_counter (e_conn e) - counter) < 247.

Definition with_net (e : End) (nt : list pkt) : End := mkEnd (e_conn e) (e_wrote e) (e_read e) nt.

(** A step of either end, or the network loses packets. *)
Inductive timely_step : End * End -> End * End -> Prop :=
  | timely_session x y : session_step x y -> recent (fst y) -> recent (snd y) -> timely_step x y
  | timely_lose a b na nb :
      na ⊆ e_net a -> nb ⊆ e_net b -> timely_step (a, b) (with_net a na, with_net b nb).

(** How many of the packets [S] has sent are missing at [R]: those in the window of [R]
    that have not arrived, and those beyond it, which [R] does not keep. *)
Definition window (R : Connection) : nat := Z.to_nat (15 - recvqueue_conn R).
Definition lost (S R : Connection) : nat :=
  let n := Z.to_nat (u32 (sent_packetnum S - recv_packetnum R)) in
  length (missing_nums (n `min` window R) (recvbuffer R) (recv_packetnum R)) + (n - window R).

(** ** The invariant *)

Record live (h k : Z) (a b : End) : Prop := {
  lv_inv : session_inv h k a b;
  lv_tokens : tokens (e_conn a) (e_conn b);
  lv_recent : recent a /\ recent b;
  lv_counters : is_u8 (send_counter (e_conn a)) /\ is_u8 (send_counter (e_conn b))
}.

Lemma live_sym h k a b : live h k a b -> live k h b a.
Proof. intros [? ? [? ?] [? ?]]. constructor; [by apply session_inv_sym| |done..]. unfold tokens in *. lia. Qed.

Lemma dir_ok_net h S R log del nS nR mS mR :
  dir_ok h S R log del nS nR -> mS ⊆ nS -> mR ⊆ nR -> dir_ok h S R log del mS mR.
Proof.
  intros (a & s & r & v & o & H) HS HR. exists a, s, r, v, o. 
  destruct H as [Hord Hsend Hrecv Hlog Hslots Hreqs Hwin Hdel Hdata HsyS HsyR]. constructor; [done..| | |].
  - intros num p Hp. by apply Hdata, HS.
  - intros c rn sn q Hp. by eapply HsyS, HS.
  - intros c rn sn q Hp. by eapply HsyR, HR.
Qed.

Lemma live_lose h k a b na nb :
  live h k a b -> na ⊆ e_net a -> nb ⊆ e_net b -> live h k (with_net a na) (with_net b nb).
Proof.
  intros [[Hw Hs Hab Hba] Ht [Ra Rb] Hc] Ha Hb. constructor; [|done| |done].
  - constructor; [done..| |]; by eapply dir_ok_net.
  - split; intros c rn sn q Hp; [by eapply Ra, Ha|by eapply Rb, Hb].
Qed.

(** Taking a SYNC packet passes the token on. *)
Lemma tokens_pass x y counter :
  tokens x y -> u8 (send_counter x - counter) < 247 ->
  (u8 (counter - recv_counter y) <? 10) = true -> u8 (counter - recv_counter y) <> 0 ->
  forall y', recv_counter y' = counter -> send_counter y' = u8 (send_counter y + 1) -> tokens x y'.
Proof.
  unfold tokens, ahead. intros Ht Hr Hc Hn y' E1 E2. rewrite E1, E2. bool_to_prop. uarith.
Qed.

Lemma tokens_sym x y : tokens x y -> tokens y x.
Proof. unfold tokens. lia. Qed.

(** No other step counts. *)
Lemma end_step_counters peer e e' :
  end_step peer e e' ->
  (send_counter (e_conn e') = send_counter (e_conn e) /\ recv_counter (e_conn e') = recv_counter (e_conn e)) \/
  exists counter rn sn reqs, PSync counter rn sn reqs ∈ peer /\
    SYNC3_ok (e_conn e) counter rn sn = true /\
    send_counter (e_conn e') = u8 (send_counter (e_conn e) + 1) /\ recv_counter (e_conn e') = counter.
Proof.
  destruct 1 as [| |c wr rd nt req c' Hm|c wr rd nt counter rn sn reqs now dst Hin Hok| |]; cbn [e_conn].
  - by left.
  - left. unfold send_DATA_conn. by repeat case_if.
  - left. unfold missing_packets_conn in Hm. destruct (_ <=? recvqueue_conn c); [by injection Hm as <- <-|].
    destruct (missing_loop _ _ _ _); [|done]. injection Hm as <- <-. by case_if.
  - right. exists counter, rn, sn, reqs. done.
  - left. unfold recv_conn, advance_recv, store_recv. by repeat case_if.
  - by left.
Qed.

Lemma end_step_tokens a b a' :
  end_step (e_net b) a a' -> recent b -> tokens (e_conn a) (e_conn b) -> is_u8 (send_counter (e_conn a)) ->
  tokens (e_conn a') (e_conn b) /\ is_u8 (send_counter (e_conn a')).
Proof.
  intros Hs Hr Ht Hu. destruct (end_step_counters _ _ _ Hs) as [[E1 E2]|(counter & rn & sn & reqs & Hin & Hok & E1 & E2)].
  - unfold tokens, ahead. by rewrite E1, E2.
  - rewrite E1. split; [|uarith]. apply tokens_sym. unfold SYNC3_ok in Hok.
    rewrite !andb_true_iff, negb_true_iff, Z.eqb_neq in Hok. destruct Hok as [[_ Hc] Hn].
    by eapply tokens_pass; [apply tokens_sym|by eapply Hr|..].
Qed.

Lemma live_step h k a b a' :
  live h k a b -> end_step (e_net b) a a' -> bounded (e_wrote a) -> bounded (e_wrote b) -> recent a' ->
  live h k a' b.
Proof.
  intros [Hi Ht [_ Rb] [Ca Cb]] Hs Ba Bb Ra.
  destruct (end_step_tokens _ _ _ Hs Rb Ht Ca). constructor; [by eapply end_step_inv|done..].
Qed.

Lemma timely_wrote x y :
  timely_step x y -> (length (e_wrote (fst x)) <= length (e_wrote (fst y)))%nat /\
    (length (e_wrote (snd x)) <= length (e_wrote (snd y)))%nat.
Proof.
  destruct 1 as [x y [a b a' Hs|a b b' Hs] _ _|]; [| |done]; apply end_step_wrote in Hs; simpl; lia.
Qed.

Lemma timely_wrotes x y :
  rtc timely_step x y -> (length (e_wrote (fst x)) <= length (e_wrote (fst y)))%nat /\
    (length (e_wrote (snd x)) <= length (e_wrote (snd y)))%nat.
Proof. induction 1 as [|x y z Hu _ IH]; [done|]. apply timely_wrote in Hu. lia. Qed.

Lemma live_timely h k x y :
  live h k (fst x) (snd x) -> timely_step x y -> bounded (e_wrote (fst y)) -> bounded (e_wrote (snd y)) ->
  live h k (fst y) (snd y).
Proof.
  intros Hl Hs Ba Bb. pose proof (timely_wrote _ _ Hs) as [La Lb].
  destruct Hs as [x y [a b a' Hs|a b b' Hs] Ra Rb|]; cbn [fst snd] in *.
  - eapply live_step; eauto. unfold bounded in *; lia.
  - apply live_sym. eapply live_step; eauto; [by apply live_sym|]. unfold bounded in *; lia.
  - by apply live_lose.
Qed.

Lemma live_all h k x y :
  live h k (fst x) (snd x) -> rtc timely_step x y -> bounded (e_wrote (fst y)) -> bounded (e_wrote (snd y)) ->
  live h k (fst y) (snd y).
Proof.
  intros Hl Hs. revert Hl. induction Hs as [x|x y z H1 H2 IH]; intros Hl Ba Bb; [done|].
  destruct (timely_wrotes _ _ H2). apply IH; [|done..]. eapply live_timely; eauto; unfold bounded in *; lia.
Qed.

Lemma live_fresh h k c1 c2 :
  established h k c1 -> established k h c2 -> tokens c1 c2 -> is_u8 (send_counter c1) -> is_u8 (send_counter c2) ->
  live h k (fresh_end c1) (fresh_end c2).
Proof.
  intros. constructor; [by apply established_inv|done| |done]. split; by intros ? ? ? ? ?%not_elem_of_nil.
Qed.

(** ** What can happen next *)

(** The network and the transports run, the programs neither write nor read. *)
Record still (a b a' b' : End) : Prop := {
  st_run : rtc timely_step (a, b) (a', b');
  st_wrote : e_wrote a' = e_wrote a /\ e_wrote b' = e_wrote b;
  st_read : e_read a' = e_read a /\ e_read b' = e_read b
}.

(** [E P a b]: from [a] and [b], the two ends can go on until [P] holds.  The recovery
    below is carried out for any program at [b] that, when its turn comes, reads all that
    it can ([pg_turn]); it may also write, but at most [cost] packets at a turn.  [J] is
    what it keeps true of the packets it has written. *)
Class Progress (h k : Z) (cost : nat) (J : list (list Z) -> Prop)
    (E : (End -> End -> Prop) -> End -> End -> Prop) : Prop := {
  pg_now (P : End -> End -> Prop) a b : P a b -> E P a b;
  pg_trans (P Q : End -> End -> Prop) a b : E P a b -> (forall x y, P x y -> E Q x y) -> E Q a b;
  pg_still (P : End -> End -> Prop) a b a' b' :
    live h k a b -> bounded (e_wrote a) -> bounded (e_wrote b) -> still a b a' b' -> E P a' b' -> E P a b;
  pg_turn (Inv : Connection -> Prop) a b :
    (forall c, conn_wf c -> recvqueue_conn c <> 0 -> Inv c -> Inv (snd (read_packet_conn c))) ->
    (forall c data, Inv c -> Inv (write_packet_conn c data)) ->
    live h k a b -> bounded (e_wrote a) -> Z.of_nat (length (e_wrote b)) + Z.of_nat cost + 64 < 4294967296 ->
    J (e_wrote b) -> Inv (e_conn b) ->
    E (fun a' b' => a' = a /\ live h k a b' /\ recvqueue_conn (e_conn b') = 0 /\ Inv (e_conn b') /\
         J (e_wrote b') /\ (length (e_wrote b') <= length (e_wrote b) + cost)%nat) a b
}.

Lemma timely_swap x y : timely_step x y -> timely_step (snd x, fst x) (snd y, fst y).
Proof.
  destruct 1 as [x y [a b a' Hs|a b b' Hs] Ra Rb|]; simpl.
  - apply timely_session; [by apply session_right|done..].
  - apply timely_session; [by apply session_left|done..].
  - by apply timely_lose.
Qed.

Lemma rtc_swap a b a' b' : rtc timely_step (a, b) (a', b') -> rtc timely_step (b, a) (b', a').
Proof.
  intros H. change (rtc timely_step (snd (a, b), fst (a, b)) (snd (a', b'), fst (a', b'))).
  induction H as [|x y z H1 _ IH]; [apply rtc_refl|]. eapply rtc_l; [by apply timely_swap|done].
Qed.

(** A step of the left or the right end, kept timely. *)
Lemma step_left a b a' : end_step (e_net b) a a' -> recent a' -> recent b -> timely_step (a, b) (a', b).
Proof. intros. apply timely_session; [by apply session_left|done..]. Qed.

Lemma step_right a b b' : end_step (e_net a) b b' -> recent a -> recent b' -> timely_step (a, b) (a, b').
Proof. intros. apply timely_session; [by apply session_right|done..]. Qed.

(** ** SYNC packets *)

Lemma missing_nums_app n m buf i :
  is_u32 i -> missing_nums (n + m) buf i = missing_nums n buf i ++ missing_nums m buf (u32 (i + Z.of_nat n)).
Proof.
  revert i. induction n as [|n IH]; intros i Hi.
  - cbn [Nat.add missing_nums app]. f_equal. uarith.
  - cbn [Nat.add missing_nums]. rewrite IH by auto with tox.
    replace (u32 (u32 (i + 1) + Z.of_nat n)) with (u32 (i + Z.of_nat (S n))) by uarith. by case_if.
Qed.

(** What is asked for is what is known to be missing. *)
Definition wanted (c : Connection) : list Z :=
  missing_nums (Z.to_nat (u32 (osent_packetnum c - recv_packetnum c))) (recvbuffer c) (recv_packetnum c).

Lemma length_missing_nums n buf i : (length (missing_nums n buf i) <= n)%nat.
Proof. revert i. induction n as [|n IH]; intros i; simpl; [lia|]. specialize (IH (u32 (i + 1))). case_if; simpl; lia. Qed.

Lemma missing_nums_le n m buf i :
  is_u32 i -> (n <= m)%nat -> (length (missing_nums n buf i) <= length (missing_nums m buf i) <= length (missing_nums n buf i) + (m - n))%nat.
Proof.
  intros Hi Hm. pose proof (missing_nums_app n (m - n) buf i Hi) as E.
  replace (n + (m - n))%nat with m in E by lia. rewrite E, length_app.
  pose proof (length_missing_nums (m - n) buf (u32 (i + Z.of_nat n))). lia.
Qed.

Lemma missing_nums_ext n b1 b2 i :
  (forall j, 0 <= j < Z.of_nat n -> buf_get b1 (i + j) = buf_get b2 (i + j)) -> missing_nums n b1 i = missing_nums n b2 i.
Proof.
  revert i. induction n as [|n IH]; intros i H; [done|]. cbn [missing_nums].
  pose proof (H 0 ltac:(lia)) as H0. rewrite Z.add_0_r in H0. rewrite H0, (IH (u32 (i + 1))); [done|].
  intros j Hj. assert (E : slot (u32 (i + 1) + j) = slot (i + (j + 1))) by (rewrite slot_u32_add; f_equal; lia).
  rewrite !(buf_get_slot _ _ _ E). apply H. lia.
Qed.

(** The packet numbers of a direction, by how far they are past [recv_packetnum]. *)
Lemma dir_distances h S R log del nS nR :
  dir_ok h S R log del nS nR -> bounded log ->
  0 <= u32 (osent_packetnum R - recv_packetnum R) <= u32 (sent_packetnum S - recv_packetnum R) /\
  u32 (sent_packetnum S - recv_packetnum R) = u32 (osent_packetnum R - recv_packetnum R) + u32 (sent_packetnum S - osent_packetnum R) /\
  u32 (sendbuff_packetnum S - recv_packetnum R) = u32 (sent_packetnum S - recv_packetnum R) + u32 (sendbuff_packetnum S - sent_packetnum S) /\
  u32 (sendbuff_packetnum S - recv_packetnum R) <= 15 /\
  u32 (sendbuff_packetnum S - successful_read R) = u32 (sendbuff_packetnum S - recv_packetnum R) + recvqueue_conn R.
Proof.
  intros (a & s & r & v & o & H) Hb. unfold bounded in Hb. unfold recvqueue_conn.
  destruct H as [Hord (Hl & _ & _ & Hs) (Hr & Hv & Ho) _ _ _ _ _ _ _ _]. rewrite Hl, Hs, Hr, Hv, Ho. uarith.
Qed.

Section lost.
Context (h : Z) (S R : Connection) (log del : list (list Z)) (nS nR : list pkt).
Context (Hd : dir_ok h S R log del nS nR) (Hb : bounded log) (Hwf : conn_wf R).

Lemma wanted_lost : (length (wanted R) <= lost S R)%nat.
Proof.
  destruct (dir_distances _ _ _ _ _ _ _ Hd Hb) as ([H0 H1] & _). unfold wanted, lost.
  set (o := Z.to_nat (u32 (osent_packetnum R - recv_packetnum R))).
  set (n := Z.to_nat (u32 (sent_packetnum S - recv_packetnum R))).
  assert (o <= n)%nat by lia. pose proof (wf_recv_u32 _ Hwf).
  destruct (Nat.le_ge_cases o (window R)) as [Ho|Ho].
  - destruct (missing_nums_le o (n `min` window R) (recvbuffer R) (recv_packetnum R)); [done|lia|lia].
  - destruct (missing_nums_le (window R) o (recvbuffer R) (recv_packetnum R)); [done..|].
    rewrite Nat.min_r by lia. lia.
Qed.

(** Nothing wanted: the packets known of are all there, and inside the window. *)
Lemma wanted_nil_window : wanted R = [] -> u32 (osent_packetnum R - recv_packetnum R) + recvqueue_conn R <= 15.
Proof.
  intros Hw. pose proof (missing_nums_nil _ _ _ Hw) as Hf. pose proof (wf_gap _ Hwf) as Hgap.
  pose proof (wf_window _ Hwf). pose proof (wf_recv_u32 _ Hwf). pose proof (wf_read_u32 _ Hwf).
  destruct (Z.le_gt_cases (u32 (osent_packetnum R - recv_packetnum R) + recvqueue_conn R) 15); [done|].
  exfalso. apply Hgap. unfold recvqueue_conn in *. eapply filled_slot; [|apply (Hf (15 - u32 (recv_packetnum R - successful_read R)))].
  - rewrite slot_eq. uarith.
  - uarith.
Qed.

Lemma lost_catch_up : wanted R = [] -> lost S (set_recv_packetnum (osent_packetnum R) R) = lost S R.
Proof.
  intros Hw. pose proof (wanted_nil_window Hw) as Hr. destruct (dir_distances _ _ _ _ _ _ _ Hd Hb) as ([H0 _] & H1 & _).
  pose proof (wf_recv_u32 _ Hwf). pose proof (wf_read_u32 _ Hwf). pose proof (wf_osent_u32 _ Hwf). pose proof (wf_window _ Hwf).
  set (o := Z.to_nat (u32 (osent_packetnum R - recv_packetnum R))) in *.
  assert (Eq : recvqueue_conn (set_recv_packetnum (osent_packetnum R) R) = recvqueue_conn R + Z.of_nat o)
    by (unfold recvqueue_conn, o in *; simpl; uarith).
  unfold lost, window. rewrite Eq. cbn [recv_packetnum recvbuffer set_recv_packetnum]. rewrite H1.
  set (m := u32 (sent_packetnum S - osent_packetnum R)). assert (0 <= m) by (unfold m; uarith).
  replace (Z.to_nat (u32 (osent_packetnum R - recv_packetnum R) + m)) with (o + Z.to_nat m)%nat by lia.
  replace ((o + Z.to_nat m) `min` Z.to_nat (15 - recvqueue_conn R))%nat
    with (o + (Z.to_nat m `min` Z.to_nat (15 - (recvqueue_conn R + Z.of_nat o))))%nat by lia.
  rewrite missing_nums_app, length_app by done. fold (wanted R) in *.
  replace (missing_nums o (recvbuffer R) (recv_packetnum R)) with (@nil Z) by done.
  replace (u32 (recv_packetnum R + Z.of_nat o)) with (osent_packetnum R) by (unfold o; uarith). simpl. lia.
Qed.

(** With at most eight packets lost an end can send a SYNC packet, which changes nothing of
    what is lost. *)
Lemma can_sync :
  (lost S R <= 8)%nat ->
  exists req R', missing_packets_conn R = Some (req, R') /\ (length req <= 8)%nat /\ lost S R' = lost S R /\
    (R' = R \/ R' = set_recv_packetnum (osent_packetnum R) R) /\
    (recvqueue_conn R = 0 -> map ntohl req = wanted R /\ (wanted R = [] -> R' = set_recv_packetnum (osent_packetnum R) R)).
Proof.
  intros Hl. pose proof wanted_lost as Hw. unfold missing_packets_conn, BUFFER_PACKET_NUM.
  destruct (Z.leb_spec (16 - 1 - 1) (recvqueue_conn R)).
  { exists [], R. split_and!; [done|simpl; lia|done|by left|lia]. }
  rewrite missing_loop_spec by (simpl; lia). fold (wanted R).
  destruct (Nat.leb_spec (length (@nil Z) + length (wanted R)) 15); [|simpl in *; lia]. cbn [app].
  assert (Hmap : map ntohl (map htonl (wanted R)) = wanted R).
  { rewrite map_map. transitivity (map id (wanted R)); [|apply map_id]. apply map_ext_in.
    intros x Hx%list_elem_of_In.
    apply missing_nums_elem in Hx as (k & _ & -> & _); [|apply Hwf]. apply ntohl_htonl, u32_range. }
  eexists _, _. split; [done|]. rewrite length_map. split; [lia|].
  destruct (Z.eqb_spec (Z.of_nat (length (wanted R))) 0) as [Hz|Hz].
  - assert (E : wanted R = []) by (destruct (wanted R); [done|simpl in Hz; lia]).
    split_and!; [by apply lost_catch_up|by right|by intros _].
  - split_and!; [done|by left|]. intros _. split; [done|]. by intros E; rewrite E in Hz.
Qed.

(** Reading does not change it either. *)
Lemma lost_read : recvqueue_conn R <> 0 -> lost S (snd (read_packet_conn R)) = lost S R.
Proof.
  intros Hq. pose proof (wf_gap _ Hwf) as Hgap. pose proof (wf_recv_u32 _ Hwf). pose proof (wf_read_u32 _ Hwf).
  pose proof (wf_window _ Hwf).
  assert (Eq : recvqueue_conn (snd (read_packet_conn R)) = recvqueue_conn R - 1)
    by (unfold recvqueue_conn in *; simpl; uarith).
  unfold lost, window. rewrite Eq. cbn [read_packet_conn snd recv_packetnum recvbuffer set_recvbuffer set_successful_read].
  set (n := Z.to_nat (u32 (sent_packetnum S - recv_packetnum R))). set (q := Z.to_nat (15 - recvqueue_conn R)).
  replace (Z.to_nat (15 - (recvqueue_conn R - 1))) with (q + 1)%nat by lia.
  set (buf := buf_set _ _ _).
  assert (Hbuf : forall j, 0 <= j < Z.of_nat q + 1 -> buf_get buf (recv_packetnum R + j) = buf_get (recvbuffer R) (recv_packetnum R + j)).
  { intros j Hj. apply buf_get_set_ne. rewrite slot_eq. unfold q, recvqueue_conn in *. uarith. }
  destruct (Nat.le_gt_cases n q) as [Hn|Hn].
  { rewrite !Nat.min_l by lia. rewrite (missing_nums_ext _ buf (recvbuffer R)) by (intros; apply Hbuf; lia). lia. }
  rewrite !Nat.min_r by lia. rewrite missing_nums_app, length_app by done.
  rewrite (missing_nums_ext q buf (recvbuffer R)) by (intros; apply Hbuf; lia).
  cbn [missing_nums]. rewrite buf_get_u32, Hbuf by lia.
  assert (E : slot (recv_packetnum R + Z.of_nat q) = slot (successful_read R + 15))
    by (rewrite slot_eq; unfold q, recvqueue_conn in *; uarith).
  apply not_filled in Hgap. rewrite (buf_get_slot _ _ _ E), Hgap. simpl. lia.
Qed.
End lost.

(** The next SYNC packet of an end whose counter is ahead is taken. *)
Lemma sync_taken h k a b :
  live h k a b -> bounded (e_wrote a) -> bounded (e_wrote b) -> 1 <= ahead (e_conn a) (e_conn b) ->
  SYNC3_ok (e_conn b) (send_counter (e_conn a)) (recv_packetnum (e_conn a)) (sent_packetnum (e_conn a)) = true.
Proof.
  intros [[_ _ Hab Hba] Ht _ _] Ba Bb Ha. unfold bounded in *.
  destruct Hab as (a1 & s1 & r1 & v1 & o1 & [Hord1 (_ & _ & _ & Hs1) (_ & _ & Ho1) _ _ _ _ _ _ _ _]).
  destruct Hba as (a2 & s2 & r2 & v2 & o2 & [Hord2 (_ & _ & Hr2 & _) (_ & Hv2 & _) _ _ _ _ _ _ _ _]).
  unfold SYNC3_ok, BUFFER_PACKET_NUM. rewrite Hs1, Ho1, Hr2, Hv2.
  fold (ahead (e_conn a) (e_conn b)). unfold tokens in Ht.
  assert (0 <= ahead (e_conn b) (e_conn a)) by (unfold ahead; uarith).
  rewrite !andb_true_iff, negb_true_iff, Z.eqb_neq, Z.ltb_lt, !Z.leb_le. split_and!; uarith || lia.
Qed.

(** The SYNC packet [a] sends, and both ends once it is received, what was in flight before
    being lost. *)
Definition sync_of (a : End) (req : list Z) : pkt :=
  PSync (send_counter (e_conn a)) (recv_packetnum (e_conn a)) (sent_packetnum (e_conn a)) (map ntohl req).
Definition synced_a (a : End) (req : list Z) (c' : Connection) : End := end_send_SYNC (with_net a []) req c'.
Definition synced_b (a b : End) (req : list Z) : End := end_recv (with_net b []) (sync_of a req).

Lemma recent_nil e : e_net e = [] -> recent e.
Proof. intros E c rn sn q. rewrite E. by intros ?%not_elem_of_nil. Qed.

Lemma missing_send_counter c req c' : missing_packets_conn c = Some (req, c') -> send_counter c' = send_counter c.
Proof.
  unfold missing_packets_conn. destruct (_ <=? recvqueue_conn c); [by intros [= _ <-]|].
  destruct (missing_loop _ _ _ _); [|done]. intros [= _ <-]. by case_if.
Qed.

Lemma exchange h k a b req c' :
  live h k a b -> bounded (e_wrote a) -> bounded (e_wrote b) -> 1 <= ahead (e_conn a) (e_conn b) ->
  missing_packets_conn (e_conn a) = Some (req, c') -> (length req <= 8)%nat ->
  rtc timely_step (a, b) (synced_a a req c', synced_b a b req) /\
  live h k (synced_a a req c') (synced_b a b req) /\
  1 <= ahead (e_conn (synced_b a b req)) (e_conn (synced_a a req c')).
Proof.
  intros Hl Ba Bb Ha Hm Hn.
  assert (Hc : send_counter c' = send_counter (e_conn a)) by (by eapply missing_send_counter).
  assert (Hl1 : live h k (with_net a []) (with_net b [])) by (apply live_lose; [done|set_solver..]).
  assert (Hs1 : end_step [] (with_net a []) (synced_a a req c')) by (by apply end_send_SYNC_step).
  assert (Hr1 : recent (synced_a a req c')).
  { intros c rn sn q Hin%list_elem_of_singleton. injection Hin as -> _ _ _. simpl. rewrite Hc. uarith. }
  assert (Hl2 : live h k (synced_a a req c') (with_net b [])) by (by eapply live_step).
  assert (Hs2 : end_step (e_net (synced_a a req c')) (with_net b []) (synced_b a b req)).
  { apply end_recv_SYNC_step; [by apply list_elem_of_here| |by rewrite length_map].
    exact (sync_taken h k a b Hl Ba Bb Ha). }
  assert (Hr2 : recent (synced_b a b req)) by by apply recent_nil.
  split_and!.
  - eapply rtc_l; [apply (timely_lose a b [] []); set_solver|].
    eapply rtc_l; [apply step_left; [exact Hs1|done|by apply recent_nil]|].
    apply rtc_once, step_right; done.
  - apply live_sym. eapply live_step; [by apply live_sym|done..].
  - pose proof (end_step_counters _ _ _ Hs1) as Hk. destruct Hk as [[_ E]|(? & ? & ? & ? & Hin & _)]; [|by apply not_elem_of_nil in Hin].
    destruct Hl as [_ Ht _ [_ Hu]]. unfold tokens, ahead in *. rewrite E. simpl in *. uarith.
Qed.

Lemma sync_taken_lost S c counter rn sn now dst n :
  lost S (sync_conn counter rn sn now dst n c) = lost S c /\ lost (sync_conn counter rn sn now dst n c) S = lost c S.
Proof. done. Qed.

Lemma catch_up_sent S c c' :
  c' = c \/ c' = set_recv_packetnum (osent_packetnum c) c -> lost c' S = lost c S.
Proof. by intros [->| ->]. Qed.

(** Every packet [S] has sent has arrived at [R] or has been asked for. *)
Definition covered (S R : Connection) : Prop :=
  forall j, 0 <= j < u32 (sent_packetnum S - recv_packetnum R) ->
    filled (recvbuffer R) (recv_packetnum R + j) \/
    exists i, Z.of_nat i < num_req_paquets S /\ req_packets S !! i = Some (u32 (recv_packetnum R + j)).

(** [R] has room for everything written to [S]. *)
Definition room (S R : Connection) : Prop := u32 (sendbuff_packetnum S - successful_read R) <= 15.

Lemma missing_nums_covers n buf i j :
  is_u32 i -> 0 <= j < Z.of_nat n -> filled buf (i + j) \/ u32 (i + j) ∈ missing_nums n buf i.
Proof.
  revert i j. induction n as [|n IH]; intros i j Hi Hj; [lia|]. cbn [missing_nums].
  destruct (decide (j = 0)) as [->|Hne].
  - rewrite Z.add_0_r, u32_small by done. unfold filled. destruct (Z.eqb_spec (d_size (buf_get buf i)) 0); [right; left|by left].
  - destruct (IH (u32 (i + 1)) (j - 1)) as [Hf|Hm]; [by auto with tox|lia| |].
    + left. eapply filled_slot; [|exact Hf]. rewrite slot_u32_add. f_equal. lia.
    + right. replace (u32 (u32 (i + 1) + (j - 1))) with (u32 (i + j)) in Hm by uarith. case_if; [by right|done].
Qed.

(** Receiving a packet fills its place in the window, and empties none. *)
Lemma advance_recv_moves R :
  is_u32 (recv_packetnum R) -> is_u32 (successful_read R) -> recvqueue_conn R <= 15 -> exists m, 0 <= m <= 15 - recvqueue_conn R /\ recv_packetnum (advance_recv R) = u32 (recv_packetnum R + m).
Proof.
  intros Hv Hr Hw. unfold advance_recv, BUFFER_PACKET_NUM, recvqueue_conn in *. cbn [recv_packetnum set_recv_packetnum].
  destruct (recv_advance_spec (Z.to_nat (u32 (u32 (successful_read R + (16 - 1)) - recv_packetnum R))) (recvbuffer R)
    (recv_packetnum R) (recv_packetnum R)) as [(-> & _)|(m & Hm & -> & _)]; [done| |].
  - exists 0. split; uarith.
  - exists m. split; [uarith|done].
Qed.

Lemma recv_conn_fills num p now R :
  conn_wf R -> (0 < length p)%nat ->
  exists m, 0 <= m <= 15 - recvqueue_conn R /\ recv_packetnum (recv_conn num p now R) = u32 (recv_packetnum R + m) /\
    successful_read (recv_conn num p now R) = successful_read R /\
    forall j, 0 <= j < 15 - recvqueue_conn R ->
      filled (recvbuffer R) (recv_packetnum R + j) \/ num = u32 (recv_packetnum R + j) ->
      filled (recvbuffer (recv_conn num p now R)) (recv_packetnum R + j).
Proof.
  intros Hwf Hp. pose proof (wf_recv_u32 _ Hwf). pose proof (wf_read_u32 _ Hwf). pose proof (wf_window _ Hwf).
  destruct (wf_recvbuf _ Hwf) as [Hlen _].
  unfold recv_conn. destruct (recv_find _ _ _) eqn:Ef.
  - set (R1 := store_recv num p now R).
    assert (recv_packetnum R1 = recv_packetnum R /\ successful_read R1 = successful_read R) as [E1 E2]
      by (unfold R1, store_recv; by case_if).
    assert (Eb : recvbuffer R1 = buf_set (recvbuffer R) num
        (mkData (memcpy (d_data (buf_get (recvbuffer R) num)) p (length p)) (Z.of_nat (length p))))
      by (unfold R1, store_recv; by case_if).
    destruct (advance_recv_moves R1) as (m & Hm & Em); [by rewrite E1|by rewrite E2|unfold recvqueue_conn; by rewrite E1, E2|].
    exists m. unfold recvqueue_conn in Hm. rewrite E1, E2 in *. split_and!; [lia|unfold recvqueue_conn; lia|done|done|].
    intros j Hj Hf. change (filled (recvbuffer R1) (recv_packetnum R + j)). rewrite Eb. unfold filled.
    destruct (decide (slot num = slot (recv_packetnum R + j))) as [Hs|Hs].
    + rewrite buf_get_set_eq by done. simpl. lia.
    + rewrite buf_get_set_ne by done. destruct Hf as [Hf| ->]; [exact Hf|]. by rewrite slot_u32 in Hs.
  - destruct (advance_recv_moves R) as (m & Hm & Em); [done..|]. exists m. split_and!; [lia|lia|done|done|].
    intros j Hj [Hf| ->]; [exact Hf|]. exfalso. apply not_true_iff_false in Ef. apply Ef, recv_find_spec; [done|].
    exists j. split; [|done]. unfold recvqueue_conn, BUFFER_PACKET_NUM in *. uarith.
Qed.

Lemma pop_request_lookup c i :
  conn_wf c -> 0 < num_req_paquets c -> Z.of_nat (S i) < num_req_paquets c ->
  Z.of_nat i < num_req_paquets (pop_request c) /\ req_packets (pop_request c) !! i = req_packets c !! S i.
Proof.
  intros Hwf Hn Hi. pose proof (wf_reqs _ Hwf) as [Hl Hb]. unfold pop_request. simpl.
  assert (u16 (num_req_paquets c - 1) = num_req_paquets c - 1) as -> by uarith. split; [lia|].
  rewrite lookup_app_l by (rewrite length_take, length_drop; lia). rewrite lookup_take_lt by lia. by rewrite lookup_drop.
Qed.

(** Sending the next packet and receiving it keeps everything covered. *)
Lemma covered_next S R num p now :
  conn_wf S -> conn_wf R -> (0 < length p)%nat -> next_data S = Some num -> covered S R ->
  let S' := send_DATA_conn S in
  let R' := recv_conn num p now R in
  u32 (sent_packetnum S' - recv_packetnum R) <= 15 - recvqueue_conn R ->
  u32 (sent_packetnum S' - recv_packetnum R') <= 15 ->
  u32 (sent_packetnum S - recv_packetnum R) <= u32 (sent_packetnum S' - recv_packetnum R) -> covered S' R'.
Proof.
  intros HwS HwR Hp Hnext Hcov S' R' Hw Hw' Hle j' Hj'. pose proof (wf_recv_u32 _ HwR) as Hv. pose proof (wf_sent_u32 _ HwS) as Hs.
  destruct (recv_conn_fills num p now R HwR Hp) as (m & Hm & Em & _ & Hfill). fold R' in Em, Hfill.
  pose proof (wf_window _ HwR). assert (0 <= recvqueue_conn R) by (unfold recvqueue_conn; uarith).
  assert (Hj : 0 <= j' + m < u32 (sent_packetnum S' - recv_packetnum R)) by (rewrite Em in *; uarith).
  rewrite Em. replace (u32 (u32 (recv_packetnum R + m) + j')) with (u32 (recv_packetnum R + (j' + m))) by uarith.
  assert (Hsl : slot (u32 (recv_packetnum R + m) + j') = slot (recv_packetnum R + (j' + m))) by (rewrite slot_u32_add; f_equal; lia).
  rewrite (filled_slot _ _ _ Hsl). generalize dependent (j' + m). intros j Hj Hsl. clear Hj' Hsl.
  specialize (Hfill j ltac:(lia)). unfold next_data in Hnext. unfold S', send_DATA_conn in *.
  destruct (Z.ltb_spec 0 (num_req_paquets S)) as [Hn|Hn].
  - injection Hnext as <-. destruct (Hcov j) as [Hf|([|i] & Hi & Hlk)]; [done|by left; auto| |].
    + left. apply Hfill. right. by rewrite nth_lookup, Hlk.
    + right. destruct (pop_request_lookup S i HwS Hn Hi). exists i. split; [done|congruence].
  - left. apply Hfill. destruct (negb _) eqn:Eb; [|done]. injection Hnext as <-. cbn [sent_packetnum set_sent_packetnum] in *.
    destruct (decide (j = u32 (sent_packetnum S - recv_packetnum R))) as [->|Hne]; [right; uarith|].
    destruct (Hcov j) as [Hf|(i & Hi & _)]; [uarith|by left|lia].
Qed.

Lemma missing_nums_none n buf i :
  (forall j, 0 <= j < Z.of_nat n -> filled buf (i + j)) -> missing_nums n buf i = [].
Proof.
  revert i. induction n as [|n IH]; intros i H; [done|]. cbn [missing_nums].
  pose proof (H 0 ltac:(lia)) as H0. rewrite Z.add_0_r in H0. unfold filled in H0. apply Z.eqb_neq in H0 as ->.
  apply IH. intros j Hj. eapply filled_slot; [|apply (H (j + 1)); lia]. rewrite slot_u32_add. f_equal. lia.
Qed.

(** The first [n] packets after [recv_packetnum] are there. *)
Definition arrived (n : Z) (R : Connection) : Prop :=
  n + recvqueue_conn R <= 15 /\ forall j, 0 <= j < n -> filled (recvbuffer R) (recv_packetnum R + j).

Lemma arrived_lost S R : arrived (u32 (sent_packetnum S - recv_packetnum R)) R -> lost S R = 0%nat.
Proof.
  intros [Hq Hf]. unfold lost, window. rewrite Nat.min_l by lia. rewrite missing_nums_none; [simpl; lia|].
  intros j Hj. apply Hf. lia.
Qed.

Lemma arrived_read n R : conn_wf R -> recvqueue_conn R <> 0 -> arrived n R -> arrived n (snd (read_packet_conn R)).
Proof.
  intros Hwf Hq [Hn Hf]. pose proof (wf_read_u32 _ Hwf). pose proof (wf_recv_u32 _ Hwf). unfold recvqueue_conn in *. split.
  - unfold recvqueue_conn. simpl. uarith.
  - intros j Hj. simpl. unfold filled. rewrite buf_get_set_ne; [by apply Hf|]. rewrite slot_eq. uarith.
Qed.

(** ** Recovery of what one end has written *)

Section recovery.
Context (h k : Z) (wa ra : list (list Z)) (Hwa : bounded wa).
Context (cost : nat) (J : list (list Z) -> Prop) (E : (End -> End -> Prop) -> End -> End -> Prop) `{!Progress h k cost J E}.

(** What holds throughout: [a] does not write and does not read, and there is room for
    [n] turns of [b]. *)
Record phase (n : nat) (a b : End) : Prop := {
  ph_live : live h k a b;
  ph_wa : e_wrote a = wa;
  ph_wb : J (e_wrote b) /\ Z.of_nat (length (e_wrote b) + n * cost) + 64 < 4294967296;
  ph_ra : e_read a = ra;
  ph_lost : (lost (e_conn b) (e_conn a) <= 8)%nat
}.

Lemma phase_bounded n a b : phase n a b -> bounded (e_wrote a) /\ bounded (e_wrote b).
Proof. intros [_ -> [_ Hb] _ _]. split; [done|]. unfold bounded. lia. Qed.

Lemma phase_dirs n a b : phase n a b ->
  dir_ok h (e_conn a) (e_conn b) (e_wrote a) (e_read b) (e_net a) (e_net b) /\
  dir_ok k (e_conn b) (e_conn a) (e_wrote b) (e_read a) (e_net b) (e_net a) /\
  conn_wf (e_conn a) /\ conn_wf (e_conn b).
Proof. intros [[[[? ?] _ ? ?] _ _ _] _ _ _ _]. done. Qed.

Lemma phase_still n (P : End -> End -> Prop) a b a' b' :
  phase n a b -> still a b a' b' -> E P a' b' -> E P a b.
Proof. intros Hp. destruct (phase_bounded _ _ _ Hp). apply pg_still; [apply Hp|done..]. Qed.

(** *** The program at [b] reads what it can *)

Lemma read_all n (Inv : Connection -> Prop) a b :
  (forall c, conn_wf c -> recvqueue_conn c <> 0 -> Inv c -> Inv (snd (read_packet_conn c))) ->
  (forall c data, Inv c -> Inv (write_packet_conn c data)) ->
  phase (S n) a b -> Inv (e_conn b) ->
  E (fun a' b' => a' = a /\ phase n a b' /\ recvqueue_conn (e_conn b') = 0 /\ Inv (e_conn b')) a b.
Proof.
  intros Hr Hw [Hl E1 [HJ Hn] E3 E4] Hi. eapply pg_trans.
  - apply (pg_turn (fun c => Inv c /\ (lost c (e_conn a) <= 8)%nat)); [| |exact Hl|by rewrite E1|lia|done|done].
    + intros c Wc Hq [H1 H2]. by split; [apply Hr|].
    + intros c data [H1 H2]. by split; [apply Hw|].
  - intros a' b' (-> & Hl' & Hq & [Hi' H8] & HJ' & Hlen). apply pg_now. split_and!; [done| |done|done].
    split; [done..|split; [done|lia]|done|done].
Qed.

(** *** [a] has the right to be heard *)

Lemma get_token n a b :
  phase n a b -> (lost (e_conn a) (e_conn b) <= 8)%nat ->
  E (fun a' b' => phase n a' b' /\ (lost (e_conn a') (e_conn b') <= 8)%nat /\ 1 <= ahead (e_conn a') (e_conn b')) a b.
Proof.
  intros Hp Hlb. destruct (Z.le_gt_cases 1 (ahead (e_conn a) (e_conn b))) as [Ha|Ha]; [by apply pg_now|].
  pose proof Hp as [Hl E1 E2 E3 E4]. destruct (phase_bounded _ _ _ Hp) as [Ba Bb]. destruct (phase_dirs _ _ _ Hp) as (Dab & _ & _ & Wb).
  destruct (can_sync _ _ _ _ _ _ _ Dab Ba Wb Hlb) as (req & c' & Hm & Hn & El & Hc & _).
  destruct (exchange k h b a req c') as (Hr & Hl' & Ha'); [by apply live_sym|done..| |done|done|].
  { pose proof (lv_tokens _ _ _ _ Hl) as Ht. unfold tokens in Ht. assert (0 <= ahead (e_conn a) (e_conn b)) by (unfold ahead; uarith). lia. }
  eapply (phase_still n); [exact Hp|split; [by apply rtc_swap|done..]|]. apply pg_now. split; [|split; [|done]].
  - constructor; [by apply live_sym|done..|]. simpl. unfold end_recv, sync_of. simpl.
    destruct (sync_taken_lost c' (e_conn a) (send_counter (e_conn b)) (recv_packetnum (e_conn b)) (sent_packetnum (e_conn b)) 0
      (map ntohl req ++ zeros (15 - length (map ntohl req))) (length (map ntohl req))) as [-> _].
    by rewrite (catch_up_sent _ _ _ Hc).
  - change (lost (e_conn a) c' <= 8)%nat. by rewrite El.
Qed.

(** *** [b] learns how far [a] has sent *)

Lemma tell_sent n a b :
  phase n a b -> (lost (e_conn a) (e_conn b) <= 8)%nat -> 1 <= ahead (e_conn a) (e_conn b) ->
  E (fun a' b' => phase n a' b' /\ (lost (e_conn a') (e_conn b') <= 8)%nat /\ 1 <= ahead (e_conn b') (e_conn a') /\
    osent_packetnum (e_conn b') = sent_packetnum (e_conn a') /\ recv_packetnum (e_conn b') = recv_packetnum (e_conn b) /\
    recvbuffer (e_conn b') = recvbuffer (e_conn b) /\ successful_read (e_conn b') = successful_read (e_conn b) /\
    sent_packetnum (e_conn a') = sent_packetnum (e_conn a) /\ sendbuff_packetnum (e_conn a') = sendbuff_packetnum (e_conn a)) a b.
Proof.
  intros Hp Hlb Ha. pose proof Hp as [Hl E1 E2 E3 E4]. destruct (phase_bounded _ _ _ Hp) as [Ba Bb].
  destruct (phase_dirs _ _ _ Hp) as (_ & Dba & Wa & _).
  destruct (can_sync _ _ _ _ _ _ _ Dba Bb Wa E4) as (req & c' & Hm & Hn & El & Hc & _).
  destruct (exchange h k a b req c') as (Hr & Hl' & Ha'); [done..|].
  eapply (phase_still n); [exact Hp|split; done|]. apply pg_now.
  assert (Ec : sent_packetnum c' = sent_packetnum (e_conn a) /\ sendbuff_packetnum c' = sendbuff_packetnum (e_conn a)) by by destruct Hc as [->| ->].
  destruct Ec as [Ec1 Ec2]. split_and!; [|by destruct Hc as [->| ->]|done|by symmetry|done..].
  constructor; [done..|]. change (lost (e_conn b) c' <= 8)%nat. by rewrite El.
Qed.

(** *** [b] asks for what it misses *)

Definition sending (n : nat) (a b : End) : Prop :=
  phase n a b /\ covered (e_conn a) (e_conn b) /\ room (e_conn a) (e_conn b) /\ 1 <= ahead (e_conn a) (e_conn b).

Lemma ask n a b :
  phase n a b -> (lost (e_conn a) (e_conn b) <= 8)%nat -> 1 <= ahead (e_conn b) (e_conn a) ->
  recvqueue_conn (e_conn b) = 0 -> osent_packetnum (e_conn b) = sent_packetnum (e_conn a) -> E (sending n) a b.
Proof.
  intros Hp Hlb Ha Hq Ho. pose proof Hp as [Hl E1 E2 E3 E4]. destruct (phase_bounded _ _ _ Hp) as [Ba Bb].
  destruct (phase_dirs _ _ _ Hp) as (Dab & _ & _ & Wb).
  destruct (dir_distances _ _ _ _ _ _ _ Dab Ba) as (_ & _ & _ & D1 & D2).
  destruct (can_sync _ _ _ _ _ _ _ Dab Ba Wb Hlb) as (req & c' & Hm & Hn & El & Hc & Hw). destruct (Hw Hq) as [Hreq _].
  destruct (exchange k h b a req c') as (Hr & Hl' & Ha'); [by apply live_sym|done..|].
  eapply (phase_still n); [exact Hp|split; [by apply rtc_swap|done..]|]. apply pg_now. split_and!; [| | |done].
  - constructor; [by apply live_sym|done..|]. change (lost c' (e_conn a) <= 8)%nat. by rewrite (catch_up_sent _ _ _ Hc).
  - intros j. change (0 <= j < u32 (sent_packetnum (e_conn a) - recv_packetnum c') ->
      filled (recvbuffer c') (recv_packetnum c' + j) \/ exists i, Z.of_nat i < Z.of_nat (length (map ntohl req)) /\
        (map ntohl req ++ zeros (15 - length (map ntohl req))) !! i = Some (u32 (recv_packetnum c' + j))).
    rewrite Hreq. destruct Hc as [->| ->]; intros Hj; cbn [recv_packetnum set_recv_packetnum] in Hj; [|uarith].
    rewrite <- Ho in Hj. destruct (missing_nums_covers (Z.to_nat (u32 (osent_packetnum (e_conn b) - recv_packetnum (e_conn b))))
      (recvbuffer (e_conn b)) (recv_packetnum (e_conn b)) j) as [Hf|Hf]; [apply Wb|lia|by left|right].
    apply list_elem_of_lookup in Hf as [i Hi]. exists i. pose proof (lookup_lt_Some _ _ _ Hi) as Hlt. fold (wanted (e_conn b)) in *.
    split; [lia|]. by rewrite lookup_app_l.
  - unfold room. change (u32 (sendbuff_packetnum (e_conn a) - successful_read c') <= 15).
    replace (successful_read c') with (successful_read (e_conn b)) by (by destruct Hc as [->| ->]). lia.
Qed.

(** *** [a] sends what was asked for, then what it has not sent yet *)

Definition to_send (c : Connection) : Z := num_req_paquets c + u32 (sendbuff_packetnum c - sent_packetnum c).

Lemma send_DATA_conn_moves c num :
  conn_wf c -> next_data c = Some num ->
  to_send (send_DATA_conn c) = to_send c - 1 /\ sendbuff_packetnum (send_DATA_conn c) = sendbuff_packetnum c /\
  (sent_packetnum (send_DATA_conn c) = sent_packetnum c \/
   (u32 (sendbuff_packetnum c - sent_packetnum c) <> 0 /\ sent_packetnum (send_DATA_conn c) = u32 (sent_packetnum c + 1))).
Proof.
  intros Hwf Hn. pose proof (wf_reqs _ Hwf) as [_ Hb]. pose proof (wf_sent_u32 _ Hwf). pose proof (wf_sendbuff_u32 _ Hwf).
  unfold next_data, send_DATA_conn, to_send in *. destruct (Z.ltb_spec 0 (num_req_paquets c)).
  - split_and!; [|done|by left]. simpl. uarith.
  - destruct (Z.eqb_spec (sendbuff_packetnum c) (sent_packetnum c)); [done|]. simpl. split_and!; [uarith|done|right; split; [uarith|done]].
Qed.

Lemma data_counters c num p now :
  send_counter (send_DATA_conn c) = send_counter c /\ recv_counter (send_DATA_conn c) = recv_counter c /\
  send_counter (recv_conn num p now c) = send_counter c /\ recv_counter (recv_conn num p now c) = recv_counter c.
Proof. unfold send_DATA_conn, recv_conn, advance_recv, store_recv. by repeat case_if. Qed.

Lemma send_one n a b num :
  sending n a b -> next_data (e_conn a) = Some num ->
  exists a' b', still a b a' b' /\ sending n a' b' /\ to_send (e_conn a') = to_send (e_conn a) - 1.
Proof.
  intros (Hp & Hcov & Hroom & Ha) Hn. pose proof Hp as [Hl E1 E2 E3 E4]. destruct (phase_bounded _ _ _ Hp) as [Ba Bb].
  destruct (phase_dirs _ _ _ Hp) as (Dab & _ & Wa & Wb). pose proof (lv_recent _ _ _ _ Hl) as [Ra Rb].
  set (p := slot_payload (sendbuffer (e_conn a)) num).
  set (a1 := end_send_DATA a num). set (b1 := end_recv b (PData num p)).
  destruct (send_DATA_conn_moves _ _ Wa Hn) as (M1 & M2 & M3).
  destruct (data_counters (e_conn a) num p 0) as (C1 & C2 & _ & _). destruct (data_counters (e_conn b) num p 0) as (_ & _ & C3 & C4).
  destruct (send_DATA_conn_fields (e_conn a)) as (_ & F2 & F3 & _ & F5).
  destruct (recv_conn_fields num p 0 (e_conn b)) as (F6 & _ & _ & F9 & _).
  assert (R1 : recent a1).
  { intros c rn sn q [Hin|Hin]%elem_of_cons; [done|]. simpl. rewrite C1. by eapply Ra. }
  assert (R2 : recent b1) by (intros c rn sn q Hin; simpl; rewrite C3; by eapply Rb).
  assert (Hs1 : end_step (e_net b) a a1) by by apply end_send_DATA_step.
  assert (Hs2 : end_step (e_net a1) b b1) by (apply end_recv_data_step; left).
  assert (L1 : live h k a1 b) by by eapply live_step.
  assert (L2 : live h k a1 b1) by (apply live_sym; eapply live_step; [by apply live_sym|done..]).
  pose proof (si_ab _ _ _ _ (lv_inv _ _ _ _ L1)) as D1. pose proof (si_ab _ _ _ _ (lv_inv _ _ _ _ L2)) as D2.
  exists a1, b1. split; [|split; [unfold sending; split_and!|done]].
  - split; [|done..]. eapply rtc_l; [by apply step_left|]. apply rtc_once. by apply step_right.
  - constructor; [done..|]. unfold lost, window, recvqueue_conn in *. simpl. by rewrite F9, F2, F3, F5.
  - destruct (dir_data_len _ _ _ _ _ _ _ num p D1) as [Hp0 _]; [left|].
    apply covered_next; [done..| | |].
    + destruct (dir_distances _ _ _ _ _ _ _ D1 Ba) as (_ & _ & D3 & _ & D5). simpl in D3, D5. unfold room in Hroom.
      rewrite M2 in *. pose proof (u32_range (sendbuff_packetnum (e_conn a) - sent_packetnum (send_DATA_conn (e_conn a)))). uarith || lia.
    + destruct (dir_distances _ _ _ _ _ _ _ D2 Ba) as (_ & _ & D3 & D4 & _). simpl in D3, D4.
      pose proof (u32_range (sendbuff_packetnum (send_DATA_conn (e_conn a)) - sent_packetnum (send_DATA_conn (e_conn a)))) as Hu. unfold is_u32 in Hu. lia.
    + destruct (dir_distances _ _ _ _ _ _ _ Dab Ba) as (_ & _ & D3 & D4 & _). destruct M3 as [->|[M3 ->]]; uarith.
  - unfold room. simpl. rewrite M2. destruct (recv_conn_fills num p 0 (e_conn b) Wb) as (m & _ & _ & -> & _); [|done].
    by destruct (dir_data_len _ _ _ _ _ _ _ num p D1) as [Hp0 _]; [left|].
  - unfold ahead. simpl. by rewrite C1, C4.
Qed.

Lemma send_all k0 a b :
  sending k0 a b -> E (fun a' b' => sending k0 a' b' /\ to_send (e_conn a') = 0) a b.
Proof.
  remember (Z.to_nat (to_send (e_conn a))) as n eqn:En. revert a b En. induction n as [|n IH]; intros a b En Hs.
  - apply pg_now. split; [done|]. destruct Hs as (Hp & _). destruct (phase_dirs _ _ _ Hp) as (_ & _ & Wa & _).
    pose proof (wf_reqs _ Wa) as [_ ?]. unfold to_send in *. uarith.
  - destruct (next_data (e_conn a)) as [num|] eqn:Hn.
    + destruct (send_one k0 a b num Hs Hn) as (a' & b' & Hr & Hs' & Hm). eapply phase_still; [apply Hs|done|]. apply IH; [lia|done].
    + apply pg_now. split; [done|]. destruct Hs as (Hp & _). destruct (phase_dirs _ _ _ Hp) as (_ & _ & Wa & _).
      pose proof (wf_reqs _ Wa) as [_ ?]. unfold next_data, to_send in *. destruct (Z.ltb_spec 0 (num_req_paquets (e_conn a))); [done|].
      destruct (Z.eqb_spec (sendbuff_packetnum (e_conn a)) (sent_packetnum (e_conn a))) as [Eq|Eq]; [|done]. rewrite Eq. uarith.
Qed.

Lemma sent_all n a b :
  sending n a b -> to_send (e_conn a) = 0 ->
  sent_packetnum (e_conn a) = sendbuff_packetnum (e_conn a) /\
  arrived (u32 (sent_packetnum (e_conn a) - recv_packetnum (e_conn b))) (e_conn b).
Proof.
  intros (Hp & Hcov & Hroom & _) Hz. destruct (phase_dirs _ _ _ Hp) as (Dab & _ & Wa & _). destruct (phase_bounded _ _ _ Hp) as [Ba _].
  destruct (dir_distances _ _ _ _ _ _ _ Dab Ba) as (_ & _ & D3 & _ & D5). pose proof (wf_reqs _ Wa) as [_ Hr].
  pose proof (wf_sent_u32 _ Wa). pose proof (wf_sendbuff_u32 _ Wa).
  unfold to_send, room in *. pose proof (u32_range (sendbuff_packetnum (e_conn a) - sent_packetnum (e_conn a))) as Hu. unfold is_u32 in Hu.
  split; [uarith|]. split; [lia|]. intros j Hj. destruct (Hcov j Hj) as [Hf|(i & Hi & _)]; [done|lia].
Qed.

(** *** [b] passes on what has arrived *)

Definition complete (n : nat) (a b : End) : Prop :=
  phase n a b /\ e_read b = wa /\ (lost (e_conn a) (e_conn b) <= 8)%nat.

Lemma read_to_the_end n a b :
  phase n a b -> recvqueue_conn (e_conn b) = 0 -> recv_packetnum (e_conn b) = sendbuff_packetnum (e_conn a) ->
  sent_packetnum (e_conn a) = sendbuff_packetnum (e_conn a) -> complete n a b.
Proof.
  intros Hp Hq Hv Hs. split_and!; [done| |].
  - destruct (phase_dirs _ _ _ Hp) as ((a1 & s & r & v & o & H) & _). destruct (phase_bounded _ _ _ Hp) as [Ba _]. unfold bounded in Ba.
    destruct H as [Hord (Hl & _) (Hr & Hv' & _) _ _ _ _ Hdel _ _ _]. unfold recvqueue_conn in Hq.
    rewrite Hl, Hv' in Hv. rewrite Hr, Hv' in Hq. rewrite Hdel, <- (ph_wa _ _ _ Hp).
    rewrite take_ge; [done|]. uarith.
  - unfold lost. rewrite Hs, Hv, Z.sub_diag. change (Z.to_nat (u32 0)) with 0%nat. simpl. lia.
Qed.

Lemma pass_on n a b :
  phase (S n) a b -> recvqueue_conn (e_conn b) = 0 -> osent_packetnum (e_conn b) = sendbuff_packetnum (e_conn a) ->
  sent_packetnum (e_conn a) = sendbuff_packetnum (e_conn a) ->
  arrived (u32 (osent_packetnum (e_conn b) - recv_packetnum (e_conn b))) (e_conn b) -> E (complete n) a b.
Proof.
  intros Hp Hq Ho Hs [_ Hf]. pose proof Hp as [Hl E1 E2 E3 E4]. destruct (phase_bounded _ _ _ Hp) as [Ba Bb].
  pose proof (lv_recent _ _ _ _ Hl) as [Ra Rb].
  set (b1 := end_send_SYNC b [] (set_recv_packetnum (osent_packetnum (e_conn b)) (e_conn b))).
  assert (Hs1 : end_step (e_net a) b b1).
  { apply end_send_SYNC_step, missing_none; [lia|]. apply missing_nums_none. intros j Hj. apply Hf. lia. }
  assert (R1 : recent b1).
  { intros c rn sn q [Hin|Hin]%elem_of_cons; [|by eapply Rb]. injection Hin as -> _ _ _. simpl. uarith. }
  assert (Hp1 : phase (S n) a b1).
  { constructor; [|done..]. apply live_sym. eapply live_step; [by apply live_sym|done..]. }
  eapply phase_still; [exact Hp|split; [apply rtc_once, (step_right _ _ _ Hs1); done|done..]|].
  eapply pg_trans; [apply (read_all n (fun c => recv_packetnum c = sendbuff_packetnum (e_conn a))); [done|done|done|exact Ho]|].
  intros a' b' (-> & Hp' & Hq' & Hv'). by apply pg_now, read_to_the_end.
Qed.

(** *** The whole recovery *)

Lemma recover_one n a b :
  phase (S (S (S n))) a b -> (lost (e_conn a) (e_conn b) <= 8)%nat -> E (complete n) a b.
Proof.
  intros Hp Hl. eapply pg_trans; [by apply get_token|]. clear a b Hp Hl. intros a b (Hp & Hl & Ha).
  eapply pg_trans; [by apply tell_sent|]. intros a' b' (Hp' & Hl' & Ha' & Ho' & _).
  clear a b Hp Hl Ha. rename a' into a, b' into b.
  eapply pg_trans.
  { apply (read_all (S (S n)) (fun c => (lost (e_conn a) c <= 8)%nat /\ osent_packetnum c = sent_packetnum (e_conn a) /\
      1 <= ahead c (e_conn a))); [|by intros c data (?&?&?)|exact Hp'|done].
    intros c Wc Hq (H1 & H2 & H3). split_and!; [by rewrite lost_read|done..]. }
  clear b Hp' Hl' Ha' Ho'. intros ? b (-> & Hp & Hq & Hl & Ho & Ha).
  eapply pg_trans; [by apply ask|]. clear a b Hp Hq Hl Ho Ha. intros a b Hs.
  eapply pg_trans; [by apply send_all|]. clear a b Hs. intros a b [Hs Hz].
  destruct (sent_all _ _ _ Hs Hz) as [Es Harr]. destruct Hs as (Hp & _ & _ & Ha).
  eapply pg_trans; [apply tell_sent; [done|by rewrite arrived_lost; [lia|]|done]|].
  intros a1 b1 (Hp1 & _ & _ & Ho & F1 & F2 & F3 & F4 & F5). 
  assert (Harr1 : arrived (u32 (osent_packetnum (e_conn b1) - recv_packetnum (e_conn b1))) (e_conn b1)).
  { rewrite Ho, F1, F4. unfold arrived, recvqueue_conn in *. by rewrite F1, F2, F3. }
  eapply pg_trans.
  { apply (read_all (S n) (fun c => osent_packetnum c = sendbuff_packetnum (e_conn a1) /\
      arrived (u32 (osent_packetnum c - recv_packetnum c)) c)); [|by intros c data [? ?]|done|split; [congruence|done]].
    intros c Wc Hq [H1 H2]. split; [done|]. by apply arrived_read. }
  intros ? b2 (-> & Hp2 & Hq2 & Ho2 & Harr2). apply pass_on; [done..|congruence|done].
Qed.
End recovery.

(** ** Both ends *)

(** The program that only reads. *)
Definition eventually (P : End -> End -> Prop) (a b : End) : Prop :=
  exists a' b', rtc timely_step (a, b) (a', b') /\ P a' b'.

Lemma eventually_rtc (P : End -> End -> Prop) a b a' b' :
  rtc timely_step (a, b) (a', b') -> eventually P a' b' -> eventually P a b.
Proof. intros H (x & y & Hr & HP). exists x, y. split; [by etrans|done]. Qed.

Lemma eventually_turn h k (Inv : Connection -> Prop) a b :
  (forall c, conn_wf c -> recvqueue_conn c <> 0 -> Inv c -> Inv (snd (read_packet_conn c))) ->
  live h k a b -> bounded (e_wrote a) -> bounded (e_wrote b) -> Inv (e_conn b) ->
  eventually (fun a' b' => a' = a /\ live h k a b' /\ recvqueue_conn (e_conn b') = 0 /\ Inv (e_conn b') /\
    e_wrote b' = e_wrote b) a b.
Proof.
  intros Hstep Hl Ba. revert Hl. remember (Z.to_nat (recvqueue_conn (e_conn b))) as n eqn:En. revert b En.
  induction n as [|n IH]; intros b En Hl Bb Hi; pose proof Hl as [[[_ Wb] _ _ _] _ [Ra Rb] _].
  { exists a, b. assert (0 <= recvqueue_conn (e_conn b)) by (unfold recvqueue_conn; uarith). split_and!; [apply rtc_refl|done|done|lia|done|done]. }
  assert (Hq : recvqueue_conn (e_conn b) <> 0) by (intros Eq; rewrite Eq in En; done).
  pose proof (wf_read_u32 _ Wb). pose proof (wf_recv_u32 _ Wb). pose proof (wf_window _ Wb).
  assert (Hs : end_step (e_net a) b (end_read b)) by by apply end_read_step.
  assert (Rb' : recent (end_read b)) by exact Rb.
  eapply eventually_rtc; [apply rtc_once, (step_right _ _ _ Hs); done|]. apply (IH (end_read b)).
  - simpl. unfold recvqueue_conn in *. simpl. uarith.
  - apply live_sym. eapply live_step; [by apply live_sym|done..].
  - done.
  - by apply Hstep.
Qed.

#[export] Instance eventually_progress h k wb : bounded wb -> Progress h k 0 (fun l => l = wb) eventually.
Proof.
  intros Hwb. split.
  - intros P a b HP. exists a, b. split; [apply rtc_refl|done].
  - intros P Q a b (x & y & Hr & HP) HQ. eapply eventually_rtc; [done|by apply HQ].
  - intros P a b a' b' _ _ _ [Hr _ _]. by apply eventually_rtc.
  - intros Inv a b Hr _ Hl Ba _ HJ Hi.
    destruct (eventually_turn h k Inv a b Hr Hl Ba) as (a' & b' & Hs & -> & Hl' & Hq & Hi' & Ew); [by rewrite HJ|done|].
    exists a, b'. split_and!; try done; [by rewrite Ew|by rewrite Ew; lia].
Qed.

Lemma recover_both h k c1 c2 a b :
  established h k c1 -> established k h c2 -> tokens c1 c2 ->
  is_u8 (send_counter c1) -> is_u8 (send_counter c2) ->
  rtc timely_step (fresh_end c1, fresh_end c2) (a, b) -> bounded (e_wrote a) -> bounded (e_wrote b) ->
  (lost (e_conn a) (e_conn b) <= 8)%nat -> (lost (e_conn b) (e_conn a) <= 8)%nat ->
  exists a' b', rtc timely_step (with_net a [], with_net b []) (a', b') /\
    e_wrote a' = e_wrote a /\ e_wrote b' = e_wrote b /\
    e_read b' = e_wrote a /\ e_read a' = e_wrote b.
Proof.
  intros He1 He2 Ht Hu1 Hu2 Hs Ba Bb Hab Hba.
  pose proof (live_all h k (fresh_end c1, fresh_end c2) (a, b) (live_fresh h k c1 c2 He1 He2 Ht Hu1 Hu2) Hs Ba Bb) as Hl. cbn [fst snd] in Hl.
  assert (Hp : phase h k (e_wrote a) (e_read a) 0 (fun l => l = e_wrote b) 3 (with_net a []) (with_net b [])).
  { constructor; [apply live_lose; [done|set_solver..]|done|split; [done|unfold bounded in Bb; simpl; lia]|done..]. }
  pose proof (eventually_progress h k _ Bb) as P1. pose proof (eventually_progress k h _ Ba) as P2.
  destruct (recover_one h k _ _ Ba _ _ eventually 0 _ _ Hp Hab) as (a1 & b1 & Hr1 & [Hl1 W1 [W2 _] W3 Hb1] & E1 & Ha1).
  assert (Hp1 : phase k h (e_wrote b) (e_wrote a) 0 (fun l => l = e_wrote a) 3 b1 a1).
  { constructor; [by apply live_sym|done|split; [done|rewrite W1; unfold bounded in Ba; simpl; lia]|done..]. }
  destruct (recover_one k h _ _ Bb _ _ eventually 0 _ _ Hp1 Hb1) as (b2 & a2 & Hr2 & [_ V1 [V2 _] V3 _] & E2 & _).
  exists a2, b2. split_and!; [|done..]. etrans; [exact Hr1|by apply rtc_swap].
Qed.

(** C7: whatever the network has lost, nothing is lost for good.  Two connections have
    been established with each other and each has heard of the other (as [handshake_agreement]
    shows); the network has lost, repeated, delayed and reordered packets, only it did not
    hold a SYNC packet back for 247 others.  In any state that is reached, even if
    everything under way is lost, the two ends can go on, writing nothing more, until each
    has read everything that was written at the other: the SYNC packets get through, what
    is missing is asked for and sent again, and what has arrived is passed on.  (At most
    eight packets are missing in each direction: [handle_SYNC3] cannot take requests for
    more, [SYNC_requests_overflow].) *)
Theorem link_recovers h k c1 c2 a b :
  established h k c1 -> established k h c2 -> tokens c1 c2 ->
  is_u8 (send_counter c1) -> is_u8 (send_counter c2) ->
  rtc timely_step (fresh_end c1, fresh_end c2) (a, b) -> bounded (e_wrote a) -> bounded (e_wrote b) ->
  (lost (e_conn a) (e_conn b) <= 8)%nat -> (lost (e_conn b) (e_conn a) <= 8)%nat ->
  exists a' b', rtc timely_step (with_net a [], with_net b []) (a', b') /\
    e_wrote a' = e_wrote a /\ e_wrote b' = e_wrote b /\
    e_read b' = e_wrote a /\ e_read a' = e_wrote b.
Proof. apply recover_both. Qed.

(** A packet is written and sent, and lost. *)
Definition demo_lost : End := with_net demo_A2 [].

Lemma link_recovers_witness :
  lost (e_conn demo_lost) (e_conn demo_B0) = 1%nat /\
  exists a' b', rtc timely_step (demo_lost, demo_B0) (a', b') /\
    e_wrote a' = [[1; 2; 3]] /\ e_wrote b' = [] /\ e_read b' = [[1; 2; 3]] /\ e_read a' = [].
Proof.
  split; [by vm_compute|].
  apply (link_recovers 100 200 (demo_conn demo_peer 100 200) (demo_conn demo_peer 200 100) demo_lost demo_B0).
  - apply demo_established; unfold is_u32; lia.
  - apply demo_established; unfold is_u32; lia.
  - unfold tokens. by vm_compute.
  - by unfold is_u8; simpl.
  - by unfold is_u8; simpl.
  - assert (R : forall e, e_net e = [] \/ (exists num p, e_net e = [PData num p]) -> recent e).
    { intros e [E|(num & p & E)] c rn sn q; rewrite E; [by intros ?%not_elem_of_nil|by intros ?%list_elem_of_singleton]. }
    eapply rtc_l; [apply (step_left demo_A0 demo_B0 demo_A1); [apply end_write_step; [simpl; lia|by vm_compute]|apply R; by left..]|].
    eapply rtc_l; [apply (step_left demo_A1 demo_B0 demo_A2); [apply end_send_DATA_step; by vm_compute|apply R; right; by eexists _, _|apply R; by left]|].
    apply rtc_once. apply (timely_lose demo_A2 demo_B0 [] []); set_solver.
  - unfold bounded. simpl. lia.
  - unfold bounded. simpl. lia.
  - apply Nat.leb_le. by vm_compute.
  - apply Nat.leb_le. by vm_compute.
Defined.
