(* ===== verification/Crypto.v ===== *)
(** * net_crypto.c: encryption, nonces and request packets

    The cipher itself is the NaCl library, which is not part of the program: the
    class [CryptoBox] stands for its functions and [CryptoBoxLaws] for what its
    documentation promises.  The definitions are what net_crypto.c builds on it. *)

From S2P Require Import Prelude MiscTools Network LosslessUDP.
Local Open Scope Z_scope.
Local Open Scope tox_scope.

Arguments zeros : simpl never.
Arguments le_bytes : simpl never.

Definition crypto_box_PUBLICKEYBYTES : nat := 32.
Definition crypto_box_SECRETKEYBYTES : nat := 32.
Definition crypto_box_BEFORENMBYTES : nat := 32.
Definition crypto_box_NONCEBYTES : nat := 24.
Definition crypto_box_ZEROBYTES : nat := 32.
Definition crypto_box_BOXZEROBYTES : nat := 16.
Definition crypto_box_MACBYTES : nat := 16.
Definition ENCRYPTION_PADDING : nat := crypto_box_ZEROBYTES - crypto_box_BOXZEROBYTES.

(** The functions of NaCl's crypto_box; [crypto_box_keypair] is given the entropy it
    draws. *)
Class CryptoBox := {
  crypto_box_keypair : Z -> list Z * list Z;
  crypto_box_beforenm : list Z -> list Z -> list Z;
  crypto_box_afternm : list Z -> list Z -> list Z -> list Z;
  crypto_box_open_afternm : list Z -> list Z -> list Z -> option (list Z)
}.

(** What the documentation of NaCl says of them. *)
Class CryptoBoxLaws `{CryptoBox} := {
  keypair_length seed : length (fst (crypto_box_keypair seed)) = crypto_box_PUBLICKEYBYTES /\
                        length (snd (crypto_box_keypair seed)) = crypto_box_SECRETKEYBYTES;
  beforenm_agree a b :
    crypto_box_beforenm (fst (crypto_box_keypair a)) (snd (crypto_box_keypair b)) =
    crypto_box_beforenm (fst (crypto_box_keypair b)) (snd (crypto_box_keypair a));
  (** The first 16 bytes of a box are zero when the first 32 of the message are. *)
  afternm_padded m n k :
    take crypto_box_ZEROBYTES m = zeros crypto_box_ZEROBYTES ->
    length (crypto_box_afternm m n k) = length m /\
    take crypto_box_BOXZEROBYTES (crypto_box_afternm m n k) = zeros crypto_box_BOXZEROBYTES;
  open_afternm m n k :
    take crypto_box_ZEROBYTES m = zeros crypto_box_ZEROBYTES ->
    crypto_box_open_afternm (crypto_box_afternm m n k) n k = Some m;
  open_length c n k m : crypto_box_open_afternm c n k = Some m -> length m = length c
}.

(** ** Encryption *)

Definition crypto_iszero (mem : list Z) (length : nat) : Z :=
  fold_left Z.lor (take length mem) 0.

Section crypto.
Context `{CryptoBox}.

Definition encrypt_precompute (public_key secret_key : list Z) : list Z :=
  crypto_box_beforenm public_key secret_key.

(** [None] is the result -1; else the bytes written to [encrypted], whose number is
    the result. *)
Definition encrypt_data_fast (enc_key nonce plain : list Z) : option (list Z) :=
  let length := Z.of_nat (length plain) in
  if (MAX_DATA_SIZE <? length + Z.of_nat crypto_box_MACBYTES) || (length =? 0) then None
  else
    let temp_plain := zeros crypto_box_ZEROBYTES ++ plain in
    let temp_encrypted := crypto_box_afternm temp_plain nonce enc_key in
    if negb (crypto_iszero temp_encrypted crypto_box_BOXZEROBYTES =? 0) then None
    else Some (bytes_at crypto_box_BOXZEROBYTES (List.length plain + crypto_box_MACBYTES) temp_encrypted).

Definition decrypt_data_fast (enc_key nonce encrypted : list Z) : option (list Z) :=
  let length := Z.of_nat (length encrypted) in
  if (MAX_DATA_SIZE <? length) || (length <=? Z.of_nat crypto_box_BOXZEROBYTES) then None
  else
    let temp_encrypted := zeros crypto_box_BOXZEROBYTES ++ encrypted in
    match crypto_box_open_afternm temp_encrypted nonce enc_key with
    | None => None
    | Some temp_plain =>
      if negb (crypto_iszero temp_plain crypto_box_ZEROBYTES =? 0) then None
      else Some (bytes_at crypto_box_ZEROBYTES (List.length encrypted - crypto_box_MACBYTES) temp_plain)
    end.

Definition encrypt_data (public_key secret_key nonce plain : list Z) : option (list Z) :=
  encrypt_data_fast (encrypt_precompute public_key secret_key) nonce plain.

Definition decrypt_data (public_key secret_key nonce encrypted : list Z) : option (list Z) :=
  decrypt_data_fast (encrypt_precompute public_key secret_key) nonce encrypted.

(** ** Nonces *)

(** Bytes from the least significant one; the loop stops at the first that does
    not wrap around. *)
Fixpoint increment_nonce (nonce : list Z) : list Z :=
  match nonce with
  | [] => []
  | b :: r => if negb (u8 (b + 1) =? 0) then u8 (b + 1) :: r else u8 (b + 1) :: increment_nonce r
  end.

Fixpoint random_words {S} (n : nat) : M S (list Z) :=
  match n with
  | O => retM []
  | Datatypes.S k => temp <- random_int ;; r <- random_words k ;; retM (le_bytes 4 temp ++ r)
  end.

Definition random_nonce {S} : M S (list Z) := random_words (crypto_box_NONCEBYTES / 4).

(** ** Requests *)

Definition request_header : nat := 1 + crypto_box_PUBLICKEYBYTES * 2 + crypto_box_NONCEBYTES.

(** [packet] has [MAX_DATA_SIZE] bytes, as [temp] has. *)
Definition create_request {S} (send_public_key send_secret_key recv_public_key data : list Z)
    (request_id : Z) : M S (option (list Z)) :=
  if MAX_DATA_SIZE <? Z.of_nat (length data + 1 + crypto_box_PUBLICKEYBYTES * 2
                                + crypto_box_NONCEBYTES + 1 + ENCRYPTION_PADDING)
  then retM None
  else
    let temp := request_id :: data in
    room MAX_DATA_SIZE temp ;;;
    nonce <- random_nonce ;;
    match encrypt_data recv_public_key send_secret_key nonce temp with
    | None => retM None
    | Some enc =>
      room (MAX_DATA_SIZE - Z.of_nat request_header) enc ;;;
      retM (Some ([NET_PACKET_CRYPTO] ++ recv_public_key ++ send_public_key ++ nonce ++ enc))
    end.

(** The sender's key, the request id and the data. *)
Definition handle_request (self_public_key self_secret_key packet : list Z)
  : option (list Z * Z * list Z) :=
  if (request_header + ENCRYPTION_PADDING <? length packet)%nat
     && (Z.of_nat (length packet) <=? MAX_DATA_SIZE + Z.of_nat ENCRYPTION_PADDING)
     && memcmp_eq crypto_box_PUBLICKEYBYTES (drop 1 packet) self_public_key
  then
    let public_key := bytes_at (1 + crypto_box_PUBLICKEYBYTES) crypto_box_PUBLICKEYBYTES packet in
    let nonce := bytes_at (1 + crypto_box_PUBLICKEYBYTES * 2) crypto_box_NONCEBYTES packet in
    match decrypt_data public_key self_secret_key nonce (drop request_header packet) with
    | Some (id :: data) => Some (public_key, id, data)
    | _ => None
    end
  else None.

(** ** Crypto handshakes *)

(** The packet [send_cryptohandshake] queues. *)
Definition cryptohandshake_packet (self_public_key self_secret_key nonce public_key secret_nonce
    session_key : list Z) : option (list Z) :=
  let temp := take crypto_box_NONCEBYTES secret_nonce ++ take crypto_box_PUBLICKEYBYTES session_key in
  match encrypt_data public_key self_secret_key nonce temp with
  | None => None
  | Some enc => Some ([2] ++ self_public_key ++ nonce ++ enc)
  end.

(** The peer's key, its nonce and its session key. *)
Definition handle_cryptohandshake (self_secret_key data : list Z)
  : option (list Z * list Z * list Z) :=
  let pad := ENCRYPTION_PADDING in
  if negb (length data =? 1 + crypto_box_PUBLICKEYBYTES + crypto_box_NONCEBYTES
                          + crypto_box_NONCEBYTES + crypto_box_PUBLICKEYBYTES + pad)%nat then None
  else if negb (nth 0 data 0 =? 2) then None
  else
    let public_key := bytes_at 1 crypto_box_PUBLICKEYBYTES data in
    match decrypt_data public_key self_secret_key
            (bytes_at (1 + crypto_box_PUBLICKEYBYTES) crypto_box_NONCEBYTES data)
            (bytes_at (1 + crypto_box_PUBLICKEYBYTES + crypto_box_NONCEBYTES)
               (crypto_box_NONCEBYTES + crypto_box_PUBLICKEYBYTES + pad) data) with
    | None => None
    | Some temp =>
      if negb (length temp =? crypto_box_NONCEBYTES + crypto_box_PUBLICKEYBYTES)%nat then None
      else Some (public_key, take crypto_box_NONCEBYTES temp, drop crypto_box_NONCEBYTES temp)
    end.
End crypto.

(** ** Lemmas *)

(** The sizes of the cipher, as numbers. *)
Ltac csize := unfold request_header, ENCRYPTION_PADDING, crypto_box_PUBLICKEYBYTES,
  crypto_box_SECRETKEYBYTES, crypto_box_BEFORENMBYTES, crypto_box_NONCEBYTES, crypto_box_ZEROBYTES,
  crypto_box_BOXZEROBYTES, crypto_box_MACBYTES, MAX_DATA_SIZE in *.

Lemma length_increment_nonce n : length (increment_nonce n) = length n.
Proof. induction n as [|b r IH]; simpl; [done|]. case_if; simpl; congruence. Qed.

Lemma increment_nonce_ok n : bytes_ok n -> bytes_ok (increment_nonce n).
Proof.
  induction 1 as [|b r Hb Hr IH]; simpl; [constructor|].
  case_if; constructor; auto using u8_range.
Qed.

(** The nonce is a little-endian counter. *)
Lemma increment_nonce_val n :
  bytes_ok n -> le_val (increment_nonce n) = (le_val n + 1) mod 256 ^ Z.of_nat (length n).
Proof.
  induction 1 as [|b r Hb Hr IH]; [by rewrite Z.mod_1_r|].
  pose proof (le_val_range _ Hr) as Hv. unfold is_u8 in Hb.
  cbn [increment_nonce length le_val]. rewrite Nat2Z.inj_succ, Z.pow_succ_r by lia.
  set (m := 256 ^ Z.of_nat (length r)) in *.
  destruct (Z.eqb_spec (u8 (b + 1)) 0) as [E|E]; cbn [negb le_val].
  - assert (b = 255) as -> by uarith. rewrite IH. fold m. change (u8 (255 + 1)) with 0.
    replace (255 + 256 * le_val r + 1) with (256 * (le_val r + 1)) by lia.
    rewrite Z.mul_mod_distr_l by lia. lia.
  - assert (u8 (b + 1) = b + 1) as -> by uarith. symmetry. rewrite Z.mod_small; [lia|].
    assert (b <> 255) by (intros ->; by apply E). lia.
Qed.

(** What is written by encryption and decryption, for any cipher. *)
Section crypto_sizes.
Context `{CryptoBox}.

Lemma encrypt_data_le pk sk n plain enc :
  encrypt_data pk sk n plain = Some enc -> (length enc <= length plain + 16)%nat.
Proof.
  unfold encrypt_data, encrypt_data_fast. case_if; [done|]. case_if; [done|]. intros [= <-].
  unfold bytes_at. rewrite length_take. csize. lia.
Qed.

Lemma decrypt_data_le pk sk n enc plain :
  decrypt_data pk sk n enc = Some plain -> (length plain <= length enc - 16)%nat.
Proof.
  unfold decrypt_data, decrypt_data_fast. case_if; [done|].
  destruct (crypto_box_open_afternm _ _ _); [|done]. case_if; [done|]. intros [= <-].
  unfold bytes_at. rewrite length_take. csize. lia.
Qed.
End crypto_sizes.

Section crypto_lemmas.
Context `{CryptoBoxLaws}.

Lemma iszero_zeros n l : take n l = zeros n -> crypto_iszero l n = 0.
Proof.
  intros E. unfold crypto_iszero. rewrite E. unfold zeros. clear E.
  induction n as [|n IH]; simpl; auto.
Qed.

Lemma zeros_pad n (l : list Z) : take n (zeros n ++ l) = zeros n.
Proof. rewrite take_app_le by (rewrite length_zeros; lia). apply take_ge. rewrite length_zeros. lia. Qed.

Lemma encrypt_data_fast_bounds k n plain enc :
  encrypt_data_fast k n plain = Some enc ->
  (0 < length plain)%nat /\ (length plain + 16 <= 1024)%nat /\
  length enc = (length plain + 16)%nat.
Proof.
  unfold encrypt_data_fast, MAX_DATA_SIZE, crypto_box_MACBYTES. case_if; [done|].
  case_if; [done|]. intros E. apply (inj Some) in E as <-. destruct (afternm_padded (zeros crypto_box_ZEROBYTES ++ plain) n k) as [Hl _].
  { apply zeros_pad. }
  split_and!; [lia..|]. apply length_bytes_at.
  rewrite Hl, length_app, length_zeros. unfold crypto_box_BOXZEROBYTES, crypto_box_ZEROBYTES. lia.
Qed.

Lemma encrypt_data_fast_total k n plain :
  (0 < length plain)%nat -> (length plain + 16 <= 1024)%nat ->
  exists enc, encrypt_data_fast k n plain = Some enc.
Proof.
  intros H1 H2. unfold encrypt_data_fast, MAX_DATA_SIZE, crypto_box_MACBYTES.
  destruct (Z.ltb_spec 1024 (Z.of_nat (length plain) + Z.of_nat 16)); [lia|].
  destruct (Z.eqb_spec (Z.of_nat (length plain)) 0); [lia|]. simpl orb. cbn iota.
  rewrite iszero_zeros; [by eexists|]. apply afternm_padded, zeros_pad.
Qed.

Lemma decrypt_encrypt_fast k n plain enc :
  encrypt_data_fast k n plain = Some enc -> decrypt_data_fast k n enc = Some plain.
Proof.
  intros He. destruct (encrypt_data_fast_bounds _ _ _ _ He) as (H1 & H2 & H3).
  unfold encrypt_data_fast in He. case_in He; [done|]. case_in He; [done|]. apply (inj Some) in He.
  set (m := zeros crypto_box_ZEROBYTES ++ plain) in *.
  assert (Hm : take crypto_box_ZEROBYTES m = zeros crypto_box_ZEROBYTES) by apply zeros_pad.
  destruct (afternm_padded m n k Hm) as [Hl Hz].
  assert (Hlm : length m = (32 + length plain)%nat) by (subst m; by rewrite length_app, length_zeros).
  assert (Hc : zeros crypto_box_BOXZEROBYTES ++ enc = crypto_box_afternm m n k).
  { rewrite <- Hz, <- He. unfold bytes_at. rewrite take_ge with (n := (length plain + crypto_box_MACBYTES)%nat).
    - apply take_drop.
    - rewrite length_drop, Hl, Hlm. unfold crypto_box_BOXZEROBYTES, crypto_box_MACBYTES. lia. }
  unfold decrypt_data_fast, MAX_DATA_SIZE, crypto_box_BOXZEROBYTES in *. rewrite H3.
  destruct (Z.ltb_spec 1024 (Z.of_nat (length plain + 16))); [lia|].
  destruct (Z.leb_spec (Z.of_nat (length plain + 16)) (Z.of_nat 16)); [lia|]. simpl orb. cbn iota.
  rewrite Hc, open_afternm by done. rewrite iszero_zeros by done. cbn [negb Z.eqb].
  f_equal. unfold bytes_at, m, crypto_box_MACBYTES.
  rewrite drop_app_length' by (by rewrite length_zeros). apply take_ge. lia.
Qed.

Lemma decrypt_data_fast_bounds k n enc plain :
  decrypt_data_fast k n enc = Some plain ->
  (16 < length enc <= 1024)%nat /\ length plain = (length enc - 16)%nat.
Proof.
  unfold decrypt_data_fast, MAX_DATA_SIZE, crypto_box_BOXZEROBYTES. case_if; [done|].
  destruct (crypto_box_open_afternm _ _ _) as [m|] eqn:E; [|done].
  apply open_length in E. rewrite length_app, length_zeros in E.
  case_if; [done|]. intros Ep. apply (inj Some) in Ep as <-. split; [lia|]. rewrite length_bytes_at; [done|].
  rewrite E. unfold crypto_box_ZEROBYTES, crypto_box_MACBYTES. lia.
Qed.

Lemma wp_random_words {S} n (Q : list Z -> S -> World -> Prop) s w :
  (forall x w', length x = (4 * n)%nat -> bytes_ok x -> Q x s w') -> wp (random_words n) Q s w.
Proof.
  revert Q w. induction n as [|n IH]; intros Q w HQ; cbn [random_words].
  { wp_step. apply HQ; [done|constructor]. }
  do 3 wp_step. apply IH. intros r w1 Hr Hok. wp_step. apply HQ.
  - rewrite length_app, length_le_bytes. lia.
  - apply Forall_app. split; [apply le_bytes_ok|done].
Qed.

Lemma wp_random_nonce {S} (Q : list Z -> S -> World -> Prop) s w :
  (forall x w', length x = 24%nat -> bytes_ok x -> Q x s w') -> wp random_nonce Q s w.
Proof. intros HQ. unfold random_nonce. by apply (wp_random_words 6). Qed.
End crypto_lemmas.
