(* ===== verification/NetCrypto.v ===== *)
(** * net_crypto.c: encrypted connections

    The state is [Net_Crypto], which holds the [Lossless_UDP] instance it runs on;
    one definition per function.  [cryptopacket_handle], which routes requests
    through the DHT, is in [DHT]. *)

From S2P Require Import Prelude MiscTools Network LosslessUDP Crypto.
From stdpp Require Import gmap.
Local Open Scope Z_scope.
Local Open Scope tox_scope.

Definition CONN_NO_CONNECTION : Z := 0.
Definition CONN_HANDSHAKE_SENT : Z := 1.
Definition CONN_NOT_CONFIRMED : Z := 2.
Definition CONN_ESTABLISHED : Z := 3.
Definition CONN_TIMED_OUT : Z := 4.
Definition MAX_INCOMING : nat := 64.
Definition CRYPTO_PACKET_FRIEND_REQ : Z := 32.
Definition CRYPTO_PACKET_NAT_PING : Z := 254.

(** ** State *)

Record Crypto_Connection := mkCC {
  cc_public_key : list Z;
  cc_recv_nonce : list Z;
  cc_sent_nonce : list Z;
  cc_sessionpublic_key : list Z;
  cc_sessionsecret_key : list Z;
  cc_peersessionpublic_key : list Z;
  cc_shared_key : list Z;
  cc_status : Z;
  cc_number : Z
}.

Definition set_cc_public_key (x : list Z) (c : Crypto_Connection) : Crypto_Connection :=
  mkCC x (cc_recv_nonce c) (cc_sent_nonce c) (cc_sessionpublic_key c) (cc_sessionsecret_key c)
    (cc_peersessionpublic_key c) (cc_shared_key c) (cc_status c) (cc_number c).
Definition set_cc_recv_nonce (x : list Z) (c : Crypto_Connection) : Crypto_Connection :=
  mkCC (cc_public_key c) x (cc_sent_nonce c) (cc_sessionpublic_key c) (cc_sessionsecret_key c)
    (cc_peersessionpublic_key c) (cc_shared_key c) (cc_status c) (cc_number c).
Definition set_cc_sent_nonce (x : list Z) (c : Crypto_Connection) : Crypto_Connection :=
  mkCC (cc_public_key c) (cc_recv_nonce c) x (cc_sessionpublic_key c) (cc_sessionsecret_key c)
    (cc_peersessionpublic_key c) (cc_shared_key c) (cc_status c) (cc_number c).
Definition set_cc_sessionpublic_key (x : list Z) (c : Crypto_Connection) : Crypto_Connection :=
  mkCC (cc_public_key c) (cc_recv_nonce c) (cc_sent_nonce c) x (cc_sessionsecret_key c)
    (cc_peersessionpublic_key c) (cc_shared_key c) (cc_status c) (cc_number c).
Definition set_cc_sessionsecret_key (x : list Z) (c : Crypto_Connection) : Crypto_Connection :=
  mkCC (cc_public_key c) (cc_recv_nonce c) (cc_sent_nonce c) (cc_sessionpublic_key c) x
    (cc_peersessionpublic_key c) (cc_shared_key c) (cc_status c) (cc_number c).
Definition set_cc_peersessionpublic_key (x : list Z) (c : Crypto_Connection) : Crypto_Connection :=
  mkCC (cc_public_key c) (cc_recv_nonce c) (cc_sent_nonce c) (cc_sessionpublic_key c)
    (cc_sessionsecret_key c) x (cc_shared_key c) (cc_status c) (cc_number c).
Definition set_cc_shared_key (x : list Z) (c : Crypto_Connection) : Crypto_Connection :=
  mkCC (cc_public_key c) (cc_recv_nonce c) (cc_sent_nonce c) (cc_sessionpublic_key c)
    (cc_sessionsecret_key c) (cc_peersessionpublic_key c) x (cc_status c) (cc_number c).
Definition set_cc_status (x : Z) (c : Crypto_Connection) : Crypto_Connection :=
  mkCC (cc_public_key c) (cc_recv_nonce c) (cc_sent_nonce c) (cc_sessionpublic_key c)
    (cc_sessionsecret_key c) (cc_peersessionpublic_key c) (cc_shared_key c) x (cc_number c).
Definition set_cc_number (x : Z) (c : Crypto_Connection) : Crypto_Connection :=
  mkCC (cc_public_key c) (cc_recv_nonce c) (cc_sent_nonce c) (cc_sessionpublic_key c)
    (cc_sessionsecret_key c) (cc_peersessionpublic_key c) (cc_shared_key c) (cc_status c) x.


(** The callbacks registered for requests. *)
Inductive crypto_handler := friendreq_handlepacket_cb | handle_NATping_cb.

Record Net_Crypto := mkNC {
  lossless_udp : Lossless_UDP;
  crypto_connections : list Crypto_Connection;
  self_public_key : list Z;
  self_secret_key : list Z;
  incoming_connections : list Z;
  cryptopackethandlers : gmap Z crypto_handler
}.

Definition set_lossless_udp (x : Lossless_UDP) (c : Net_Crypto) : Net_Crypto :=
  mkNC x (crypto_connections c) (self_public_key c) (self_secret_key c) (incoming_connections c)
    (cryptopackethandlers c).
Definition set_crypto_connections (x : list Crypto_Connection) (c : Net_Crypto) : Net_Crypto :=
  mkNC (lossless_udp c) x (self_public_key c) (self_secret_key c) (incoming_connections c)
    (cryptopackethandlers c).
Definition set_self_public_key (x : list Z) (c : Net_Crypto) : Net_Crypto :=
  mkNC (lossless_udp c) (crypto_connections c) x (self_secret_key c) (incoming_connections c)
    (cryptopackethandlers c).
Definition set_self_secret_key (x : list Z) (c : Net_Crypto) : Net_Crypto :=
  mkNC (lossless_udp c) (crypto_connections c) (self_public_key c) x (incoming_connections c)
    (cryptopackethandlers c).
Definition set_incoming_connections (x : list Z) (c : Net_Crypto) : Net_Crypto :=
  mkNC (lossless_udp c) (crypto_connections c) (self_public_key c) (self_secret_key c) x
    (cryptopackethandlers c).
Definition set_cryptopackethandlers (x : gmap Z crypto_handler) (c : Net_Crypto) : Net_Crypto :=
  mkNC (lossless_udp c) (crypto_connections c) (self_public_key c) (self_secret_key c)
    (incoming_connections c) x.

(** [memset(.., 0, ..)] and [number = ~0], the number having 16 bits. *)
Definition cc_zero : Crypto_Connection :=
  mkCC (zeros 32) (zeros 24) (zeros 24) (zeros 32) (zeros 32) (zeros 32) (zeros 32) 0 65535.

(** Running an operation of [Lossless_UDP]. *)
Definition ludp {A} (m : M Lossless_UDP A) : M Net_Crypto A := zoom lossless_udp set_lossless_udp m.

Definition get_cc (i : Z) : M Net_Crypto Crypto_Connection :=
  s <- getM ;;
  if i <? 0 then ubM else liftO (crypto_connections s !! Z.to_nat i).
Definition put_cc (i : Z) (cc : Crypto_Connection) : M Net_Crypto unit :=
  modM (fun s => set_crypto_connections (<[Z.to_nat i := cc]> (crypto_connections s)) s).

Definition cc_length (s : Net_Crypto) : Z := Z.of_nat (length (crypto_connections s)).
Definition cc_valid (s : Net_Crypto) (i : Z) : bool := (0 <=? i) && (i <? cc_length s).

Section net_crypto.
Context `{CryptoBox}.

(** ** Reading and writing *)

(** The result and the bytes written to [data]. *)
Definition read_cryptpacket (crypt_connection_id : Z) : M Net_Crypto (Z * list Z) :=
s <- getM ;;
if negb (cc_valid s crypt_connection_id) then retM (0, [])
else
  cc <- get_cc crypt_connection_id ;;
  if negb (cc_status cc =? CONN_ESTABLISHED) then retM (0, [])
  else
    r <- ludp (read_packet (cc_number cc)) ;;
    let '(length, temp_data) := r in
    if length =? 0 then retM (0, [])
    else if negb (nth 0 temp_data 0 =? 3) then retM (-1, [])
    else
      match decrypt_data_fast (cc_shared_key cc) (cc_recv_nonce cc) (drop 1 temp_data) with
      | None => retM (-1, [])
      | Some plain =>
        put_cc crypt_connection_id (set_cc_recv_nonce (increment_nonce (cc_recv_nonce cc)) cc) ;;;
        retM (Z.of_nat (List.length plain), plain)
      end.

Definition write_cryptpacket (crypt_connection_id : Z) (data : list Z) : M Net_Crypto Z :=
s <- getM ;;
if negb (cc_valid s crypt_connection_id) then retM 0
else if MAX_DATA_SIZE - 1 <? Z.of_nat (length data + ENCRYPTION_PADDING) then retM 0
else
  cc <- get_cc crypt_connection_id ;;
  if negb (cc_status cc =? CONN_ESTABLISHED) then retM 0
  else
    match encrypt_data_fast (cc_shared_key cc) (cc_sent_nonce cc) data with
    | None => retM 0
    | Some enc =>
      r <- ludp (write_packet (cc_number cc) ([3] ++ enc)) ;;
      if r =? 0 then retM 0
      else
        put_cc crypt_connection_id (set_cc_sent_nonce (increment_nonce (cc_sent_nonce cc)) cc) ;;;
        retM 1
    end.

(** ** Handshakes *)

Definition send_cryptohandshake (connection_id : Z) (public_key secret_nonce session_key : list Z)
: M Net_Crypto Z :=
s <- getM ;;
nonce <- random_nonce ;;
match cryptohandshake_packet (self_public_key s) (self_secret_key s) nonce public_key secret_nonce
        session_key with
| None => retM 0
| Some packet => ludp (write_packet connection_id packet)
end.

Definition getcryptconnection_id (s : Net_Crypto) (public_key : list Z) : Z :=
match first_index (fun cc => negb (cc_status cc =? CONN_NO_CONNECTION)
                             && memcmp_eq crypto_box_PUBLICKEYBYTES public_key (cc_public_key cc))
        (crypto_connections s) with
| Some i => Z.of_nat i
| None => -1
end.

(** Whether [realloc] succeeds; with size zero the array is freed. *)
Definition realloc_cryptoconnection (num : nat) : M Net_Crypto bool :=
match num with
| O => retM true
| _ => nomem <- alloc_fails ;; retM (negb nomem)
end.

(** The slot a new crypto connection takes: the first free one, the array having
  been extended by one; and its contents. *)
Definition cc_free_slot (s : Net_Crypto) : nat * Crypto_Connection :=
match first_index (fun cc => cc_status cc =? CONN_NO_CONNECTION) (crypto_connections s) with
| Some i => (i, nth i (crypto_connections s) cc_zero)
| None => (length (crypto_connections s), cc_zero)
end.

(** Writing to the slot; the length grows when it is the one past the end. *)
Definition put_slot (i : nat) (cc : Crypto_Connection) : M Net_Crypto unit :=
modM (fun s => set_crypto_connections
                 (if (i =? length (crypto_connections s))%nat then crypto_connections s ++ [cc]
                  else <[i := cc]> (crypto_connections s)) s).

Definition keypair : M Net_Crypto (list Z * list Z) :=
e <- entropy ;; retM (crypto_box_keypair e).

Definition crypto_connect (public_key : list Z) (ip_port : IP_Port) : M Net_Crypto Z :=
s <- getM ;;
let id := getcryptconnection_id s public_key in
same <- (if negb (id =? -1) then
           cc <- get_cc id ;;
           let c_ip := connection_ip (lossless_udp s) (cc_number cc) in
           retM ((ip c_ip =? ip ip_port) && (port c_ip =? port ip_port))
         else retM false) ;;
if (same : bool) then retM (-1)
else
  ok <- realloc_cryptoconnection (length (crypto_connections s) + 1) ;;
  if negb ok then retM (-1)
  else
    let '(i, cc0) := cc_free_slot s in
    id <- ludp (new_connection ip_port) ;;
    if id =? -1 then retM (-1)
    else
      recv_nonce <- random_nonce ;;
      keys <- keypair ;;
      let cc := set_cc_sessionsecret_key (snd keys) (set_cc_sessionpublic_key (fst keys)
                (set_cc_public_key (take crypto_box_PUBLICKEYBYTES public_key)
                (set_cc_recv_nonce recv_nonce (set_cc_status CONN_HANDSHAKE_SENT
                (set_cc_number (u16 id) cc0))))) in
      put_slot i cc ;;;
      r <- send_cryptohandshake id public_key (cc_recv_nonce cc) (cc_sessionpublic_key cc) ;;
      if r =? 1 then
        put_cc (Z.of_nat i) (set_cc_recv_nonce (increment_nonce (cc_recv_nonce cc)) cc) ;;;
        retM (Z.of_nat i)
      else retM (-1).

Definition set_incoming (i : nat) (x : Z) : M Net_Crypto unit :=
modM (fun s => set_incoming_connections (<[i := x]> (incoming_connections s)) s).

(** The loop of [crypto_inbound] from index [i]; [n] indices are left. *)
Fixpoint inbound_loop (n i : nat) : M Net_Crypto (option (Z * list Z * list Z * list Z)) :=
match n with
| O => retM None
| S k =>
  s <- getM ;;
  let conn := nth i (incoming_connections s) (-1) in
  if negb (conn =? -1) then
    if (is_connected (lossless_udp s) conn =? 4) || (is_connected (lossless_udp s) conn =? 0) then
      ludp (kill_connection conn) ;;;
      set_incoming i (-1) ;;;
      inbound_loop k (S i)
    else if id_packet (lossless_udp s) conn =? 2 then
      r <- ludp (read_packet conn) ;;
      match handle_cryptohandshake (self_secret_key s) (snd r) with
      | Some (public_key, secret_nonce, session_key) =>
        set_incoming i (-1) ;;;
        retM (Some (conn, public_key, secret_nonce, session_key))
      | None => inbound_loop k (S i)
      end
    else inbound_loop k (S i)
  else inbound_loop k (S i)
end.

(** The connection (or -1, [None]), the peer's key, its nonce and its session key. *)
Definition crypto_inbound : M Net_Crypto (option (Z * list Z * list Z * list Z)) :=
inbound_loop MAX_INCOMING 0.

Definition cc_live (cc : Crypto_Connection) : bool := negb (cc_status cc =? CONN_NO_CONNECTION).

Definition crypto_kill (crypt_connection_id : Z) : M Net_Crypto Z :=
s <- getM ;;
if negb (cc_valid s crypt_connection_id) then retM 1
else
  cc <- get_cc crypt_connection_id ;;
  if cc_live cc then
    put_cc crypt_connection_id (set_cc_status CONN_NO_CONNECTION cc) ;;;
    ludp (kill_connection (cc_number cc)) ;;;
    put_cc crypt_connection_id cc_zero ;;;
    s <- getM ;;
    let i := shrink cc_live (crypto_connections s) (length (crypto_connections s)) in
    modM (set_crypto_connections (take i (crypto_connections s))) ;;;
    realloc_cryptoconnection i ;;;
    retM 0
  else retM 1.

Definition zero_word : list Z := zeros 4.

(** The key exchange is complete on our side: compute the shared key and send the
  empty packet, for which the connection must look established. *)
Definition confirm_session (i : Z) (cc : Crypto_Connection) : M Net_Crypto unit :=
put_cc i (set_cc_status CONN_ESTABLISHED
           (set_cc_shared_key (encrypt_precompute (cc_peersessionpublic_key cc)
                                 (cc_sessionsecret_key cc)) cc)) ;;;
write_cryptpacket i zero_word ;;;
cc <- get_cc i ;;
put_cc i (set_cc_status CONN_NOT_CONFIRMED cc).

Definition accept_crypto_inbound (connection_id : Z) (public_key secret_nonce session_key : list Z)
: M Net_Crypto Z :=
if connection_id =? -1 then retM (-1)
else
  s <- getM ;;
  ok <- realloc_cryptoconnection (length (crypto_connections s) + 1) ;;
  if negb ok then retM (-1)
  else
    let '(i, cc0) := cc_free_slot s in
    recv_nonce <- random_nonce ;;
    keys <- keypair ;;
    let cc := set_cc_sessionsecret_key (snd keys) (set_cc_sessionpublic_key (fst keys)
              (set_cc_public_key (take crypto_box_PUBLICKEYBYTES public_key)
              (set_cc_sent_nonce (increment_nonce (take crypto_box_NONCEBYTES secret_nonce))
              (set_cc_peersessionpublic_key (take crypto_box_PUBLICKEYBYTES session_key)
              (set_cc_recv_nonce recv_nonce (set_cc_status CONN_NOT_CONFIRMED
              (set_cc_number (u16 connection_id) cc0))))))) in
    put_slot i cc ;;;
    r <- send_cryptohandshake connection_id public_key (cc_recv_nonce cc) (cc_sessionpublic_key cc) ;;
    if r =? 1 then
      confirm_session (Z.of_nat i) (set_cc_recv_nonce (increment_nonce (cc_recv_nonce cc)) cc) ;;;
      retM (Z.of_nat i)
    else retM (-1).

Definition is_cryptoconnected (s : Net_Crypto) (crypt_connection_id : Z) : Z :=
if cc_valid s crypt_connection_id
then cc_status (nth (Z.to_nat crypt_connection_id) (crypto_connections s) cc_zero)
else CONN_NO_CONNECTION.

(** ** Keys *)

Definition new_keys : M Net_Crypto unit :=
keys <- keypair ;;
modM (fun s => set_self_secret_key (snd keys) (set_self_public_key (fst keys) s)).

Definition save_keys (s : Net_Crypto) : list Z := self_public_key s ++ self_secret_key s.

Definition load_keys (keys : list Z) : M Net_Crypto unit :=
modM (fun s => set_self_secret_key (bytes_at crypto_box_PUBLICKEYBYTES crypto_box_SECRETKEYBYTES keys)
                 (set_self_public_key (take crypto_box_PUBLICKEYBYTES keys) s)).

(** ** The main loop *)

(** Whether there was no room. *)
Definition new_incoming (id : Z) : M Net_Crypto bool :=
s <- getM ;;
match first_index (fun x => x =? -1) (incoming_connections s) with
| Some i => set_incoming i id ;;; retM false
| None => retM true
end.

(** Each turn takes one connection off those [incoming_connection] returns. *)
Fixpoint incomings_loop (fuel : nat) : M Net_Crypto unit :=
match fuel with
| O => ubM
| S f =>
  income <- ludp incoming_connection ;;
  if income =? -1 then retM tt
  else full <- new_incoming income ;; if (full : bool) then retM tt else incomings_loop f
end.

Definition handle_incomings : M Net_Crypto unit :=
s <- getM ;; incomings_loop (S (length (ta_data (connections (lossless_udp s))))).

(** First part of a turn of [receive_crypto]; the result says that the function
  returns. *)
Definition receive_handshake (i : Z) : M Net_Crypto bool :=
cc <- get_cc i ;;
if negb (cc_status cc =? CONN_HANDSHAKE_SENT) then retM false
else
  s <- getM ;;
  if id_packet (lossless_udp s) (cc_number cc) =? 2 then
    r <- ludp (read_packet (cc_number cc)) ;;
    match handle_cryptohandshake (self_secret_key s) (snd r) with
    | Some (public_key, secret_nonce, session_key) =>
      if memcmp_eq crypto_box_PUBLICKEYBYTES public_key (cc_public_key cc) then
        confirm_session i
          (set_cc_peersessionpublic_key session_key
             (set_cc_sent_nonce (increment_nonce secret_nonce) cc)) ;;;
        retM false
      else retM false
    | None => retM false
    end
  else if negb (id_packet (lossless_udp s) (cc_number cc) =? -1) then
    crypto_kill i ;;; retM true
  else retM false.

(** Second part of a turn. *)
Definition receive_confirmation (i : Z) : M Net_Crypto bool :=
cc <- get_cc i ;;
if negb (cc_status cc =? CONN_NOT_CONFIRMED) then retM false
else
  s <- getM ;;
  (if id_packet (lossless_udp s) (cc_number cc) =? 3 then
     r <- ludp (read_packet (cc_number cc)) ;;
     match decrypt_data (cc_peersessionpublic_key cc) (cc_sessionsecret_key cc) (cc_recv_nonce cc)
             (drop 1 (snd r)) with
     | Some data =>
       if bool_decide (data = zero_word) then
         put_cc i (set_cc_status CONN_ESTABLISHED
           (set_cc_shared_key (encrypt_precompute (cc_peersessionpublic_key cc)
                                 (cc_sessionsecret_key cc))
           (set_cc_recv_nonce (increment_nonce (cc_recv_nonce cc)) cc))) ;;;
         ludp (kill_connection_in (cc_number cc) 3000000) ;;;
         retM tt
       else crypto_kill i ;;; retM tt
     | None => crypto_kill i ;;; retM tt
     end
   else if negb (id_packet (lossless_udp s) (cc_number cc) =? -1) then crypto_kill i ;;; retM tt
   else retM tt) ;;;
  retM true.

Fixpoint receive_loop (fuel : nat) (i : Z) : M Net_Crypto unit :=
s <- getM ;;
if i <? cc_length s then
  match fuel with
  | O => ubM
  | S f =>
    stop <- receive_handshake i ;;
    if (stop : bool) then retM tt
    else
      stop <- receive_confirmation i ;;
      if (stop : bool) then retM tt else receive_loop f (i + 1)
  end
else retM tt.

Definition receive_crypto : M Net_Crypto unit :=
s <- getM ;; receive_loop (length (crypto_connections s)) 0.

Definition kill_timedout_one (i : nat) : M Net_Crypto unit :=
s <- getM ;;
match crypto_connections s !! i with
| None => retM tt
| Some cc =>
  if cc_live cc && (is_connected (lossless_udp s) (cc_number cc) =? 4)
  then put_cc (Z.of_nat i) (set_cc_status CONN_TIMED_OUT cc)
  else if is_connected (lossless_udp s) (cc_number cc) =? 4 then
    ludp (kill_connection (cc_number cc)) ;;;
    put_cc (Z.of_nat i) (set_cc_number 65535 cc)
  else retM tt
end.

Definition kill_timedout : M Net_Crypto unit :=
s <- getM ;; forM (seq 0 (length (crypto_connections s))) kill_timedout_one.

Definition new_net_crypto {S} (n : Networking_Core) : M S (option Net_Crypto) :=
nomem <- alloc_fails ;;
if (nomem : bool) then retM None
else
  nomem <- alloc_fails ;;
  if (nomem : bool) then retM None
  else retM (Some (mkNC (new_lossless_udp n) [] (zeros 32) (zeros 32) (replicate MAX_INCOMING (-1)) ∅)).

Definition do_net_crypto : M Net_Crypto unit :=
ludp do_lossless_udp ;;; handle_incomings ;;; receive_crypto ;;; kill_timedout.

(** The loop re-reads the length, which [crypto_kill] shrinks. *)
Fixpoint kill_all_loop (fuel : nat) (i : Z) : M Net_Crypto unit :=
s <- getM ;;
if i <? cc_length s then
  match fuel with
  | O => ubM
  | S f => crypto_kill i ;;; kill_all_loop f (i + 1)
  end
else retM tt.

Definition kill_net_crypto : M Net_Crypto unit :=
s <- getM ;;
kill_all_loop (length (crypto_connections s)) 0 ;;;
modM (fun s => set_lossless_udp (kill_lossless_udp (lossless_udp s)) s).

Definition cryptopacket_registerhandler (byte : Z) (cb : crypto_handler) (s : Net_Crypto) : Net_Crypto :=
set_cryptopackethandlers (<[u8 byte := cb]> (cryptopackethandlers s)) s.

(** Registers [cryptopacket_handle] with the socket. *)
Definition init_cryptopackets (s : Net_Crypto) : Net_Crypto :=
set_lossless_udp
  (set_net (networking_registerhandler (net (lossless_udp s)) NET_PACKET_CRYPTO cryptopacket_handle_cb)
     (lossless_udp s)) s.
End net_crypto.
