(* ===== verification/CryptoThms.v ===== *)
(** * net_crypto.c: the properties

    Round trips of everything that is encrypted, the nonce sequence, and the
    handshake.  All are relative to [CryptoBoxLaws]; [ToyBox] is an instance, used to
    evaluate the examples. *)

From S2P Require Import Prelude MiscTools Network LosslessUDP LosslessInv LosslessSafe Crypto NetCrypto.
From stdpp Require Import gmap.
Local Open Scope Z_scope.
Local Open Scope tox_scope.

(** ** An instance of the cipher

    Not a cipher at all, but it satisfies the laws: the message is sent in clear
    with a tag that depends on the key and the nonce. *)
Module ToyBox.
Definition add_bytes (a b : list Z) : list Z := zip_with (fun x y => u8 (x + y)) a b.

Definition tag (n k : list Z) : list Z := take 16 (add_bytes (n ++ zeros 16) (k ++ zeros 16)).

Definition open (c n k : list Z) : option (list Z) :=
  if bool_decide (take 32 c = zeros 16 ++ tag n k) then Some (zeros 32 ++ drop 32 c) else None.

#[export] Instance box : CryptoBox := {
  crypto_box_keypair seed := (le_bytes 32 seed, le_bytes 32 seed);
  crypto_box_beforenm p s := add_bytes p s;
  crypto_box_afternm m n k := zeros 16 ++ tag n k ++ drop 32 m;
  crypto_box_open_afternm := open
}.

Lemma add_bytes_comm a b : add_bytes a b = add_bytes b a.
Proof.
  unfold add_bytes. revert b. induction a as [|x a IH]; intros [|y b]; simpl; [done..|].
  rewrite IH. do 2 f_equal. lia.
Qed.

Lemma length_tag n k : length (tag n k) = 16%nat.
Proof. unfold tag, add_bytes. rewrite length_take, length_zip_with, !length_app, !length_zeros. lia. Qed.

#[export] Instance laws : CryptoBoxLaws.
Proof.
  split.
  - intros seed. split; apply length_le_bytes.
  - intros a b. cbn [crypto_box_beforenm crypto_box_keypair box fst snd]. apply add_bytes_comm.
  - intros m n k Hm. assert (32 <= length m)%nat.
    { apply (f_equal length) in Hm. rewrite length_take, length_zeros in Hm. unfold crypto_box_ZEROBYTES in Hm. lia. }
    cbn [crypto_box_afternm box]. split.
    + rewrite !length_app, length_zeros, length_tag, length_drop. lia.
    + unfold crypto_box_BOXZEROBYTES. by rewrite take_app_length' by (by rewrite length_zeros).
  - intros m n k Hm. cbn [crypto_box_afternm crypto_box_open_afternm box]. unfold open.
    rewrite app_assoc. rewrite take_app_length', drop_app_length'
      by (rewrite length_app, length_zeros, length_tag; done).
    rewrite bool_decide_eq_true_2 by done. f_equal. change (zeros 32) with (zeros crypto_box_ZEROBYTES).
    rewrite <- Hm. apply take_drop.
  - intros c n k m. cbn [crypto_box_open_afternm box]. unfold open. case_bool_decide as E; [|done].
    intros Em. apply (inj Some) in Em as <-. apply (f_equal length) in E. rewrite length_take, length_app, length_zeros, length_tag in E.
    rewrite length_app, length_zeros, length_drop. lia.
Qed.
End ToyBox.

Section round_trips.
Context `{CryptoBoxLaws}.

Definition pk (seed : Z) : list Z := fst (crypto_box_keypair seed).
Definition sk (seed : Z) : list Z := snd (crypto_box_keypair seed).
End round_trips.

(** ** Encryption *)

(** What one key pair encrypts for another, the other decrypts: encryption
    succeeds exactly on 1 to 1008 bytes, adds 16 bytes, and decryption with the
    sender's public key and the same nonce gives the message back. *)
Theorem encrypt_decrypt `{CryptoBoxLaws} (a b : Z) (nonce plain : list Z) :
  (encrypt_data (pk b) (sk a) nonce plain <> None <-> (1 <= length plain <= 1008)%nat) /\
  (forall enc, encrypt_data (pk b) (sk a) nonce plain = Some enc ->
     length enc = (length plain + 16)%nat /\ decrypt_data (pk a) (sk b) nonce enc = Some plain).
Proof.
  unfold encrypt_data, decrypt_data, encrypt_precompute, pk, sk. rewrite beforenm_agree. split.
  - split.
    + destruct (encrypt_data_fast _ nonce plain) as [enc|] eqn:E; [|done]. intros _.
      apply encrypt_data_fast_bounds in E. lia.
    + intros Hl. destruct (encrypt_data_fast_total (crypto_box_beforenm (fst (crypto_box_keypair a))
        (snd (crypto_box_keypair b))) nonce plain) as [enc ->]; [lia..|done].
  - intros enc E. split; [|by apply decrypt_encrypt_fast].
    apply encrypt_data_fast_bounds in E. lia.
Qed.

(** An instance shows that the laws of the cipher can hold. *)
Lemma encrypt_decrypt_witness :
  exists enc, encrypt_data (H := ToyBox.box) (pk (H := ToyBox.box) 7) (sk (H := ToyBox.box) 5) (zeros 24) [1; 2; 3] = Some enc /\
              decrypt_data (H := ToyBox.box) (pk (H := ToyBox.box) 5) (sk (H := ToyBox.box) 7) (zeros 24) enc = Some [1; 2; 3].
Proof.
  destruct (encrypt_decrypt (H := ToyBox.box) (H0 := ToyBox.laws) 5 7 (zeros 24) [1; 2; 3]) as [[_ He] Hd].
  destruct (encrypt_data (H := ToyBox.box) (pk (H := ToyBox.box) 7) (sk (H := ToyBox.box) 5) (zeros 24) [1; 2; 3]) as [enc|].
  - exists enc. split; [done|]. by apply Hd.
  - exfalso. by apply He; [simpl; lia|].
Defined.

(** C16: the nonce is a counter of 192 bits: from any nonce, the next 2^192 - 1
    increments give nonces that are all different from it, so a nonce is not used
    twice with one key. *)
Theorem nonce_not_reused (n : list Z) (k : nat) :
  bytes_ok n -> length n = 24%nat -> 0 < Z.of_nat k < 2 ^ 192 ->
  le_val (Nat.iter k increment_nonce n) = (le_val n + Z.of_nat k) mod 2 ^ 192 /\
  Nat.iter k increment_nonce n <> n.
Proof.
  intros Hok Hl Hk. pose proof (le_val_range _ Hok) as Hv. rewrite Hl in Hv.
  change (256 ^ Z.of_nat 24) with (2 ^ 192) in Hv.
  assert (Hit : forall j, bytes_ok (Nat.iter j increment_nonce n) /\
            length (Nat.iter j increment_nonce n) = 24%nat /\
            le_val (Nat.iter j increment_nonce n) = (le_val n + Z.of_nat j) mod 2 ^ 192).
  { induction j as [|j (IH1 & IH2 & IH3)].
    - simpl Nat.iter. split_and!; [done..|]. rewrite Z.add_0_r. symmetry. by apply Z.mod_small.
    - change (Nat.iter (S j) increment_nonce n) with (increment_nonce (Nat.iter j increment_nonce n)).
      split_and!; [by apply increment_nonce_ok|by rewrite length_increment_nonce|].
      rewrite increment_nonce_val by done. rewrite IH2, IH3.
      change (256 ^ Z.of_nat 24) with (2 ^ 192). rewrite Z.add_mod_idemp_l by lia. f_equal. lia. }
  destruct (Hit k) as (_ & _ & E). split; [done|]. intros Hn. rewrite Hn in E.
  assert (Hd : (le_val n + Z.of_nat k) mod 2 ^ 192 <> le_val n); [|congruence].
  intros Hc. apply (f_equal (fun x => (x - le_val n) mod 2 ^ 192)) in Hc.
  rewrite Zminus_mod_idemp_l, Z.sub_diag in Hc.
  replace (le_val n + Z.of_nat k - le_val n) with (Z.of_nat k) in Hc by lia.
  rewrite Z.mod_small in Hc by lia. change (0 mod 2 ^ 192) with 0 in Hc. lia.
Qed.

Lemma nonce_not_reused_witness : Nat.iter 300 increment_nonce (zeros 24) <> zeros 24.
Proof.
  apply (nonce_not_reused (zeros 24) 300).
  - apply Forall_replicate. unfold is_u8. lia.
  - done.
  - lia.
Defined.

(** ** Requests and handshakes *)

Section packets.
Context `{CryptoBoxLaws}.

Lemma length_pk a : length (pk a) = 32%nat.
Proof. apply keypair_length. Qed.

Lemma length_sk a : length (sk a) = 32%nat.
Proof. apply keypair_length. Qed.

(** Fields of a packet that starts with [h], two keys and a nonce. *)
Lemma packet_fields (h : Z) k1 k2 (n rest : list Z) :
  length k1 = 32%nat -> length k2 = 32%nat -> length n = 24%nat ->
  let p := [h] ++ k1 ++ k2 ++ n ++ rest in
  length p = (89 + length rest)%nat /\ take 32 (drop 1 p) = k1 /\ bytes_at 33 32 p = k2 /\
  bytes_at 65 24 p = n /\ drop 89 p = rest.
Proof.
  intros H1 H2 Hn p. subst p. split_and!.
  - rewrite !length_app, H1, H2, Hn. simpl. lia.
  - change (drop 1 ([h] ++ ?l)) with l. by rewrite take_app_length' by done.
  - unfold bytes_at. rewrite app_assoc, drop_app_length' by (rewrite length_app, H1; done).
    by rewrite take_app_length' by done.
  - unfold bytes_at. rewrite !app_assoc. rewrite <- (app_assoc ((_ ++ _) ++ _) n).
    rewrite drop_app_length' by (rewrite !length_app, H1, H2; done). by rewrite take_app_length' by done.
  - rewrite !app_assoc. rewrite drop_app_length' by (rewrite !length_app, H1, H2, Hn; done). done.
Qed.
End packets.

(** The packet of a request, and what the receiver reads in it. *)
Lemma create_request_read `{CryptoBoxLaws} {S} (a b request_id : Z) (data : list Z) (s : S) (w : World) :
  wp (create_request (pk a) (sk a) (pk b) data request_id)
     (fun r s' _ => s' = s /\
        match r with
        | None => (918 < length data)%nat
        | Some p => (length data <= 918)%nat /\ (105 < length p)%nat /\ (length p <= 1024)%nat /\
                    nth 0 p 0 = NET_PACKET_CRYPTO /\ take 32 (drop 1 p) = pk b /\
                    handle_request (pk b) (sk b) p = Some (pk a, request_id, data)
        end) s w.
Proof.
  unfold create_request, MAX_DATA_SIZE. wp_step; [wp_step; split; [done|]; csize; lia|].
  assert (length data <= 918)%nat by (csize; lia).
  wp_step. apply wp_room; [simpl; lia|]. wp_step. apply wp_random_nonce. intros nonce w' Hn _.
  destruct (encrypt_data_fast_total (encrypt_precompute (pk b) (sk a)) nonce (request_id :: data))
    as [enc He]; [simpl; lia..|].
  destruct (encrypt_data_fast_bounds _ _ _ _ He) as (_ & _ & Hel). simpl in Hel.
  unfold encrypt_data. rewrite He. wp_step. apply wp_room; [csize; lia|]. wp_step. split; [done|].
  destruct (packet_fields NET_PACKET_CRYPTO (pk b) (pk a) nonce enc (length_pk b) (length_pk a) Hn)
    as (Hl & F1 & F2 & F3 & F4).
  split_and!; [done|lia|lia|done|exact F1|]. unfold handle_request.
  set (p := [NET_PACKET_CRYPTO] ++ pk b ++ pk a ++ nonce ++ enc) in *.
  rewrite Hl. unfold memcmp_eq, crypto_box_PUBLICKEYBYTES. rewrite F1.
  rewrite take_ge by (by rewrite length_pk). rewrite bool_decide_eq_true_2 by done.
  change (request_header + ENCRYPTION_PADDING)%nat with 105%nat.
  destruct (Nat.ltb_spec 105 (89 + length enc)); [|lia].
  destruct (Z.leb_spec (Z.of_nat (89 + length enc)) (MAX_DATA_SIZE + Z.of_nat ENCRYPTION_PADDING));
    [|csize; lia].
  cbn [andb]. change (1 + 32)%nat with 33%nat. change (1 + 32 * 2)%nat with 65%nat.
  change request_header with 89%nat. unfold crypto_box_NONCEBYTES. rewrite F2, F3, F4. unfold decrypt_data.
  assert (Hk : encrypt_precompute (pk a) (sk b) = encrypt_precompute (pk b) (sk a)) by apply beforenm_agree.
  rewrite Hk, (decrypt_encrypt_fast _ _ _ _ He). done.
Qed.


(** A request made for a key reaches its owner as it was made: [create_request]
    fails exactly when the data is longer than 918 bytes; the packet it makes is at
    most 1024 bytes long, and [handle_request] at the receiver gives the sender's
    public key, the request id and the data. *)
Theorem request_round_trip `{CryptoBoxLaws} {S} (a b request_id : Z) (data : list Z) (s : S) (w : World) :
  wp (create_request (pk a) (sk a) (pk b) data request_id)
     (fun r s' _ => s' = s /\
        match r with
        | None => (918 < length data)%nat
        | Some p => (length data <= 918)%nat /\ (length p <= 1024)%nat /\
                    handle_request (pk b) (sk b) p = Some (pk a, request_id, data)
        end) s w.
Proof.
  eapply wp_mono; [apply create_request_read|]. intros [p|] s' w'; [|done]. intros (-> & ? & _ & ? & _ & _ & ?). done.
Qed.

Section request_witness.
#[local] Existing Instance ToyBox.box.
#[local] Existing Instance ToyBox.laws.

Lemma request_round_trip_witness :
  wp (create_request (pk 1) (sk 1) (pk 2) [5; 6] 32)
    (fun r s' _ => s' = tt /\
      match r with
      | None => (918 < length [5; 6])%nat
      | Some p => (length [5; 6] <= 918)%nat /\ (length p <= 1024)%nat /\
                  handle_request (pk 2) (sk 2) p = Some (pk 1, 32, [5; 6])
      end) tt (still_world 0 0).
Proof. exact (request_round_trip 1 2 32 [5; 6] tt (still_world 0 0)). Defined.
End request_witness.

(** The packet of a handshake is built, and the peer reads in it what was meant. *)
Lemma cryptohandshake_opens `{CryptoBoxLaws} (a b sa : Z) (nonce secret_nonce : list Z) :
  length nonce = 24%nat -> length secret_nonce = 24%nat ->
  exists p, cryptohandshake_packet (pk a) (sk a) nonce (pk b) secret_nonce (pk sa) = Some p /\
            length p = 129%nat /\
            handle_cryptohandshake (sk b) p = Some (pk a, secret_nonce, pk sa).
Proof.
  intros Hn Hs. unfold cryptohandshake_packet.
  set (temp := take crypto_box_NONCEBYTES secret_nonce ++ take crypto_box_PUBLICKEYBYTES (pk sa)).
  assert (Et : temp = secret_nonce ++ pk sa).
  { subst temp. f_equal; apply take_ge; [by rewrite Hs|by rewrite length_pk]. }
  assert (Hlt : length temp = 56%nat) by (rewrite Et, length_app, Hs, length_pk; done).
  destruct (encrypt_data_fast_total (encrypt_precompute (pk b) (sk a)) nonce temp) as [enc He]; [lia..|].
  unfold encrypt_data. rewrite He. destruct (encrypt_data_fast_bounds _ _ _ _ He) as (_ & _ & Hel).
  eexists. split; [reflexivity|]. set (p := [2] ++ pk a ++ nonce ++ enc).
  assert (Hlp : length p = 129%nat).
  { subst p. rewrite !length_app, length_pk, Hn, Hel, Hlt. done. }
  assert (F1 : bytes_at 1 32 p = pk a).
  { subst p. unfold bytes_at. change (drop 1 ([2] ++ ?l)) with l. by rewrite take_app_length' by (by rewrite length_pk). }
  assert (F2 : bytes_at 33 24 p = nonce).
  { subst p. unfold bytes_at. rewrite app_assoc, drop_app_length' by (rewrite length_app, length_pk; done).
    by rewrite take_app_length' by done. }
  assert (F3 : bytes_at 57 72 p = enc).
  { subst p. unfold bytes_at. rewrite !app_assoc.
    rewrite drop_app_length' by (rewrite !length_app, length_pk, Hn; done). apply take_ge. lia. }
  split; [done|]. unfold handle_cryptohandshake. rewrite Hlp.
  change (1 + crypto_box_PUBLICKEYBYTES + crypto_box_NONCEBYTES + crypto_box_NONCEBYTES
          + crypto_box_PUBLICKEYBYTES + ENCRYPTION_PADDING)%nat with 129%nat.
  change (1 + crypto_box_PUBLICKEYBYTES + crypto_box_NONCEBYTES)%nat with 57%nat.
  change (1 + crypto_box_PUBLICKEYBYTES)%nat with 33%nat.
  change (crypto_box_NONCEBYTES + crypto_box_PUBLICKEYBYTES + ENCRYPTION_PADDING)%nat with 72%nat.
  change (nth 0 p 0) with 2. cbn [negb Nat.eqb Z.eqb Pos.eqb].
  unfold crypto_box_PUBLICKEYBYTES at 1, crypto_box_NONCEBYTES at 1. rewrite F1, F2, F3.
  assert (Hk : encrypt_precompute (pk a) (sk b) = encrypt_precompute (pk b) (sk a)) by apply beforenm_agree.
  unfold decrypt_data. rewrite Hk, (decrypt_encrypt_fast _ _ _ _ He), Hlt. cbn [negb Nat.eqb].
  change (crypto_box_NONCEBYTES + crypto_box_PUBLICKEYBYTES)%nat with 56%nat. cbn [negb Nat.eqb].
  rewrite Et. unfold crypto_box_NONCEBYTES, crypto_box_PUBLICKEYBYTES. rewrite F1.
  by rewrite take_app_length', drop_app_length' by done.
Qed.

(** The crypto handshake carries the nonce and the session key: the packet
    [send_cryptohandshake] builds for a peer is always built, and the peer's
    [handle_cryptohandshake] gives back the sender's long-term key, the nonce and the
    session key, of which both then compute the same shared key. *)
Theorem cryptohandshake_round_trip `{CryptoBoxLaws} (a b sa sb : Z) (nonce secret_nonce : list Z) :
  length nonce = 24%nat -> length secret_nonce = 24%nat ->
  (exists p, cryptohandshake_packet (pk a) (sk a) nonce (pk b) secret_nonce (pk sa) = Some p /\
             length p = 129%nat /\
             handle_cryptohandshake (sk b) p = Some (pk a, secret_nonce, pk sa)) /\
  encrypt_precompute (pk sa) (sk sb) = encrypt_precompute (pk sb) (sk sa).
Proof. intros Hn Hs. split; [by apply cryptohandshake_opens|apply beforenm_agree]. Qed.

Section handshake_witness.
#[local] Existing Instance ToyBox.box.
#[local] Existing Instance ToyBox.laws.

Lemma cryptohandshake_round_trip_witness :
  exists p, cryptohandshake_packet (pk 1) (sk 1) (zeros 24) (pk 2) (le_bytes 24 9) (pk 3) = Some p /\
            handle_cryptohandshake (sk 2) p = Some (pk 1, le_bytes 24 9, pk 3).
Proof.
  destruct (cryptohandshake_round_trip 1 2 3 4 (zeros 24) (le_bytes 24 9)) as [(p & H1 & _ & H2) _].
  - apply length_zeros.
  - apply length_le_bytes.
  - by exists p.
Defined.
End handshake_witness.

(** ** Encrypted connections *)

Definition cc_at (s : Net_Crypto) (i : Z) (cc : Crypto_Connection) : Prop :=
  0 <= i /\ crypto_connections s !! Z.to_nat i = Some cc.

Lemma cc_at_valid s i cc : cc_at s i cc -> cc_valid s i = true.
Proof.
  intros [Hi Hl]. apply lookup_lt_Some in Hl. unfold cc_valid, cc_length. apply andb_true_iff.
  split; [apply Z.leb_le|apply Z.ltb_lt]; lia.
Qed.

Lemma wp_get_cc i Q s w cc : cc_at s i cc -> wp (get_cc i) Q s w = Q cc s w.
Proof.
  intros [Hi Hl]. unfold get_cc. rewrite wp_bind, wp_get.
  destruct (Z.ltb_spec i 0); [lia|]. rewrite Hl. done.
Qed.

Lemma cc_valid_at s i : cc_valid s i = true -> exists cc, cc_at s i cc.
Proof.
  unfold cc_valid, cc_length. intros Hv. bool_to_prop.
  destruct (lookup_lt_is_Some_2 (crypto_connections s) (Z.to_nat i)) as [cc Hcc]; [lia|]. by exists cc.
Qed.

(** The crypto connections after number [i] is closed: its slot is zeroed, and the
    free slots at the end are dropped. *)
Definition ccs_without (i : Z) (l : list Crypto_Connection) : list Crypto_Connection :=
  let l := <[Z.to_nat i := cc_zero]> l in take (shrink cc_live l (length l)) l.

(** [crypto_kill] always ends: there was nothing to close, or the connection is gone,
    and its transport with it. *)
Lemma wp_crypto_kill i Q s w :
  ludp_wf (lossless_udp s) ->
  ((forall cc, cc_at s i cc -> cc_live cc = false) -> Q 1 s w) ->
  (forall cc l w', cc_at s i cc -> cc_live cc = true -> ludp_wf l ->
     Q 0 (set_crypto_connections (ccs_without i (crypto_connections s)) (set_lossless_udp l s)) w') ->
  wp (crypto_kill i) Q s w.
Proof.
  intros Hwf H1 H2. unfold crypto_kill. do 2 wp_step. destruct (cc_valid s i) eqn:Hv; simpl negb; cbv iota.
  2: { wp_step. apply H1. intros cc Hcc%cc_at_valid. congruence. }
  apply cc_valid_at in Hv as [cc Hcc]. wp_step. erewrite wp_get_cc by done. wp_step.
  2: { wp_step. apply H1. intros cc' [_ Hcc']. destruct Hcc as [_ Hcc]. by simplify_eq. }
  assert (Hrest : forall l w', ludp_wf l ->
    wp (put_cc i cc_zero ;;; s <- getM ;;
        (let i := shrink cc_live (crypto_connections s) (length (crypto_connections s)) in
         modM (set_crypto_connections (take i (crypto_connections s))) ;;;
         realloc_cryptoconnection i ;;; retM 0)) Q
      (set_lossless_udp l (set_crypto_connections (<[Z.to_nat i := set_cc_status CONN_NO_CONNECTION cc]>
         (crypto_connections s)) s)) w').
  { intros l w' Hl. wp_step. unfold put_cc. do 3 wp_step. cbv zeta. do 3 wp_step.
    cbn [crypto_connections set_crypto_connections set_lossless_udp]. rewrite list_insert_insert_eq.
    unfold realloc_cryptoconnection. fold (ccs_without i (crypto_connections s)).
    destruct (shrink _ _ _); repeat wp_step; by eapply H2. }
  wp_step. unfold put_cc at 1. do 2 wp_step. unfold ludp. rewrite wp_zoom.
  apply wp_kill_connection; [done|intros w1 _; by apply Hrest|intros c1 l1 l2 w1 _ _ _ _ Hl; by apply Hrest].
Qed.

(** The connection [i] after its nonce has moved on. *)
Definition upd_cc (s : Net_Crypto) (l : Lossless_UDP) (i : Z) (cc : Crypto_Connection) : Net_Crypto :=
  set_crypto_connections (<[Z.to_nat i := cc]> (crypto_connections s)) (set_lossless_udp l s).

(** The packet that carries [data] on a connection. *)
Definition crypt_packet `{CryptoBox} (key nonce data : list Z) : option (list Z) :=
  option_map (cons 3) (encrypt_data_fast key nonce data).

(** What [write_cryptpacket] does on an established connection. *)
Lemma wp_write_cryptpacket `{CryptoBoxLaws} s w i cc c data :
  ludp_wf (lossless_udp s) -> cc_at s i cc -> cc_status cc = CONN_ESTABLISHED ->
  conn_at (lossless_udp s) (cc_number cc) c ->
  wp (write_cryptpacket i data)
    (fun r s' _ =>
       (r = 0 /\ s' = s /\ ~ ((1 <= length data <= 1007)%nat /\ sendqueue_conn c < 15)) \/
       (r = 1 /\ (1 <= length data <= 1007)%nat /\ sendqueue_conn c < 15 /\
        exists p, crypt_packet (cc_shared_key cc) (cc_sent_nonce cc) data = Some p /\
          s' = upd_cc s (upd (lossless_udp s) (cc_number cc) (write_packet_conn c p)) i
                 (set_cc_sent_nonce (increment_nonce (cc_sent_nonce cc)) cc))) s w.
Proof.
  intros Hwf Hcc Hst Hc. unfold write_cryptpacket. do 2 wp_step. rewrite (cc_at_valid _ _ _ Hcc).
  cbn [negb]. wp_step; [wp_step; left; csize; split_and!; [done|done|]; intros [??]; lia|].
  wp_step. erewrite wp_get_cc by done. rewrite Hst. cbn [negb Z.eqb CONN_ESTABLISHED Pos.eqb].
  destruct (encrypt_data_fast (cc_shared_key cc) (cc_sent_nonce cc) data) as [enc|] eqn:He.
  2: { wp_step. left. split_and!; [done|done|]. intros [Hl _].
       destruct (encrypt_data_fast_total (cc_shared_key cc) (cc_sent_nonce cc) data) as [e' E'];
         [lia|lia|congruence]. }
  destruct (encrypt_data_fast_bounds _ _ _ _ He) as (B1 & B2 & B3).
  assert (Hlen : (1 <= length data <= 1007)%nat) by (csize; lia).
  wp_step. unfold ludp. rewrite wp_zoom. eapply wp_write_packet; [done|done| |].
  - intros Hno. cbn [Z.eqb]. wp_step. left. split_and!; [done|by destruct s|].
    intros [_ Hq]. apply Hno. split; [cbn [app length]; lia|done].
  - intros _ Hq Hwf'. cbn [Z.eqb]. wp_step. unfold put_cc. wp_step. wp_step.
    right. split_and!; [done|lia..|done|]. exists (3 :: enc). unfold crypt_packet. rewrite He.
    split; [done|]. done.
Qed.

(** C19: [write_cryptpacket] on an established connection whose transport exists: 0
    with nothing changed, or 1 with the encrypted packet in the transport's queue and
    the nonce incremented; it is 1 exactly when the data has 1 to 1007 bytes and the
    queue has room. *)
Theorem write_cryptpacket_effect `{CryptoBoxLaws} s w i cc c data :
  ludp_wf (lossless_udp s) -> cc_at s i cc -> cc_status cc = CONN_ESTABLISHED ->
  conn_at (lossless_udp s) (cc_number cc) c ->
  wp (write_cryptpacket i data)
    (fun r s' _ =>
       (r = 0 /\ s' = s /\ ~ ((1 <= length data <= 1007)%nat /\ sendqueue_conn c < 15)) \/
       (r = 1 /\ (1 <= length data <= 1007)%nat /\ sendqueue_conn c < 15 /\
        exists p, crypt_packet (cc_shared_key cc) (cc_sent_nonce cc) data = Some p /\
          s' = upd_cc s (upd (lossless_udp s) (cc_number cc) (write_packet_conn c p)) i
                 (set_cc_sent_nonce (increment_nonce (cc_sent_nonce cc)) cc))) s w.
Proof. apply wp_write_cryptpacket. Qed.

(** *** Examples on a small instance *)

Definition demo_key : list Z := le_bytes 32 77.

Definition demo_cc : Crypto_Connection :=
  set_cc_shared_key demo_key (set_cc_status CONN_ESTABLISHED (set_cc_number 0 cc_zero)).

Definition demo_transport : Connection := set_status 3 (set_SYNC_rate 10 (set_data_rate 30 conn_zero)).

Lemma demo_transport_wf : conn_wf demo_transport.
Proof. unfold demo_transport. from_zero; uarith. Qed.

Definition demo_nc (c : Connection) (cc : Crypto_Connection) : Net_Crypto :=
  mkNC (mkLudp net_zero (mk_tox_array [c]) (replicate 6 (zeros 256))) [cc] (zeros 32) (zeros 32)
    (replicate MAX_INCOMING (-1)) ∅.

Lemma demo_nc_wf c cc : conn_wf c -> ludp_wf (lossless_udp (demo_nc c cc)).
Proof.
  intros Hc. split; simpl.
  - by apply Forall_singleton.
  - by intros [|i] [|j] ci cj Hi Hj.
  - apply (new_lossless_udp_wf net_zero).
Qed.

Section write_witness.
#[local] Existing Instance ToyBox.box.
#[local] Existing Instance ToyBox.laws.

Lemma write_cryptpacket_effect_witness :
  wp (write_cryptpacket 0 [10; 11])
    (fun r s' _ =>
       (r = 0 /\ s' = demo_nc demo_transport demo_cc /\
        ~ ((1 <= length [10; 11] <= 1007)%nat /\ sendqueue_conn demo_transport < 15)) \/
       (r = 1 /\ (1 <= length [10; 11] <= 1007)%nat /\ sendqueue_conn demo_transport < 15 /\
        exists p, crypt_packet (cc_shared_key demo_cc) (cc_sent_nonce demo_cc) [10; 11] = Some p /\
          s' = upd_cc (demo_nc demo_transport demo_cc)
                 (upd (lossless_udp (demo_nc demo_transport demo_cc)) (cc_number demo_cc)
                    (write_packet_conn demo_transport p)) 0
                 (set_cc_sent_nonce (increment_nonce (cc_sent_nonce demo_cc)) demo_cc)))
    (demo_nc demo_transport demo_cc) (still_world 0 0).
Proof.
  apply (write_cryptpacket_effect (demo_nc demo_transport demo_cc) (still_world 0 0) 0 demo_cc
           demo_transport [10; 11]).
  - apply demo_nc_wf, demo_transport_wf.
  - split; [lia|done].
  - done.
  - done.
Defined.
End write_witness.

(** [read_cryptpacket] undoes [write_cryptpacket]: when the next packet of the
    transport is the one a peer with the same key and nonce has written for [data],
    the result is [data], the transport moves to the next packet and the nonce is
    incremented like the writer's. *)
Theorem read_cryptpacket_inverts `{CryptoBoxLaws} s w i cc c data :
  ludp_wf (lossless_udp s) -> cc_at s i cc -> cc_status cc = CONN_ESTABLISHED ->
  conn_at (lossless_udp s) (cc_number cc) c -> recvqueue_conn c <> 0 ->
  crypt_packet (cc_shared_key cc) (cc_recv_nonce cc) data = Some (fst (read_packet_conn c)) ->
  wp (read_cryptpacket i)
    (fun r s' _ => r = (Z.of_nat (length data), data) /\
       s' = upd_cc s (upd (lossless_udp s) (cc_number cc) (snd (read_packet_conn c))) i
              (set_cc_recv_nonce (increment_nonce (cc_recv_nonce cc)) cc)) s w.
Proof.
  intros Hwf Hcc Hst Hc Hq Hp. unfold crypt_packet in Hp.
  destruct (encrypt_data_fast (cc_shared_key cc) (cc_recv_nonce cc) data) as [enc|] eqn:He; [|done].
  apply (inj Some) in Hp. pose proof (decrypt_encrypt_fast _ _ _ _ He) as Hd.
  pose proof (read_packet_conn_size _ (conn_at_wf _ _ _ Hwf Hc) Hq) as Hsz.
  unfold read_cryptpacket. do 2 wp_step. rewrite (cc_at_valid _ _ _ Hcc). cbn [negb].
  wp_step. erewrite wp_get_cc by done. rewrite Hst. cbn [negb Z.eqb CONN_ESTABLISHED Pos.eqb].
  wp_step. unfold ludp. rewrite wp_zoom. apply wp_read_packet; [done| |].
  { rewrite (recvqueue_at _ _ _ Hc). done. }
  intros c' Hc' _ _. assert (c' = c) as -> by (unfold conn_at in *; congruence).
  rewrite <- Hp. destruct (Z.eqb_spec (d_size (buf_get (recvbuffer c) (successful_read c))) 0); [lia|].
  change (nth 0 (3 :: enc) 0) with 3. change (drop 1 (3 :: enc)) with enc. cbn [negb Z.eqb Pos.eqb].
  rewrite Hd. wp_step. unfold put_cc. do 2 wp_step. done.
Qed.

Section read_witness.
#[local] Existing Instance ToyBox.box.
#[local] Existing Instance ToyBox.laws.

(** A transport that has received the packet written for the bytes 10 and 11. *)
Definition demo_packet : list Z := default [] (crypt_packet demo_key (zeros 24) [10; 11]).
Definition demo_received : Connection :=
  advance_recv (store_recv 1 demo_packet 0 (store_recv 0 demo_packet 0 demo_transport)).

Lemma demo_received_wf : conn_wf demo_received.
Proof.
  apply advance_recv_wf; [|done..].
  apply (store_recv_wf (store_recv 0 demo_packet 0 demo_transport)); [|vm_compute; lia|done|done|].
  - apply (store_recv_wf demo_transport); [apply demo_transport_wf|vm_compute; lia|done|done|].
    exists 0. split; [vm_compute; split; [discriminate|reflexivity]|done].
  - exists 1. split; [vm_compute; split; [discriminate|reflexivity]|done].
Qed.

Lemma read_cryptpacket_inverts_witness :
  wp (read_cryptpacket 0)
    (fun r s' _ => r = (Z.of_nat (length [10; 11]), [10; 11]) /\
       s' = upd_cc (demo_nc demo_received demo_cc)
              (upd (lossless_udp (demo_nc demo_received demo_cc)) (cc_number demo_cc)
                 (snd (read_packet_conn demo_received))) 0
              (set_cc_recv_nonce (increment_nonce (cc_recv_nonce demo_cc)) demo_cc))
    (demo_nc demo_received demo_cc) (still_world 0 0).
Proof.
  apply (read_cryptpacket_inverts (demo_nc demo_received demo_cc) (still_world 0 0) 0 demo_cc
           demo_received [10; 11]).
  - apply demo_nc_wf, demo_received_wf.
  - split; [lia|done].
  - done.
  - done.
  - vm_compute. discriminate.
  - vm_compute. reflexivity.
Defined.
End read_witness.

(** *** Streams *)

Section stream.
Context `{CryptoBox}.

(** The packets of successive writes on a connection. *)
Fixpoint crypt_stream (key nonce : list Z) (msgs : list (list Z)) : option (list (list Z)) :=
  match msgs with
  | [] => Some []
  | m :: r =>
    match crypt_packet key nonce m, crypt_stream key (increment_nonce nonce) r with
    | Some p, Some rest => Some (p :: rest)
    | _, _ => None
    end
  end.

(** The results of successive reads of those packets; a packet that is discarded
    leaves the nonce as it is. *)
Fixpoint open_stream (key nonce : list Z) (pkts : list (list Z)) : list (list Z) :=
  match pkts with
  | [] => []
  | p :: r =>
    match (if nth 0 p 0 =? 3 then decrypt_data_fast key nonce (drop 1 p) else None) with
    | Some m => m :: open_stream key (increment_nonce nonce) r
    | None => open_stream key nonce r
    end
  end.
End stream.

(** The messages an end decrypts are a prefix of those the other end encrypted,
    when the packets it is given are a prefix of those the other end sent (which is
    what the transport delivers): nothing lost, repeated or out of order. *)
Theorem stream_round_trip `{CryptoBoxLaws} key nonce msgs pkts got :
  crypt_stream key nonce msgs = Some pkts -> got `prefix_of` pkts ->
  open_stream key nonce got = take (length got) msgs.
Proof.
  revert nonce pkts got. induction msgs as [|m r IH]; intros nonce pkts got Hs Hpre; simpl in Hs.
  - injection Hs as <-. apply prefix_nil_inv in Hpre as ->. done.
  - destruct (crypt_packet key nonce m) as [p|] eqn:Ep; [|done].
    destruct (crypt_stream key (increment_nonce nonce) r) as [rest|] eqn:Er; [|done].
    injection Hs as <-. destruct got as [|q got]; [done|].
    pose proof (prefix_cons_inv_1 _ _ _ _ Hpre) as ->. apply prefix_cons_inv_2 in Hpre.
    unfold crypt_packet in Ep. destruct (encrypt_data_fast key nonce m) as [enc|] eqn:He; [|done].
    injection Ep as <-. cbn [open_stream length take].
    change (nth 0 (3 :: enc) 0) with 3. change (drop 1 (3 :: enc)) with enc. cbn [Z.eqb Pos.eqb].
    rewrite (decrypt_encrypt_fast _ _ _ _ He). f_equal. by eapply IH.
Qed.

Section stream_witness.
#[local] Existing Instance ToyBox.box.
#[local] Existing Instance ToyBox.laws.

Lemma stream_round_trip_witness :
  open_stream demo_key (zeros 24)
    (take 2 (default [] (crypt_stream demo_key (zeros 24) [[1]; [2; 3]; [4]]))) = [[1]; [2; 3]].
Proof.
  apply (stream_round_trip demo_key (zeros 24) [[1]; [2; 3]; [4]]
           (default [] (crypt_stream demo_key (zeros 24) [[1]; [2; 3]; [4]]))).
  - vm_compute. reflexivity.
  - apply prefix_take.
Defined.
End stream_witness.

(** ** Where the code breaks its promise *)

Lemma get_cc_at s i cc w : cc_at s i cc -> get_cc i s w = Some (cc, s, w).
Proof.
  intros [Hi Hl]. unfold get_cc. erewrite bind_eval by done.
  destruct (Z.ltb_spec i 0); [lia|]. by rewrite Hl.
Qed.

(** A connection that [receive_crypto] passes over: it waits for no confirmation, and if it
    waits for a handshake nothing has arrived on it. *)
Definition passed_over (s : Net_Crypto) (cc : Crypto_Connection) : Prop :=
  cc_status cc <> CONN_NOT_CONFIRMED /\
  (cc_status cc = CONN_HANDSHAKE_SENT -> id_packet (lossless_udp s) (cc_number cc) = -1).

Section receive.
Context `{CryptoBox}.

Lemma receive_loop_pass s w i k : forall n j, 0 <= j -> i = j + Z.of_nat k -> i <= cc_length s ->
  (forall m ccm, m < i -> cc_at s m ccm -> passed_over s ccm) ->
  receive_loop (k + n) j s w = receive_loop n i s w.
Proof.
  induction k as [|k IH]; intros n j Hj Hi Hlen Hpre; [by replace i with j by lia|].
  cbn [Nat.add receive_loop]. erewrite bind_eval by done. destruct (Z.ltb_spec j (cc_length s)); [|lia].
  destruct (lookup_lt_is_Some_2 (crypto_connections s) (Z.to_nat j)) as [cc Hcc]; [unfold cc_length in *; lia|].
  assert (Hat : cc_at s j cc) by done. destruct (Hpre j cc) as [Hnc Hhs]; [lia|done|].
  assert (E1 : receive_handshake j s w = Some (false, s, w)).
  { unfold receive_handshake. erewrite bind_eval by (by apply get_cc_at).
    destruct (Z.eqb_spec (cc_status cc) CONN_HANDSHAKE_SENT) as [E|]; [|done]. cbn [negb].
    unfold bindM, getM. by rewrite Hhs. }
  assert (E2 : receive_confirmation j s w = Some (false, s, w)).
  { unfold receive_confirmation. erewrite bind_eval by (by apply get_cc_at).
    by destruct (Z.eqb_spec (cc_status cc) CONN_NOT_CONFIRMED). }
  erewrite bind_eval by exact E1. cbn iota. erewrite bind_eval by exact E2. apply IH; auto; lia.
Qed.

(** [receive_crypto] is the turn of connection [i] and of those after it, when those before
    it are passed over. *)
Lemma wp_receive_crypto i cc Q s w :
  cc_at s i cc -> (forall j ccj, j < i -> cc_at s j ccj -> passed_over s ccj) ->
  wp (receive_handshake i) (fun stop s1 w1 => stop = false /\
    wp (receive_confirmation i) (fun stop s2 w2 => stop = true /\ Q tt s2 w2) s1 w1) s w ->
  wp receive_crypto Q s w.
Proof.
  intros [Hi Hl] Hpre Hturn. pose proof (lookup_lt_Some _ _ _ Hl) as Hlt. unfold receive_crypto. do 2 wp_step.
  replace (length (crypto_connections s)) with (Z.to_nat i + S (length (crypto_connections s) - Z.to_nat i - 1))%nat by lia.
  unfold wp. rewrite (receive_loop_pass s w i) by (done || (unfold cc_length; lia)).
  set (n := (length _ - _ - 1)%nat). fold (wp (receive_loop (S n) i) Q s w). cbn [receive_loop]. do 2 wp_step. destruct (Z.ltb_spec i (cc_length s)); [|unfold cc_length in *; lia].
  wp_step. eapply wp_mono; [exact Hturn|]. intros ? s1 w1 [-> H1]. wp_step.
  eapply wp_mono; [exact H1|]. intros ? s2 w2 [-> H2]. by wp_step.
Qed.
End receive.

(** [receive_crypto] looks no further than the first connection that waits for
    its confirmation: while that one stays silent, a handshake or a confirmation that
    has arrived on any later connection is not looked at. *)
Theorem receive_crypto_stops s w i cc :
  cc_at s i cc -> cc_status cc = CONN_NOT_CONFIRMED ->
  id_packet (lossless_udp s) (cc_number cc) = -1 ->
  (forall j ccj, j < i -> cc_at s j ccj -> cc_status ccj = CONN_ESTABLISHED) ->
  forall `{CryptoBox}, receive_crypto s w = Some (tt, s, w).
Proof.
  intros Hi Hst Hid Hpre Hbox.
  assert (Hw : wp receive_crypto (fun _ s' w' => s' = s /\ w' = w) s w).
  { eapply wp_receive_crypto; [done| |].
    - intros j ccj Hj Hat. unfold passed_over. by rewrite (Hpre j ccj Hj Hat).
    - unfold receive_handshake. wp_step. unfold wp at 1. rewrite (get_cc_at _ _ _ _ Hi), Hst.
      cbn [negb Z.eqb CONN_NOT_CONFIRMED CONN_HANDSHAKE_SENT Pos.eqb]. wp_step. split; [done|].
      unfold receive_confirmation. wp_step. unfold wp at 1. rewrite (get_cc_at _ _ _ _ Hi), Hst.
      cbn [negb Z.eqb CONN_NOT_CONFIRMED Pos.eqb]. do 2 wp_step. rewrite Hid. by do 3 wp_step. }
  apply wp_Some in Hw as ([] & s' & w' & E & -> & ->). exact E.
Qed.

Lemma receive_crypto_stops_witness :
  receive_crypto (H := ToyBox.box) (demo_nc demo_transport (set_cc_status CONN_NOT_CONFIRMED demo_cc))
    (still_world 0 0)
  = Some (tt, demo_nc demo_transport (set_cc_status CONN_NOT_CONFIRMED demo_cc), still_world 0 0).
Proof.
  apply (receive_crypto_stops _ _ 0 (set_cc_status CONN_NOT_CONFIRMED demo_cc)).
  - split; [lia|done].
  - done.
  - vm_compute. reflexivity.
  - intros j ccj Hj [Hj0 _]. lia.
Defined.
