(* ===== verification/Session.v ===== *)
(** * net_crypto.c: making an encrypted connection

    The exchange of handshakes between two nodes: [crypto_connect] at the one,
    [crypto_inbound] and [accept_crypto_inbound] at the other, [receive_crypto] at both,
    with the packets each of them leaves in the queue of its transport. *)

From S2P Require Import Prelude MiscTools Network LosslessUDP LosslessInv LosslessSafe Crypto NetCrypto CryptoThms.
Local Open Scope Z_scope.
Local Open Scope tox_scope.

(** The packets [ps] were the last to be put in the send queue of transport [n]. *)
Definition sent (s : Net_Crypto) (n : Z) (ps : list (list Z)) : Prop :=
  exists c, conn_at (lossless_udp s) n (foldl write_packet_conn c ps).

(** The packet [p] is the next to be read on the live transport [n], and the send queue
    has room for [k] packets. *)
Definition arrived (s : Net_Crypto) (n : Z) (p : list Z) (k : Z) : Prop :=
  ludp_wf (lossless_udp s) /\ exists c, conn_at (lossless_udp s) n c /\ status c = 3 /\
    recvqueue_conn c <> 0 /\ fst (read_packet_conn c) = p /\ sendqueue_conn c + k <= 15.

(** ** Reading and writing packets *)

Section steps.
Context `{CryptoBoxLaws}.

Lemma wp_ludp {A} (m : M Lossless_UDP A) Q s w :
  wp (ludp m) Q s w = wp m (fun a l => Q a (set_lossless_udp l s)) (lossless_udp s) w.
Proof. unfold ludp. by rewrite wp_zoom. Qed.

Lemma sendqueue_read c : sendqueue_conn (snd (read_packet_conn c)) = sendqueue_conn c.
Proof. done. Qed.

Lemma sendqueue_write c p : 0 <= sendqueue_conn c < 15 -> sendqueue_conn (write_packet_conn c p) = sendqueue_conn c + 1.
Proof. unfold sendqueue_conn. simpl. uarith. Qed.

Lemma arrived_room s n p k k' : arrived s n p k -> k' <= k -> arrived s n p k'.
Proof. intros (? & c & ? & ? & ? & ? & ?) ?. split; [done|]. exists c. split_and!; (done || lia). Qed.

(** Reading the packet that has arrived. *)
Lemma wp_read_arrived n p k Q s w :
  arrived s n p k ->
  (forall c sz, conn_at (lossless_udp s) n c -> status c = 3 -> sendqueue_conn c + k <= 15 ->
     let l := upd (lossless_udp s) n (snd (read_packet_conn c)) in
     ludp_wf l -> conn_at l n (snd (read_packet_conn c)) ->
     Q (sz, p) (set_lossless_udp l s) w) ->
  wp (ludp (read_packet n)) Q s w.
Proof.
  intros (Hwf & c & Hc & Hst & Hq & Hp & Hk) HQ. rewrite wp_ludp. apply wp_read_packet; [done|..].
  { by rewrite (recvqueue_at _ _ _ Hc). }
  intros c' Hc' _ Hwf'. assert (c' = c) as -> by (unfold conn_at in *; congruence).
  rewrite Hp. apply HQ; [done..|]. by eapply conn_at_upd.
Qed.

(** What [id_packet] says of it. *)
Lemma id_packet_arrived n b p k s :
  arrived s n (b :: p) k -> 0 <= b < 128 -> id_packet (lossless_udp s) n = b.
Proof.
  intros (Hwf & c & Hc & Hst & Hq & Hp & _) Hb. unfold id_packet.
  rewrite (recvqueue_at _ _ _ Hc). unfold conn_at in Hc. rewrite Hc, Hst.
  assert (valid_id (lossless_udp s) n = true) as -> by (apply valid_id_conn; by exists c).
  destruct (Z.eqb_spec (recvqueue_conn c) 0); [done|]. simpl.
  unfold read_packet_conn in Hp. simpl in Hp.
  destruct (d_data (buf_get (recvbuffer c) (successful_read c))) as [|x r]; [by rewrite take_nil in Hp|].
  destruct (Z.to_nat _); simpl in Hp; [done|]. injection Hp as -> _. simpl. unfold i8, u8.
  rewrite Z.mod_small by lia. by destruct (Z.ltb_spec b 128); [|lia].
Qed.

Lemma id_packet_empty l n c : conn_at l n c -> recvqueue_conn c = 0 -> id_packet l n = -1.
Proof. intros Hc Hq. unfold id_packet. by rewrite (recvqueue_at _ _ _ Hc), Hq, orb_true_r. Qed.

(** Writing on a transport with room. *)
Lemma wp_write_room n p Q s w c :
  ludp_wf (lossless_udp s) -> conn_at (lossless_udp s) n c -> sendqueue_conn c < 15 -> (0 < length p <= 1024)%nat ->
  (let l := upd (lossless_udp s) n (write_packet_conn c p) in
   ludp_wf l -> conn_at l n (write_packet_conn c p) -> Q 1 (set_lossless_udp l s) w) ->
  wp (ludp (write_packet n p)) Q s w.
Proof.
  intros Hwf Hc Hq Hp HQ. rewrite wp_ludp. eapply wp_write_packet; [done|done|tauto|].
  intros _ _ Hwf'. apply HQ; [done|]. by eapply conn_at_upd.
Qed.

(** The invitation of [a] to [b]: its nonce, its session key and the packet. *)
Definition invitation (a b : Z) (sn : list Z) (sd : Z) (p : list Z) : Prop :=
length sn = 24%nat /\ exists nonce, length nonce = 24%nat /\
  cryptohandshake_packet (pk a) (sk a) nonce (pk b) sn (pk sd) = Some p.

Lemma invitation_opens a b sn sd p :
  invitation a b sn sd p -> handle_cryptohandshake (sk b) p = Some (pk a, sn, pk sd) /\
  length p = 129%nat /\ exists q, p = 2 :: q.
Proof.
  intros (Hsn & nonce & Hn & E). destruct (cryptohandshake_opens a b sd nonce sn Hn Hsn) as (p' & E' & Hl & Ho).
  rewrite E in E'. injection E' as <-. split_and!; [done|done|].
  unfold cryptohandshake_packet in E. repeat case_match; simplify_eq. by eexists.
Qed.

Lemma wp_send_cryptohandshake a b n sn sd Q s w c :
  self_public_key s = pk a -> self_secret_key s = sk a -> length sn = 24%nat ->
  ludp_wf (lossless_udp s) -> conn_at (lossless_udp s) n c -> sendqueue_conn c < 15 ->
  (forall p w', invitation a b sn sd p ->
     let l := upd (lossless_udp s) n (write_packet_conn c p) in
     ludp_wf l -> conn_at l n (write_packet_conn c p) -> Q 1 (set_lossless_udp l s) w') ->
  wp (send_cryptohandshake n (pk b) sn (pk sd)) Q s w.
Proof.
  intros Epk Esk Hsn Hwf Hc Hq HQ. unfold send_cryptohandshake. do 2 wp_step. wp_step.
  apply wp_random_nonce. intros nonce w1 Hn _. rewrite Epk, Esk.
  destruct (cryptohandshake_opens a b sd nonce sn Hn Hsn) as (p & E & Hl & Ho). rewrite E.
  eapply wp_write_room; [done|done|done|lia|]. apply HQ. split; [done|by exists nonce].
Qed.

Lemma take_pk a : take crypto_box_PUBLICKEYBYTES (pk a) = pk a.
Proof. apply take_ge. by rewrite length_pk. Qed.

(** ** Confirming *)

Definition session_key (cc : Crypto_Connection) : list Z :=
encrypt_precompute (cc_peersessionpublic_key cc) (cc_sessionsecret_key cc).

Definition confirmed (cc : Crypto_Connection) : Crypto_Connection :=
set_cc_status CONN_NOT_CONFIRMED (set_cc_sent_nonce (increment_nonce (cc_sent_nonce cc))
  (set_cc_shared_key (session_key cc) cc)).

Lemma cc_at_insert s l i cc cc' : cc_at s i cc -> cc_at (upd_cc s l i cc') i cc'.
Proof.
  intros [Hi Hl]. split; [done|]. simpl. apply list_lookup_insert_eq. by eapply lookup_lt_Some.
Qed.

Lemma wp_confirm_session i cc Q s w cc0 c :
  ludp_wf (lossless_udp s) -> cc_at s i cc0 -> conn_at (lossless_udp s) (cc_number cc) c -> sendqueue_conn c < 15 ->
  (forall p w', crypt_packet (session_key cc) (cc_sent_nonce cc) zero_word = Some p ->
     let l := upd (lossless_udp s) (cc_number cc) (write_packet_conn c p) in
     ludp_wf l -> conn_at l (cc_number cc) (write_packet_conn c p) -> Q tt (upd_cc s l i (confirmed cc)) w') ->
  wp (confirm_session i cc) Q s w.
Proof.
  intros Hwf Hcc Hc Hq HQ. unfold confirm_session. fold (session_key cc). wp_step. unfold put_cc at 1. do 2 wp_step.
  set (cc1 := set_cc_status _ _).
  set (s1 := set_crypto_connections _ s).
  assert (Hcc1 : cc_at s1 i cc1) by (by apply (cc_at_insert s (lossless_udp s) i cc0)).
  eapply wp_mono; [by apply (wp_write_cryptpacket s1 w i cc1 c zero_word)|].
  intros r s' w' [(-> & -> & Hno)|(-> & _ & _ & p & Hp & ->)].
  { destruct Hno. split; [simpl; lia|done]. }
  assert (Hpl : (0 < length p <= 1024)%nat).
  { unfold crypt_packet in Hp. destruct (encrypt_data_fast _ _ _) as [enc|] eqn:He; [|done].
    injection Hp as <-. destruct (encrypt_data_fast_bounds _ _ _ _ He) as (_ & B2 & B3). simpl in *. csize. lia. }
  assert (Hat : conn_at (upd (lossless_udp s) (cc_number cc) (write_packet_conn c p)) (cc_number cc)
    (write_packet_conn c p)) by (by eapply conn_at_upd).
  wp_step. erewrite wp_get_cc by (by apply (cc_at_insert _ _ _ cc1)). unfold put_cc. wp_step.
  replace (set_crypto_connections _ _) with
    (upd_cc s (upd (lossless_udp s) (cc_number cc) (write_packet_conn c p)) i (confirmed cc)).
  { apply HQ; [done| |done]. eapply ludp_wf_upd; [done|done|..]; [|done..].
    apply write_packet_conn_wf; [by eapply conn_at_wf|lia]. }
  unfold upd_cc, set_crypto_connections. simpl. by rewrite !list_insert_insert_eq.
Qed.
(** ** The caller *)

(** With memory, a connection to a new address is made, and numbered below the number of
  connections. *)
Lemma wlp_new_connection_some ipp l w :
  w_nomem w = [] -> getconnection_id l ipp = -1 ->
  wlp (new_connection ipp) (fun id _ w' => 0 <= id <= conn_count l) l w.
Proof.
  intros Hw Hn. unfold new_connection. do 2 wlp_step. rewrite Hn. simpl. rewrite wlp_bind.
  apply (wlp_mono _ (fun id l' _ => 0 <= id <= conn_count l)).
  2: { intros id l' w' Hid. destruct (Z.eqb_spec id (-1)); [lia|]. repeat (rewrite wlp_bind; apply wlp_any; intros). done. }
  unfold free_slot. do 2 wlp_step. destruct (first_index _ _) as [k|] eqn:E.
  - wlp_step. apply first_index_Some in E as (x & Hx & _). apply lookup_lt_Some in Hx. unfold conn_count, ta_len. lia.
  - rewrite wlp_bind. unfold wlp at 1. rewrite alloc_works by done. simpl. do 2 wlp_step. wlp_step.
    unfold conn_count, ta_len. simpl. rewrite length_app. simpl. lia.
Qed.
(** A crypto connection in the slot that was found for it. *)
Definition in_slot (s : Net_Crypto) (i : nat) (cc : Crypto_Connection) : Net_Crypto :=
set_crypto_connections (if (i =? length (crypto_connections s))%nat then crypto_connections s ++ [cc]
                        else <[i := cc]> (crypto_connections s)) s.

Lemma in_slot_at s i cc0 cc : cc_free_slot s = (i, cc0) -> cc_at (in_slot s i cc) (Z.of_nat i) cc.
Proof.
  unfold cc_free_slot. intros E. split; [lia|]. rewrite Nat2Z.id. unfold in_slot. simpl.
  destruct (first_index _ _) as [k|] eqn:Ek; injection E as <- _.
  - apply first_index_Some in Ek as (x & Hx & _). apply lookup_lt_Some in Hx.
    destruct (Nat.eqb_spec k (length (crypto_connections s))); [lia|]. by apply list_lookup_insert_eq.
  - rewrite Nat.eqb_refl. apply lookup_app_Some. right. by rewrite Nat.sub_diag.
Qed.

(** A node with key pair [a]. *)
Definition crypto_node (a : Z) (s : Net_Crypto) : Prop :=
self_public_key s = pk a /\ self_secret_key s = sk a /\ ludp_wf (lossless_udp s).

(** [cc] waits for the answer to the invitation [p]. *)
Record waits (a b : Z) (sn : list Z) (sd : Z) (cc : Crypto_Connection) (p : list Z) : Prop := {
  wt_invitation : invitation a b sn sd p;
  wt_status : cc_status cc = CONN_HANDSHAKE_SENT;
  wt_peer : cc_public_key cc = pk b;
  wt_recv : cc_recv_nonce cc = increment_nonce sn;
  wt_secret : cc_sessionsecret_key cc = sk sd
}.

Lemma wp_crypto_connect a b addr Q s w :
  crypto_node a s -> w_nomem w = [] -> getcryptconnection_id s (pk b) = -1 ->
  getconnection_id (lossless_udp s) addr = -1 -> conn_count (lossless_udp s) < 65536 ->
  (forall i sn sd cc p s' w', waits a b sn sd cc p -> cc_at s' i cc -> sent s' (cc_number cc) [p] -> Q i s' w') ->
  wp (crypto_connect (pk b) addr) Q s w.
Proof.
  intros (Epk & Esk & Hwf) Hw Hid Hnew Hcount HQ. unfold crypto_connect. do 2 wp_step. rewrite Hid. simpl negb.
  cbv iota. do 2 wp_step. rewrite Nat.add_1_r. cbn [realloc_cryptoconnection]. do 2 wp_step.
  unfold wp at 1. rewrite alloc_works by done. wp_step. simpl negb. cbv iota.
  destruct (cc_free_slot s) as [i cc0] eqn:Es. wp_step. rewrite wp_ludp.
  eapply wp_mono; [apply wp_wlp_and; [apply wp_new_connection; [done|intros ??? Hp; exact Hp]|by apply wlp_new_connection_some]|].
  intros id l1 w1 [[Hwf1 Hpost] Hidr]. destruct (Z.eqb_spec id (-1)); [lia|].
  destruct Hpost as [(? & ? & _)|[(? & _)|(_ & _ & _ & c & Hc & Hcs)]]; [congruence|lia|].
  wp_step. apply wp_random_nonce. intros sn w2 Hsn _. wp_step. unfold keypair. wp_step. apply wp_entropy.
  intros sd w3. wp_step. cbv zeta. unfold put_slot. do 2 wp_step.
  set (cc := set_cc_sessionsecret_key _ _).
  change (set_crypto_connections _ _) with (in_slot (set_lossless_udp l1 s) i cc).
  assert (Hat : cc_at (in_slot (set_lossless_udp l1 s) i cc) (Z.of_nat i) cc) by (by apply (in_slot_at _ _ cc0)).
  wp_step. eapply (wp_send_cryptohandshake a b id sn sd); [done..| |].
  { destruct (st_nums _ _ Hcs) as (_ & E1 & E2). unfold sendqueue_conn. rewrite E1, E2, Z.sub_diag. done. }
  intros p w4 Hp l2 Hwf2 Hc2. cbn [Z.eqb Pos.eqb]. wp_step. unfold put_cc. wp_step.
  assert (Hnum : cc_number cc = id) by (subst cc; simpl; apply u16_small; unfold is_u16; lia).
  eapply (HQ _ sn sd (set_cc_recv_nonce (increment_nonce (cc_recv_nonce cc)) cc) p).
  - split; try done. apply take_pk.
  - by apply (cc_at_insert (in_slot (set_lossless_udp l1 s) i cc) l2 _ cc).
  - exists c. change (conn_at l2 (cc_number cc) (write_packet_conn c p)). by rewrite Hnum.
Qed.
(** ** The callee *)

(** [crypto_inbound] returns the invitation that has arrived on the first connection that
  is kept in [incoming_connections]. *)
Lemma wp_inbound_loop a b sn sd p k x Q s w m i :
  self_secret_key s = sk b -> invitation a b sn sd p -> arrived s k p 0 -> k <> -1 ->
  (forall j, (i <= j < x)%nat -> nth j (incoming_connections s) (-1) = -1) -> (i <= x < i + m)%nat ->
  nth x (incoming_connections s) (-1) = k ->
  (forall c s', conn_at (lossless_udp s) k c ->
     s' = set_incoming_connections (<[x := -1]> (incoming_connections s))
            (set_lossless_udp (upd (lossless_udp s) k (snd (read_packet_conn c))) s) ->
     ludp_wf (lossless_udp s') -> conn_at (lossless_udp s') k (snd (read_packet_conn c)) ->
     Q (Some (k, pk a, sn, pk sd)) s' w) ->
  wp (inbound_loop m i) Q s w.
Proof.
  intros Hsk Hinv Harr Hk Hbefore. revert i Hbefore. induction m as [|m IH]; intros i Hbefore Hx Hnth HQ; [lia|].
  cbn [inbound_loop]. do 2 wp_step. destruct (decide (i = x)) as [->|Hne].
  2: { rewrite Hbefore by lia. cbn [Z.eqb negb Pos.eqb]. apply IH; [|lia|done|done]. intros j Hj. apply Hbefore. lia. }
  rewrite Hnth. destruct (Z.eqb_spec k (-1)); [done|]. simpl negb. cbv iota.
  pose proof (invitation_opens _ _ _ _ _ Hinv) as (Ho & _ & q & ->).
  pose proof Harr as (Hwf & c & Hc & Hst & _).
  assert (Econn : is_connected (lossless_udp s) k = 3).
  { unfold is_connected. assert (valid_id (lossless_udp s) k = true) as -> by (apply valid_id_conn; by exists c).
    unfold conn_at in Hc. by rewrite Hc. }
  rewrite Econn. cbn [Z.eqb orb Pos.eqb]. rewrite (id_packet_arrived _ _ _ _ _ Harr) by lia. cbn [Z.eqb Pos.eqb].
  wp_step. eapply wp_read_arrived; [done|]. intros c' sz Hc' _ _ l Hl Hcl. cbn [snd]. rewrite Hsk, Ho.
  wp_step. unfold set_incoming. do 2 wp_step. eapply HQ; [exact Hc'|reflexivity|done|done].
Qed.

(** [cc] has answered the invitation of [a] with the packets [p2] and [p3]. *)
Record answers (a b : Z) (sn sn2 : list Z) (sd sd2 : Z) (cc : Crypto_Connection) (p2 p3 : list Z) : Prop := {
  an_invitation : invitation b a sn2 sd2 p2;
  an_status : cc_status cc = CONN_NOT_CONFIRMED;
  an_peer : cc_public_key cc = pk a;
  an_peer_session : cc_peersessionpublic_key cc = pk sd;
  an_secret : cc_sessionsecret_key cc = sk sd2;
  an_recv : cc_recv_nonce cc = increment_nonce sn2;
  an_sent : cc_sent_nonce cc = increment_nonce (increment_nonce sn);
  an_packet : crypt_packet (encrypt_precompute (pk sd) (sk sd2)) (increment_nonce sn) zero_word = Some p3
}.

Lemma wp_accept a b sn sd k c Q s w :
  crypto_node b s -> length sn = 24%nat -> w_nomem w = [] -> 0 <= k < 65536 ->
  conn_at (lossless_udp s) k c -> sendqueue_conn c + 2 <= 15 ->
  (forall j sn2 sd2 cc p2 p3 s' w', answers a b sn sn2 sd sd2 cc p2 p3 -> cc_at s' j cc -> cc_number cc = k ->
     conn_at (lossless_udp s') k (write_packet_conn (write_packet_conn c p2) p3) -> Q j s' w') ->
  wp (accept_crypto_inbound k (pk a) sn (pk sd)) Q s w.
Proof.
  intros (Epk & Esk & Hwf) Hsn Hw Hk Hc Hq HQ. unfold accept_crypto_inbound.
  destruct (Z.eqb_spec k (-1)); [lia|]. do 2 wp_step. rewrite Nat.add_1_r. cbn [realloc_cryptoconnection].
  do 2 wp_step. unfold wp at 1. rewrite alloc_works by done. wp_step. simpl negb. cbv iota.
  destruct (cc_free_slot s) as [i cc0] eqn:Es. wp_step. apply wp_random_nonce. intros sn2 w1 Hsn2 _.
  wp_step. unfold keypair. wp_step. apply wp_entropy. intros sd2 w2. wp_step. cbv zeta. unfold put_slot. do 2 wp_step.
  rewrite !take_pk, (take_ge sn) by (by rewrite Hsn).
  set (cc := set_cc_sessionsecret_key _ _).
  change (set_crypto_connections _ _) with (in_slot s i cc).
  assert (Hat : cc_at (in_slot s i cc) (Z.of_nat i) cc) by (by apply (in_slot_at _ _ cc0)).
  assert (Hnum : cc_number cc = k) by (subst cc; simpl; apply u16_small; unfold is_u16; lia).
  assert (Hq0 : 0 <= sendqueue_conn c) by (unfold sendqueue_conn; uarith).
  wp_step. eapply (wp_send_cryptohandshake b a k sn2 sd2); [done..|lia|].
  intros p2 w3 Hp2 l Hl Hcl. cbn [Z.eqb Pos.eqb]. wp_step.
  set (cc1 := set_cc_recv_nonce _ cc). assert (Hnum1 : cc_number cc1 = k) by exact Hnum.
  eapply (wp_confirm_session _ cc1); [exact Hl|exact Hat|rewrite Hnum1; exact Hcl|rewrite sendqueue_write; lia|].
  intros p3 w4 Hp3 l3 Hl3 Hcl3. wp_step. eapply (HQ _ sn2 sd2 (confirmed cc1) p2 p3).
  - by split.
  - by apply (cc_at_insert (in_slot s i cc) _ _ cc).
  - done.
  - by rewrite Hnum1 in Hcl3.
Qed.
(** ** Completing the exchange *)

(** [receive_crypto] at the caller, when the answer arrives. *)
Lemma wp_receive_handshake a b sn sn2 sd sd2 i x p p2 Q s w :
  self_secret_key s = sk a -> waits a b sn sd x p -> invitation b a sn2 sd2 p2 -> cc_at s i x ->
  arrived s (cc_number x) p2 1 ->
  (forall p4 s' w', answers b a sn2 sn sd2 sd
       (confirmed (set_cc_peersessionpublic_key (pk sd2) (set_cc_sent_nonce (increment_nonce sn2) x))) p p4 ->
     cc_at s' i (confirmed (set_cc_peersessionpublic_key (pk sd2) (set_cc_sent_nonce (increment_nonce sn2) x))) ->
     sent s' (cc_number x) [p4] ->
     (recvqueue (lossless_udp s) (cc_number x) = 1 -> id_packet (lossless_udp s') (cc_number x) = -1) ->
     Q false s' w') ->
  wp (receive_handshake i) Q s w.
Proof.
  intros Hsk Hx Hinv Hcc Harr HQ. unfold receive_handshake. wp_step. erewrite wp_get_cc by done.
  rewrite (wt_status _ _ _ _ _ _ Hx). cbn [negb Z.eqb CONN_HANDSHAKE_SENT Pos.eqb]. do 2 wp_step.
  pose proof (invitation_opens _ _ _ _ _ Hinv) as (Ho & _ & q & ->).
  rewrite (id_packet_arrived _ _ _ _ _ Harr) by lia. cbn [Z.eqb Pos.eqb]. wp_step.
  eapply wp_read_arrived; [done|]. intros c sz Hc Hst Hq l Hl Hcl. cbn [snd]. rewrite Hsk, Ho.
  rewrite (wt_peer _ _ _ _ _ _ Hx). unfold memcmp_eq. rewrite bool_decide_eq_true_2 by done. wp_step.
  eapply wp_confirm_session; [exact Hl|exact Hcc|exact Hcl|rewrite sendqueue_read; lia|].
  intros p4 w4 Hp4 l3 Hl3 Hcl3. wp_step. eapply HQ.
  - destruct Hx. split; try done; simpl. rewrite <- Hp4. unfold session_key. simpl. congruence.
  - by apply (cc_at_insert s _ _ x).
  - by eexists.
  - rewrite (recvqueue_at _ _ _ Hc). intros Hone. apply (id_packet_empty _ _ _ Hcl3).
    unfold recvqueue_conn in *. simpl. uarith.
Qed.

Definition opened_session (cc : Crypto_Connection) : Crypto_Connection :=
set_cc_status CONN_ESTABLISHED (set_cc_shared_key (session_key cc)
  (set_cc_recv_nonce (increment_nonce (cc_recv_nonce cc)) cc)).

(** [receive_crypto] at either end, when the confirmation of the other arrives. *)
Lemma wp_receive_confirmation i cc p k Q s w :
  cc_status cc = CONN_NOT_CONFIRMED -> crypt_packet (session_key cc) (cc_recv_nonce cc) zero_word = Some p ->
  cc_at s i cc -> arrived s (cc_number cc) p k ->
  (forall s' w', cc_at s' i (opened_session cc) -> Q true s' w') ->
  wp (receive_confirmation i) Q s w.
Proof.
  intros Hst Hp Hcc Harr HQ. unfold receive_confirmation. wp_step. erewrite wp_get_cc by done. rewrite Hst.
  cbn [negb Z.eqb CONN_NOT_CONFIRMED Pos.eqb]. do 2 wp_step.
  unfold crypt_packet in Hp. destruct (encrypt_data_fast _ _ zero_word) as [enc|] eqn:He; [|done].
  injection Hp as <-. rewrite (id_packet_arrived _ _ _ _ _ Harr) by lia. cbn [Z.eqb Pos.eqb]. do 2 wp_step.
  eapply wp_read_arrived; [done|]. intros c sz' Hc _ _ l Hl Hcl. cbn [snd]. rewrite skipn_cons, drop_0. unfold decrypt_data.
  fold (session_key cc). rewrite (decrypt_encrypt_fast _ _ _ _ He), bool_decide_eq_true_2 by done.
  wp_step. unfold put_cc. do 2 wp_step. rewrite wp_ludp. apply wp_kill_connection_in; [exact Hl|].
  intros r l' w' _. do 2 wp_step. apply HQ. by apply (cc_at_insert s l' i cc).
Qed.

(** The connections before [i] are passed over. *)
Definition in_turn (s : Net_Crypto) (i : Z) : Prop :=
  forall j ccj, j < i -> cc_at s j ccj -> passed_over s ccj.

(** A turn of [receive_crypto] that takes the answer, and then finds no confirmation yet. *)
Lemma wp_receive_answer a b sn sn2 sd sd2 i x p p2 Q s w :
  self_secret_key s = sk a -> waits a b sn sd x p -> invitation b a sn2 sd2 p2 -> cc_at s i x -> in_turn s i ->
  arrived s (cc_number x) p2 1 -> recvqueue (lossless_udp s) (cc_number x) = 1 ->
  (forall p4 x2 s' w', answers b a sn2 sn sd2 sd x2 p p4 -> cc_at s' i x2 -> sent s' (cc_number x2) [p4] -> Q tt s' w') ->
  wp receive_crypto Q s w.
Proof.
  intros Hsk Hx Hinv Hcc Hturn Harr Hone HQ. eapply wp_receive_crypto; [done..|].
  eapply (wp_receive_handshake a b); [done..|]. set (x2 := confirmed _). intros p4 s1 w1 Hx2 Hcc1 Hs1 Hid.
  split; [done|]. unfold receive_confirmation. wp_step. erewrite wp_get_cc by done.
  rewrite (an_status _ _ _ _ _ _ _ _ _ Hx2). cbn [negb Z.eqb CONN_NOT_CONFIRMED Pos.eqb]. do 2 wp_step.
  change (cc_number x2) with (cc_number x). rewrite (Hid Hone). cbn [negb Z.eqb Pos.eqb]. do 3 wp_step.
  split; [done|]. by apply (HQ p4 x2).
Qed.

(** A turn that takes the confirmation. *)
Lemma wp_receive_confirmed i cc p k Q s w :
  cc_status cc = CONN_NOT_CONFIRMED -> crypt_packet (session_key cc) (cc_recv_nonce cc) zero_word = Some p ->
  cc_at s i cc -> in_turn s i -> arrived s (cc_number cc) p k ->
  (forall s' w', cc_at s' i (opened_session cc) -> Q tt s' w') ->
  wp receive_crypto Q s w.
Proof.
  intros Hst Hp Hcc Hturn Harr HQ. eapply wp_receive_crypto; [done..|].
  unfold receive_handshake. wp_step. erewrite wp_get_cc by done. rewrite Hst.
  cbn [negb Z.eqb CONN_NOT_CONFIRMED CONN_HANDSHAKE_SENT Pos.eqb]. wp_step. split; [done|].
  eapply wp_receive_confirmation; [done..|]. intros s' w' H'. split; [done|]. by apply HQ.
Qed.
End steps.

(** * Claims *)

(** The two ends of an encrypted connection agree on the key, and each expects the nonce
    the other will use next. *)
Record same_session (x y : Crypto_Connection) : Prop := {
  ag_established : cc_status x = CONN_ESTABLISHED /\ cc_status y = CONN_ESTABLISHED;
  ag_key : cc_shared_key x = cc_shared_key y;
  ag_there : cc_sent_nonce x = cc_recv_nonce y;
  ag_back : cc_sent_nonce y = cc_recv_nonce x
}.

Section claims.
Context `{CryptoBoxLaws}.

(** [crypto_inbound] and, if it returns a connection, [accept_crypto_inbound]. *)
Definition take_invitation : M Net_Crypto Z :=
r <- crypto_inbound ;;
match r with
| None => retM (-1)
| Some (k, public_key, secret_nonce, session_key) => accept_crypto_inbound k public_key secret_nonce session_key
end.

(** C3: Two nodes make an encrypted connection.  Node [a], which has neither a connection
    to the key of [b] nor one to its address, calls [crypto_connect]: the packet [p1] is
    queued.  When [p1] arrives at [b], on the first of its incoming connections, [b] takes
    the invitation and queues [p2] and [p3].  When [p2] has arrived at [a], and [p3] not yet,
    [receive_crypto] queues [p4].  And when [p3] has arrived at [a] and [p4] at [b],
    [receive_crypto] leaves both ends established, with the same key, each with the nonce
    the other expects, and each knowing the other's long-term key.  Every step succeeds,
    whatever the random numbers, if there is memory and room in the queues, and if at each
    call of [receive_crypto] the connections before this one in the array are passed over
    ([in_turn]: none of them waits for a confirmation, and no packet has arrived on those
    that wait for a handshake; else the call ends there, as [receive_crypto_stops] shows, and
    a later one is needed).  The other states of the nodes may change in between. *)
Theorem session_agreement a b addr s w :
  crypto_node a s -> w_nomem w = [] -> getcryptconnection_id s (pk b) = -1 ->
  getconnection_id (lossless_udp s) addr = -1 -> conn_count (lossless_udp s) < 65536 ->
  wp (crypto_connect (pk b) addr) (fun i s1 _ =>
    exists x p1, cc_at s1 i x /\ sent s1 (cc_number x) [p1] /\ length p1 = 129%nat /\
    forall sb wb k n rest, crypto_node b sb -> w_nomem wb = [] -> 0 <= k < 65536 ->
      incoming_connections sb = replicate n (-1) ++ k :: rest -> (n < MAX_INCOMING)%nat -> arrived sb k p1 2 ->
      wp take_invitation (fun j sb1 _ =>
        exists y p2 p3, cc_at sb1 j y /\ sent sb1 (cc_number y) [p2; p3] /\
        forall s2 w2, crypto_node a s2 -> cc_at s2 i x -> in_turn s2 i -> arrived s2 (cc_number x) p2 1 ->
          recvqueue (lossless_udp s2) (cc_number x) = 1 ->
          wp receive_crypto (fun _ s3 _ =>
            exists x2 p4, cc_at s3 i x2 /\ sent s3 (cc_number x2) [p4] /\
            forall s4 w4 sb4 wb4,
              cc_at s4 i x2 -> in_turn s4 i -> arrived s4 (cc_number x2) p3 0 ->
              cc_at sb4 j y -> in_turn sb4 j -> arrived sb4 (cc_number y) p4 0 ->
              exists x3 y3,
                wp receive_crypto (fun _ s5 _ => cc_at s5 i x3) s4 w4 /\
                wp receive_crypto (fun _ sb5 _ => cc_at sb5 j y3) sb4 wb4 /\
                same_session x3 y3 /\ cc_public_key x3 = pk b /\ cc_public_key y3 = pk a) s2 w2) sb wb) s w.
Proof.
  intros Ha Hw Hid Hnew Hcount. apply wp_crypto_connect with (a := a); [done..|].
  intros i sn sd x p1 s1 w1 Hx Hcc Hs. exists x, p1.
  split_and!; [done|done|by eapply invitation_opens, wt_invitation|]. intros sb wb k n rest Hb Hwb Hk Hinc Hn Harr. unfold take_invitation. wp_step.
  pose proof (wt_invitation _ _ _ _ _ _ Hx) as Hinv. pose proof Harr as (_ & c & Hc & _ & _ & _ & Hq).
  eapply wp_inbound_loop with (x := n) (k := k); [apply Hb|exact Hinv|eapply arrived_room; [done|lia]|lia| |lia| |].
  { intros j Hj. rewrite Hinc, nth_lookup, lookup_app_l by (rewrite length_replicate; lia).
    by rewrite lookup_replicate_2 by lia. }
  { by rewrite Hinc, nth_lookup, list_lookup_middle by (by rewrite length_replicate). }
  intros c' sb1 Hc' -> Hwf1 Hat1. assert (c' = c) as -> by (unfold conn_at in *; congruence).
  eapply (wp_accept a b); [split_and!; [apply Hb|apply Hb|exact Hwf1]|apply Hinv|done|done|exact Hat1
    |rewrite sendqueue_read; lia|].
  intros j sn2 sd2 y p2 p3 sb2 wb2 Hy Hccy Hnum Hsent. exists y, p2, p3.
  split_and!; [done|exists (snd (read_packet_conn c)); by rewrite Hnum|].
  intros s2 w2 (_ & Hska & _) Hcc2 Hturn2 Harr2 Hone2.
  eapply (wp_receive_answer a b); [done|done|apply (an_invitation _ _ _ _ _ _ _ _ _ Hy)|done..|].
  intros p4 x2 s3 w3 Hx2 Hcc3 Hs3. exists x2, p4. split_and!; [done..|].
  intros s4 w4 sb4 wb4 Hcc4 Ht4 Harr4 Hccy4 Hty4 Harry4. exists (opened_session x2), (opened_session y).
  destruct Hx2 as [_ X1 X2 X3 X4 X5 X6 X7], Hy as [_ Y1 Y2 Y3 Y4 Y5 Y6 Y7].
  assert (Ex : session_key x2 = encrypt_precompute (pk sd2) (sk sd)) by (unfold session_key; by rewrite X3, X4).
  assert (Ey : session_key y = encrypt_precompute (pk sd) (sk sd2)) by (unfold session_key; by rewrite Y3, Y4).
  assert (Exy : session_key x2 = session_key y) by (rewrite Ex, Ey; apply beforenm_agree).
  split_and!; [| |split|done|done].
  - eapply (wp_receive_confirmed i x2); [done|by rewrite Exy, Ey, X5|done|done|done|done].
  - eapply (wp_receive_confirmed j y); [done|by rewrite <- Exy, Ex, Y5|done|done|done|done].
  - done.
  - exact Exy.
  - by simpl; rewrite X6, Y5.
  - by simpl; rewrite Y6, X5.
Qed.
End claims.

(** ** Witness *)

Section witnesses.
#[local] Existing Instance ToyBox.box.
#[local] Existing Instance ToyBox.laws.

(** A transport on which [p] has arrived, and been followed by another packet. *)
Definition demo_arrival (p : list Z) : Connection :=
advance_recv (store_recv 1 p 0 (store_recv 0 p 0 demo_transport)).

Lemma demo_arrival_wf p : (0 < length p <= 1024)%nat -> conn_wf (demo_arrival p).
Proof.
  intros Hp. apply advance_recv_wf; [|done..].
  apply (store_recv_wf (store_recv 0 p 0 demo_transport)); [|done..|].
  - apply (store_recv_wf demo_transport); [apply demo_transport_wf|done..|].
    exists 0. split; [vm_compute; split; [discriminate|reflexivity]|done].
  - exists 1. split; [vm_compute; split; [discriminate|reflexivity]|done].
Qed.

(** Nodes on one transport, whose next packet is [p]. *)
Definition demo_end (a : Z) (incoming : list Z) (ccs : list Crypto_Connection) (p : list Z) : Net_Crypto :=
mkNC (mkLudp net_zero (mk_tox_array [demo_arrival p]) (replicate 6 (zeros 256))) ccs (pk a) (sk a) incoming ∅.

Lemma demo_end_wf a incoming ccs p : (0 < length p <= 1024)%nat -> crypto_node a (demo_end a incoming ccs p).
Proof. intros Hp. split_and!; [done..|]. apply (demo_nc_wf (demo_arrival p) cc_zero), demo_arrival_wf, Hp. Qed.

Lemma demo_end_arrived a incoming ccs p :
  (0 < length p <= 1024)%nat -> arrived (demo_end a incoming ccs p) 0 p 15.
Proof.
  intros Hp. split; [by apply demo_end_wf|]. exists (demo_arrival p). split_and!; [done|done| | |done].
  - destruct p; [simpl in Hp; lia|]. discriminate.
  - change (fst (read_packet_conn (demo_arrival p)))
      with (take (Z.to_nat (Z.of_nat (length p))) (memcpy (zeros 1024) p (length p))).
    unfold memcpy. rewrite Nat2Z.id, firstn_all. apply take_app_length.
Qed.

(** Node 1 invites node 2, which, when the packet has arrived, answers. *)
Lemma session_agreement_witness :
wp (crypto_connect (pk 2) (mkIPP 9 9 0)) (fun i s1 _ =>
  exists x p1, cc_at s1 i x /\ sent s1 (cc_number x) [p1] /\
    wp take_invitation (fun j sb1 _ => exists y p2 p3, cc_at sb1 j y /\ sent sb1 (cc_number y) [p2; p3])
      (demo_end 2 (0 :: replicate 63 (-1)) [] p1) (still_world 0 0))
  (mkNC (new_lossless_udp net_zero) [] (pk 1) (sk 1) (replicate MAX_INCOMING (-1)) ∅) (still_world 0 0).
Proof.
  eapply wp_mono; [apply (session_agreement 1 2 (mkIPP 9 9 0)
    (mkNC (new_lossless_udp net_zero) [] (pk 1) (sk 1) (replicate MAX_INCOMING (-1)) ∅) (still_world 0 0))|].
  - split_and!; [done..|]. apply (new_lossless_udp_wf net_zero).
  - reflexivity.
  - reflexivity.
  - reflexivity.
  - reflexivity.
  - intros i s1 w1 (x & p1 & Hcc & Hs & Hl & Hnext). exists x, p1. split_and!; [done..|].
    assert (Hp : (0 < length p1 <= 1024)%nat) by (rewrite Hl; lia).
    eapply wp_mono; [apply (Hnext (demo_end 2 (0 :: replicate 63 (-1)) [] p1) (still_world 0 0) 0 0%nat (replicate 63 (-1)))|].
    + by apply demo_end_wf.
    + reflexivity.
    + lia.
    + reflexivity.
    + unfold MAX_INCOMING. lia.
    + eapply arrived_room; [by apply demo_end_arrived|lia].
    + intros j sb1 w2 (y & p2 & p3 & Hy & Hsy & _). by exists y, p2, p3.
Defined.
End witnesses.
