(* ===== verification/Channel.v ===== *)
(** * The encrypted channel

    Two nodes with an encrypted connection between them ([Session]) whose transports are
    connected ([LosslessLink]): [write_cryptpacket] and [read_cryptpacket] at both ends,
    over a network that loses, repeats, delays and reorders datagrams. *)

From S2P Require Import Prelude MiscTools Network LosslessUDP LosslessInv LosslessSafe LosslessLink LosslessThms Crypto NetCrypto CryptoThms Session.
From stdpp Require Import relations.
Local Open Scope Z_scope.
Local Open Scope tox_scope.

(** One end: the node, the messages the program has written on the connection and those it
    has read, and the packets its transport has sent. *)
Record Side := mkSide {
  sd_nc : Net_Crypto;
  sd_wrote : list (list Z);
  sd_read : list (list Z);
  sd_net : list pkt
}.

Section channel.
Context `{CryptoBoxLaws}.

(** The calls on crypto connection [i]: one that writes and one that reads. *)
Inductive call_step (i : Z) : Side -> Side -> Prop :=
  | call_write s w data r s' w' wr rd nt :
      write_cryptpacket i data s w = Some (r, s', w') ->
      call_step i (mkSide s wr rd nt) (mkSide s' (if r =? 1 then wr ++ [data] else wr) rd nt)
  | call_read s w r s' w' wr rd nt :
      read_cryptpacket i s w = Some (r, s', w') ->
      call_step i (mkSide s wr rd nt) (mkSide s' wr (if 0 <? fst r then rd ++ [snd r] else rd) nt).

(** What an end does: a call on crypto connection [i], a step of its transport other than
    writing and reading, or anything that leaves the connection and its transport alone. *)
Inductive side_step (i : Z) (peer : list pkt) : Side -> Side -> Prop :=
  | ss_call a b : call_step i a b -> side_step i peer a b
  | ss_transport s cc c c' wr rd nt nt' :
      cc_at s i cc -> conn_at (lossless_udp s) (cc_number cc) c ->
      end_step peer (mkEnd c [] [] nt) (mkEnd c' [] [] nt') ->
      side_step i peer (mkSide s wr rd nt)
        (mkSide (set_lossless_udp (upd (lossless_udp s) (cc_number cc) c') s) wr rd nt')
  | ss_other s s' cc c wr rd nt :
      cc_at s i cc -> conn_at (lossless_udp s) (cc_number cc) c ->
      cc_at s' i cc -> conn_at (lossless_udp s') (cc_number cc) c ->
      side_step i peer (mkSide s wr rd nt) (mkSide s' wr rd nt).

Inductive channel_step (i j : Z) : Side * Side -> Side * Side -> Prop :=
  | channel_left a b a' : side_step i (sd_net b) a a' -> channel_step i j (a, b) (a', b)
  | channel_right a b b' : side_step j (sd_net a) b b' -> channel_step i j (a, b) (a, b').

(** ** The two calls *)

(** [write_cryptpacket] does nothing, or queues the encrypted message. *)
Lemma write_cryptpacket_run s w i cc c data r s' w' :
  cc_at s i cc -> cc_status cc = CONN_ESTABLISHED -> conn_at (lossless_udp s) (cc_number cc) c ->
  write_cryptpacket i data s w = Some (r, s', w') ->
  (r = 0 /\ s' = s) \/
  (r = 1 /\ exists p, crypt_packet (cc_shared_key cc) (cc_sent_nonce cc) data = Some p /\
    (0 < length p <= 1024)%nat /\ sendqueue_conn c < 15 /\
    s' = upd_cc s (upd (lossless_udp s) (cc_number cc) (write_packet_conn c p)) i
           (set_cc_sent_nonce (increment_nonce (cc_sent_nonce cc)) cc)).
Proof.
  intros Hcc Hst Hc E. revert r s' w' E.
  enough (Hw : wp (write_cryptpacket i data) (fun r s' _ => (r = 0 /\ s' = s) \/
    (r = 1 /\ exists p, crypt_packet (cc_shared_key cc) (cc_sent_nonce cc) data = Some p /\
      (0 < length p <= 1024)%nat /\ sendqueue_conn c < 15 /\
      s' = upd_cc s (upd (lossless_udp s) (cc_number cc) (write_packet_conn c p)) i
           (set_cc_sent_nonce (increment_nonce (cc_sent_nonce cc)) cc))) s w).
  { intros r s' w' E. exact (wlp_run E (wp_wlp _ _ _ _ Hw)). }
  unfold write_cryptpacket. do 2 wp_step. rewrite (cc_at_valid _ _ _ Hcc). cbn [negb].
  wp_step; [wp_step; by left|]. wp_step. erewrite wp_get_cc by done. rewrite Hst.
  cbn [negb Z.eqb CONN_ESTABLISHED Pos.eqb].
  destruct (encrypt_data_fast _ _ data) as [enc|] eqn:He; [|wp_step; by left].
  wp_step. rewrite wp_ludp. unfold write_packet. do 2 wp_step. rewrite (sendqueue_at _ _ _ Hc).
  wp_step; [wp_step; cbn [Z.eqb]; wp_step; left; by destruct s|].
  wp_step. apply wp_get_conn. exists c. split; [done|]. wp_step. rewrite wp_put_conn. wp_step.
  cbn [Z.eqb]. wp_step. unfold put_cc. do 2 wp_step. right. split; [done|]. exists (3 :: enc).
  unfold crypt_packet. rewrite He. unfold MAX_DATA_SIZE, BUFFER_PACKET_NUM in *.
  cbn [app length] in *. split_and!; [done|lia..|done].
Qed.

(** What the next packet is opened to. *)
Definition open_packet (key nonce p : list Z) : option (list Z) :=
if nth 0 p 0 =? 3 then decrypt_data_fast key nonce (drop 1 p) else None.

(** [read_cryptpacket] finds nothing, or takes the next packet off the transport, and
    returns the message if it opens. *)
Definition read_outcome (i : Z) (s : Net_Crypto) (cc : Crypto_Connection) (c : Connection) (r : Z * list Z) (s' : Net_Crypto) : Prop :=
(recvqueue_conn c = 0 /\ fst r <= 0 /\ s' = s) \/
(recvqueue_conn c <> 0 /\
 let l := upd (lossless_udp s) (cc_number cc) (snd (read_packet_conn c)) in
 match open_packet (cc_shared_key cc) (cc_recv_nonce cc) (fst (read_packet_conn c)) with
 | Some m => 0 < fst r /\ snd r = m /\ s' = upd_cc s l i (set_cc_recv_nonce (increment_nonce (cc_recv_nonce cc)) cc)
 | None => fst r <= 0 /\ s' = set_lossless_udp l s
 end).

Lemma wp_read_cryptpacket s w i cc c :
  cc_at s i cc -> cc_status cc = CONN_ESTABLISHED -> conn_at (lossless_udp s) (cc_number cc) c ->
  wp (read_cryptpacket i) (fun r s' _ => read_outcome i s cc c r s') s w.
Proof.
  intros Hcc Hst Hc. unfold read_cryptpacket, read_outcome. do 2 wp_step. rewrite (cc_at_valid _ _ _ Hcc). cbn [negb].
  wp_step. erewrite wp_get_cc by done. rewrite Hst. cbn [negb Z.eqb CONN_ESTABLISHED Pos.eqb].
  wp_step. rewrite wp_ludp. unfold read_packet. do 2 wp_step. rewrite (recvqueue_at _ _ _ Hc).
  destruct (Z.eqb_spec (recvqueue_conn c) 0) as [|Hq].
  { wp_step. cbn [Z.eqb]. wp_step. left. by destruct s. }
  wp_step. apply wp_get_conn. exists c. split; [done|]. cbv zeta. destruct (read_packet_conn c) as [p c'] eqn:Ep.
  wp_step. rewrite wp_put_conn. wp_step. unfold open_packet. 
  destruct (Z.eqb_spec (d_size (buf_get (recvbuffer c) (successful_read c))) 0) as [Hz|Hz].
  { wp_step. right. split; [done|].
    assert (p = []) as -> by (unfold read_packet_conn in Ep; rewrite Hz in Ep; by injection Ep as <-). done. }
  cbn [fst snd]. destruct (nth 0 p 0 =? 3); cbn [negb]; [|wp_step; right; split; [done|split; [simpl; lia|done]]].
  destruct (decrypt_data_fast _ _ _) as [plain|] eqn:Ed; [|wp_step; right; split; [done|split; [simpl; lia|done]]].
  wp_step. unfold put_cc. do 2 wp_step. right. split; [done|]. split_and!; [|done|done].
  apply decrypt_data_fast_bounds in Ed. simpl. lia.
Qed.

Lemma read_cryptpacket_run s w i cc c r s' w' :
  cc_at s i cc -> cc_status cc = CONN_ESTABLISHED -> conn_at (lossless_udp s) (cc_number cc) c ->
  read_cryptpacket i s w = Some (r, s', w') -> read_outcome i s cc c r s'.
Proof. intros Hcc Hst Hc E. exact (wlp_run E (wp_wlp _ _ _ _ (wp_read_cryptpacket s w i cc c Hcc Hst Hc))). Qed.

(** ** Streams *)

Lemma crypt_stream_snoc key nonce msgs pkts m p :
  crypt_stream key nonce msgs = Some pkts ->
  crypt_packet key (Nat.iter (length msgs) increment_nonce nonce) m = Some p ->
  crypt_stream key nonce (msgs ++ [m]) = Some (pkts ++ [p]).
Proof.
  revert nonce pkts. induction msgs as [|x r IH]; intros nonce pkts Hs Hp; simpl in *.
  - injection Hs as <-. by rewrite Hp.
  - destruct (crypt_packet key nonce x) as [q|]; [|done].
    destruct (crypt_stream key (increment_nonce nonce) r) as [rest|] eqn:Er; [|done]. injection Hs as <-.
    rewrite (IH (increment_nonce nonce) rest); [done|done|]. by rewrite <- Nat.iter_succ_r.
Qed.

Lemma open_stream_snoc key nonce pkts p :
  open_stream key nonce (pkts ++ [p]) = open_stream key nonce pkts ++
    match open_packet key (Nat.iter (length (open_stream key nonce pkts)) increment_nonce nonce) p with
    | Some m => [m]
    | None => []
    end.
Proof.
  revert nonce. induction pkts as [|x r IH]; intros nonce; cbn [open_stream app].
  - unfold open_packet. cbn [length Nat.iter]. by destruct (if nth 0 p 0 =? 3 then _ else _).
  - fold (open_packet key nonce x). destruct (open_packet key nonce x) as [m|]; [|apply IH].
    cbn [app length]. rewrite IH. by rewrite Nat.iter_succ_r.
Qed.

(** ** The invariant *)

(** [e] is the transport end of [sd]; [ns] and [nr] are the nonces the connection began
    with. *)
Record side_rel (i : Z) (key ns nr : list Z) (sd : Side) (e : End) (cc : Crypto_Connection) : Prop := {
  sr_at : cc_at (sd_nc sd) i cc;
  sr_status : cc_status cc = CONN_ESTABLISHED;
  sr_key : cc_shared_key cc = key;
  sr_conn : conn_at (lossless_udp (sd_nc sd)) (cc_number cc) (e_conn e);
  sr_wrote : crypt_stream key ns (sd_wrote sd) = Some (e_wrote e);
  sr_sent : cc_sent_nonce cc = Nat.iter (length (sd_wrote sd)) increment_nonce ns;
  sr_read : sd_read sd = open_stream key nr (e_read e);
  sr_recv : cc_recv_nonce cc = Nat.iter (length (sd_read sd)) increment_nonce nr;
  sr_net : e_net e = sd_net sd
}.

(** The program writes a packet to the transport, or reads one. *)
Inductive use_step : End -> End -> Prop :=
  | use_write c wr rd nt data :
      (0 < length data <= 1024)%nat -> sendqueue_conn c < 15 ->
      use_step (mkEnd c wr rd nt) (mkEnd (write_packet_conn c data) (wr ++ [data]) rd nt)
  | use_read c wr rd nt :
      recvqueue_conn c <> 0 ->
      use_step (mkEnd c wr rd nt) (mkEnd (snd (read_packet_conn c)) wr (rd ++ [fst (read_packet_conn c)]) nt).

Lemma use_end peer e e' : use_step e e' -> end_step peer e e'.
Proof. destruct 1; by constructor. Qed.

(** As the queue takes 15 packets, the program writes no more between two steps of the
    transport. *)
Lemma uses_queue e e' :
  rtc use_step e e' ->
  e_wrote e' = e_wrote e \/ Z.of_nat (length (e_wrote e')) + sendqueue_conn (e_conn e) <= Z.of_nat (length (e_wrote e)) + 15.
Proof.
  induction 1 as [e|e e1 e' Hs _ IH]; [by left|]. destruct Hs as [c wr rd nt data Hd Hq|c wr rd nt Hq]; cbn [e_conn e_wrote] in *.
  - right. assert (sendqueue_conn (write_packet_conn c data) = sendqueue_conn c + 1) as Eq.
    { unfold sendqueue_conn, write_packet_conn in *. simpl. uarith. }
    rewrite Eq in IH. destruct IH as [->|IH]; rewrite length_app in *; simpl in *; lia.
  - exact IH.
Qed.

Lemma uses_bound e e' : rtc use_step e e' -> (length (e_wrote e') <= length (e_wrote e) + 15)%nat.
Proof.
  intros Hs. destruct (uses_queue _ _ Hs) as [->|Hle]; [lia|].
  pose proof (u32_range (sendbuff_packetnum (e_conn e) - successful_sent (e_conn e))) as Hu.
  unfold sendqueue_conn, is_u32 in *. lia.
Qed.

(** A step of the transport does not depend on what was written and read before. *)
Lemma transport_step peer c c' nt nt' wr rd :
  end_step peer (mkEnd c [] [] nt) (mkEnd c' [] [] nt') -> end_step peer (mkEnd c wr rd nt) (mkEnd c' wr rd nt').
Proof.
  inversion 1; subst; try (by econstructor); match goal with E : [] ++ _ = [] |- _ => done | E : [] = [] ++ _ |- _ => done | _ => idtac end.
Qed.

(** A packet is read. *)
Lemma read_rel i key ns nr s wr rd nt e cc r s' :
  side_rel i key ns nr (mkSide s wr rd nt) e cc -> recvqueue_conn (e_conn e) <> 0 ->
  read_outcome i s cc (e_conn e) r s' ->
  exists cc', side_rel i key ns nr (mkSide s' wr (if 0 <? fst r then rd ++ [snd r] else rd) nt)
    (mkEnd (snd (read_packet_conn (e_conn e))) (e_wrote e) (e_read e ++ [fst (read_packet_conn (e_conn e))]) nt) cc'.
Proof.
  intros [Hat Hst Hk Hc Hwr Hsn Hrd Hrn Hnet] Hq [[? _]|[_ Hm]]; [done|].
  destruct e as [ce we re ne]. cbn [sd_nc sd_wrote sd_read sd_net e_conn e_wrote e_read e_net] in *.
  rewrite Hk, Hrn, Hrd in Hm. cbv zeta in Hm.
  assert (Hos := open_stream_snoc key nr re (fst (read_packet_conn ce))).
  destruct (open_packet _ _ _) as [m|].
  - destruct Hm as (Hr & Hm & ->). rewrite (proj2 (Z.ltb_lt _ _)) by done.
    exists (set_cc_recv_nonce (increment_nonce (cc_recv_nonce cc)) cc).
    split; cbn [sd_nc sd_wrote sd_read sd_net e_conn e_wrote e_read e_net]; try done.
    + rewrite <- Hrd, <- Hrn. by eapply cc_at_insert.
    + by eapply conn_at_upd.
    + by rewrite Hos, Hm, Hrd.
    + cbn. rewrite Hrn, length_app, Nat.add_1_r. done.
  - destruct Hm as [Hr ->]. rewrite (proj2 (Z.ltb_ge _ _)) by done. exists cc.
    split; cbn [sd_nc sd_wrote sd_read sd_net e_conn e_wrote e_read e_net]; try done.
    + by eapply conn_at_upd.
    + by rewrite Hos, app_nil_r.
Qed.

(** A call writes or reads at most one packet of the transport. *)
Lemma call_step_rel i key ns nr a a' e cc :
  call_step i a a' -> side_rel i key ns nr a e cc ->
  exists e' cc', (e' = e \/ use_step e e') /\ side_rel i key ns nr a' e' cc'.
Proof.
  intros Hs [Hat Hst Hk Hc Hwr Hsn Hrd Hrn Hnet]. destruct e as [ce we re ne].
  destruct Hs as [s w data r s' w' wr rd nt Ec|s w r s' w' wr rd nt Ec];
    cbn [sd_nc sd_wrote sd_read sd_net e_conn e_wrote e_read e_net] in *; subst ne.
  - destruct (write_cryptpacket_run _ _ _ _ _ _ _ _ _ Hat Hst Hc Ec) as [[-> ->]|(-> & p & Hp & Hpl & Hq & ->)].
    { eexists _, cc. split; [by left|]. by split. }
    exists (mkEnd (write_packet_conn ce p) (we ++ [p]) re nt), (set_cc_sent_nonce (increment_nonce (cc_sent_nonce cc)) cc).
    split; [right; by constructor|].
    rewrite Hk, Hsn in Hp. cbn [Z.eqb Pos.eqb].
    split; cbn [sd_nc sd_wrote sd_read sd_net e_conn e_wrote e_read e_net]; try done.
    + by eapply cc_at_insert.
    + by eapply conn_at_upd.
    + by apply crypt_stream_snoc.
    + cbn. rewrite Hsn, length_app, Nat.add_1_r. done.
  - destruct (read_cryptpacket_run _ _ _ _ _ _ _ _ Hat Hst Hc Ec) as [(_ & Hr & ->)|Hm].
    { rewrite (proj2 (Z.ltb_ge _ _)) by done. eexists _, cc. split; [by left|]. by split. }
    destruct (read_rel i key ns nr s wr rd nt (mkEnd ce we re nt) cc r s') as (cc' & Hrel); [by split|by destruct Hm|by right|].
    eexists _, cc'. split; [right|exact Hrel]. constructor. by destruct Hm.
Qed.

Lemma calls_rel i key ns nr a a' :
  rtc (call_step i) a a' -> forall e cc, side_rel i key ns nr a e cc ->
  exists e' cc', rtc use_step e e' /\ side_rel i key ns nr a' e' cc'.
Proof.
  induction 1 as [a|a b c Hs _ IH]; intros e cc R; [by exists e, cc|].
  destruct (call_step_rel _ _ _ _ _ _ _ _ Hs R) as (e1 & cc1 & He & R1).
  destruct (IH e1 cc1 R1) as (e' & cc' & Hr & R'). exists e', cc'. split; [|done].
  destruct He as [->|He]; [done|by eapply rtc_l].
Qed.

Lemma side_step_rel i key ns nr peer a a' e cc :
  side_step i peer a a' -> side_rel i key ns nr a e cc ->
  exists e' cc', (e' = e \/ end_step peer e e') /\ side_rel i key ns nr a' e' cc'.
Proof.
  intros Hs R. destruct Hs as [a b Hs|s cc0 c c' wr rd nt nt' Hcc0 Hc0 Hstep|s s' cc0 c wr rd nt Hcc0 Hc0 Hcc1 Hc1].
  { destruct (call_step_rel _ _ _ _ _ _ _ _ Hs R) as (e' & cc' & He & R'). exists e', cc'. split; [|done].
    destruct He as [->|He]; [by left|right; by apply use_end]. }
  all: destruct R as [Hat Hst Hk Hc Hwr Hsn Hrd Hrn Hnet]; destruct e as [ce we re ne];
    cbn [sd_nc sd_wrote sd_read sd_net e_conn e_wrote e_read e_net] in *; subst ne;
    assert (cc0 = cc) as -> by (destruct Hat, Hcc0; congruence);
    assert (c = ce) as -> by (unfold conn_at in *; congruence).
  - eexists (mkEnd c' we re nt'), cc. split; [right; by apply transport_step|].
    split; cbn [sd_nc sd_wrote sd_read sd_net e_conn e_wrote e_read e_net]; try done. by eapply conn_at_upd.
  - eexists _, cc. split; [by left|]. by split.
Qed.

Lemma channel_rel i j key n1 n2 a0 b0 ea0 eb0 x :
  rtc (channel_step i j) (a0, b0) x ->
  (exists cc, side_rel i key n1 n2 a0 ea0 cc) -> (exists cc, side_rel j key n2 n1 b0 eb0 cc) ->
  exists ea eb, session (ea0, eb0) (ea, eb) /\
    (exists cc, side_rel i key n1 n2 (fst x) ea cc) /\ (exists cc, side_rel j key n2 n1 (snd x) eb cc).
Proof.
  intros Hs Ha Hb. revert x Hs. refine (rtc_ind_r _ _ _ _).
  - exists ea0, eb0. split; [constructor|by split].
  - intros y z _ Hstep (ea & eb & Hse & [ca Ra] & [cb Rb]).
    destruct Hstep as [a b a' Hs|a b b' Hs]; cbn [fst snd] in *.
    + rewrite <- (sr_net _ _ _ _ _ _ _ Rb) in Hs.
      destruct (side_step_rel _ _ _ _ _ _ _ _ _ Hs Ra) as (ea' & ca' & He & Ra'). exists ea', eb.
      split_and!; [|by exists ca'|by exists cb]. destruct He as [->|He]; [done|].
      eapply session_next; [done|by constructor].
    + rewrite <- (sr_net _ _ _ _ _ _ _ Ra) in Hs.
      destruct (side_step_rel _ _ _ _ _ _ _ _ _ Hs Rb) as (eb' & cb' & He & Rb'). exists ea, eb'.
      split_and!; [|by exists ca|by exists cb']. destruct He as [->|He]; [done|].
      eapply session_next; [done|by constructor].
Qed.

Lemma length_crypt_stream key nonce msgs pkts :
  crypt_stream key nonce msgs = Some pkts -> length pkts = length msgs.
Proof.
  revert nonce pkts. induction msgs as [|m r IH]; intros nonce pkts Hs; simpl in Hs; [by injection Hs as <-|].
  destruct (crypt_packet key nonce m); [|done]. destruct (crypt_stream _ _ r) eqn:Er; [|done].
  injection Hs as <-. simpl. f_equal. by eapply IH.
Qed.

(** One direction: what was opened is a prefix of what was encrypted. *)
Lemma rel_prefix i j key n1 n2 a b ea eb ca cb :
  side_rel i key n1 n2 a ea ca -> side_rel j key n2 n1 b eb cb -> e_read eb `prefix_of` e_wrote ea ->
  sd_read b `prefix_of` sd_wrote a.
Proof.
  intros Ra Rb Hp. rewrite (sr_read _ _ _ _ _ _ _ Rb).
  rewrite (stream_round_trip _ _ _ _ _ (sr_wrote _ _ _ _ _ _ _ Ra) Hp). apply prefix_take.
Qed.

(** ** Claim *)

(** An end of a connection that has just been made: crypto connection [i] of [s] is [cc],
    on the transport connection [c]. *)
Definition open_end (i : Z) (s : Net_Crypto) (cc : Crypto_Connection) (c : Connection) : Prop :=
cc_at s i cc /\ conn_at (lossless_udp s) (cc_number cc) c.

(** The beginning of a conversation: both ends have made an encrypted connection with the
    same session, on transports that are connected to each other and have nothing under
    way. *)
Record channel_start (i j h k : Z) (s1 s2 : Net_Crypto) (x y : Crypto_Connection) (c1 c2 : Connection) : Prop := {
  cs_left : open_end i s1 x c1;
  cs_right : open_end j s2 y c2;
  cs_session : same_session x y;
  cs_up1 : established h k c1;
  cs_up2 : established k h c2
}.

(** At any time each end has its transport end, and what it read is a prefix of what the
    other wrote. *)
Lemma channel_prefix i j h k s1 s2 x y c1 c2 a b :
  channel_start i j h k s1 s2 x y c1 c2 ->
  rtc (channel_step i j) (mkSide s1 [] [] [], mkSide s2 [] [] []) (a, b) ->
  exists ea eb ca cb,
    side_rel i (cc_shared_key x) (cc_sent_nonce x) (cc_sent_nonce y) a ea ca /\
    side_rel j (cc_shared_key x) (cc_sent_nonce y) (cc_sent_nonce x) b eb cb /\
    (bounded (sd_wrote a) -> bounded (sd_wrote b) ->
     sd_read b `prefix_of` sd_wrote a /\ sd_read a `prefix_of` sd_wrote b).
Proof.
  intros [[Hx Hc1] [Hy Hc2] [[Hsx Hsy] Hkey H12 H21] He1 He2] Hs.
  destruct (channel_rel i j (cc_shared_key x) (cc_sent_nonce x) (cc_sent_nonce y) _ _ (fresh_end c1) (fresh_end c2) _ Hs)
    as (ea & eb & Hses & [ca Ra] & [cb Rb]); [exists x; by split|exists y; by split|]. cbn [fst snd] in *.
  exists ea, eb, ca, cb. split_and!; [done..|]. intros Ba Bb.
  pose proof (length_crypt_stream _ _ _ _ (sr_wrote _ _ _ _ _ _ _ Ra)) as La.
  pose proof (length_crypt_stream _ _ _ _ (sr_wrote _ _ _ _ _ _ _ Rb)) as Lb.
  destruct (session_prefix h k c1 c2 ea eb He1 He2 Hses) as [P1 P2].
  { unfold bounded in *. lia. }
  { unfold bounded in *. lia. }
  split; [exact (rel_prefix _ _ _ _ _ _ _ _ _ _ _ Ra Rb P1)|exact (rel_prefix _ _ _ _ _ _ _ _ _ _ _ Rb Ra P2)].
Qed.

(** C14: what the program reads on an encrypted connection is what was written on it.  Two
    nodes have made an encrypted connection (as [session_agreement] shows they do) on
    transports that are connected to each other (as [handshake_agreement] shows they are)
    and have nothing under way ([channel_start]); both call [write_cryptpacket] and
    [read_cryptpacket] as they like, and do whatever leaves this connection alone, while
    the network loses, repeats, delays and reorders datagrams.  Then at any time the messages
    read at either end are a prefix of the messages written at the other: nothing is lost,
    repeated, reordered or changed.  Two conditions: fewer than 2^32 - 64 messages are written;
    and, as for [link_in_order], no SYNC packet that asks for more than eight packets is
    delivered: an end sends one after nine or more packets were lost, and receiving it is a
    memory error ([SYNC_requests_overflow]). *)
Theorem secure_channel i j h k s1 s2 x y c1 c2 a b :
  channel_start i j h k s1 s2 x y c1 c2 ->
  rtc (channel_step i j) (mkSide s1 [] [] [], mkSide s2 [] [] []) (a, b) ->
  bounded (sd_wrote a) -> bounded (sd_wrote b) ->
  sd_read b `prefix_of` sd_wrote a /\ sd_read a `prefix_of` sd_wrote b.
Proof.
  intros Hst Hs Ba Bb. destruct (channel_prefix _ _ _ _ _ _ _ _ _ _ _ _ Hst Hs) as (ea & eb & ca & cb & _ & _ & Hp).
  by apply Hp.
Qed.
End channel.

(** ** Witness *)

Section witnesses.
#[local] Existing Instance ToyBox.box.
#[local] Existing Instance ToyBox.laws.

Definition side_conn (sd : Side) : Connection :=
default conn_zero (tox_array_get (connections (lossless_udp (sd_nc sd))) 0).
Definition side_end (sd : Side) : End := mkEnd (side_conn sd) [] [] (sd_net sd).

(** The side after a step of its transport. *)
Definition side_put (sd : Side) (e : End) : Side :=
mkSide (set_lossless_udp (upd (lossless_udp (sd_nc sd)) 0 (e_conn e)) (sd_nc sd)) (sd_wrote sd) (sd_read sd) (e_net e).

Definition side_write (sd : Side) (data : list Z) : Side :=
match write_cryptpacket 0 data (sd_nc sd) (still_world 0 0) with
| Some (r, s, _) => mkSide s (if r =? 1 then sd_wrote sd ++ [data] else sd_wrote sd) (sd_read sd) (sd_net sd)
| None => sd
end.
Definition side_read (sd : Side) : Side :=
match read_cryptpacket 0 (sd_nc sd) (still_world 0 0) with
| Some (r, s, _) => mkSide s (sd_wrote sd) (if 0 <? fst r then sd_read sd ++ [snd r] else sd_read sd) (sd_net sd)
| None => sd
end.

(** A message is written, sent, acknowledged and read. *)
Definition side_A0 : Side := mkSide (demo_nc (demo_conn demo_peer 100 200) demo_cc) [] [] [].
Definition side_B0 : Side := mkSide (demo_nc (demo_conn demo_peer 200 100) demo_cc) [] [] [].
Definition side_A1 : Side := side_write side_A0 [10; 11].
Definition side_A2 : Side := side_put side_A1 (end_send_DATA (side_end side_A1) 100).
Definition sync_end (sd : Side) : End :=
end_send_SYNC (side_end sd) [] (set_recv_packetnum (osent_packetnum (side_conn sd)) (side_conn sd)).
Definition side_A3 : Side := side_put side_A2 (sync_end side_A2).
Definition side_pkt (n : nat) : pkt := nth n (sd_net side_A3) (PData 0 []).
Definition side_B1 : Side := side_put side_B0 (end_recv (side_end side_B0) (side_pkt 1)).
Definition side_B2 : Side := side_put side_B1 (end_recv (side_end side_B1) (side_pkt 0)).
Definition side_B3 : Side := side_put side_B2 (sync_end side_B2).
Definition side_B4 : Side := side_read side_B3.

Definition side_cc (sd : Side) : Crypto_Connection := default cc_zero (crypto_connections (sd_nc sd) !! 0%nat).

(** The connections are there, the crypto connection on transport 0. *)
Definition side_ok (sd : Side) : Prop :=
crypto_connections (sd_nc sd) !! 0%nat = Some (side_cc sd) /\ cc_number (side_cc sd) = 0 /\
conn_at (lossless_udp (sd_nc sd)) 0 (side_conn sd).

Lemma side_put_step peer sd e :
  side_ok sd -> end_step peer (side_end sd) e -> e_wrote e = [] -> e_read e = [] ->
  side_step 0 peer sd (side_put sd e).
Proof.
  intros (Hcc & Hn & Hc) He Hw Hr. destruct sd as [s wr rd nt], e as [c' we re nt']. cbn in Hw, Hr. subst we re.
  pose proof (ss_transport 0 peer s (side_cc (mkSide s wr rd nt)) (side_conn (mkSide s wr rd nt)) c' wr rd nt nt') as Ht.
  rewrite Hn in Ht. by apply Ht.
Qed.

Lemma side_write_step peer sd data :
  write_cryptpacket 0 data (sd_nc sd) (still_world 0 0) <> None -> side_step 0 peer sd (side_write sd data).
Proof.
  unfold side_write. destruct (write_cryptpacket 0 data (sd_nc sd) (still_world 0 0)) as [[[r s] w]|] eqn:E; [intros _|done].
  destruct sd as [s0 wr rd nt]. by apply ss_call, (call_write 0 s0 (still_world 0 0) data r s w).
Qed.

Lemma side_read_step peer sd :
  read_cryptpacket 0 (sd_nc sd) (still_world 0 0) <> None -> side_step 0 peer sd (side_read sd).
Proof.
  unfold side_read. destruct (read_cryptpacket 0 (sd_nc sd) (still_world 0 0)) as [[[r s] w]|] eqn:E; [intros _|done].
  destruct sd as [s0 wr rd nt]. by apply ss_call, (call_read 0 s0 (still_world 0 0) r s w).
Qed.

Ltac side_ok := split_and!; by vm_compute.

Lemma side_A_run peer :
  side_step 0 peer side_A0 side_A1 /\ side_step 0 peer side_A1 side_A2 /\ side_step 0 peer side_A2 side_A3.
Proof.
  split_and!.
  - apply side_write_step. by vm_compute.
  - apply side_put_step; [side_ok| |done..]. apply end_send_DATA_step. by vm_compute.
  - apply side_put_step; [side_ok| |done..]. apply end_send_SYNC_step, missing_none; by vm_compute.
Qed.

Lemma side_B_run :
  let net := sd_net side_A3 in
  side_step 0 net side_B0 side_B1 /\ side_step 0 net side_B1 side_B2 /\
  side_step 0 net side_B2 side_B3 /\ side_step 0 net side_B3 side_B4.
Proof.
  cbv zeta. split_and!.
  - apply side_put_step; [side_ok| |done..]. apply end_recv_data_step, list_elem_of_further, list_elem_of_here.
  - apply side_put_step; [side_ok| |done..]. apply end_recv_SYNC_step; [apply list_elem_of_here|by vm_compute|simpl; lia].
  - apply side_put_step; [side_ok| |done..]. apply end_send_SYNC_step, missing_none; by vm_compute.
  - apply side_read_step. by vm_compute.
Qed.

Lemma side_run : rtc (channel_step 0 0) (side_A0, side_B0) (side_A3, side_B4).
Proof.
  destruct (side_A_run (sd_net side_B0)) as (A1 & A2 & A3). destruct side_B_run as (B1 & B2 & B3 & B4).
  eapply rtc_l; [apply channel_left, A1|]. eapply rtc_l; [apply channel_left, A2|].
  eapply rtc_l; [apply channel_left, A3|]. eapply rtc_l; [apply channel_right, B1|].
  eapply rtc_l; [apply channel_right, B2|]. eapply rtc_l; [apply channel_right, B3|].
  apply rtc_once, channel_right, B4.
Qed.

Lemma secure_channel_witness :
  sd_read side_B4 = [[10; 11]] /\
  sd_read side_B4 `prefix_of` sd_wrote side_A3 /\ sd_read side_A3 `prefix_of` sd_wrote side_B4.
Proof.
  split; [by vm_compute|].
  apply (secure_channel 0 0 100 200 (sd_nc side_A0) (sd_nc side_B0) demo_cc demo_cc
           (demo_conn demo_peer 100 200) (demo_conn demo_peer 200 100)).
  - split.
    + split; [split; [lia|done]|done].
    + split; [split; [lia|done]|done].
    + split; done.
    + apply demo_established; unfold is_u32; lia.
    + apply demo_established; unfold is_u32; lia.
  - exact side_run.
  - unfold bounded. by vm_compute.
  - unfold bounded. by vm_compute.
Defined.
End witnesses.
