(* ===== verification/ChannelLive.v ===== *)
(** * The encrypted channel recovers

    [Channel] shows that nothing is read on an encrypted connection that was not written;
    here, with [LosslessLive], that everything that was written can always be read, whatever
    the network has lost. *)

From S2P Require Import Prelude MiscTools Network LosslessUDP LosslessInv LosslessSafe LosslessLink LosslessThms LosslessLive Crypto NetCrypto CryptoThms Session Channel.
From stdpp Require Import relations.
Local Open Scope Z_scope.
Local Open Scope tox_scope.

(** The transport connection of crypto connection [i]. *)
Definition side_link (i : Z) (s : Net_Crypto) (c : Connection) : Prop :=
exists cc, cc_at s i cc /\ conn_at (lossless_udp s) (cc_number cc) c.

Lemma side_link_fun i s c c' : side_link i s c -> side_link i s c' -> c = c'.
Proof.
  intros (cc & Ha & Hc) (cc' & Ha' & Hc'). assert (cc = cc') as <- by (destruct Ha, Ha'; congruence).
  unfold conn_at in *. congruence.
Qed.

(** No SYNC packet of the side is held back for 247 others. *)
Definition side_recent (i : Z) (sd : Side) : Prop :=
forall c, side_link i (sd_nc sd) c -> recent (mkEnd c [] [] (sd_net sd)).

Definition with_packets (sd : Side) (nt : list pkt) : Side := mkSide (sd_nc sd) (sd_wrote sd) (sd_read sd) nt.

Section recovery.
Context `{CryptoBoxLaws}.

(** A step of either end, or the network loses packets. *)
Inductive timely_channel (i j : Z) : Side * Side -> Side * Side -> Prop :=
  | timely_call x y : channel_step i j x y -> side_recent i (fst y) -> side_recent j (snd y) -> timely_channel i j x y
  | timely_drop a b na nb :
      na ⊆ sd_net a -> nb ⊆ sd_net b -> timely_channel i j (a, b) (with_packets a na, with_packets b nb).

Lemma side_rel_link i key ns nr sd e cc : side_rel i key ns nr sd e cc -> side_link i (sd_nc sd) (e_conn e).
Proof. intros R. exists cc. split; apply R. Qed.

Lemma side_rel_recent i key ns nr sd e cc : side_rel i key ns nr sd e cc -> side_recent i sd <-> recent e.
Proof.
  intros R. pose proof (sr_net _ _ _ _ _ _ _ R) as En. pose proof (side_rel_link _ _ _ _ _ _ _ R) as Hl. split.
  - intros Hr counter rn sn reqs. rewrite En. apply (Hr _ Hl).
  - intros Hr c Hc. rewrite (side_link_fun _ _ _ _ Hc Hl). intros counter rn sn reqs. cbn. rewrite <- En. apply Hr.
Qed.

Lemma side_rel_packets i key ns nr sd e cc nt :
  side_rel i key ns nr sd e cc -> side_rel i key ns nr (with_packets sd nt) (with_net e nt) cc.
Proof. intros [? ? ? ? ? ? ? ? ?]. by split. Qed.

(** *** From the channel to the transport *)

Lemma timely_rel i j key n1 n2 x y ea eb :
  timely_channel i j x y ->
  (exists cc, side_rel i key n1 n2 (fst x) ea cc) -> (exists cc, side_rel j key n2 n1 (snd x) eb cc) ->
  recent ea -> recent eb ->
  exists ea' eb', rtc timely_step (ea, eb) (ea', eb') /\ recent ea' /\ recent eb' /\
    (exists cc, side_rel i key n1 n2 (fst y) ea' cc) /\ (exists cc, side_rel j key n2 n1 (snd y) eb' cc).
Proof.
  intros Hs [ca Ra] [cb Rb] Ha Hb. destruct Hs as [x y Hs Hra Hrb|a b na nb Hna Hnb]; cbn [fst snd] in *.
  - destruct Hs as [a b a' Hs|a b b' Hs]; cbn [fst snd] in *.
    + rewrite <- (sr_net _ _ _ _ _ _ _ Rb) in Hs.
      destruct (side_step_rel _ _ _ _ _ _ _ _ _ Hs Ra) as (ea' & ca' & He & Ra').
      apply (side_rel_recent _ _ _ _ _ _ _ Ra') in Hra. exists ea', eb.
      split_and!; [|done..|by exists ca'|by exists cb]. destruct He as [->|He]; [done|].
      by apply rtc_once, step_left.
    + rewrite <- (sr_net _ _ _ _ _ _ _ Ra) in Hs.
      destruct (side_step_rel _ _ _ _ _ _ _ _ _ Hs Rb) as (eb' & cb' & He & Rb').
      apply (side_rel_recent _ _ _ _ _ _ _ Rb') in Hrb. exists ea, eb'.
      split_and!; [|done..|by exists ca|by exists cb']. destruct He as [->|He]; [done|].
      by apply rtc_once, step_right.
  - exists (with_net ea na), (with_net eb nb).
    rewrite <- (sr_net _ _ _ _ _ _ _ Ra) in Hna. rewrite <- (sr_net _ _ _ _ _ _ _ Rb) in Hnb.
    split_and!; [by apply rtc_once, timely_lose|intros c rn sn q Hin; by eapply Ha, Hna|intros c rn sn q Hin; by eapply Hb, Hnb|..];
      eexists; by apply side_rel_packets.
Qed.

Lemma timely_rels i j key n1 n2 x y ea eb :
  rtc (timely_channel i j) x y ->
  (exists cc, side_rel i key n1 n2 (fst x) ea cc) -> (exists cc, side_rel j key n2 n1 (snd x) eb cc) ->
  recent ea -> recent eb ->
  exists ea' eb', rtc timely_step (ea, eb) (ea', eb') /\
    (exists cc, side_rel i key n1 n2 (fst y) ea' cc) /\ (exists cc, side_rel j key n2 n1 (snd y) eb' cc).
Proof.
  intros Hs. revert ea eb. induction Hs as [x|x y z H1 _ IH]; intros ea eb Ra Rb Ha Hb; [by exists ea, eb|].
  destruct (timely_rel _ _ _ _ _ _ _ _ _ H1 Ra Rb Ha Hb) as (ea1 & eb1 & Hr1 & Ha1 & Hb1 & Ra1 & Rb1).
  destruct (IH ea1 eb1 Ra1 Rb1 Ha1 Hb1) as (ea' & eb' & Hr & Ra' & Rb'). exists ea', eb'.
  split_and!; [by etrans|done..].
Qed.

(** *** From the transport to the channel *)

(** A step of the transport other than a write is a step of the side: reading is done
    with [read_cryptpacket]. *)
Lemma end_step_side i key ns nr peer sd e e' cc :
  end_step peer e e' -> length (e_wrote e') = length (e_wrote e) -> side_rel i key ns nr sd e cc ->
  exists sd' cc', side_step i peer sd sd' /\ side_rel i key ns nr sd' e' cc'.
Proof.
  intros Hs Hw R. destruct sd as [s wr rd nt0]. pose proof (sr_net _ _ _ _ _ _ _ R) as En. cbn [sd_net] in En.
  assert (Htr : forall c', end_step peer (mkEnd (e_conn e) [] [] (e_net e)) (mkEnd c' [] [] (e_net e')) ->
    e' = mkEnd c' (e_wrote e) (e_read e) (e_net e') ->
    exists sd' cc', side_step i peer (mkSide s wr rd nt0) sd' /\ side_rel i key ns nr sd' e' cc').
  { intros c' Hst ->. cbn [e_net] in *. rewrite En in Hst. destruct R as [Hat Hst' Hk Hc ? ? ? ? ?]. cbn [sd_nc] in *.
    eexists _, cc. split; [by eapply ss_transport|].
    split; cbn [sd_nc sd_wrote sd_read sd_net e_conn e_wrote e_read e_net]; try done. by eapply conn_at_upd. }
  destruct Hs as [c we re nt data|c we re nt num Hn|c we re nt req c' Hm|c we re nt counter rn sn reqs now dst H1 H2 H3 H4 H5
    |c we re nt num payload now Hin|c we re nt Hq]; cbn [e_conn e_wrote e_read e_net] in *.
  - rewrite length_app in Hw. simpl in Hw. lia.
  - eapply Htr; [by apply step_send_DATA|done].
  - eapply Htr; [by apply step_send_SYNC|done].
  - eapply Htr; [by apply step_recv_SYNC|done].
  - eapply Htr; [by apply step_recv_data|done].
  - subst nt0. destruct (proj1 (wp_Some _ _ _ _) (wp_read_cryptpacket s (still_world 0 0) i cc c (sr_at _ _ _ _ _ _ _ R)
      (sr_status _ _ _ _ _ _ _ R) (sr_conn _ _ _ _ _ _ _ R))) as (r & s' & w' & E & Ho).
    destruct (read_rel _ _ _ _ _ _ _ _ _ _ r s' R Hq Ho) as (cc' & R').
    eexists _, cc'. split; [by eapply ss_call, call_read|exact R'].
Qed.

Lemma timely_side i j key n1 n2 x y a b :
  timely_step x y -> length (e_wrote (fst y)) = length (e_wrote (fst x)) -> length (e_wrote (snd y)) = length (e_wrote (snd x)) ->
  (exists cc, side_rel i key n1 n2 a (fst x) cc) -> (exists cc, side_rel j key n2 n1 b (snd x) cc) ->
  exists a' b', timely_channel i j (a, b) (a', b') /\
    (exists cc, side_rel i key n1 n2 a' (fst y) cc) /\ (exists cc, side_rel j key n2 n1 b' (snd y) cc).
Proof.
  intros Hs La Lb [ca Ra] [cb Rb]. destruct Hs as [x y Hs Hra Hrb|ea eb na nb Hna Hnb]; cbn [fst snd] in *.
  - destruct Hs as [ea eb ea' Hs|ea eb eb' Hs]; cbn [fst snd] in *.
    + rewrite (sr_net _ _ _ _ _ _ _ Rb) in Hs.
      destruct (end_step_side _ _ _ _ _ _ _ _ _ Hs La Ra) as (a' & ca' & Hst & Ra'). exists a', b.
      split_and!; [|by exists ca'|by exists cb]. apply timely_call; [by constructor|..];
        by eapply side_rel_recent.
    + rewrite (sr_net _ _ _ _ _ _ _ Ra) in Hs.
      destruct (end_step_side _ _ _ _ _ _ _ _ _ Hs Lb Rb) as (b' & cb' & Hst & Rb'). exists a, b'.
      split_and!; [|by exists ca|by exists cb']. apply timely_call; [by constructor|..];
        by eapply side_rel_recent.
  - exists (with_packets a na), (with_packets b nb).
    rewrite (sr_net _ _ _ _ _ _ _ Ra) in Hna. rewrite (sr_net _ _ _ _ _ _ _ Rb) in Hnb.
    split_and!; [by apply timely_drop|eexists; by apply side_rel_packets..].
Qed.

Lemma timely_sides i j key n1 n2 x y a b :
  rtc timely_step x y -> length (e_wrote (fst y)) = length (e_wrote (fst x)) -> length (e_wrote (snd y)) = length (e_wrote (snd x)) ->
  (exists cc, side_rel i key n1 n2 a (fst x) cc) -> (exists cc, side_rel j key n2 n1 b (snd x) cc) ->
  exists a' b', rtc (timely_channel i j) (a, b) (a', b') /\
    (exists cc, side_rel i key n1 n2 a' (fst y) cc) /\ (exists cc, side_rel j key n2 n1 b' (snd y) cc).
Proof.
  intros Hs. revert a b. induction Hs as [x|x y z H1 H2 IH]; intros a b La Lb Ra Rb; [by exists a, b|].
  destruct (timely_wrote _ _ H1) as [A1 B1]. destruct (timely_wrotes _ _ H2) as [A2 B2].
  destruct (timely_side _ _ _ _ _ _ _ _ _ H1 ltac:(lia) ltac:(lia) Ra Rb) as (a1 & b1 & Hr1 & Ra1 & Rb1).
  destruct (IH a1 b1 ltac:(lia) ltac:(lia) Ra1 Rb1) as (a' & b' & Hr & Ra' & Rb'). exists a', b'.
  split_and!; [by eapply rtc_l|done..].
Qed.

(** The packets of a stream open to its messages. *)
Lemma open_crypt_stream key nonce msgs pkts :
  crypt_stream key nonce msgs = Some pkts -> open_stream key nonce pkts = msgs.
Proof.
  intros Hs. rewrite (stream_round_trip _ _ _ _ _ Hs) by done. apply take_ge.
  by rewrite (length_crypt_stream _ _ _ _ Hs).
Qed.

Lemma side_rel_all i j key n1 n2 a b ea eb ca cb :
  side_rel i key n1 n2 a ea ca -> side_rel j key n2 n1 b eb cb -> e_read eb = e_wrote ea -> sd_read b = sd_wrote a.
Proof.
  intros Ra Rb E. rewrite (sr_read _ _ _ _ _ _ _ Rb), E. by apply open_crypt_stream, (sr_wrote _ _ _ _ _ _ _ Ra).
Qed.

Lemma side_rel_wrote i key ns nr a a' e e' cc cc' :
  side_rel i key ns nr a e cc -> side_rel i key ns nr a' e' cc' -> e_wrote e' = e_wrote e -> sd_wrote a' = sd_wrote a.
Proof.
  intros R R' E. rewrite <- (open_crypt_stream _ _ _ _ (sr_wrote _ _ _ _ _ _ _ R)).
  rewrite <- (open_crypt_stream _ _ _ _ (sr_wrote _ _ _ _ _ _ _ R')). by rewrite E.
Qed.

(** ** Claim *)

(** C31: every message written on an encrypted connection can be read at the other end,
    whatever the network has done to it.  Two nodes have made an encrypted connection on
    transports that are connected to each other ([channel_start]), and each has heard of
    the other ([tokens], as [handshake_agreement] shows); they write and read as they
    like, while the network loses, repeats, delays and reorders datagrams, only it does
    not hold a SYNC packet back for 247 others.  In any state that is reached, even if
    everything under way is lost, the two ends can go on, without writing anything more,
    until [read_cryptpacket] has returned, at each end, exactly the messages written at
    the other.  (At most eight packets are missing in each direction, see [link_recovers];
    fewer than 2^32 - 64 messages are written.) *)
Theorem channel_recovers i j h k s1 s2 x y c1 c2 a b ca cb :
  channel_start i j h k s1 s2 x y c1 c2 -> tokens c1 c2 -> is_u8 (send_counter c1) -> is_u8 (send_counter c2) ->
  rtc (timely_channel i j) (mkSide s1 [] [] [], mkSide s2 [] [] []) (a, b) ->
  bounded (sd_wrote a) -> bounded (sd_wrote b) ->
  side_link i (sd_nc a) ca -> side_link j (sd_nc b) cb -> (lost ca cb <= 8)%nat -> (lost cb ca <= 8)%nat ->
  exists a' b', rtc (timely_channel i j) (with_packets a [], with_packets b []) (a', b') /\
    sd_wrote a' = sd_wrote a /\ sd_wrote b' = sd_wrote b /\
    sd_read b' = sd_wrote a /\ sd_read a' = sd_wrote b.
Proof.
  intros [[Hx Hc1] [Hy Hc2] [[Hsx Hsy] Hkey H12 H21] He1 He2] Ht Hu1 Hu2 Hs Ba Bb La Lb Hab Hba.
  destruct (timely_rels i j (cc_shared_key x) (cc_sent_nonce x) (cc_sent_nonce y) _ _ (fresh_end c1) (fresh_end c2) Hs)
    as (ea & eb & Hr & [da Ra] & [db Rb]); [exists x; by split|exists y; by split|by apply recent_nil..|]. cbn [fst snd] in *.
  rewrite (side_link_fun _ _ _ _ La (side_rel_link _ _ _ _ _ _ _ Ra)) in *.
  rewrite (side_link_fun _ _ _ _ Lb (side_rel_link _ _ _ _ _ _ _ Rb)) in *.
  unfold bounded in *. rewrite <- (length_crypt_stream _ _ _ _ (sr_wrote _ _ _ _ _ _ _ Ra)) in Ba.
  rewrite <- (length_crypt_stream _ _ _ _ (sr_wrote _ _ _ _ _ _ _ Rb)) in Bb.
  destruct (recover_both h k c1 c2 ea eb He1 He2 Ht Hu1 Hu2 Hr Ba Bb Hab Hba) as (ea' & eb' & Hr' & W1 & W2 & E1 & E2).
  destruct (timely_sides i j (cc_shared_key x) (cc_sent_nonce x) (cc_sent_nonce y) _ _ (with_packets a []) (with_packets b []) Hr')
    as (a' & b' & Hs' & [da' Ra'] & [db' Rb']); cbn [fst snd] in *;
    [by rewrite W1|by rewrite W2|eexists; by apply side_rel_packets..|].
  assert (sd_wrote a' = sd_wrote a) as Wa by (eapply side_rel_wrote; [exact Ra|exact Ra'|exact W1]).
  assert (sd_wrote b' = sd_wrote b) as Wb by (eapply side_rel_wrote; [exact Rb|exact Rb'|exact W2]).
  exists a', b'. split_and!; [done..| |].
  - rewrite <- Wa. eapply side_rel_all; [exact Ra'|exact Rb'|by rewrite W1].
  - rewrite <- Wb. eapply side_rel_all; [exact Rb'|exact Ra'|by rewrite W2].
Qed.
End recovery.

(** ** Witness *)

Section witnesses.
#[local] Existing Instance ToyBox.box.
#[local] Existing Instance ToyBox.laws.

(** A message is written and sent, and its packet is lost. *)
Definition side_lost : Side := with_packets side_A2 [].

Lemma channel_recovers_witness :
  sd_read side_B0 = [] /\ lost (side_conn side_lost) (side_conn side_B0) = 1%nat /\
  exists a' b', rtc (timely_channel 0 0) (side_lost, side_B0) (a', b') /\
    sd_wrote a' = [[10; 11]] /\ sd_wrote b' = [] /\ sd_read b' = [[10; 11]] /\ sd_read a' = [].
Proof.
  split; [done|]. split; [by vm_compute|].
  apply (channel_recovers 0 0 100 200 (sd_nc side_A0) (sd_nc side_B0) demo_cc demo_cc
           (demo_conn demo_peer 100 200) (demo_conn demo_peer 200 100) side_lost side_B0
           (side_conn side_lost) (side_conn side_B0)).
  - split.
    + split; [split; [lia|done]|done].
    + split; [split; [lia|done]|done].
    + split; done.
    + apply demo_established; unfold is_u32; lia.
    + apply demo_established; unfold is_u32; lia.
  - unfold tokens. by vm_compute.
  - by unfold is_u8; simpl.
  - by unfold is_u8; simpl.
  - assert (R : forall sd, sd_net sd = [] \/ (exists num p, sd_net sd = [PData num p]) -> side_recent 0 sd).
    { intros sd Hn c _ counter rn sn q. cbn. destruct Hn as [E|(num & p & E)]; rewrite E;
        [by intros ?%not_elem_of_nil|by intros ?%list_elem_of_singleton]. }
    destruct (side_A_run []) as (A1 & A2 & _).
    eapply rtc_l; [apply (timely_call 0 0 (side_A0, side_B0) (side_A1, side_B0)); [by constructor|apply R; by left..]|].
    eapply rtc_l; [apply (timely_call 0 0 (side_A1, side_B0) (side_A2, side_B0)); [by constructor|apply R; right; by eexists _, _|apply R; by left]|].
    apply rtc_once. apply (timely_drop 0 0 side_A2 side_B0 [] []); set_solver.
  - unfold bounded. by vm_compute.
  - unfold bounded. by vm_compute.
  - eexists. split; [split; [lia|by vm_compute]|by vm_compute].
  - eexists. split; [split; [lia|by vm_compute]|by vm_compute].
  - apply Nat.leb_le. by vm_compute.
  - apply Nat.leb_le. by vm_compute.
Defined.
End witnesses.
