(* ===== verification/Ping.v ===== *)
(** * ping.c: the cyclic buffer of outstanding pings

    [PING] is the ring of the source; [ping_queue] is the queue it stands for, and
    the operations on the ring are shown to be the operations on the queue.  The
    handlers of ping packets need the DHT and are in [DHT]. *)

From S2P Require Import Prelude MiscTools Network LosslessUDP Crypto.
Local Open Scope Z_scope.
Local Open Scope tox_scope.

Definition PING_NUM_MAX : nat := 256.
Definition PING_TIMEOUT : Z := 5.

Record pinged_t := mkPinged { ipp : IP_Port; id : Z; timestamp : Z }.

Record PING := mkPING { pings : list pinged_t; num_pings : nat; pos_pings : nat }.

Definition pinged_zero : pinged_t := mkPinged ipp_zero 0 0.

Definition ping_zero : PING := mkPING (replicate PING_NUM_MAX pinged_zero) 0 0.

Definition new_ping (nomem : bool) : option PING := if nomem then None else Some ping_zero.

(** Slot [i] places after the oldest one. *)
Definition ring_slot (p : PING) (i : nat) : nat := (pos_pings p + i) mod PING_NUM_MAX.
Definition ring_get (p : PING) (i : nat) : pinged_t := nth (ring_slot p i) (pings p) pinged_zero.

(** [is_timeout] of ping.c; the clock is read at each call. *)
Definition ping_timeout (time : Z) : M PING bool :=
  now <- unix_time ;; retM (u64 (time + PING_TIMEOUT) <? now).

(** The number of pings the loop of [remove_timeouts] drops, from place [i] on. *)
Fixpoint timeouts_loop (n i : nat) : M PING nat :=
  match n with
  | O => retM 0%nat
  | S k =>
    p <- getM ;;
    t <- ping_timeout (timestamp (ring_get p i)) ;;
    if (t : bool) then d <- timeouts_loop k (S i) ;; retM (S d) else retM 0%nat
  end.

Definition remove_timeouts : M PING unit :=
  p <- getM ;;
  d <- timeouts_loop (num_pings p) 0 ;;
  putM (mkPING (pings p) (num_pings p - d) ((pos_pings p + d) mod PING_NUM_MAX)).

Definition add_ping (addr : IP_Port) : M PING Z :=
  remove_timeouts ;;;
  modM (fun p => if (num_pings p =? PING_NUM_MAX)%nat
                 then mkPING (pings p) (num_pings p - 1) ((pos_pings p + 1) mod PING_NUM_MAX)
                 else p) ;;;
  t <- unix_time ;;
  x <- random_64b ;;
  modM (fun p => mkPING (<[ring_slot p (num_pings p) := mkPinged addr x t]> (pings p))
                   (num_pings p + 1) (pos_pings p)) ;;;
  retM x.

(** The test of one outstanding ping. *)
Definition ping_match (addr : IP_Port) (ping_id : Z) (e : pinged_t) : bool :=
  (ipp_eq (ipp e) addr || (ip addr =? 0)) && ((id e =? ping_id) || (ping_id =? 0)).

Fixpoint pinging_loop (p : PING) (addr : IP_Port) (ping_id : Z) (n i : nat) : bool :=
  match n with
  | O => false
  | S k => if ping_match addr ping_id (ring_get p i) then true
           else pinging_loop p addr ping_id k (S i)
  end.

Definition is_pinging (addr : IP_Port) (ping_id : Z) : M PING bool :=
  if (ip addr =? 0) && (ping_id =? 0) then retM false
  else
    remove_timeouts ;;;
    p <- getM ;;
    retM (pinging_loop p addr ping_id (num_pings p) 0).

(** ** Ping packets *)

Definition DHT_PING_SIZE : nat :=
  1 + crypto_box_PUBLICKEYBYTES + crypto_box_NONCEBYTES + 8 + ENCRYPTION_PADDING.

Section ping_packets.
Context `{CryptoBox}.

(** The packet, once its nonce is drawn. *)
Definition ping_packet (kind : Z) (self_public_key self_secret_key nonce client_id : list Z)
    (ping_id : Z) : option (list Z) :=
  match encrypt_data client_id self_secret_key nonce (le_bytes 8 ping_id) with
  | Some enc =>
    if negb (length enc =? 8 + ENCRYPTION_PADDING)%nat then None
    else Some ([kind] ++ self_public_key ++ nonce ++ enc)
  | None => None
  end.

Definition id_eq (a b : list Z) : bool := memcmp_eq crypto_box_PUBLICKEYBYTES a b.

Definition send_ping_request (self_public_key self_secret_key : list Z) (addr : IP_Port)
    (client_id : list Z) : M PING Z :=
  busy <- is_pinging addr 0 ;;
  if (busy : bool) || id_eq client_id self_public_key then retM 1
  else
    ping_id <- add_ping addr ;;
    nonce <- random_nonce ;;
    match ping_packet NET_PACKET_PING_REQUEST self_public_key self_secret_key nonce client_id ping_id with
    | None => retM 1
    | Some pk => sendpacket addr pk
    end.

Definition send_ping_response {S} (self_public_key self_secret_key : list Z) (addr : IP_Port)
    (client_id : list Z) (ping_id : Z) : M S Z :=
  if id_eq client_id self_public_key then retM 1
  else
    nonce <- random_nonce ;;
    match ping_packet NET_PACKET_PING_RESPONSE self_public_key self_secret_key nonce client_id ping_id with
    | None => retM 1
    | Some pk => sendpacket addr pk
    end.

(** What both handlers do first: check the length and the sender and decrypt the
    ping id. *)
Definition ping_decode (self_public_key self_secret_key packet : list Z) : option Z :=
  if negb (length packet =? DHT_PING_SIZE)%nat then None
  else if id_eq (drop 1 packet) self_public_key then None
  else
    match decrypt_data (bytes_at 1 crypto_box_PUBLICKEYBYTES packet) self_secret_key
            (bytes_at (1 + crypto_box_PUBLICKEYBYTES) crypto_box_NONCEBYTES packet)
            (bytes_at (1 + crypto_box_PUBLICKEYBYTES + crypto_box_NONCEBYTES)
               (8 + ENCRYPTION_PADDING) packet) with
    | Some plain => if negb (length plain =? 8)%nat then None else Some (le_val plain)
    | None => None
    end.
End ping_packets.

(** ** The queue behind the ring *)

(** The outstanding pings, oldest first. *)
Definition ping_queue (p : PING) : list pinged_t := map (ring_get p) (seq 0 (num_pings p)).

Record ping_wf (p : PING) : Prop := {
  pw_len : length (pings p) = PING_NUM_MAX;
  pw_num : (num_pings p <= PING_NUM_MAX)%nat;
  pw_pos : (pos_pings p < PING_NUM_MAX)%nat
}.

Lemma ping_zero_wf : ping_wf ping_zero.
Proof. constructor; unfold ping_zero; cbn [pings num_pings pos_pings]; [apply length_replicate|unfold PING_NUM_MAX; lia..]. Qed.

Lemma ring_slot_lt p i : (ring_slot p i < PING_NUM_MAX)%nat.
Proof. apply Nat.mod_upper_bound. unfold PING_NUM_MAX. lia. Qed.

Lemma length_ping_queue p : length (ping_queue p) = num_pings p.
Proof. unfold ping_queue. by rewrite length_map, length_seq. Qed.

Lemma ping_queue_lookup p i :
  (i < num_pings p)%nat -> ping_queue p !! i = Some (ring_get p i).
Proof.
  intros Hi. unfold ping_queue. rewrite list_lookup_fmap, lookup_seq_lt by done. done.
Qed.

(** Advancing the ring drops the oldest pings. *)
Lemma ping_queue_drop p d :
  ping_wf p -> (d <= num_pings p)%nat ->
  let p' := mkPING (pings p) (num_pings p - d) ((pos_pings p + d) mod PING_NUM_MAX) in
  ping_wf p' /\ ping_queue p' = drop d (ping_queue p).
Proof.
  intros [H1 H2 H3] Hd p'. split.
  - constructor; cbn [p' pings num_pings pos_pings]; [done|lia|]. apply Nat.mod_upper_bound. unfold PING_NUM_MAX. lia.
  - apply list_eq. intros i. rewrite lookup_drop.
    destruct (decide (i < num_pings p - d)%nat) as [Hi|Hi].
    + rewrite !ping_queue_lookup by (simpl; lia). f_equal. unfold ring_get, ring_slot. cbn [p' pings].
      f_equal. cbn [p' pos_pings]. rewrite Nat.Div0.add_mod_idemp_l. f_equal. lia.
    + rewrite !lookup_ge_None_2; [done|rewrite length_ping_queue; simpl; lia..].
Qed.

(** Writing the slot after the last appends to the queue. *)
Lemma ping_queue_push p e :
  ping_wf p -> (num_pings p < PING_NUM_MAX)%nat ->
  let p' := mkPING (<[ring_slot p (num_pings p) := e]> (pings p)) (num_pings p + 1) (pos_pings p) in
  ping_wf p' /\ ping_queue p' = ping_queue p ++ [e].
Proof.
  intros [H1 H2 H3] Hn p'. split.
  - constructor; simpl; [by rewrite length_insert|lia|done].
  - apply list_eq. intros i. destruct (decide (i <= num_pings p)%nat) as [Hi|Hi].
    + rewrite ping_queue_lookup by (simpl; lia).
      assert (Hs : ring_slot p' i = ring_slot p i) by done.
      unfold ring_get. rewrite Hs, nth_lookup. simpl pings.
      destruct (decide (i = num_pings p)) as [->|Hne].
      * rewrite list_lookup_insert_eq by (rewrite H1; apply ring_slot_lt). simpl.
        rewrite lookup_app_r, length_ping_queue, Nat.sub_diag by (rewrite length_ping_queue; lia). done.
      * rewrite list_lookup_insert_ne.
        -- rewrite lookup_app_l by (rewrite length_ping_queue; lia).
           rewrite ping_queue_lookup by lia. unfold ring_get. by rewrite nth_lookup.
        -- unfold ring_slot. intros E. apply Hne. unfold PING_NUM_MAX in *.
           assert (Hz : (Z.of_nat (pos_pings p) + Z.of_nat (num_pings p)) mod 256
                        = (Z.of_nat (pos_pings p) + Z.of_nat i) mod 256).
           { rewrite <- !Nat2Z.inj_add. change 256 with (Z.of_nat 256).
             rewrite <- !Nat2Z.inj_mod. by rewrite E. }
           lia.
    + rewrite !lookup_ge_None_2; [done| |].
      * rewrite length_app, length_ping_queue. simpl. lia.
      * rewrite length_ping_queue. simpl. lia.
Qed.

Lemma pinging_loop_spec p addr ping_id n i :
  pinging_loop p addr ping_id n i = existsb (ping_match addr ping_id) (map (ring_get p) (seq i n)).
Proof.
  revert i. induction n as [|n IH]; intros i; simpl; [done|]. rewrite IH.
  by destruct (ping_match addr ping_id (ring_get p i)).
Qed.

(** The dropped pings, when the clock stands still, are the timed out ones at the
    front of the queue. *)
Fixpoint expired (now : Z) (q : list pinged_t) : nat :=
  match q with
  | [] => 0
  | e :: r => if u64 (timestamp e + PING_TIMEOUT) <? now then S (expired now r) else 0
  end.

Lemma expired_le now q : (expired now q <= length q)%nat.
Proof. induction q as [|e r IH]; simpl; [lia|]. case_if; lia. Qed.

Lemma unix_time_still {S} (s : S) w t : w_unix w = [t] -> unix_time s w = Some (u64 t, s, w).
Proof. intros E. unfold unix_time, worldM. rewrite E. simpl. destruct w; simpl in *. by subst. Qed.

Lemma timeouts_loop_still p w t n i :
  w_unix w = [t] ->
  timeouts_loop n i p w = Some (expired (u64 t) (map (ring_get p) (seq i n)), p, w).
Proof.
  intros Hw. revert i. induction n as [|n IH]; intros i; [done|]. cbn [timeouts_loop seq map expired].
  erewrite bind_eval by done. unfold ping_timeout.
  erewrite bind_eval by (erewrite bind_eval by (by apply unix_time_still); reflexivity).
  case_if; [|done]. erewrite bind_eval by apply IH. done.
Qed.

Lemma remove_timeouts_still p w t :
  w_unix w = [t] -> ping_wf p ->
  exists p', remove_timeouts p w = Some (tt, p', w) /\ ping_wf p' /\
    ping_queue p' = drop (expired (u64 t) (ping_queue p)) (ping_queue p).
Proof.
  intros Hw Hp. unfold remove_timeouts. erewrite bind_eval by done.
  erewrite bind_eval by (by apply timeouts_loop_still).
  eexists. split; [reflexivity|].
  change (map (ring_get p) (seq 0 (num_pings p))) with (ping_queue p).
  apply ping_queue_drop; [done|]. rewrite <- length_ping_queue. apply expired_le.
Qed.

(** *** Any clock *)

Lemma wp_timeouts_loop n i p w (Q : nat -> PING -> World -> Prop) :
  (forall d w', (d <= n)%nat -> Q d p w') -> wp (timeouts_loop n i) Q p w.
Proof.
  revert i w Q. induction n as [|n IH]; intros i w Q HQ; cbn [timeouts_loop].
  { wp_step. by apply HQ. }
  do 2 wp_step. unfold ping_timeout. repeat wp_step; [|apply HQ; lia].
  apply IH. intros d w2 Hd. wp_step. apply HQ. lia.
Qed.

Lemma wp_remove_timeouts p w (Q : unit -> PING -> World -> Prop) :
  ping_wf p ->
  (forall p' w', ping_wf p' -> (exists d, ping_queue p' = drop d (ping_queue p)) -> Q tt p' w') ->
  wp remove_timeouts Q p w.
Proof.
  intros Hp HQ. unfold remove_timeouts. do 2 wp_step. wp_step. apply wp_timeouts_loop.
  intros d w' Hd. wp_step. destruct (ping_queue_drop p d Hp Hd). apply HQ; eauto.
Qed.

Lemma wp_random_64b {S} (Q : Z -> S -> World -> Prop) s w :
  (forall x w', Q x s w') -> wp random_64b Q s w.
Proof. intros HQ. unfold random_64b. repeat wp_step. apply HQ. Qed.

Lemma wp_add_ping addr p w (Q : Z -> PING -> World -> Prop) :
  ping_wf p ->
  (forall x p' w', ping_wf p' ->
     (exists d t, (ping_queue p' = drop d (ping_queue p) ++ [mkPinged addr x t])) -> Q x p' w') ->
  wp (add_ping addr) Q p w.
Proof.
  intros Hp HQ. unfold add_ping. wp_step. apply wp_remove_timeouts; [done|].
  intros p1 w1 Hp1 [d Hd]. do 2 wp_step. 
  set (p2 := if (num_pings p1 =? PING_NUM_MAX)%nat then _ else _).
  assert (H2 : ping_wf p2 /\ (exists d', ping_queue p2 = drop d' (ping_queue p)) /\
               (num_pings p2 < PING_NUM_MAX)%nat).
  { subst p2. destruct (Nat.eqb_spec (num_pings p1) PING_NUM_MAX) as [E|E].
    - destruct (ping_queue_drop p1 1 Hp1) as [? Eq]; [rewrite E; unfold PING_NUM_MAX; lia|].
      split_and!; [done| |simpl; rewrite E; unfold PING_NUM_MAX; lia].
      exists (d + 1)%nat. rewrite Eq, Hd, drop_drop. done.
    - split_and!; [done|by eauto|]. pose proof (pw_num _ Hp1). lia. }
  destruct H2 as (Hp2 & [d' Hd'] & Hn). do 3 wp_step. apply wp_random_64b. intros x w2.
  do 2 wp_step. wp_step. destruct (ping_queue_push p2 (mkPinged addr x t) Hp2 Hn) as [? Eq].
  apply HQ; [done|]. exists d', t. by rewrite Eq, Hd'.
Qed.

Lemma wp_is_pinging addr ping_id p w (Q : bool -> PING -> World -> Prop) :
  ping_wf p ->
  (forall p' w', ping_wf p' -> (exists d, ping_queue p' = drop d (ping_queue p)) ->
     Q (negb ((ip addr =? 0) && (ping_id =? 0))
        && existsb (ping_match addr ping_id) (ping_queue p')) p' w') ->
  wp (is_pinging addr ping_id) Q p w.
Proof.
  intros Hp HQ. unfold is_pinging. destruct ((ip addr =? 0) && (ping_id =? 0)) eqn:E.
  - wp_step. specialize (HQ p w Hp). simpl in HQ. apply HQ. by exists 0%nat.
  - wp_step. apply wp_remove_timeouts; [done|]. intros p1 w1 Hp1 Hd. do 3 wp_step.
    rewrite pinging_loop_spec. apply (HQ p1 w1 Hp1 Hd).
Qed.
