(* ===== verification/DHTLists.v ===== *)
(** * DHT.c: the lists of nodes

    Distances between ids, the client lists and how nodes enter them, the closest
    nodes sent in answers: the parts of DHT.c that work on lists, as functions of
    the list and of the time. *)

From S2P Require Import Prelude MiscTools Network LosslessUDP Crypto Ping.
From stdpp Require Import sorting.
Local Open Scope Z_scope.

Definition CLIENT_ID_SIZE : nat := crypto_box_PUBLICKEYBYTES.
Definition MAX_FRIEND_CLIENTS : nat := 8.
Definition LCLIENT_LIST : nat := 32.
Definition LSEND_NODES_ARRAY : nat := 128.
Definition MAX_TOPING : nat := 16.
Definition BAD_NODE_TIMEOUT : Z := 70.
Definition MAX_SENT_NODES : nat := 8.
Definition Kill_NODE_TIMEOUT : Z := 300.
Definition PING_INTERVAL : Z := 60.
Definition GET_NODE_INTERVAL : Z := 10.
Definition MAX_PUNCHING_PORTS : nat := 32.
Definition PUNCH_INTERVAL : Z := 10.
Definition TIME_TOPING : Z := 5.
Definition NAT_PING_REQUEST : Z := 0.
Definition NAT_PING_RESPONSE : Z := 1.

(** ** Data *)

Record Client_data := mkCD {
  cd_client_id : list Z;
  cd_ip_port : IP_Port;
  cd_timestamp : Z;
  cd_last_pinged : Z;
  cd_ret_ip_port : IP_Port;
  cd_ret_timestamp : Z
}.

Definition set_cd_client_id (x : list Z) (c : Client_data) : Client_data :=
  mkCD x (cd_ip_port c) (cd_timestamp c) (cd_last_pinged c) (cd_ret_ip_port c) (cd_ret_timestamp c).
Definition set_cd_ip_port (x : IP_Port) (c : Client_data) : Client_data :=
  mkCD (cd_client_id c) x (cd_timestamp c) (cd_last_pinged c) (cd_ret_ip_port c) (cd_ret_timestamp
    c).
Definition set_cd_timestamp (x : Z) (c : Client_data) : Client_data :=
  mkCD (cd_client_id c) (cd_ip_port c) x (cd_last_pinged c) (cd_ret_ip_port c) (cd_ret_timestamp c).
Definition set_cd_last_pinged (x : Z) (c : Client_data) : Client_data :=
  mkCD (cd_client_id c) (cd_ip_port c) (cd_timestamp c) x (cd_ret_ip_port c) (cd_ret_timestamp c).
Definition set_cd_ret_ip_port (x : IP_Port) (c : Client_data) : Client_data :=
  mkCD (cd_client_id c) (cd_ip_port c) (cd_timestamp c) (cd_last_pinged c) x (cd_ret_timestamp c).
Definition set_cd_ret_timestamp (x : Z) (c : Client_data) : Client_data :=
  mkCD (cd_client_id c) (cd_ip_port c) (cd_timestamp c) (cd_last_pinged c) (cd_ret_ip_port c) x.

Record DHT_Friend := mkDF {
  df_client_id : list Z;
  df_client_list : list Client_data;
  df_lastgetnode : Z;
  df_hole_punching : Z;
  df_punching_index : Z;
  df_punching_timestamp : Z;
  df_recvNATping_timestamp : Z;
  df_NATping_id : Z;
  df_NATping_timestamp : Z
}.

Definition set_df_client_id (x : list Z) (c : DHT_Friend) : DHT_Friend :=
  mkDF x (df_client_list c) (df_lastgetnode c) (df_hole_punching c) (df_punching_index c)
    (df_punching_timestamp c) (df_recvNATping_timestamp c) (df_NATping_id c) (df_NATping_timestamp
    c).
Definition set_df_client_list (x : list Client_data) (c : DHT_Friend) : DHT_Friend :=
  mkDF (df_client_id c) x (df_lastgetnode c) (df_hole_punching c) (df_punching_index c)
    (df_punching_timestamp c) (df_recvNATping_timestamp c) (df_NATping_id c) (df_NATping_timestamp
    c).
Definition set_df_lastgetnode (x : Z) (c : DHT_Friend) : DHT_Friend :=
  mkDF (df_client_id c) (df_client_list c) x (df_hole_punching c) (df_punching_index c)
    (df_punching_timestamp c) (df_recvNATping_timestamp c) (df_NATping_id c) (df_NATping_timestamp
    c).
Definition set_df_hole_punching (x : Z) (c : DHT_Friend) : DHT_Friend :=
  mkDF (df_client_id c) (df_client_list c) (df_lastgetnode c) x (df_punching_index c)
    (df_punching_timestamp c) (df_recvNATping_timestamp c) (df_NATping_id c) (df_NATping_timestamp
    c).
Definition set_df_punching_index (x : Z) (c : DHT_Friend) : DHT_Friend :=
  mkDF (df_client_id c) (df_client_list c) (df_lastgetnode c) (df_hole_punching c) x
    (df_punching_timestamp c) (df_recvNATping_timestamp c) (df_NATping_id c) (df_NATping_timestamp
    c).
Definition set_df_punching_timestamp (x : Z) (c : DHT_Friend) : DHT_Friend :=
  mkDF (df_client_id c) (df_client_list c) (df_lastgetnode c) (df_hole_punching c)
    (df_punching_index c) x (df_recvNATping_timestamp c) (df_NATping_id c) (df_NATping_timestamp
    c).
Definition set_df_recvNATping_timestamp (x : Z) (c : DHT_Friend) : DHT_Friend :=
  mkDF (df_client_id c) (df_client_list c) (df_lastgetnode c) (df_hole_punching c)
    (df_punching_index c) (df_punching_timestamp c) x (df_NATping_id c) (df_NATping_timestamp c).
Definition set_df_NATping_id (x : Z) (c : DHT_Friend) : DHT_Friend :=
  mkDF (df_client_id c) (df_client_list c) (df_lastgetnode c) (df_hole_punching c)
    (df_punching_index c) (df_punching_timestamp c) (df_recvNATping_timestamp c) x
    (df_NATping_timestamp c).
Definition set_df_NATping_timestamp (x : Z) (c : DHT_Friend) : DHT_Friend :=
  mkDF (df_client_id c) (df_client_list c) (df_lastgetnode c) (df_hole_punching c)
    (df_punching_index c) (df_punching_timestamp c) (df_recvNATping_timestamp c) (df_NATping_id c)
    x.

Record Node_format := mkNode { nf_client_id : list Z; nf_ip_port : IP_Port }.

#[export] Instance Client_data_eq_dec : EqDecision Client_data.
Proof. solve_decision. Defined.
#[export] Instance Node_format_eq_dec : EqDecision Node_format.
Proof. solve_decision. Defined.

Record Pinged := mkPd { pd_ip_port : IP_Port; pd_ping_id : Z; pd_timestamp : Z }.

Definition client_zero : Client_data := mkCD (zeros CLIENT_ID_SIZE) ipp_zero 0 0 ipp_zero 0.
Definition friend_zero : DHT_Friend :=
  mkDF (zeros CLIENT_ID_SIZE) (replicate MAX_FRIEND_CLIENTS client_zero) 0 0 0 0 0 0 0.
Definition node_zero : Node_format := mkNode (zeros CLIENT_ID_SIZE) ipp_zero.
Definition pinged0 : Pinged := mkPd ipp_zero 0 0.

(** The bytes of a [Node_format]. *)
Definition node_bytes (n : Node_format) : list Z := nf_client_id n ++ ipp_bytes (nf_ip_port n).
Definition node_of_bytes (l : list Z) : Node_format :=
  mkNode (take CLIENT_ID_SIZE l) (ipp_of_bytes (bytes_at CLIENT_ID_SIZE 8 l)).

(** ** Comparisons *)

(** [abs((int8_t)a ^ (int8_t)b)], stored in a [uint8_t]. *)
Definition byte_distance (a b : Z) : Z := u8 (Z.abs (Z.lxor (i8 a) (i8 b))).

(** 0, 1 or 2: neither, the first or the second of [id1], [id2] is closer to [id]. *)
Fixpoint id_closest_loop (n : nat) (id id1 id2 : list Z) : Z :=
  match n with
  | O => 0
  | S k =>
    let distance1 := byte_distance (nth 0 id 0) (nth 0 id1 0) in
    let distance2 := byte_distance (nth 0 id 0) (nth 0 id2 0) in
    if distance1 <? distance2 then 1
    else if distance2 <? distance1 then 2
    else id_closest_loop k (drop 1 id) (drop 1 id1) (drop 1 id2)
  end.
Definition id_closest (id id1 id2 : list Z) : Z := id_closest_loop CLIENT_ID_SIZE id id1 id2.

Record ClientPair := mkPair { c1 : Client_data; c2 : Client_data }.

Definition client_id_cmp (p1 p2 : ClientPair) : Z :=
  let c := id_closest (cd_client_id (c1 p1)) (cd_client_id (c2 p1)) (cd_client_id (c2 p2)) in
  if c =? 2 then -1 else c.

Definition ipport_equal (a b : IP_Port) : bool := (ip a =? ip b) && (port a =? port b).

Definition id_equal (a b : list Z) : bool := memcmp_eq CLIENT_ID_SIZE a b.

Definition is_timeout (time_now timestamp timeout : Z) : bool := u64 (timestamp + timeout) <=? time_now.

(** ** Client lists *)

(** The entry of the client is refreshed: its time and its address. *)
Definition refresh (now : Z) (ip_port : IP_Port) (c : Client_data) : Client_data :=
  set_cd_ip_port (mkIPP (ip ip_port) (port ip_port) (padding (cd_ip_port c))) (set_cd_timestamp now c).

Fixpoint client_in_list (now : Z) (lst : list Client_data) (client_id : list Z) (ip_port : IP_Port)
  : bool * list Client_data :=
  match lst with
  | [] => (false, [])
  | c :: r =>
    let c1 := if ipport_equal (cd_ip_port c) ip_port
              then set_cd_client_id (take CLIENT_ID_SIZE client_id) c else c in
    if id_equal (cd_client_id c1) client_id then (true, refresh now ip_port c1 :: r)
    else let '(b, r') := client_in_list now r client_id ip_port in (b, c1 :: r')
  end.

Definition client_in_nodelist (lst : list Node_format) (client_id : list Z) : bool :=
  existsb (fun n => id_equal (nf_client_id n) client_id) lst.

(** A new client in the place of an old one. *)
Definition new_client (now : Z) (client_id : list Z) (ip_port : IP_Port) (c : Client_data) : Client_data :=
  set_cd_ret_timestamp 0 (set_cd_ret_ip_port (mkIPP 0 0 (padding (cd_ret_ip_port c)))
    (set_cd_timestamp now (set_cd_ip_port ip_port
    (set_cd_client_id (take CLIENT_ID_SIZE client_id) c)))).

(** Replacing the first client that satisfies [P]; whether there is none. *)
Definition replace_first (P : Client_data -> bool) (f : Client_data -> Client_data)
    (lst : list Client_data) : Z * list Client_data :=
  match first_index P lst with
  | Some i => (0, alter f i lst)
  | None => (1, lst)
  end.

Definition replace_bad (now : Z) (lst : list Client_data) (client_id : list Z)
    (ip_port : IP_Port) : Z * list Client_data :=
  replace_first (fun c => is_timeout now (cd_timestamp c) BAD_NODE_TIMEOUT)
    (new_client now client_id ip_port) lst.

(** [pairs[i].c1] only has its id set. *)
Definition sort_list (lst : list Client_data) (comp_client_id : list Z)
  : option (list Client_data) :=
  let cd := set_cd_client_id (take CLIENT_ID_SIZE comp_client_id) client_zero in
  match quick_sort client_id_cmp (map (mkPair cd) lst) with
  | Some pairs => Some (map c2 pairs)
  | None => None
  end.

Definition replace_good (now : Z) (lst : list Client_data) (client_id : list Z)
    (ip_port : IP_Port) (comp_client_id : list Z) : option (Z * list Client_data) :=
  match sort_list lst comp_client_id with
  | None => None
  | Some lst =>
    Some (replace_first (fun c => id_closest comp_client_id (cd_client_id c) client_id =? 2)
            (new_client now client_id ip_port) lst)
  end.

(** ** The nodes sent in answers *)

Definition node_of (c : Client_data) : Node_format := mkNode (cd_client_id c) (cd_ip_port c).

(** One client considered by [get_close_nodes]: the nodes chosen so far and their
    number. *)
Definition close_step (now : Z) (client_id : list Z) (st : list Node_format * nat) (c : Client_data)
  : list Node_format * nat :=
  let '(nodes_list, num_nodes) := st in
  if is_timeout now (cd_timestamp c) BAD_NODE_TIMEOUT || client_in_nodelist nodes_list (cd_client_id c)
  then st
  else if (num_nodes <? MAX_SENT_NODES)%nat
  then (<[num_nodes := node_of c]> nodes_list, S num_nodes)
  else
    match first_index (fun n => id_closest client_id (nf_client_id n) (cd_client_id c) =? 2)
            nodes_list with
    | Some j => (<[j := node_of c]> nodes_list, num_nodes)
    | None => st
    end.

(** [nodes_list] has [MAX_SENT_NODES] entries, which nothing has written yet. *)
Definition get_close_nodes (now : Z) (close : list Client_data) (friends : list DHT_Friend)
    (client_id : list Z) (nodes_list : list Node_format) : list Node_format * nat :=
  fold_left (close_step now client_id) (close ++ flat_map df_client_list friends) (nodes_list, 0%nat).

(** ** NAT punching *)

(** The addresses the clients of a friend have returned; [None] when the friend
    itself is among them. *)
Fixpoint iplist_loop (now : Z) (friend_id : list Z) (l : list Client_data) : option (list IP_Port) :=
  match l with
  | [] => Some []
  | client :: r =>
    if negb (ip (cd_ret_ip_port client) =? 0)
       && negb (is_timeout now (cd_ret_timestamp client) BAD_NODE_TIMEOUT)
    then
      if id_equal (cd_client_id client) friend_id then None
      else option_map (cons (cd_ret_ip_port client)) (iplist_loop now friend_id r)
    else iplist_loop now friend_id r
  end.

Definition ip_count (ips : list IP_Port) (x : Z) : nat := length (filter (fun a => ip a = x) ips).

Definition NAT_commonip (ip_portlist : list IP_Port) (min_num : nat) : Z :=
  if (MAX_FRIEND_CLIENTS <? length ip_portlist)%nat then 0
  else
    match first_index (fun a => min_num <=? ip_count ip_portlist (ip a))%nat ip_portlist with
    | Some i => ip (nth i ip_portlist ipp_zero)
    | None => 0
    end.

Definition NAT_getports (ip_portlist : list IP_Port) (ip0 : Z) : list Z :=
  map (fun a => ntohs (port a)) (filter (fun a => ip a = ip0) ip_portlist).

(** The port guessed at index [i]. *)
Definition punch_port (port_list : list Z) (i : Z) : Z :=
  let numports := Z.of_nat (length port_list) in
  u16 (nth (Z.to_nat ((i / 2) mod numports)) port_list 0
       + (i / (2 * numports)) * (if i mod 2 =? 0 then 1 else -1)).

(** ** The list of nodes to ping *)

Definition put_toping (client_id : list Z) (ip_port : IP_Port) (n : Node_format) : Node_format :=
  mkNode (take CLIENT_ID_SIZE client_id)
    (mkIPP (ip ip_port) (port ip_port) (padding (nf_ip_port n))).

(** 0 when the node was added, else -1; and the list. *)
Definition add_toping_list (self_public_key : list Z) (toping : list Node_format) (client_id : list Z)
    (ip_port : IP_Port) : Z * list Node_format :=
  if ip ip_port =? 0 then (-1, toping)
  else
    match first_index (fun n => ip (nf_ip_port n) =? 0) toping with
    | Some i => (0, alter (put_toping client_id ip_port) i toping)
    | None =>
      match first_index (fun n => id_closest self_public_key (nf_client_id n) client_id =? 2) toping with
      | Some i => (0, alter (put_toping client_id ip_port) i toping)
      | None => (-1, toping)
      end
    end.

(** ** Saving *)

Definition client_bytes (c : Client_data) : list Z :=
  cd_client_id c ++ ipp_bytes (cd_ip_port c) ++ le_bytes 8 (cd_timestamp c)
  ++ le_bytes 8 (cd_last_pinged c) ++ ipp_bytes (cd_ret_ip_port c) ++ le_bytes 8 (cd_ret_timestamp c).
Definition CLIENT_SIZE : nat := 72.

(** Three bytes of padding follow [hole_punching]; they are those of zeroed memory. *)
Definition friend_bytes (f : DHT_Friend) : list Z :=
  df_client_id f ++ flat_map client_bytes (df_client_list f) ++ le_bytes 8 (df_lastgetnode f)
  ++ [df_hole_punching f] ++ zeros 3 ++ le_bytes 4 (df_punching_index f)
  ++ le_bytes 8 (df_punching_timestamp f) ++ le_bytes 8 (df_recvNATping_timestamp f)
  ++ le_bytes 8 (df_NATping_id f) ++ le_bytes 8 (df_NATping_timestamp f).
Definition FRIEND_SIZE : nat := 656.
Definition CLOSE_SIZE : nat := LCLIENT_LIST * CLIENT_SIZE.

(** What [DHT_load] reads of a saved client. *)
Definition client_of_bytes (l : list Z) : Client_data :=
  mkCD (bytes_at 0 32 l) (ipp_of_bytes (bytes_at 32 8 l)) (le_val (bytes_at 40 8 l))
    (le_val (bytes_at 48 8 l)) (ipp_of_bytes (bytes_at 56 8 l)) (le_val (bytes_at 64 8 l)).
