(* ===== verification/DHT.v ===== *)
(** * DHT.c, the ping handlers of ping.c and cryptopacket_handle of net_crypto.c

    The state of a DHT node, [DHT], holds the [Net_Crypto] instance it runs on and
    the pings of ping.c; one definition per function. *)

From S2P Require Import Prelude MiscTools Network LosslessUDP Crypto NetCrypto Ping DHTLists.
From stdpp Require Import gmap.
Local Open Scope Z_scope.
Local Open Scope tox_scope.

Record DHT := mkDHT {
  dht_c : Net_Crypto;
  close_clientlist : list Client_data;
  friends_list : list DHT_Friend;
  send_nodes : list Pinged;
  toping : list Node_format;
  last_toping : Z;
  close_lastgetnodes : Z;
  dht_ping : PING
}.

Definition set_dht_c (x : Net_Crypto) (c : DHT) : DHT :=
  mkDHT x (close_clientlist c) (friends_list c) (send_nodes c) (toping c) (last_toping c)
    (close_lastgetnodes c) (dht_ping c).
Definition set_close_clientlist (x : list Client_data) (c : DHT) : DHT :=
  mkDHT (dht_c c) x (friends_list c) (send_nodes c) (toping c) (last_toping c) (close_lastgetnodes
    c) (dht_ping c).
Definition set_friends_list (x : list DHT_Friend) (c : DHT) : DHT :=
  mkDHT (dht_c c) (close_clientlist c) x (send_nodes c) (toping c) (last_toping c)
    (close_lastgetnodes c) (dht_ping c).
Definition set_send_nodes (x : list Pinged) (c : DHT) : DHT :=
  mkDHT (dht_c c) (close_clientlist c) (friends_list c) x (toping c) (last_toping c)
    (close_lastgetnodes c) (dht_ping c).
Definition set_toping (x : list Node_format) (c : DHT) : DHT :=
  mkDHT (dht_c c) (close_clientlist c) (friends_list c) (send_nodes c) x (last_toping c)
    (close_lastgetnodes c) (dht_ping c).
Definition set_last_toping (x : Z) (c : DHT) : DHT :=
  mkDHT (dht_c c) (close_clientlist c) (friends_list c) (send_nodes c) (toping c) x
    (close_lastgetnodes c) (dht_ping c).
Definition set_close_lastgetnodes (x : Z) (c : DHT) : DHT :=
  mkDHT (dht_c c) (close_clientlist c) (friends_list c) (send_nodes c) (toping c) (last_toping c)
    x (dht_ping c).
Definition set_dht_ping (x : PING) (c : DHT) : DHT :=
  mkDHT (dht_c c) (close_clientlist c) (friends_list c) (send_nodes c) (toping c) (last_toping c)
    (close_lastgetnodes c) x.

(** Running an operation of a component. *)
Definition in_nc {A} (m : M Net_Crypto A) : M DHT A := zoom dht_c set_dht_c m.
Definition in_ping {A} (m : M PING A) : M DHT A := zoom dht_ping set_dht_ping m.

Definition dht_pk (d : DHT) : list Z := self_public_key (dht_c d).
Definition dht_sk (d : DHT) : list Z := self_secret_key (dht_c d).
(** [friends_list] is the part of the C array that the 16-bit counter [num_friends] covers. *)
Definition num_friends (d : DHT) : nat := length (friends_list d).

Definition mod_friend (i : nat) (f : DHT_Friend -> DHT_Friend) : M DHT unit :=
  modM (fun d => set_friends_list (alter f i (friends_list d)) d).
Definition get_friend (i : nat) : M DHT DHT_Friend :=
  d <- getM ;; liftO (friends_list d !! i).

(** [((uint64_t)random_int() << 32) + random_int()]. *)
Definition random_id {S} : M S Z :=
  a <- random_int ;; b <- random_int ;; retM (u64 (u64 (Z.shiftl a 32) + b)).

Definition friend_number (d : DHT) (client_id : list Z) : Z :=
  match first_index (fun f => id_equal (df_client_id f) client_id) (friends_list d) with
  | Some i => Z.of_nat i
  | None => -1
  end.

Definition DHT_get_close_list (d : DHT) : list Client_data := close_clientlist d.

Section dht.
Context `{CryptoBox}.

(** ** Client lists *)

(** [client_in_list], [replace_bad] and [replace_good] in turn; each reads the
  clock. *)
Definition add_client (lst : list Client_data) (client_id : list Z) (ip_port : IP_Port)
  (comp_client_id : list Z) : M DHT (list Client_data) :=
t <- unix_time ;;
let '(found, lst) := client_in_list t lst client_id ip_port in
if (found : bool) then retM lst
else
  t <- unix_time ;;
  let '(r, lst) := replace_bad t lst client_id ip_port in
  if r =? 0 then retM lst
  else
    t <- unix_time ;;
    r <- liftO (replace_good t lst client_id ip_port comp_client_id) ;;
    retM (snd r).

Definition addto_friend (ip_port : IP_Port) (client_id : list Z) (i : nat) : M DHT unit :=
f <- get_friend i ;;
l <- add_client (df_client_list f) client_id ip_port (df_client_id f) ;;
mod_friend i (set_df_client_list l).

Definition addto_lists (ip_port : IP_Port) (client_id : list Z) : M DHT unit :=
d <- getM ;;
l <- add_client (close_clientlist d) client_id ip_port (dht_pk d) ;;
modM (set_close_clientlist l) ;;;
forM (seq 0 (num_friends d)) (addto_friend ip_port client_id).

Definition set_returned (ip_port : IP_Port) (now : Z) (c : Client_data) : Client_data :=
set_cd_ret_timestamp now (set_cd_ret_ip_port ip_port c).

(** The search of [returnedip_ports] through the friends. *)
Fixpoint returned_friends (now : Z) (ip_port : IP_Port) (client_id nodeclient_id : list Z)
  (l : list DHT_Friend) : list DHT_Friend :=
match l with
| [] => []
| f :: r =>
  if id_equal client_id (df_client_id f) then
    match first_index (fun c => id_equal nodeclient_id (cd_client_id c)) (df_client_list f) with
    | Some j => set_df_client_list (alter (set_returned ip_port now) j (df_client_list f)) f :: r
    | None => f :: returned_friends now ip_port client_id nodeclient_id r
    end
  else f :: returned_friends now ip_port client_id nodeclient_id r
end.

Definition returnedip_ports (ip_port : IP_Port) (client_id nodeclient_id : list Z) : M DHT unit :=
t <- unix_time ;;
d <- getM ;;
if id_equal client_id (dht_pk d) then
  match first_index (fun c => id_equal nodeclient_id (cd_client_id c)) (close_clientlist d) with
  | Some i => modM (set_close_clientlist (alter (set_returned ip_port t) i (close_clientlist d)))
  | None => retM tt
  end
else modM (set_friends_list (returned_friends t ip_port client_id nodeclient_id (friends_list d))).

(** ** Get nodes requests *)

(** Does an entry match what is asked for? *)
Definition getting_match (now : Z) (ip_port : IP_Port) (ping_id : Z) (p : Pinged) : bool :=
if is_timeout now (pd_timestamp p) PING_TIMEOUT then false
else
  let pinging := (if negb (ip ip_port =? 0) && ipport_equal (pd_ip_port p) ip_port then 1 else 0)
                 + (if negb (ping_id =? 0) && (pd_ping_id p =? ping_id) then 1 else 0) in
  pinging =? (if ping_id =? 0 then 0 else 1) + (if ip ip_port =? 0 then 0 else 1).

Definition is_gettingnodes (ip_port : IP_Port) (ping_id : Z) : M DHT bool :=
t <- unix_time ;;
d <- getM ;;
retM (existsb (getting_match t ip_port ping_id) (send_nodes d)).

(** The slot [add_gettingnodes] takes: the first older than 5, else than 4, .. 1. *)
Fixpoint getting_slot (i : nat) (now : Z) (l : list Pinged) : option nat :=
match i with
| O => None
| S k =>
  match first_index (fun p => is_timeout now (pd_timestamp p) (Z.of_nat i)) l with
  | Some j => Some j
  | None => getting_slot k now l
  end
end.

Definition add_gettingnodes (ip_port : IP_Port) : M DHT Z :=
ping_id <- random_id ;;
t <- unix_time ;;
d <- getM ;;
match getting_slot (Z.to_nat PING_TIMEOUT) t (send_nodes d) with
| Some j => modM (set_send_nodes (<[j := mkPd ip_port ping_id t]> (send_nodes d))) ;;; retM ping_id
| None => retM 0
end.

Definition getnodes (ip_port : IP_Port) (public_key client_id : list Z) : M DHT Z :=
d <- getM ;;
if id_equal public_key (dht_pk d) then retM 1
else
  busy <- is_gettingnodes ip_port 0 ;;
  if (busy : bool) then retM 1
  else
    ping_id <- add_gettingnodes ip_port ;;
    if ping_id =? 0 then retM 1
    else
      nonce <- random_nonce ;;
      let plain := le_bytes 8 ping_id ++ take CLIENT_ID_SIZE client_id in
      match encrypt_data public_key (dht_sk d) nonce plain with
      | None => retM (-1)
      | Some enc =>
        if negb (length enc =? 8 + CLIENT_ID_SIZE + ENCRYPTION_PADDING)%nat then retM (-1)
        else sendpacket ip_port ([NET_PACKET_GET_NODES] ++ dht_pk d ++ nonce ++ enc)
      end.

Definition NODE_SIZE : nat := 40.

(** [MAX_SENT_NODES] entries of memory nothing has written. *)
Fixpoint junk_nodes (n : nat) : M DHT (list Node_format) :=
match n with
| O => retM []
| S k => b <- junk_bytes NODE_SIZE ;; r <- junk_nodes k ;; retM (node_of_bytes b :: r)
end.

Definition sendnodes (ip_port : IP_Port) (public_key client_id : list Z) (ping_id : Z) : M DHT Z :=
d <- getM ;;
if id_equal public_key (dht_pk d) then retM 1
else
  junk <- junk_nodes MAX_SENT_NODES ;;
  t <- unix_time ;;
  let '(nodes_list, num_nodes) :=
    get_close_nodes t (close_clientlist d) (friends_list d) client_id junk in
  if (num_nodes =? 0)%nat then retM 0
  else if (MAX_SENT_NODES <? num_nodes)%nat then ubM (* more than fit [nodes_list] and [plain] *)
  else
    nonce <- random_nonce ;;
    let plain := le_bytes 8 ping_id ++ flat_map node_bytes (take num_nodes nodes_list) in
    match encrypt_data public_key (dht_sk d) nonce plain with
    | None => retM (-1)
    | Some enc =>
      if negb (length enc =? 8 + num_nodes * NODE_SIZE + ENCRYPTION_PADDING)%nat then retM (-1)
      else sendpacket ip_port ([NET_PACKET_SEND_NODES] ++ dht_pk d ++ nonce ++ enc)
    end.

Definition handle_getnodes (source : IP_Port) (packet : list Z) : M DHT Z :=
if negb (length packet =? 1 + CLIENT_ID_SIZE + crypto_box_NONCEBYTES + 8 + CLIENT_ID_SIZE
                          + ENCRYPTION_PADDING)%nat then retM 1
else
  d <- getM ;;
  let sender := bytes_at 1 CLIENT_ID_SIZE packet in
  if id_equal sender (dht_pk d) then retM 1
  else
    match decrypt_data sender (dht_sk d) (bytes_at (1 + CLIENT_ID_SIZE) crypto_box_NONCEBYTES packet)
            (bytes_at (1 + CLIENT_ID_SIZE + crypto_box_NONCEBYTES) (8 + CLIENT_ID_SIZE + ENCRYPTION_PADDING)
               packet) with
    | None => retM 1
    | Some plain =>
      room (Z.of_nat (8 + CLIENT_ID_SIZE)) plain ;;;
      if negb (length plain =? 8 + CLIENT_ID_SIZE)%nat then retM 1
      else
        sendnodes source sender (drop 8 plain) (le_val (take 8 plain)) ;;;
        retM 0
    end.

(** Sending a ping with the keys of the node. *)
Definition ping_request (ip_port : IP_Port) (client_id : list Z) : M DHT Z :=
d <- getM ;; in_ping (send_ping_request (dht_pk d) (dht_sk d) ip_port client_id).

(** The nodes of an answer. *)
Definition sent_nodes (n : nat) (plain : list Z) : list Node_format :=
map (fun k => node_of_bytes (bytes_at (8 + NODE_SIZE * k) NODE_SIZE plain)) (seq 0 n).

(** The local buffers [plain] and [nodes_list] hold [MAX_SENT_NODES] nodes. *)
Definition handle_sendnodes (source : IP_Port) (packet : list Z) : M DHT Z :=
let cid_size := Z.of_nat (1 + CLIENT_ID_SIZE + (crypto_box_NONCEBYTES + 8 + ENCRYPTION_PADDING)) in
let len := Z.of_nat (length packet) in
let size := Z.of_nat NODE_SIZE in
if (cid_size + size * Z.of_nat MAX_SENT_NODES <? len) || negb (u32 (len - cid_size) mod size =? 0)
   || (len <? cid_size + size) then retM 1
else
  let num_nodes := Z.to_nat (u32 (len - cid_size) / size) in
  let sender := bytes_at 1 CLIENT_ID_SIZE packet in
  d <- getM ;;
  match decrypt_data sender (dht_sk d) (bytes_at (1 + CLIENT_ID_SIZE) crypto_box_NONCEBYTES packet)
          (bytes_at (1 + CLIENT_ID_SIZE + crypto_box_NONCEBYTES)
             (8 + num_nodes * NODE_SIZE + ENCRYPTION_PADDING) packet) with
  | None => retM 1
  | Some plain =>
    room (8 + size * Z.of_nat MAX_SENT_NODES) plain ;;;
    if negb (length plain =? 8 + num_nodes * NODE_SIZE)%nat then retM 1
    else
      ok <- is_gettingnodes source (le_val (take 8 plain)) ;;
      if negb ok then retM 1
      else
        room (size * Z.of_nat MAX_SENT_NODES) (bytes_at 8 (num_nodes * NODE_SIZE) plain) ;;;
        addto_lists source sender ;;;
        forM (sent_nodes num_nodes plain) (fun n =>
          ping_request (nf_ip_port n) (nf_client_id n) ;;;
          returnedip_ports (nf_ip_port n) (nf_client_id n) sender) ;;;
        retM 0
  end.

(** ** Friends *)

(** The list with one friend more; [num_friends], which says how many there are, is a 16-bit
  number and wraps around to zero at 65536. *)
Definition append_friend (l : list DHT_Friend) (f : DHT_Friend) : list DHT_Friend :=
take (Z.to_nat (u16 (Z.of_nat (length l) + 1))) (l ++ [f]).

Definition DHT_addfriend (client_id : list Z) : M DHT Z :=
d <- getM ;;
if negb (friend_number d client_id =? -1) then retM 1
else
  nomem <- alloc_fails ;;
  if (nomem : bool) then retM 1
  else
    x <- random_id ;;
    modM (fun d => set_friends_list
      (append_friend (friends_list d)
         (set_df_NATping_id x (set_df_client_id (take CLIENT_ID_SIZE client_id) friend_zero))) d) ;;;
    retM 0.

(** The last friend's id, and only that, moves to the place of the deleted one. *)
Definition del_friend (l : list DHT_Friend) (i : nat) : list DHT_Friend :=
let n := (length l - 1)%nat in
take n (if (n =? i)%nat then l
        else alter (set_df_client_id (df_client_id (nth n l friend_zero))) i l).

Definition DHT_delfriend (client_id : list Z) : M DHT Z :=
d <- getM ;;
match first_index (fun f => id_equal (df_client_id f) client_id) (friends_list d) with
| None => retM 1
| Some i =>
  modM (set_friends_list (del_friend (friends_list d) i)) ;;;
  if (num_friends d - 1 =? 0)%nat then retM 0
  else nomem <- alloc_fails ;; retM (if (nomem : bool) then 1 else 0)
end.

Definition DHT_getfriendip (client_id : list Z) : M DHT IP_Port :=
t <- unix_time ;;
d <- getM ;;
match first_index (fun f => id_equal (df_client_id f) client_id) (friends_list d) with
| None => retM (mkIPP 1 0 0)
| Some i =>
  f <- get_friend i ;;
  match first_index (fun c => id_equal (cd_client_id c) client_id
                              && negb (is_timeout t (cd_timestamp c) BAD_NODE_TIMEOUT))
          (df_client_list f) with
  | Some j => retM (cd_ip_port (nth j (df_client_list f) client_zero))
  | None => retM ipp_zero
  end
end.

(** ** The main loop *)

(** Pinging the clients that are due; the list after. *)
Fixpoint ping_clients (t : Z) (l : list Client_data) : M DHT (list Client_data) :=
match l with
| [] => retM []
| c :: r =>
  c1 <- (if negb (is_timeout t (cd_timestamp c) Kill_NODE_TIMEOUT)
            && (u64 (cd_last_pinged c + PING_INTERVAL) <=? t)
         then ping_request (cd_ip_port c) (cd_client_id c) ;;; retM (set_cd_last_pinged t c)
         else retM c) ;;
  r1 <- ping_clients t r ;;
  retM (c1 :: r1)
end.

(** The array [index]: the good clients. *)
Definition good_index (t : Z) (l : list Client_data) : list nat :=
filter (fun j => let c := nth j l client_zero in
          negb (is_timeout t (cd_timestamp c) Kill_NODE_TIMEOUT)
          && negb (is_timeout t (cd_timestamp c) BAD_NODE_TIMEOUT) = true)
  (seq 0 (length l)).

Definition do_DHT_friend (t : Z) (i : nat) : M DHT unit :=
f <- get_friend i ;;
l <- ping_clients t (df_client_list f) ;;
mod_friend i (set_df_client_list l) ;;;
let index := good_index t l in
if (u64 (df_lastgetnode f + GET_NODE_INTERVAL) <=? t) && negb (length index =? 0)%nat then
  r <- crand ;;
  let c := nth (nth (Z.to_nat (r mod Z.of_nat (length index))) index 0%nat) l client_zero in
  getnodes (cd_ip_port c) (cd_client_id c) (df_client_id f) ;;;
  mod_friend i (set_df_lastgetnode t)
else retM tt.

Definition do_DHT_friends : M DHT unit :=
t <- unix_time ;;
d <- getM ;;
forM (seq 0 (num_friends d)) (do_DHT_friend t).

Definition do_Close : M DHT unit :=
t <- unix_time ;;
d <- getM ;;
l <- ping_clients t (close_clientlist d) ;;
modM (set_close_clientlist l) ;;;
let index := good_index t l in
if (u64 (close_lastgetnodes d + GET_NODE_INTERVAL) <=? t) && negb (length index =? 0)%nat then
  r <- crand ;;
  let c := nth (nth (Z.to_nat (r mod Z.of_nat (length index))) index 0%nat) l client_zero in
  getnodes (cd_ip_port c) (cd_client_id c) (dht_pk d) ;;;
  modM (set_close_lastgetnodes t)
else retM tt.

Definition DHT_bootstrap (ip_port : IP_Port) (public_key : list Z) : M DHT unit :=
d <- getM ;;
getnodes ip_port public_key (dht_pk d) ;;;
ping_request ip_port public_key ;;;
retM tt.

(** ** Routing *)

Definition route_packet (client_id packet : list Z) : M DHT Z :=
d <- getM ;;
match first_index (fun c => id_equal client_id (cd_client_id c)) (close_clientlist d) with
| Some i => sendpacket (cd_ip_port (nth i (close_clientlist d) client_zero)) packet
| None => retM (-1)
end.

(** The number of addresses (-1, 0 or more) and the addresses. *)
Definition friend_iplist (friend_num : nat) : M DHT (Z * list IP_Port) :=
t <- unix_time ;;
d <- getM ;;
match friends_list d !! friend_num with
| None => retM (-1, [])
| Some f =>
  match iplist_loop t (df_client_id f) (df_client_list f) with
  | Some l => retM (Z.of_nat (length l), l)
  | None => retM (0, [])
  end
end.

Definition returned_good (t : Z) (c : Client_data) : bool :=
negb (ip (cd_ret_ip_port c) =? 0) && negb (is_timeout t (cd_ret_timestamp c) BAD_NODE_TIMEOUT).

Fixpoint route_all (t : Z) (packet : list Z) (l : list Client_data) : M DHT Z :=
match l with
| [] => retM 0
| c :: r =>
  one <- (if returned_good t c
          then n <- sendpacket (cd_ip_port c) packet ;;
               retM (if n =? Z.of_nat (length packet) then 1 else 0)
          else retM 0) ;;
  sent <- route_all t packet r ;;
  retM (one + sent)
end.

Definition route_tofriend (friend_id packet : list Z) : M DHT Z :=
d <- getM ;;
let num := friend_number d friend_id in
if num =? -1 then retM 0
else
  r <- friend_iplist (Z.to_nat num) ;;
  if fst r <? Z.of_nat (MAX_FRIEND_CLIENTS / 2) then retM 0
  else
    t <- unix_time ;;
    f <- get_friend (Z.to_nat num) ;;
    route_all t packet (df_client_list f).

Definition routeone_tofriend (friend_id packet : list Z) : M DHT Z :=
d <- getM ;;
let num := friend_number d friend_id in
if num =? -1 then retM 0
else
  f <- get_friend (Z.to_nat num) ;;
  t <- unix_time ;;
  let ip_list := map cd_ip_port (filter (fun c => returned_good t c = true) (df_client_list f)) in
  if (length ip_list <? 1)%nat then retM 0
  else
    r <- crand ;;
    n <- sendpacket (nth (Z.to_nat (r mod Z.of_nat (length ip_list))) ip_list ipp_zero) packet ;;
    retM (if n =? Z.of_nat (length packet) then 1 else 0).

Definition friend_ips (friend_id : list Z) : M DHT (Z * list IP_Port) :=
d <- getM ;;
match first_index (fun f => id_equal (df_client_id f) friend_id) (friends_list d) with
| Some i => friend_iplist i
| None => retM (-1, [])
end.

(** ** NAT punching *)

Definition send_NATping (public_key : list Z) (ping_id type : Z) : M DHT Z :=
d <- getM ;;
p <- create_request (dht_pk d) (dht_sk d) public_key ([type] ++ le_bytes 8 ping_id)
       CRYPTO_PACKET_NAT_PING ;;
match p with
| None => retM (-1)
| Some packet =>
  num <- (if type =? 0 then route_tofriend public_key packet
          else if type =? 1 then routeone_tofriend public_key packet
          else retM 0) ;;
  retM (if num =? 0 then -1 else num)
end.

(** The length of the packet is not looked at: the bytes after it are those of the
  caller's buffer, which nothing has written. *)
Definition handle_NATping (source : IP_Port) (source_pubkey packet : list Z) : M DHT Z :=
junk <- junk_bytes (9 - length packet) ;;
let ping_id := le_val (bytes_at 1 8 (packet ++ junk)) in
d <- getM ;;
let friendnumber := friend_number d source_pubkey in
if friendnumber =? -1 then retM 1
else
  f <- get_friend (Z.to_nat friendnumber) ;;
  if nth 0 packet 0 =? NAT_PING_REQUEST then
    send_NATping source_pubkey ping_id NAT_PING_RESPONSE ;;;
    t <- unix_time ;;
    mod_friend (Z.to_nat friendnumber) (set_df_recvNATping_timestamp t) ;;;
    retM 0
  else if nth 0 packet 0 =? NAT_PING_RESPONSE then
    if df_NATping_id f =? ping_id then
      x <- random_id ;;
      mod_friend (Z.to_nat friendnumber) (fun f => set_df_hole_punching 1 (set_df_NATping_id x f)) ;;;
      retM 0
    else retM 1
  else retM 1.

Definition punch_holes (ip0 : Z) (port_list : list Z) (friend_num : nat) : M DHT unit :=
if (MAX_FRIEND_CLIENTS <? length port_list)%nat || (length port_list =? 0)%nat then retM tt
else
  f <- get_friend friend_num ;;
  let first := df_punching_index f in
  forM (seq 0 MAX_PUNCHING_PORTS) (fun k =>
    let i := u32 (first + Z.of_nat k) in
    ping_request (mkIPP ip0 (htons (punch_port port_list i)) 0) (df_client_id f) ;;; retM tt) ;;;
  mod_friend friend_num (set_df_punching_index (u32 (first + Z.of_nat MAX_PUNCHING_PORTS))).

Definition do_NAT_friend (t : Z) (i : nat) : M DHT unit :=
r <- friend_iplist i ;;
let '(num, ip_list) := r in
if num <? Z.of_nat (MAX_FRIEND_CLIENTS / 2) then retM tt
else
  f <- get_friend i ;;
  (if u64 (df_NATping_timestamp f + PUNCH_INTERVAL) <? t then
     send_NATping (df_client_id f) (df_NATping_id f) NAT_PING_REQUEST ;;;
     mod_friend i (set_df_NATping_timestamp t)
   else retM tt) ;;;
  if (df_hole_punching f =? 1) && (u64 (df_punching_timestamp f + PUNCH_INTERVAL) <? t)
     && (t <=? u64 (df_recvNATping_timestamp f + PUNCH_INTERVAL * 2)) then
    let ip0 := NAT_commonip ip_list (MAX_FRIEND_CLIENTS / 2) in
    if ip0 =? 0 then retM tt
    else
      punch_holes ip0 (NAT_getports ip_list ip0) i ;;;
      mod_friend i (fun f => set_df_hole_punching 0 (set_df_punching_timestamp t f))
  else retM tt.

Definition do_NAT : M DHT unit :=
t <- unix_time ;;
d <- getM ;;
forM (seq 0 (num_friends d)) (do_NAT_friend t).

(** ** Nodes to ping *)

Definition add_toping (client_id : list Z) (ip_port : IP_Port) : M DHT Z :=
d <- getM ;;
let '(r, l) := add_toping_list (dht_pk d) (toping d) client_id ip_port in
modM (set_toping l) ;;;
retM r.

(** The loop stops at the first free entry. *)
Fixpoint toping_loop (l : list Node_format) : M DHT (list Node_format) :=
match l with
| [] => retM []
| n :: r =>
  if ip (nf_ip_port n) =? 0 then retM (n :: r)
  else
    ping_request (nf_ip_port n) (nf_client_id n) ;;;
    r1 <- toping_loop r ;;
    retM (mkNode (nf_client_id n) (mkIPP 0 (port (nf_ip_port n)) (padding (nf_ip_port n))) :: r1)
end.

Definition do_toping : M DHT unit :=
t <- unix_time ;;
d <- getM ;;
if negb (is_timeout t (last_toping d) TIME_TOPING) then retM tt
else
  modM (set_last_toping t) ;;;
  l <- toping_loop (toping d) ;;
  modM (set_toping l).

(** ** Ping packets *)

Definition handle_ping_request (source : IP_Port) (packet : list Z) : M DHT Z :=
d <- getM ;;
match ping_decode (dht_pk d) (dht_sk d) packet with
| None => retM 1
| Some ping_id =>
  let client_id := bytes_at 1 CLIENT_ID_SIZE packet in
  send_ping_response (dht_pk d) (dht_sk d) source client_id ping_id ;;;
  add_toping client_id source ;;;
  retM 0
end.

Definition handle_ping_response (source : IP_Port) (packet : list Z) : M DHT Z :=
d <- getM ;;
match ping_decode (dht_pk d) (dht_sk d) packet with
| None => retM 1
| Some ping_id =>
  ok <- in_ping (is_pinging source ping_id) ;;
  if negb ok then retM 1
  else addto_lists source (bytes_at 1 CLIENT_ID_SIZE packet) ;;; retM 0
end.

(** ** Creation, saving, loading *)

Definition new_DHT (c : Net_Crypto) : M unit (option DHT) :=
nomem <- alloc_fails ;;
if (nomem : bool) then retM None
else
  nomem <- alloc_fails ;;
  match new_ping nomem with
  | None => retM None
  | Some ping =>
    let reg n b cb := networking_registerhandler n b cb in
    let n := net (lossless_udp c) in
    let n := reg n NET_PACKET_PING_REQUEST handle_ping_request_cb in
    let n := reg n NET_PACKET_PING_RESPONSE handle_ping_response_cb in
    let n := reg n NET_PACKET_GET_NODES handle_getnodes_cb in
    let n := reg n NET_PACKET_SEND_NODES handle_sendnodes_cb in
    let c := init_cryptopackets (set_lossless_udp (set_net n (lossless_udp c)) c) in
    let c := cryptopacket_registerhandler CRYPTO_PACKET_NAT_PING handle_NATping_cb c in
    retM (Some (mkDHT c (replicate LCLIENT_LIST client_zero) []
                  (replicate LSEND_NODES_ARRAY pinged0) (replicate MAX_TOPING node_zero) 0 0 ping))
  end.

Definition do_DHT : M DHT unit := do_Close ;;; do_DHT_friends ;;; do_NAT ;;; do_toping.

Definition DHT_size (d : DHT) : nat := CLOSE_SIZE + FRIEND_SIZE * num_friends d.

Definition DHT_save (d : DHT) : list Z :=
flat_map client_bytes (close_clientlist d) ++ flat_map friend_bytes (friends_list d).

(** Loading one saved friend: its id, and a request to each of its clients. *)
Definition load_friend (b : list Z) : M DHT unit :=
let client_id := take CLIENT_ID_SIZE b in
DHT_addfriend client_id ;;;
forM (seq 0 MAX_FRIEND_CLIENTS) (fun j =>
  let client := client_of_bytes (bytes_at (CLIENT_ID_SIZE + CLIENT_SIZE * j) CLIENT_SIZE b) in
  if negb (cd_timestamp client =? 0)
  then getnodes (cd_ip_port client) (cd_client_id client) client_id ;;; retM tt
  else retM tt).

Definition DHT_load (data : list Z) : M DHT Z :=
if (length data <? CLOSE_SIZE)%nat then retM (-1)
else if negb ((length data - CLOSE_SIZE) mod FRIEND_SIZE =? 0)%nat then retM (-1)
else
  let temp := Z.to_nat (u16 (Z.of_nat ((length data - CLOSE_SIZE) / FRIEND_SIZE))) in
  forM (seq 0 temp) (fun i => load_friend (bytes_at (CLOSE_SIZE + FRIEND_SIZE * i) FRIEND_SIZE data)) ;;;
  forM (seq 0 LCLIENT_LIST) (fun i =>
    let client := client_of_bytes (bytes_at (CLIENT_SIZE * i) CLIENT_SIZE data) in
    if negb (cd_timestamp client =? 0)
    then DHT_bootstrap (cd_ip_port client) (cd_client_id client)
    else retM tt) ;;;
  retM 0.

Definition DHT_isconnected : M DHT Z :=
t <- unix_time ;;
d <- getM ;;
retM (if existsb (fun c => negb (is_timeout t (cd_timestamp c) BAD_NODE_TIMEOUT)) (close_clientlist d)
      then 1 else 0).

(** ** Requests of net_crypto.c

  [cryptopacket_handle] decrypts a request that is for us and calls the handler
  registered for it, or routes it through the DHT.  The handlers belong to other
  components: [get] and [set] find the DHT in the state they work on, and [call]
  runs one. *)
Section cryptopacket.
Context {S : Type} (get : S -> DHT) (set : DHT -> S -> S).
Context (call : crypto_handler -> IP_Port -> list Z -> list Z -> M S Z).

Definition cryptopacket_handle (source : IP_Port) (packet : list Z) : M S Z :=
s <- getM ;;
let d := get s in
let len := Z.of_nat (length packet) in
if nth 0 packet 0 =? NET_PACKET_CRYPTO then
if (len <=? Z.of_nat (request_header + ENCRYPTION_PADDING))
   || (MAX_DATA_SIZE + Z.of_nat ENCRYPTION_PADDING <? len) then retM 1
else if memcmp_eq crypto_box_PUBLICKEYBYTES (drop 1 packet) (dht_pk d) then
  match handle_request (dht_pk d) (dht_sk d) packet with
  | None => retM 1
  | Some (public_key, number, data) =>
    if (length data =? 0)%nat then retM 1
    else
      match cryptopackethandlers (dht_c d) !! number with
      | None => retM 1
      | Some cb => call cb source public_key data ;;; retM 1
      end
  end
else
  n <- zoom get set (route_packet (bytes_at 1 CLIENT_ID_SIZE packet) packet) ;;
  retM (if n =? len then 0 else 1)
else retM 1.
End cryptopacket.
End dht.

(** ** A fresh node *)

(** The crypto layer of a node with the given keys and no connection. *)
Definition idle_crypto (pk sk : list Z) : Net_Crypto :=
  mkNC (mkLudp net_zero (mk_tox_array []) (replicate 6 (zeros 256))) [] pk sk
    (replicate MAX_INCOMING (-1)) ∅.

(** What [new_DHT] allocates, on such a layer. *)
Definition idle_dht (pk sk : list Z) : DHT :=
  mkDHT (idle_crypto pk sk) (replicate LCLIENT_LIST client_zero) []
    (replicate LSEND_NODES_ARRAY pinged0) (replicate MAX_TOPING node_zero) 0 0 ping_zero.
