(* ===== verification/DHTDistance.v ===== *)
(** * DHT.c: which nodes a list keeps

    [id_closest] is shown to compare one number per id, [distance]; so sorting a
    list is total and puts the furthest client first, [replace_good] evicts the
    furthest client and only for a closer one, and a node that is good and closer
    than the newcomer is never lost. *)

From S2P Require Import Prelude MiscTools Network LosslessUDP Crypto NetCrypto Ping DHTLists DHT.
From stdpp Require Import sorting.
Local Open Scope Z_scope.
Local Open Scope tox_scope.

(** ** The distance *)

(** The number whose base-256 digits are the byte distances, first byte first. *)
Fixpoint distance_loop (n : nat) (id a : list Z) : Z :=
  match n with
  | O => 0
  | S k => byte_distance (nth 0 id 0) (nth 0 a 0) * 256 ^ Z.of_nat k
           + distance_loop k (drop 1 id) (drop 1 a)
  end.
Definition distance (id a : list Z) : Z := distance_loop CLIENT_ID_SIZE id a.

Lemma byte_distance_range a b : is_u8 (byte_distance a b).
Proof. apply u8_range. Qed.

Lemma distance_loop_range n id a : 0 <= distance_loop n id a < 256 ^ Z.of_nat n.
Proof.
  revert id a. induction n as [|n IH]; intros id a; [simpl; lia|].
  cbn [distance_loop]. pose proof (byte_distance_range (nth 0 id 0) (nth 0 a 0)) as [].
  specialize (IH (drop 1 id) (drop 1 a)). rewrite Nat2Z.inj_succ, Z.pow_succ_r by lia. nia.
Qed.

(** What the three answers of [id_closest] mean. *)
Definition closest_answer (c : comparison) : Z := match c with Lt => 1 | Eq => 0 | Gt => 2 end.

Lemma compare_digit x y a b m :
  0 <= a < m -> 0 <= b < m -> x <> y -> (x * m + a ?= y * m + b) = (x ?= y).
Proof.
  intros Ha Hb Hne. destruct (Z.compare_spec x y) as [|Hlt|Hgt]; [done| |].
  - apply Z.compare_lt_iff. nia.
  - apply Z.compare_gt_iff. nia.
Qed.

Lemma id_closest_loop_spec n id a b :
  id_closest_loop n id a b = closest_answer (distance_loop n id a ?= distance_loop n id b).
Proof.
  revert id a b. induction n as [|n IH]; intros id a b; [done|].
  cbn [id_closest_loop distance_loop].
  pose proof (distance_loop_range n (drop 1 id) (drop 1 a)) as Ra.
  pose proof (distance_loop_range n (drop 1 id) (drop 1 b)) as Rb.
  set (x := byte_distance _ (nth 0 a 0)). set (y := byte_distance _ (nth 0 b 0)).
  destruct (Z.ltb_spec x y) as [H|H]; [|destruct (Z.ltb_spec y x) as [H'|H']].
  - rewrite compare_digit by lia. by apply Z.compare_lt_iff in H as ->.
  - rewrite compare_digit by lia. by apply Z.compare_gt_iff in H' as ->.
  - rewrite IH. assert (x = y) as -> by lia. f_equal.
    symmetry. apply Z.add_compare_mono_l.
Qed.

Lemma id_closest_spec id a b : id_closest id a b = closest_answer (distance id a ?= distance id b).
Proof. apply id_closest_loop_spec. Qed.

Lemma id_closest_2 id a b : (id_closest id a b =? 2) = (distance id b <? distance id a).
Proof.
  rewrite id_closest_spec. destruct (Z.compare_spec (distance id a) (distance id b));
    simpl; symmetry; [apply Z.ltb_ge|apply Z.ltb_ge|apply Z.ltb_lt]; lia.
Qed.

(** ** Sorting *)

(** The comparison [client_id_cmp] makes when both pairs have the same first
    client. *)
Definition far_cmp (comp : list Z) (a b : Client_data) : Z :=
  client_id_cmp (mkPair (set_cd_client_id comp client_zero) a)
                (mkPair (set_cd_client_id comp client_zero) b).

Lemma far_cmp_spec comp a b :
  far_cmp comp a b =
  match distance comp (cd_client_id b) ?= distance comp (cd_client_id a) with
  | Lt => -1 | Eq => 0 | Gt => 1
  end.
Proof.
  unfold far_cmp, client_id_cmp. simpl. rewrite id_closest_spec.
  rewrite (Z.compare_antisym (distance comp (cd_client_id a))).
  by destruct (distance comp (cd_client_id a) ?= distance comp (cd_client_id b)).
Qed.

#[export] Instance far_cmp_order comp : CmpOrder (far_cmp comp).
Proof.
  split; intros *; rewrite ?far_cmp_spec.
  - destruct (Z.compare_spec (distance comp (cd_client_id y)) (distance comp (cd_client_id x))); lia.
  - by rewrite Z.compare_refl.
  - rewrite (Z.compare_antisym (distance comp (cd_client_id x)) (distance comp (cd_client_id y))).
    by destruct (distance comp (cd_client_id x) ?= distance comp (cd_client_id y)).
  - destruct (Z.compare_spec (distance comp (cd_client_id y)) (distance comp (cd_client_id x)));
      destruct (Z.compare_spec (distance comp (cd_client_id z)) (distance comp (cd_client_id y)));
      destruct (Z.compare_spec (distance comp (cd_client_id z)) (distance comp (cd_client_id x))); lia.
Qed.

(** Furthest first. *)
Definition further (comp : list Z) (a b : Client_data) : Prop :=
  distance comp (cd_client_id b) <= distance comp (cd_client_id a).

Lemma distance_loop_take n m id a : (n <= m)%nat -> distance_loop n (take m id) a = distance_loop n id a.
Proof.
  revert m id a. induction n as [|n IH]; intros m id a Hm; [done|]. destruct m as [|m]; [lia|].
  cbn [distance_loop]. destruct id as [|x id]; [done|]. simpl take. simpl nth. simpl drop.
  change (drop 0 ?l) with l. f_equal. apply IH. lia.
Qed.

Lemma distance_take id a : distance (take CLIENT_ID_SIZE id) a = distance id a.
Proof. by apply distance_loop_take. Qed.

Lemma StronglySorted_weaken {A} (R Q : A -> A -> Prop) l :
  (forall x y, R x y -> Q x y) -> StronglySorted R l -> StronglySorted Q l.
Proof. intros HRQ. induction 1; constructor; auto. eapply Forall_impl; eauto. Qed.

Lemma sort_list_ok lst comp :
  exists l', sort_list lst comp = Some l' /\ l' ≡ₚ lst /\ StronglySorted (further comp) l'.
Proof.
  unfold sort_list. rewrite quick_sort_map.
  destruct (quick_sort_ok (far_cmp (take CLIENT_ID_SIZE comp)) lst) as (l & E & Hp & Hs).
  exists l. unfold far_cmp in E. rewrite E. cbn [option_map].
  rewrite map_map, map_id. split_and!; [done|done|].
  eapply StronglySorted_weaken; [|exact Hs]. intros a b Hab.
  change (far_cmp (take CLIENT_ID_SIZE comp) a b <> 1) in Hab. rewrite far_cmp_spec in Hab.
  unfold further. rewrite !distance_take in Hab.
  destruct (Z.compare_spec (distance comp (cd_client_id b)) (distance comp (cd_client_id a))); lia.
Qed.

(** ** Replacing *)

Lemma first_index_head {A} (P : A -> bool) x l : P x = true -> first_index P (x :: l) = Some 0%nat.
Proof. unfold first_index. simpl. by intros ->. Qed.

Lemma first_index_nowhere {A} (P : A -> bool) l :
  (forall x, x ∈ l -> P x = false) -> first_index P l = None.
Proof.
  intros Hl. destruct (first_index P l) as [k|] eqn:E; [|done].
  apply first_index_Some in E as (x & Hx & HP & _).
  apply list_elem_of_lookup_2, Hl in Hx. congruence.
Qed.

(** The sorted list, by its head. *)
Lemma replace_good_ok now lst client_id ip_port comp :
  lst <> [] ->
  exists c s, (c :: s ≡ₚ lst) /\ (forall x, x ∈ s -> further comp c x) /\
    replace_good now lst client_id ip_port comp =
    Some (if distance comp client_id <? distance comp (cd_client_id c)
          then (0, new_client now client_id ip_port c :: s) else (1, c :: s)).
Proof.
  intros Hne. unfold replace_good. destruct (sort_list_ok lst comp) as (l & -> & Hp & Hs).
  destruct l as [|c s]; [by apply Permutation_nil in Hp|].
  inversion Hs as [|? ? Hs' Hall]; subst. rewrite Forall_forall in Hall.
  exists c, s. split_and!; [done|done|]. f_equal. unfold replace_first.
  destruct (Z.ltb_spec (distance comp client_id) (distance comp (cd_client_id c))) as [Hd|Hd].
  - rewrite first_index_head by (rewrite id_closest_2; by apply Z.ltb_lt). done.
  - rewrite first_index_nowhere; [done|]. intros x Hx. rewrite id_closest_2. apply Z.ltb_ge.
    apply elem_of_cons in Hx as [->|Hx]; [done|]. apply Hall in Hx. unfold further in Hx. lia.
Qed.

Lemma replace_bad_ok now lst client_id ip_port :
  (exists i c, lst !! i = Some c /\ is_timeout now (cd_timestamp c) BAD_NODE_TIMEOUT = true /\
     replace_bad now lst client_id ip_port = (0, <[i := new_client now client_id ip_port c]> lst)) \/
  ((forall c, c ∈ lst -> is_timeout now (cd_timestamp c) BAD_NODE_TIMEOUT = false) /\
   replace_bad now lst client_id ip_port = (1, lst)).
Proof.
  unfold replace_bad, replace_first. destruct (first_index _ lst) as [i|] eqn:E.
  - left. apply first_index_Some in E as (c & Hc & Ht & _). exists i, c. split_and!; [done..|].
    f_equal. by apply alter_as_insert.
  - right. split; [|done]. intros c [j Hj]%list_elem_of_lookup.
    by eapply (proj1 (first_index_None _ _) E).
Qed.

(** ** The metric *)

(** The distance of two bytes: their exclusive or, folded around 128. *)
Definition byte_metric (x y : Z) : Z := Z.min (Z.lxor x y) (256 - Z.lxor x y).

(** The big-endian number of the byte distances. *)
Definition metric (id a : list Z) : Z := le_val (rev (zip_with byte_metric id a)).

Lemma byte_distance_metric x y : is_u8 x -> is_u8 y -> byte_distance x y = byte_metric x y.
Proof.
  assert (forallb (fun i => forallb (fun j =>
    byte_distance (Z.of_nat i) (Z.of_nat j) =? byte_metric (Z.of_nat i) (Z.of_nat j))
    (seq 0 256)) (seq 0 256) = true) as H by (vm_compute; reflexivity).
  unfold is_u8. intros Hx Hy. rewrite forallb_forall in H.
  specialize (H (Z.to_nat x) ltac:(apply in_seq; lia)). rewrite forallb_forall in H.
  specialize (H (Z.to_nat y)). rewrite !Z2Nat.id in H by lia.
  apply Z.eqb_eq, H, in_seq. lia.
Qed.

Lemma le_val_snoc l x : le_val (l ++ [x]) = le_val l + 256 ^ Z.of_nat (length l) * x.
Proof.
  induction l as [|y l IH]; [simpl; lia|]. cbn [le_val app length].
  rewrite IH, Nat2Z.inj_succ, Z.pow_succ_r by lia. lia.
Qed.

Lemma distance_loop_metric n id a :
  length id = n -> length a = n -> bytes_ok id -> bytes_ok a ->
  distance_loop n id a = le_val (rev (zip_with byte_metric id a)).
Proof.
  revert id a. induction n as [|n IH]; intros id a Hi Ha Oi Oa.
  { apply nil_length_inv in Hi as ->. done. }
  destruct id as [|x id]; [done|]. destruct a as [|y a]; [done|].
  apply Forall_cons_iff in Oi as [Ox Oi]. apply Forall_cons_iff in Oa as [Oy Oa].
  injection Hi as Hi. injection Ha as Ha. cbn [distance_loop zip_with rev].
  rewrite le_val_snoc, length_rev, length_zip_with. simpl nth. change (drop 1 (?h :: ?t)) with (drop 0 t).
  rewrite !drop_0, IH, byte_distance_metric by done.
  replace (length id `min` length a)%nat with n by lia. lia.
Qed.

(** The ids the DHT works with. *)
Definition id_ok (id : list Z) : Prop := length id = CLIENT_ID_SIZE /\ bytes_ok id.

Lemma distance_metric id a : id_ok id -> id_ok a -> distance id a = metric id a.
Proof. intros [] []. by apply distance_loop_metric. Qed.

(** ** Adding a client *)

Lemma client_in_list_true now lst client_id ip_port l' :
  client_in_list now lst client_id ip_port = (true, l') ->
  exists c, c ∈ l' /\ take CLIENT_ID_SIZE (cd_client_id c) = take CLIENT_ID_SIZE client_id /\
    cd_timestamp c = now /\ ip (cd_ip_port c) = ip ip_port /\ port (cd_ip_port c) = port ip_port.
Proof.
  revert l'. induction lst as [|c r IH]; intros l'; [done|]. cbn [client_in_list].
  set (c1 := if ipport_equal _ _ then _ else _). destruct (id_equal (cd_client_id c1) client_id) eqn:E.
  - intros [= <-]. exists (refresh now ip_port c1). split; [by left|].
    apply memcmp_eq_true in E. done.
  - destruct (client_in_list now r client_id ip_port) as [b r']. intros [= -> <-].
    destruct (IH r' eq_refl) as (c' & ? & ?). exists c'. split; [by right|done].
Qed.

(** Only entries with the id or the address of the newcomer are touched. *)
Lemma client_in_list_keeps now lst client_id ip_port b l' c :
  client_in_list now lst client_id ip_port = (b, l') -> c ∈ lst ->
  id_equal (cd_client_id c) client_id = false -> ipport_equal (cd_ip_port c) ip_port = false -> c ∈ l'.
Proof.
  intros E Hc Hid Hip. revert b l' E Hc. induction lst as [|c0 r IH]; intros b l' E Hc; [by apply not_elem_of_nil in Hc|].
  cbn [client_in_list] in E. apply elem_of_cons in Hc as [<-|Hc].
  - rewrite Hip, Hid in E. destruct (client_in_list now r client_id ip_port). simplify_eq. by left.
  - case_in E; [simplify_eq; by right|].
    destruct (client_in_list now r client_id ip_port) as [b1 r1]. simplify_eq. right. by eapply IH.
Qed.

Lemma length_client_in_list now lst client_id ip_port b l' :
  client_in_list now lst client_id ip_port = (b, l') -> length l' = length lst.
Proof.
  revert b l'. induction lst as [|c r IH]; intros b l'; [by intros [= <- <-]|].
  cbn [client_in_list]. destruct (id_equal _ client_id); [by intros [= <- <-]|].
  destruct (client_in_list now r client_id ip_port) as [b1 r1]. intros [= <- <-]. simpl. f_equal. by eapply IH.
Qed.

(** The list after [add_client], when the readings of the clock are [t1], [t2] and
    [t3]. *)
Definition added (t1 t2 t3 : Z) (lst : list Client_data) (client_id : list Z) (ip_port : IP_Port)
    (comp : list Z) : option (list Client_data) :=
  let '(found, l1) := client_in_list t1 lst client_id ip_port in
  if (found : bool) then Some l1
  else
    let '(r, l2) := replace_bad t2 l1 client_id ip_port in
    if r =? 0 then Some l2 else option_map snd (replace_good t3 l2 client_id ip_port comp).

Lemma wp_add_client lst client_id ip_port comp (Q : list Client_data -> DHT -> World -> Prop) d w :
  (forall t1 t2 t3 l' w', is_u64 t1 -> is_u64 t2 -> is_u64 t3 ->
     added t1 t2 t3 lst client_id ip_port comp = Some l' -> Q l' d w') ->
  wp (add_client lst client_id ip_port comp) Q d w.
Proof.
  intros HQ. unfold add_client, added in *. do 2 wp_step.
  destruct (client_in_list t lst client_id ip_port) as [[|] l1] eqn:E1.
  { wp_step. eapply (HQ t t t); eauto. by rewrite E1. }
  do 2 wp_step. destruct (replace_bad t0 l1 client_id ip_port) as [r l2] eqn:E2.
  destruct (r =? 0) eqn:Er.
  { wp_step. eapply (HQ t t0 t0); eauto. by rewrite E1, E2, Er. }
  do 3 wp_step. apply wp_liftO.
  destruct (replace_good t1 l2 client_id ip_port comp) as [res|] eqn:E3.
  - exists res. split; [done|]. wp_step. eapply (HQ t t0 t1); eauto. by rewrite E1, E2, Er, E3.
  - exfalso. unfold replace_good in E3. destruct (sort_list_ok l2 comp) as (? & E & _).
    by rewrite E in E3.
Qed.

Lemma length_added t1 t2 t3 lst client_id ip_port comp l' :
  added t1 t2 t3 lst client_id ip_port comp = Some l' -> length l' = length lst.
Proof.
  unfold added. destruct (client_in_list _ _ _ _) as [[|] l1] eqn:E1; apply length_client_in_list in E1.
  { by intros [= <-]. }
  destruct (replace_bad_ok t2 l1 client_id ip_port) as [(i & c & _ & _ & ->)|[_ ->]].
  { intros [= <-]. by rewrite length_insert. }
  destruct (decide (l1 = [])) as [->|Hne].
  { simpl. unfold replace_good, sort_list. simpl. by intros [= <-]. }
  destruct (replace_good_ok t3 l1 client_id ip_port comp Hne) as (c & s & Hp & _ & ->).
  apply Permutation_length in Hp. intros E. destruct (_ <? _); injection E as <-; simpl in *; lia.
Qed.

Lemma client_in_list_false now lst client_id ip_port l' :
  client_in_list now lst client_id ip_port = (false, l') -> l' = lst.
Proof.
  revert l'. induction lst as [|c r IH]; intros l'; [by intros [= <-]|]. cbn [client_in_list].
  destruct (ipport_equal (cd_ip_port c) ip_port).
  - unfold id_equal at 1. cbn [cd_client_id set_cd_client_id].
    replace (memcmp_eq _ _ _) with true; [done|]. symmetry. apply memcmp_eq_true. by rewrite take_take, Nat.min_id.
  - destruct (id_equal _ client_id); [done|].
    destruct (client_in_list now r client_id ip_port) as [b r1]. intros [= -> <-]. f_equal. by apply IH.
Qed.

(** What the list holds of the newcomer. *)
Definition holds (now : Z) (client_id : list Z) (ip_port : IP_Port) (c : Client_data) : Prop :=
  take CLIENT_ID_SIZE (cd_client_id c) = take CLIENT_ID_SIZE client_id /\ cd_timestamp c = now /\
  ip (cd_ip_port c) = ip ip_port /\ port (cd_ip_port c) = port ip_port.

Lemma new_client_holds now client_id ip_port c : holds now client_id ip_port (new_client now client_id ip_port c).
Proof. split_and!; [|done..]. simpl. by rewrite take_take, Nat.min_id. Qed.

(** A client the newcomer has no claim on: another id, another address, not timed
    out, at least as close. *)
Definition protected (now : Z) (client_id : list Z) (ip_port : IP_Port) (comp : list Z) (c : Client_data) : Prop :=
  is_timeout now (cd_timestamp c) BAD_NODE_TIMEOUT = false /\
  id_equal (cd_client_id c) client_id = false /\ ipport_equal (cd_ip_port c) ip_port = false /\
  distance comp (cd_client_id c) <= distance comp client_id.

(** A client the newcomer may take the place of. *)
Definition weak (now : Z) (client_id : list Z) (comp : list Z) (c : Client_data) : Prop :=
  is_timeout now (cd_timestamp c) BAD_NODE_TIMEOUT = true \/
  distance comp client_id < distance comp (cd_client_id c).

Lemma added_keeps t lst client_id ip_port comp l' c :
  added t t t lst client_id ip_port comp = Some l' ->
  c ∈ lst -> protected t client_id ip_port comp c -> c ∈ l'.
Proof.
  intros E Hc (Ht & Hid & Hip & Hd). unfold added in E.
  destruct (client_in_list t lst client_id ip_port) as [[|] l1] eqn:E1.
  { injection E as <-. by eapply client_in_list_keeps. }
  apply client_in_list_false in E1 as ->.
  destruct (replace_bad_ok t lst client_id ip_port) as [(i & c0 & Hi & Hbad & E2)|[_ E2]]; rewrite E2 in E.
  - injection E as <-. apply list_elem_of_lookup in Hc as [j Hj]. apply list_elem_of_lookup_2 with j.
    rewrite list_lookup_insert_ne; [done|]. intros ->. congruence.
  - assert (lst <> []) as Hne by (intros ->; by apply not_elem_of_nil in Hc).
    destruct (replace_good_ok t lst client_id ip_port comp Hne) as (f & s & Hp & _ & E3).
    simpl in E. rewrite E3 in E. rewrite <- Hp in Hc.
    destruct (Z.ltb_spec (distance comp client_id) (distance comp (cd_client_id f))) as [Hlt|];
      injection E as <-; [|done].
    apply elem_of_cons in Hc as [<-|Hc]; [lia|by right].
Qed.

Lemma added_admits t lst client_id ip_port comp l' c :
  added t t t lst client_id ip_port comp = Some l' ->
  c ∈ lst -> weak t client_id comp c -> exists c', c' ∈ l' /\ holds t client_id ip_port c'.
Proof.
  intros E Hc Hw. unfold added in E.
  destruct (client_in_list t lst client_id ip_port) as [[|] l1] eqn:E1.
  { injection E as <-. destruct (client_in_list_true _ _ _ _ _ E1) as (c' & ? & ?). by exists c'. }
  apply client_in_list_false in E1 as ->.
  destruct (replace_bad_ok t lst client_id ip_port) as [(i & c0 & Hi & Hbad & E2)|[Hgood E2]]; rewrite E2 in E.
  - injection E as <-. exists (new_client t client_id ip_port c0). split; [|apply new_client_holds].
    apply list_elem_of_lookup_2 with i. apply list_lookup_insert_eq. by eapply lookup_lt_Some.
  - assert (lst <> []) as Hne by (intros ->; by apply not_elem_of_nil in Hc).
    destruct (replace_good_ok t lst client_id ip_port comp Hne) as (f & s & Hp & Hfar & E3).
    simpl in E. rewrite E3 in E.
    destruct Hw as [Hw|Hw]; [rewrite Hgood in Hw by done; done|].
    assert ((distance comp client_id <? distance comp (cd_client_id f)) = true) as Hf.
    { apply Z.ltb_lt. rewrite <- Hp in Hc. apply elem_of_cons in Hc as [->|Hc]; [done|].
      apply Hfar in Hc. unfold further in Hc. lia. }
    rewrite Hf in E. injection E as <-. exists (new_client t client_id ip_port f).
    split; [by left|apply new_client_holds].
Qed.

Lemma add_client_still lst client_id ip_port comp d w t :
  w_unix w = [t] ->
  exists l', add_client lst client_id ip_port comp d w = Some (l', d, w) /\
    added (u64 t) (u64 t) (u64 t) lst client_id ip_port comp = Some l'.
Proof.
  intros Hw. unfold add_client, added. erewrite bind_eval by (by apply unix_time_still).
  destruct (client_in_list (u64 t) lst client_id ip_port) as [[|] l1]; [by eexists|].
  erewrite bind_eval by (by apply unix_time_still).
  destruct (replace_bad (u64 t) l1 client_id ip_port) as [r l2]. case_if; [by eexists|].
  erewrite bind_eval by (by apply unix_time_still). unfold replace_good.
  destruct (sort_list_ok l2 comp) as (l3 & -> & _). by eexists.
Qed.

(** * Claims *)

(** C21: [id_closest] is a comparison of distances in one metric, for 32-byte ids: the
    distance of two ids is the big-endian number whose digits are the exclusive ors
    of their bytes folded around 128, and the answer is 1, 0 or 2 as the first id is
    closer, both are as close, or the second is closer. *)
Theorem id_closest_metric (id a b : list Z) :
  id_ok id -> id_ok a -> id_ok b ->
  id_closest id a b = closest_answer (metric id a ?= metric id b).
Proof. intros Hi Ha Hb. by rewrite id_closest_spec, !distance_metric. Qed.

Lemma id_closest_metric_witness :
  id_closest (zeros 32) (3 :: zeros 31) (le_bytes 32 7)
  = closest_answer (metric (zeros 32) (3 :: zeros 31) ?= metric (zeros 32) (le_bytes 32 7))
  /\ id_closest (zeros 32) (3 :: zeros 31) (le_bytes 32 7) = 1.
Proof.
  split; [|reflexivity].
  apply (id_closest_metric (zeros 32) (3 :: zeros 31) (le_bytes 32 7));
    (split; [reflexivity|repeat (constructor; [unfold is_u8; lia|]); constructor]).
Defined.

(** The metric is not the exclusive-or metric of a Kademlia network: the sign of
    the byte is lost, so two different nodes can be at the same distance of an id, and
    a node whose exclusive or is 255 is taken to be closer than one at 2. *)
Theorem id_closest_not_xor :
  (exists id a b, id_ok id /\ id_ok a /\ id_ok b /\ a <> b /\ id_closest id a b = 0) /\
  (exists id a b, id_ok id /\ id_ok a /\ id_ok b /\
     le_val (rev (zip_with Z.lxor id a)) < le_val (rev (zip_with Z.lxor id b)) /\
     id_closest id a b = 2).
Proof.
  assert (forall x, is_u8 x -> id_ok (x :: zeros 31)) as Hok.
  { intros x Hx. split; [reflexivity|]. constructor; [done|].
    apply Forall_replicate. unfold is_u8. lia. }
  split.
  - exists (0 :: zeros 31), (1 :: zeros 31), (255 :: zeros 31).
    split_and!; [apply Hok; unfold is_u8; lia..|done|reflexivity].
  - exists (0 :: zeros 31), (2 :: zeros 31), (255 :: zeros 31).
    split_and!; [apply Hok; unfold is_u8; lia..|vm_compute; reflexivity|reflexivity].
Qed.

(** C22: [sort_list] ends on every list, with the same clients, the furthest from the
    given id first. *)
Theorem sort_list_correct (lst : list Client_data) (comp_client_id : list Z) :
  exists l', sort_list lst comp_client_id = Some l' /\ l' ≡ₚ lst /\
    StronglySorted (fun a b => distance comp_client_id (cd_client_id b)
                               <= distance comp_client_id (cd_client_id a)) l'.
Proof. apply sort_list_ok. Qed.

(** C23: a node received from the network enters a client list, with the current time
    and its address, whenever some client of the list has timed out or is further than
    it; it never costs the list a client with another id and another address that is
    still good and at least as close; the list keeps its length.  The clock stands
    still during the call. *)
Theorem add_client_admission (lst : list Client_data) (client_id : list Z) (ip_port : IP_Port)
    (comp_client_id : list Z) (d : DHT) (w : World) (t : Z) :
  w_unix w = [t] ->
  exists l', add_client lst client_id ip_port comp_client_id d w = Some (l', d, w) /\
    length l' = length lst /\
    (forall c, c ∈ lst -> protected (u64 t) client_id ip_port comp_client_id c -> c ∈ l') /\
    (forall c, c ∈ lst -> weak (u64 t) client_id comp_client_id c ->
       exists c', c' ∈ l' /\ holds (u64 t) client_id ip_port c').
Proof.
  intros Hw. destruct (add_client_still lst client_id ip_port comp_client_id d w t Hw) as (l' & E & Ha).
  exists l'. split_and!; [done|by eapply length_added| |]; intros c Hc.
  - by eapply added_keeps.
  - by eapply added_admits.
Qed.

(** A list with a distant client and a close one, both seen at 90, and a newcomer in
    between, at 100. *)
Definition demo_far : Client_data := set_cd_timestamp 90 (set_cd_client_id (9 :: zeros 31) client_zero).
Definition demo_near : Client_data := set_cd_timestamp 90 (set_cd_client_id (1 :: zeros 31) client_zero).

Lemma add_client_admission_witness :
  exists l',
    add_client [demo_far; demo_near] (5 :: zeros 31) (mkIPP 77 99 0) (zeros 32)
      (idle_dht (zeros 32) (zeros 32)) (still_world 0 100)
    = Some (l', idle_dht (zeros 32) (zeros 32), still_world 0 100) /\ demo_near ∈ l' /\
    exists c', c' ∈ l' /\ holds 100 (5 :: zeros 31) (mkIPP 77 99 0) c'.
Proof.
  destruct (add_client_admission [demo_far; demo_near] (5 :: zeros 31) (mkIPP 77 99 0) (zeros 32)
              (idle_dht (zeros 32) (zeros 32)) (still_world 0 100) 100 eq_refl)
    as (l' & E & _ & Hkeep & Hadd).
  exists l'. split_and!; [exact E| |].
  - apply Hkeep; [apply list_elem_of_further, list_elem_of_here|].
    split_and!; [reflexivity..|]. vm_compute. discriminate.
  - apply (Hadd demo_far); [apply list_elem_of_here|]. right. vm_compute. reflexivity.
Defined.
