(* ===== verification/DHTSafe.v ===== *)
(** * DHT.c: the invariant of the node

    [dht_wf]: every table has its size and every id its 32 bytes.  Every operation of
    DHT.c and the handlers of ping.c, from a state that satisfies it, ends without
    undefined behaviour in one that does ([keeps]); but for [DHT_addfriend] and
    [DHT_delfriend] none touches the list of friends' ids. *)

From S2P Require Import Prelude MiscTools Network LosslessUDP Crypto NetCrypto Ping DHTLists DHT DHTDistance.
Local Open Scope Z_scope.
Local Open Scope tox_scope.

Definition client_ok (c : Client_data) : Prop := length (cd_client_id c) = CLIENT_ID_SIZE.
Definition node_ok (n : Node_format) : Prop := length (nf_client_id n) = CLIENT_ID_SIZE.

Record clients_ok (n : nat) (l : list Client_data) : Prop := {
  cl_len : length l = n;
  cl_ids : Forall client_ok l
}.

Record friend_ok (f : DHT_Friend) : Prop := {
  fo_id : length (df_client_id f) = CLIENT_ID_SIZE;
  fo_clients : clients_ok MAX_FRIEND_CLIENTS (df_client_list f)
}.

Record dht_wf (d : DHT) : Prop := {
  dw_close : clients_ok LCLIENT_LIST (close_clientlist d);
  dw_friends : Forall friend_ok (friends_list d);
  dw_sent : length (send_nodes d) = LSEND_NODES_ARRAY;
  dw_toping : length (toping d) = MAX_TOPING /\ Forall node_ok (toping d);
  dw_ping : ping_wf (dht_ping d)
}.

Lemma client_zero_ok : client_ok client_zero.
Proof. apply length_zeros. Qed.

Lemma friend_zero_ok : friend_ok friend_zero.
Proof.
  split; [apply length_zeros|]. split; [apply length_replicate|apply Forall_replicate, client_zero_ok].
Qed.

Lemma idle_dht_wf pk sk : dht_wf (idle_dht pk sk).
Proof.
  split; cbn [idle_dht close_clientlist friends_list send_nodes toping dht_ping].
  - split; [apply length_replicate|apply Forall_replicate, client_zero_ok].
  - constructor.
  - apply length_replicate.
  - split; [apply length_replicate|]. apply Forall_replicate. apply length_zeros.
  - apply ping_zero_wf.
Qed.

(** ** What operations leave alone *)

Definition friend_ids (d : DHT) : list (list Z) := map df_client_id (friends_list d).

Record dht_step (d d' : DHT) : Prop := {
  ds_wf : dht_wf d';
  ds_ids : friend_ids d' = friend_ids d;
  ds_crypto : dht_c d' = dht_c d
}.

Lemma dht_step_refl d : dht_wf d -> dht_step d d.
Proof. by split. Qed.

Lemma dht_step_trans d1 d2 d3 : dht_step d1 d2 -> dht_step d2 d3 -> dht_step d1 d3.
Proof. intros [] []. split; [done|congruence..]. Qed.

Lemma dht_step_num d d' : dht_step d d' -> num_friends d' = num_friends d.
Proof.
  intros [_ H _]. apply (f_equal length) in H. unfold friend_ids in H. by rewrite !length_map in H.
Qed.

Definition keeps {A} (m : M DHT A) : Prop :=
  forall d w, dht_wf d -> wp m (fun _ d' _ => dht_step d d') d w.

Lemma wp_keeps {A} (m : M DHT A) Q d w :
  keeps m -> dht_wf d -> (forall a d' w', dht_step d d' -> Q a d' w') -> wp m Q d w.
Proof. intros Hm Hd HQ. eapply wp_mono; [by apply Hm|]. eauto. Qed.

Lemma keeps_forM {X} (f : X -> M DHT unit) (P : X -> DHT -> Prop) l d w :
  (forall x d w, x ∈ l -> dht_wf d -> P x d -> wp (f x) (fun _ d' _ => dht_step d d') d w) ->
  (forall x d d', dht_step d d' -> P x d -> P x d') ->
  dht_wf d -> (forall x, x ∈ l -> P x d) -> wp (forM l f) (fun _ d' _ => dht_step d d') d w.
Proof.
  intros Hf HP Hd HPd.
  eapply wp_mono; [apply (wp_forM (fun d' _ => dht_step d d' /\ forall x, x ∈ l -> P x d'))|by intros ? ? ? [? _]].
  - intros x s w' Hx [Hs Hp]. eapply wp_mono; [apply Hf; [done|apply Hs|by apply Hp]|].
    intros ? s' w2 Hs2. split; [by eapply dht_step_trans|].
    intros y Hy. by eapply HP, Hp.
  - split; [by apply dht_step_refl|done].
Qed.

(** ** Updates *)

Lemma step_close d l :
  dht_wf d -> clients_ok LCLIENT_LIST l -> dht_step d (set_close_clientlist l d).
Proof. intros [] ?. by split; [split|..]. Qed.

Lemma step_sent d l :
  dht_wf d -> length l = LSEND_NODES_ARRAY -> dht_step d (set_send_nodes l d).
Proof. intros [] ?. by split; [split|..]. Qed.

Lemma step_toping d l :
  dht_wf d -> length l = MAX_TOPING -> Forall node_ok l -> dht_step d (set_toping l d).
Proof. intros [] ? ?. by split; [split|..]. Qed.

Lemma step_ping d p : dht_wf d -> ping_wf p -> dht_step d (set_dht_ping p d).
Proof. intros [] ?. by split; [split|..]. Qed.

Lemma step_last_toping d t : dht_wf d -> dht_step d (set_last_toping t d).
Proof. intros []. by split; [split|..]. Qed.

Lemma step_close_lastgetnodes d t : dht_wf d -> dht_step d (set_close_lastgetnodes t d).
Proof. intros []. by split; [split|..]. Qed.

Lemma step_friends d l :
  dht_wf d -> Forall friend_ok l -> map df_client_id l = friend_ids d -> dht_step d (set_friends_list l d).
Proof. intros [] ? ?. by split; [split|..]. Qed.

Lemma map_alter_same {A B} (g : A -> B) (f : A -> A) i l :
  (forall x, g (f x) = g x) -> map g (alter f i l) = map g l.
Proof.
  intros Hf. apply list_eq. intros j. rewrite !list_lookup_fmap.
  destruct (decide (i = j)) as [<-|]; [|by rewrite list_lookup_alter_ne].
  rewrite list_lookup_alter_eq. destruct (l !! i); simpl; by rewrite ?Hf.
Qed.

Lemma Forall_alter_keep {A} (P : A -> Prop) (f : A -> A) i l :
  (forall x, P x -> P (f x)) -> Forall P l -> Forall P (alter f i l).
Proof. intros Hf Hl. apply Forall_alter; auto. Qed.

Lemma step_alter_friend d i f :
  dht_wf d -> (forall x, df_client_id (f x) = df_client_id x) -> (forall x, friend_ok x -> friend_ok (f x)) ->
  dht_step d (set_friends_list (alter f i (friends_list d)) d).
Proof.
  intros Hd Hid Hok. apply step_friends; [done| |by apply map_alter_same].
  apply Forall_alter_keep; [done|apply Hd].
Qed.

Lemma friend_ok_same f g :
  friend_ok f -> df_client_id g = df_client_id f -> df_client_list g = df_client_list f -> friend_ok g.
Proof. intros [H1 H2] E1 E2. split; congruence. Qed.

Lemma friend_ok_clients f l :
  friend_ok f -> clients_ok MAX_FRIEND_CLIENTS l -> friend_ok (set_df_client_list l f).
Proof. intros [H1 H2] Hl. by split. Qed.

(** A change of a friend that is neither its id nor its clients. *)
Lemma wp_mod_friend i f d w (Q : unit -> DHT -> World -> Prop) :
  dht_wf d -> (forall x, df_client_id (f x) = df_client_id x) -> (forall x, friend_ok x -> friend_ok (f x)) ->
  (forall d', dht_step d d' -> Q tt d' w) -> wp (mod_friend i f) Q d w.
Proof. intros Hd H1 H2 HQ. unfold mod_friend. wp_step. by apply HQ, step_alter_friend. Qed.

Lemma wp_get_friend i d w (Q : DHT_Friend -> DHT -> World -> Prop) :
  dht_wf d -> (i < num_friends d)%nat ->
  (forall f, friends_list d !! i = Some f -> friend_ok f -> Q f d w) -> wp (get_friend i) Q d w.
Proof.
  intros Hd Hi HQ. unfold get_friend. do 2 wp_step. apply wp_liftO.
  destruct (lookup_lt_is_Some_2 (friends_list d) i Hi) as [f Hf]. exists f. split; [done|].
  apply HQ; [done|]. eapply (Forall_lookup_1 _ _ _ _ (dw_friends _ Hd)); eauto.
Qed.

(** ** Client lists *)

Lemma refresh_ok now ip_port c : client_ok c -> client_ok (refresh now ip_port c).
Proof. done. Qed.

Lemma length_take_id (x : list Z) : length x = CLIENT_ID_SIZE -> length (take CLIENT_ID_SIZE x) = CLIENT_ID_SIZE.
Proof. intros H. by rewrite length_take, H, Nat.min_id. Qed.

Lemma client_in_list_ok now lst client_id ip_port b l' :
  length client_id = CLIENT_ID_SIZE -> Forall client_ok lst ->
  client_in_list now lst client_id ip_port = (b, l') -> Forall client_ok l'.
Proof.
  intros Hid Hl. revert b l'. induction Hl as [|c r Hc Hr IH]; intros b l'; [by intros [= <- <-]|].
  cbn [client_in_list]. set (c1 := if ipport_equal _ _ then _ else _).
  assert (client_ok c1) by (subst c1; case_if; [by apply length_take_id|done]).
  destruct (id_equal _ client_id); [intros [= <- <-]; by constructor|].
  destruct (client_in_list now r client_id ip_port) as [b1 r1]. intros [= <- <-]. constructor; [done|by eapply IH].
Qed.

Lemma new_client_ok now client_id ip_port c :
  length client_id = CLIENT_ID_SIZE -> client_ok (new_client now client_id ip_port c).
Proof. intros H. by apply length_take_id. Qed.

Lemma added_ok t1 t2 t3 lst client_id ip_port comp l' n :
  length client_id = CLIENT_ID_SIZE -> clients_ok n lst ->
  added t1 t2 t3 lst client_id ip_port comp = Some l' -> clients_ok n l'.
Proof.
  intros Hid [Hn Hl] E. split; [by rewrite (length_added _ _ _ _ _ _ _ _ E)|].
  unfold added in E. destruct (client_in_list t1 lst client_id ip_port) as [[|] l1] eqn:E1;
    pose proof (client_in_list_ok _ _ _ _ _ _ Hid Hl E1) as H1; [by injection E as <-|].
  destruct (replace_bad_ok t2 l1 client_id ip_port) as [(i & c & _ & _ & E2)|[_ E2]]; rewrite E2 in E.
  { injection E as <-. apply Forall_insert; [done|by apply new_client_ok]. }
  simpl in E. destruct (decide (l1 = [])) as [->|Hne]; [by injection E as <-|].
  destruct (replace_good_ok t3 l1 client_id ip_port comp Hne) as (c & s & Hp & _ & E3). rewrite E3 in E.
  rewrite <- Hp in H1. apply Forall_cons_iff in H1 as [Hc Hs].
  case_in E; injection E as <-; constructor; try done. by apply new_client_ok.
Qed.

Lemma keeps_addto_friend ip_port client_id i d w :
  length client_id = CLIENT_ID_SIZE -> dht_wf d -> (i < num_friends d)%nat ->
  wp (addto_friend ip_port client_id i) (fun _ d' _ => dht_step d d') d w.
Proof.
  intros Hid Hd Hi. unfold addto_friend. wp_step. apply wp_get_friend; [done..|]. intros f Hf Hok.
  wp_step. apply wp_add_client. intros t1 t2 t3 l' w' _ _ _ E.
  apply wp_mod_friend; [done|done| |done]. intros x Hx. apply friend_ok_clients; [done|].
  eapply added_ok; [done| |done]. apply Hok.
Qed.

Lemma keeps_addto_lists ip_port client_id :
  length client_id = CLIENT_ID_SIZE -> keeps (addto_lists ip_port client_id).
Proof.
  intros Hid d w Hd. unfold addto_lists. do 3 wp_step. apply wp_add_client.
  intros t1 t2 t3 l' w' _ _ _ E. do 2 wp_step.
  assert (dht_step d (set_close_clientlist l' d)) as Hs.
  { apply step_close; [done|]. eapply added_ok; [done| |done]. apply Hd. }
  eapply wp_mono; [eapply (keeps_forM _ (fun i d => (i < num_friends d)%nat))|].
  - intros x d1 w1 _ Hd1 Hx. by apply keeps_addto_friend.
  - intros x d1 d2 H12 Hx. by rewrite (dht_step_num _ _ H12).
  - apply Hs.
  - intros x Hx. apply elem_of_seq in Hx. unfold num_friends in *. simpl. lia.
  - intros ? d' ? Hd'. by eapply dht_step_trans.
Qed.

Lemma set_returned_ok ip_port now c : client_ok c -> client_ok (set_returned ip_port now c).
Proof. done. Qed.

Lemma clients_ok_alter n f i l :
  (forall c, client_ok c -> client_ok (f c)) -> clients_ok n l -> clients_ok n (alter f i l).
Proof. intros Hf [H1 H2]. split; [by rewrite length_alter|by apply Forall_alter_keep]. Qed.

Lemma returned_friends_ok now ip_port client_id nodeclient_id l :
  Forall friend_ok l ->
  Forall friend_ok (returned_friends now ip_port client_id nodeclient_id l) /\
  map df_client_id (returned_friends now ip_port client_id nodeclient_id l) = map df_client_id l.
Proof.
  induction 1 as [|f r Hf Hr [IH1 IH2]]; [done|]. cbn [returned_friends].
  repeat case_if; [destruct (first_index _ _)|]; simpl; (split; [|by rewrite ?IH2]); constructor; try done.
  apply friend_ok_clients; [done|]. apply clients_ok_alter; [done|apply Hf].
Qed.

Lemma keeps_returnedip_ports ip_port client_id nodeclient_id :
  keeps (returnedip_ports ip_port client_id nodeclient_id).
Proof.
  intros d w Hd. unfold returnedip_ports. do 4 wp_step. wp_step.
  - destruct (first_index _ _); wp_step; [|by apply dht_step_refl].
    apply step_close; [done|]. apply clients_ok_alter; [done|apply Hd].
  - wp_step. destruct (returned_friends_ok t ip_port client_id nodeclient_id (friends_list d) (dw_friends _ Hd)).
    by apply step_friends.
Qed.

(** ** Requests and answers *)

Section operations.
Context `{CryptoBox}.

Lemma wp_send_ping_request pk sk addr client_id p w (Q : Z -> PING -> World -> Prop) :
  ping_wf p -> (forall r p' w', ping_wf p' -> Q r p' w') ->
  wp (send_ping_request pk sk addr client_id) Q p w.
Proof.
  intros Hp HQ. unfold send_ping_request. wp_step. apply wp_is_pinging; [done|]. intros p1 w1 Hp1 _.
  wp_step; [wp_step; auto|]. wp_step. apply wp_add_ping; [done|]. intros x p2 w2 Hp2 _.
  wp_step. apply wp_random_nonce. intros n w3 _ _. destruct (ping_packet _ _ _ _ _ _); wp_step; auto.
Qed.

Lemma wp_send_ping_response {S} pk sk addr client_id x (s : S) w (Q : Z -> S -> World -> Prop) :
  (forall r w', Q r s w') -> wp (send_ping_response pk sk addr client_id x) Q s w.
Proof.
  intros HQ. unfold send_ping_response. wp_step; [wp_step; auto|]. wp_step.
  apply wp_random_nonce. intros n w3 _ _. destruct (ping_packet _ _ _ _ _ _); wp_step; auto.
Qed.

Lemma keeps_ping_request ip_port client_id : keeps (ping_request ip_port client_id).
Proof.
  intros d w Hd. unfold ping_request, in_ping. do 2 wp_step. rewrite wp_zoom.
  apply wp_send_ping_request; [apply Hd|]. intros r p w' Hp. by apply step_ping.
Qed.

Lemma wp_random_id {S} (Q : Z -> S -> World -> Prop) s w :
  (forall x w', is_u64 x -> Q x s w') -> wp random_id Q s w.
Proof. intros HQ. unfold random_id. repeat wp_step. apply HQ. auto with tox. Qed.

Lemma wp_is_gettingnodes ip_port ping_id d w (Q : bool -> DHT -> World -> Prop) :
  (forall t w', is_u64 t -> Q (existsb (getting_match t ip_port ping_id) (send_nodes d)) d w') ->
  wp (is_gettingnodes ip_port ping_id) Q d w.
Proof. intros HQ. unfold is_gettingnodes. do 5 wp_step. auto. Qed.

(** With the time it is compared with. *)
Lemma wp_is_gettingnodes_now ip_port ping_id d w (Q : bool -> DHT -> World -> Prop) :
  (forall w', Q (existsb (getting_match (fst (next_clock (w_unix w))) ip_port ping_id) (send_nodes d)) d w') ->
  wp (is_gettingnodes ip_port ping_id) Q d w.
Proof.
  intros HQ. unfold is_gettingnodes. wp_step. apply wp_world. cbn beta.
  destruct (next_clock (w_unix w)) as [t r]. do 2 wp_step. by wp_step.
Qed.

Lemma keeps_add_gettingnodes ip_port : keeps (add_gettingnodes ip_port).
Proof.
  intros d w Hd. unfold add_gettingnodes. wp_step. apply wp_random_id. intros x w1 Hx.
  do 4 wp_step. destruct (getting_slot _ _ _); [do 3 wp_step|wp_step].
  - apply step_sent; [done|]. rewrite length_insert. apply Hd.
  - by apply dht_step_refl.
Qed.

Lemma keeps_getnodes ip_port public_key client_id : keeps (getnodes ip_port public_key client_id).
Proof.
  intros d w Hd. unfold getnodes. do 3 wp_step; [wp_step; by apply dht_step_refl|].
  wp_step. apply wp_is_gettingnodes. intros t w1 Ht. wp_step; [wp_step; by apply dht_step_refl|].
  wp_step. eapply wp_keeps; [apply keeps_add_gettingnodes|done|]. intros x d1 w2 H1.
  wp_step; [by wp_step|]. wp_step. apply wp_random_nonce. intros n w3 _ _.
  destruct (encrypt_data _ _ _ _); [|by wp_step]. wp_step; [by wp_step|]. by wp_step.
Qed.

Lemma wp_junk_nodes n d w (Q : list Node_format -> DHT -> World -> Prop) :
  (forall l w', length l = n -> Q l d w') -> wp (junk_nodes n) Q d w.
Proof.
  revert w Q. induction n as [|n IH]; intros w Q HQ; cbn [junk_nodes]; [wp_step; auto|].
  wp_step. apply wp_junk_bytes. intros b w1 _ _. wp_step. apply IH. intros l w2 Hl.
  wp_step. apply HQ. simpl. lia.
Qed.

(** [get_close_nodes] stays within [nodes_list]. *)
Lemma get_close_nodes_le now close friends client_id junk :
  (snd (get_close_nodes now close friends client_id junk) <= MAX_SENT_NODES)%nat.
Proof.
  unfold get_close_nodes. assert (H0 : (snd (junk, 0%nat) <= MAX_SENT_NODES)%nat) by (simpl; lia).
  revert H0. generalize (junk, 0%nat). induction (close ++ _) as [|c r IH]; intros st Hst; [done|].
  cbn [fold_left]. apply IH. unfold close_step. destruct st as [l n]. case_if; [done|].
  destruct (Nat.ltb_spec n MAX_SENT_NODES); [simpl; lia|]. by destruct (first_index _ _).
Qed.

Lemma keeps_sendnodes ip_port public_key client_id ping_id :
  keeps (sendnodes ip_port public_key client_id ping_id).
Proof.
  intros d w Hd. pose proof (dht_step_refl d Hd). unfold sendnodes. do 3 wp_step; [by wp_step|].
  wp_step. apply wp_junk_nodes. intros l w1 _. do 2 wp_step.
  pose proof (get_close_nodes_le t (close_clientlist d) (friends_list d) client_id l) as Hk.
  destruct (get_close_nodes _ _ _ _ _) as [nodes k]. cbn [snd] in Hk. wp_step; [by wp_step|].
  destruct (Nat.ltb_spec MAX_SENT_NODES k); [lia|].
  wp_step. apply wp_random_nonce. intros n w3 _ _.
  destruct (encrypt_data _ _ _ _); [|by wp_step]. wp_step; [by wp_step|]. by wp_step.
Qed.

Lemma keeps_handle_getnodes source packet : keeps (handle_getnodes source packet).
Proof.
  intros d w Hd. pose proof (dht_step_refl d Hd). unfold handle_getnodes. wp_step; [by wp_step|].
  do 3 wp_step; [by wp_step|]. destruct (decrypt_data _ _ _ _) as [plain|] eqn:E; [|by wp_step].
  apply decrypt_data_le in E. unfold bytes_at in E. rewrite length_take in E.
  wp_step. apply wp_room; [unfold CLIENT_ID_SIZE in *; csize; lia|].
  wp_step; [by wp_step|]. wp_step. eapply wp_keeps; [apply keeps_sendnodes|done|].
  intros r d1 w1 H1. by wp_step.
Qed.

Lemma sent_nodes_ok n plain x :
  length plain = (8 + n * NODE_SIZE)%nat -> x ∈ sent_nodes n plain -> node_ok x.
Proof.
  intros Hl Hx. unfold sent_nodes in Hx. apply list_elem_of_fmap in Hx as (k & -> & Hk).
  apply elem_of_seq in Hk. unfold node_ok, node_of_bytes. cbn [nf_client_id].
  rewrite length_take, length_bytes_at; unfold NODE_SIZE, CLIENT_ID_SIZE in *; csize; lia.
Qed.

(** The sender of an accepted packet has a whole id. *)
Lemma length_sender (packet : list Z) n :
  length packet = n -> (33 <= n)%nat -> length (bytes_at 1 CLIENT_ID_SIZE packet) = CLIENT_ID_SIZE.
Proof. intros <- Hn. apply length_bytes_at. unfold CLIENT_ID_SIZE. csize. lia. Qed.

Lemma existsb_elem {A} (P : A -> bool) l : existsb P l = true -> exists x, x ∈ l /\ P x = true.
Proof. intros (x & Hx & HP)%existsb_exists. exists x. split; [by apply list_elem_of_In|done]. Qed.

(** The identifier in a "send nodes" packet. *)
Definition answered_id (self_secret_key packet : list Z) : option Z :=
  option_map (fun plain => le_val (take 8 plain))
    (decrypt_data (bytes_at 1 CLIENT_ID_SIZE packet) self_secret_key
       (bytes_at (1 + CLIENT_ID_SIZE) crypto_box_NONCEBYTES packet)
       (drop (1 + CLIENT_ID_SIZE + crypto_box_NONCEBYTES) packet)).

(** Such a packet is refused, or it answers a request: at the time the clock shows, one that
    matches its source and its identifier is outstanding. *)
Lemma wp_handle_sendnodes source packet d w (Q : Z -> DHT -> World -> Prop) :
  dht_wf d -> (forall w', Q 1 d w') ->
  (forall x p d' w', answered_id (dht_sk d) packet = Some x -> p ∈ send_nodes d ->
     getting_match (fst (next_clock (w_unix w))) source x p = true -> dht_step d d' -> Q 0 d' w') ->
  wp (handle_sendnodes source packet) Q d w.
Proof.
  intros Hd Hno Hyes. unfold handle_sendnodes. wp_step; [by wp_step|]. unfold answered_id in Hyes.
  set (n := Z.to_nat _). unfold CLIENT_ID_SIZE, NODE_SIZE, MAX_SENT_NODES in *. csize.
  assert (Hlen : length packet = (57 + (8 + n * 40 + 16))%nat /\ (n <= 8)%nat) by (subst n; uarith).
  destruct Hlen as [Hlen Hn]. do 2 wp_step. clearbody n.
  rewrite (bytes_at_drop _ (1 + 32 + 24)) by (simpl; lia).
  destruct (decrypt_data _ _ _ _) as [plain|] eqn:E; [|by wp_step]. simpl in Hyes.
  apply decrypt_data_le in E. rewrite length_drop in E.
  wp_step. apply wp_room; [lia|]. wp_step; [by wp_step|].
  wp_step. apply wp_is_gettingnodes_now. intros w1.
  wp_step; [by wp_step|]. match goal with E : existsb _ _ = true |- _ => apply existsb_elem in E as (p & Hp & Hm) end.
  wp_step. apply wp_room; [unfold bytes_at; rewrite length_take, length_drop; lia|].
  wp_step. eapply wp_keeps; [apply keeps_addto_lists|done|].
  { eapply length_sender; [done|]. lia. }
  intros [] d1 w2 St1. wp_step.
  eapply wp_mono; [eapply (keeps_forM _ (fun _ _ => True))|]; [|done|apply St1|done|].
  - intros x d2 w3 _ Hd2 _. wp_step. eapply wp_keeps; [apply keeps_ping_request|done|].
    intros r d3 w4 St3. eapply wp_keeps; [apply keeps_returnedip_ports|apply St3|].
    intros ? d4 w5 St4. by eapply dht_step_trans.
  - intros ? d2 w3 St2. wp_step. eapply (Hyes _ p); [done..|]. by eapply dht_step_trans.
Qed.

Lemma keeps_handle_sendnodes source packet : keeps (handle_sendnodes source packet).
Proof. intros d w Hd. apply wp_handle_sendnodes; [done|by intros; apply dht_step_refl|done]. Qed.

(** *** The periodic work *)

Lemma wp_ping_clients t l n d w (Q : list Client_data -> DHT -> World -> Prop) :
  dht_wf d -> clients_ok n l ->
  (forall l' d' w', clients_ok n l' -> dht_step d d' -> Q l' d' w') -> wp (ping_clients t l) Q d w.
Proof.
  intros Hd [Hn Hl] HQ.
  cut (wp (ping_clients t l) (fun l' d' _ => (length l' = length l /\ Forall client_ok l') /\ dht_step d d') d w).
  { intros Hw. eapply wp_mono; [exact Hw|]. intros l' d' w' [[Hl1 Hl2] Hs].
    apply HQ; [split; [congruence|done]|done]. }
  clear HQ Hn. revert d w Hd. induction Hl as [|c r Hc Hr IH]; intros d w Hd; cbn [ping_clients].
  { wp_step. by split; [|apply dht_step_refl]. }
  wp_step.
  assert (Hrest : forall c1 d1 w1, client_ok c1 -> dht_step d d1 ->
    wp (r1 <- ping_clients t r ;; retM (c1 :: r1))
      (fun l' d' _ => (length l' = S (length r) /\ Forall client_ok l') /\ dht_step d d') d1 w1).
  { intros c1 d1 w1 Hc1 Hs. wp_step. eapply wp_mono; [apply IH, Hs|].
    intros l' d' w' [[Hl1 Hl2] Hs']. wp_step. split; [split; [simpl; lia|by constructor]|].
    by eapply dht_step_trans. }
  wp_step; [|wp_step; by apply Hrest, dht_step_refl].
  wp_step. eapply wp_keeps; [apply keeps_ping_request|done|]. intros x d1 w1 Hs. wp_step.
  by apply Hrest.
Qed.

Lemma keeps_do_DHT_friend t i d w :
  dht_wf d -> (i < num_friends d)%nat -> wp (do_DHT_friend t i) (fun _ d' _ => dht_step d d') d w.
Proof.
  intros Hd Hi. unfold do_DHT_friend. wp_step. apply wp_get_friend; [done..|]. intros f Hf Hok.
  wp_step. apply (wp_ping_clients t _ MAX_FRIEND_CLIENTS); [done|apply Hok|]. intros l d1 w1 Hl Hs1.
  wp_step. apply wp_mod_friend; [apply Hs1|done|intros; by apply friend_ok_clients|]. intros d2 Hs2.
  assert (dht_step d d2) as Hs by by eapply dht_step_trans.
  wp_step; [|by wp_step]. wp_step. wp_step. wp_step. eapply wp_keeps; [apply keeps_getnodes|apply Hs|].
  intros r d3 w3 Hs3. apply wp_mod_friend; [apply Hs3|done| |].
  - intros y Hy. by eapply friend_ok_same.
  - intros d4 Hs4. eapply dht_step_trans; [done|by eapply dht_step_trans].
Qed.

(** Working through the friends. *)
Lemma keeps_friends (f : nat -> M DHT unit) d w :
  dht_wf d ->
  (forall i d w, dht_wf d -> (i < num_friends d)%nat -> wp (f i) (fun _ d' _ => dht_step d d') d w) ->
  wp (forM (seq 0 (num_friends d)) f) (fun _ d' _ => dht_step d d') d w.
Proof.
  intros Hd Hf. apply (keeps_forM f (fun i d => (i < num_friends d)%nat)); [by eauto| |done|].
  - intros x d1 d2 H12. by rewrite (dht_step_num _ _ H12).
  - intros x Hx%elem_of_seq. lia.
Qed.

Lemma keeps_do_DHT_friends : keeps do_DHT_friends.
Proof.
  intros d w Hd. unfold do_DHT_friends. do 4 wp_step. apply keeps_friends; [done|].
  intros. by apply keeps_do_DHT_friend.
Qed.

Lemma keeps_do_Close : keeps do_Close.
Proof.
  intros d w Hd. unfold do_Close. do 5 wp_step.
  apply (wp_ping_clients t _ LCLIENT_LIST); [done|apply Hd|]. intros l d1 w1 Hl Hs1.
  do 2 wp_step. assert (dht_step d (set_close_clientlist l d1)) as Hs.
  { eapply dht_step_trans; [done|]. apply step_close; [apply Hs1|done]. }
  wp_step; [|by wp_step]. do 3 wp_step. eapply wp_keeps; [apply keeps_getnodes|apply Hs|].
  intros r d3 w3 Hs3. wp_step. eapply dht_step_trans; [done|].
  eapply dht_step_trans; [done|]. apply step_close_lastgetnodes, Hs3.
Qed.

Lemma keeps_DHT_bootstrap ip_port public_key : keeps (DHT_bootstrap ip_port public_key).
Proof.
  intros d w Hd. unfold DHT_bootstrap. do 3 wp_step. eapply wp_keeps; [apply keeps_getnodes|done|].
  intros r d1 w1 Hs1. wp_step. eapply wp_keeps; [apply keeps_ping_request|apply Hs1|].
  intros r2 d2 w2 Hs2. wp_step. by eapply dht_step_trans.
Qed.

(** *** Routing: the state is only read *)

Definition reads {A} (m : M DHT A) : Prop :=
  forall d w, dht_wf d -> wp m (fun _ d' _ => d' = d) d w.

Lemma wp_reads {A} (m : M DHT A) Q d w :
  reads m -> dht_wf d -> (forall a w', Q a d w') -> wp m Q d w.
Proof. intros Hm Hd HQ. eapply wp_mono; [by apply Hm|]. intros a d' w' ->. auto. Qed.

Lemma reads_route_packet client_id packet : reads (route_packet client_id packet).
Proof. intros d w Hd. unfold route_packet. do 2 wp_step. by destruct (first_index _ _); wp_step. Qed.

Lemma wp_friend_iplist i d w (Q : Z * list IP_Port -> DHT -> World -> Prop) :
  (forall a w', Q a d w') -> wp (friend_iplist i) Q d w.
Proof.
  intros HQ. unfold friend_iplist. do 4 wp_step. destruct (friends_list d !! i) as [f|]; [|by wp_step].
  destruct (iplist_loop _ _ _); by wp_step.
Qed.

Lemma reads_route_all t packet l : reads (route_all t packet l).
Proof.
  induction l as [|c r IH]; intros d w Hd; cbn [route_all]; [by wp_step|].
  wp_step. wp_step.
  - do 4 wp_step. eapply wp_reads; [apply IH|done|]. intros. by wp_step.
  - do 2 wp_step. eapply wp_reads; [apply IH|done|]. intros. by wp_step.
Qed.

Lemma friend_number_lt d client_id :
  friend_number d client_id <> -1 -> (Z.to_nat (friend_number d client_id) < num_friends d)%nat.
Proof.
  unfold friend_number. destruct (first_index _ _) as [i|] eqn:E; [|done]. intros _.
  rewrite Nat2Z.id. by eapply first_index_lt.
Qed.

Lemma reads_route_tofriend friend_id packet : reads (route_tofriend friend_id packet).
Proof.
  intros d w Hd. unfold route_tofriend. do 3 wp_step; [by wp_step|]. wp_step.
  apply wp_friend_iplist. intros a w1. wp_step; [by wp_step|]. do 3 wp_step.
  apply wp_get_friend; [done|by apply friend_number_lt|]. intros f _ _. by apply reads_route_all.
Qed.

Lemma reads_routeone_tofriend friend_id packet : reads (routeone_tofriend friend_id packet).
Proof.
  intros d w Hd. unfold routeone_tofriend. do 3 wp_step; [by wp_step|]. wp_step.
  apply wp_get_friend; [done|by apply friend_number_lt|]. intros f _ _. do 2 wp_step.
  wp_step; [by wp_step|]. by repeat wp_step.
Qed.

Lemma wp_create_request {S} pk sk rk data id (Q : option (list Z) -> S -> World -> Prop) s w :
  (forall p w', Q p s w') -> wp (create_request pk sk rk data id) Q s w.
Proof.
  intros HQ. unfold create_request. wp_step; [by wp_step|]. wp_step.
  apply wp_room; [csize; simpl; lia|]. wp_step. apply wp_random_nonce.
  intros n w1 _ _. destruct (encrypt_data _ _ _ _) as [enc|] eqn:E; [|by wp_step].
  apply encrypt_data_le in E. simpl in E. wp_step. apply wp_room; [csize; lia|]. by wp_step.
Qed.

Lemma reads_send_NATping public_key ping_id type : reads (send_NATping public_key ping_id type).
Proof.
  intros d w Hd. unfold send_NATping. do 3 wp_step. apply wp_create_request. intros [packet|] w1; [|by wp_step].
  wp_step. wp_step; [|wp_step].
  - eapply wp_reads; [apply reads_route_tofriend|done|]. intros. by wp_step.
  - eapply wp_reads; [apply reads_routeone_tofriend|done|]. intros. by wp_step.
  - by do 2 wp_step.
Qed.
(** *** NAT punching *)

Lemma keeps_handle_NATping source source_pubkey packet : keeps (handle_NATping source source_pubkey packet).
Proof.
  intros d w Hd. pose proof (dht_step_refl d Hd) as Hr. unfold handle_NATping. wp_step.
  apply wp_junk_bytes. intros junk w1 _ _. do 2 wp_step. wp_step; [by wp_step|]. wp_step.
  apply wp_get_friend; [done|by apply friend_number_lt|]. intros f _ _. wp_step; [|wp_step].
  - wp_step. eapply wp_reads; [apply reads_send_NATping|done|]. intros _ w2. do 3 wp_step.
    apply wp_mod_friend; [done|done|intros; by eapply friend_ok_same|]. intros d1 Hs. by wp_step.
  - wp_step; [|by wp_step]. wp_step. apply wp_random_id. intros x w2 _. wp_step.
    apply wp_mod_friend; [done|done|intros; by eapply friend_ok_same|]. intros d1 Hs. by wp_step.
  - by wp_step.
Qed.

Lemma keeps_punch_holes ip0 port_list i d w :
  dht_wf d -> (i < num_friends d)%nat ->
  wp (punch_holes ip0 port_list i) (fun _ d' _ => dht_step d d') d w.
Proof.
  intros Hd Hi. unfold punch_holes. wp_step; [wp_step; by apply dht_step_refl|]. wp_step.
  apply wp_get_friend; [done..|]. intros f _ _. wp_step.
  eapply wp_mono; [eapply (keeps_forM _ (fun _ _ => True)); [|done|done|done]|].
  - intros x d1 w1 _ Hd1 _. wp_step. eapply wp_keeps; [apply keeps_ping_request|done|].
    intros r d2 w2 Hs. by wp_step.
  - intros ? d1 w1 Hs1. cbv beta in Hs1. apply wp_mod_friend; [apply Hs1|done|intros; by eapply friend_ok_same|].
    intros d2 Hs2. by eapply dht_step_trans.
Qed.

Lemma keeps_do_NAT_friend t i d w :
  dht_wf d -> (i < num_friends d)%nat -> wp (do_NAT_friend t i) (fun _ d' _ => dht_step d d') d w.
Proof.
  intros Hd Hi. pose proof (dht_step_refl d Hd) as Hr. unfold do_NAT_friend. wp_step.
  apply wp_friend_iplist. intros [num ips] w1. wp_step; [by wp_step|]. wp_step.
  apply wp_get_friend; [done..|]. intros f _ _. wp_step.
  assert (Hrest : forall d1 w1, dht_step d d1 ->
    wp (if (df_hole_punching f =? 1) && (u64 (df_punching_timestamp f + PUNCH_INTERVAL) <? t)
           && (t <=? u64 (df_recvNATping_timestamp f + PUNCH_INTERVAL * 2)) then
          let ip0 := NAT_commonip ips (MAX_FRIEND_CLIENTS / 2) in
          if ip0 =? 0 then retM tt
          else punch_holes ip0 (NAT_getports ips ip0) i ;;;
               mod_friend i (fun f => set_df_hole_punching 0 (set_df_punching_timestamp t f))
        else retM tt) (fun _ d' _ => dht_step d d') d1 w1).
  { intros d1 w2 Hs1. wp_step; [|by wp_step]. cbv zeta. wp_step; [by wp_step|]. wp_step.
    eapply wp_mono; [apply keeps_punch_holes; [apply Hs1|by rewrite (dht_step_num _ _ Hs1)]|].
    intros ? d2 w3 Hs2. cbv beta in Hs2. apply wp_mod_friend; [apply Hs2|done|intros; by eapply friend_ok_same|].
    intros d3 Hs3. eapply dht_step_trans; [done|by eapply dht_step_trans]. }
  wp_step; [|wp_step; by apply Hrest]. wp_step.
  eapply wp_reads; [apply reads_send_NATping|done|]. intros _ w2.
  apply wp_mod_friend; [done|done|intros; by eapply friend_ok_same|]. intros d1 Hs. by apply Hrest.
Qed.

Lemma keeps_do_NAT : keeps do_NAT.
Proof.
  intros d w Hd. unfold do_NAT. do 4 wp_step. apply keeps_friends; [done|].
  intros. by apply keeps_do_NAT_friend.
Qed.

(** *** Nodes to ping *)

Lemma add_toping_list_ok pk l client_id ip_port r l' :
  length client_id = CLIENT_ID_SIZE -> Forall node_ok l ->
  add_toping_list pk l client_id ip_port = (r, l') -> length l' = length l /\ Forall node_ok l'.
Proof.
  intros Hid Hl. unfold add_toping_list.
  assert (Ha : forall i, length (alter (put_toping client_id ip_port) i l) = length l /\
                         Forall node_ok (alter (put_toping client_id ip_port) i l)).
  { intros i. split; [apply length_alter|]. apply Forall_alter_keep; [|done].
    intros n Hn. by apply length_take_id. }
  case_if; [by intros [= <- <-]|]. destruct (first_index _ l) as [i|]; [by intros [= <- <-]|].
  destruct (first_index _ l) as [i|]; by intros [= <- <-].
Qed.

Lemma keeps_add_toping client_id ip_port :
  length client_id = CLIENT_ID_SIZE -> keeps (add_toping client_id ip_port).
Proof.
  intros Hid d w Hd. unfold add_toping. do 2 wp_step.
  destruct (add_toping_list _ _ _ _) as [r l] eqn:E. do 3 wp_step.
  destruct (dw_toping _ Hd) as [Hl1 Hl2].
  apply add_toping_list_ok in E as [H1 H2]; [|done..]. apply step_toping; [done|congruence|done].
Qed.

Lemma wp_toping_loop l d w (Q : list Node_format -> DHT -> World -> Prop) :
  dht_wf d -> Forall node_ok l ->
  (forall l' d' w', length l' = length l -> Forall node_ok l' -> dht_step d d' -> Q l' d' w') ->
  wp (toping_loop l) Q d w.
Proof.
  intros Hd Hl. revert d w Q Hd. induction Hl as [|n r Hn Hr IH]; intros d w Q Hd HQ; cbn [toping_loop].
  { wp_step. apply HQ; [done..|by apply dht_step_refl]. }
  wp_step; [wp_step; apply HQ; [done|by constructor|by apply dht_step_refl]|]. wp_step.
  eapply wp_keeps; [apply keeps_ping_request|done|]. intros x d1 w1 Hs1. wp_step.
  apply IH; [apply Hs1|]. intros l' d2 w2 Hl1 Hl2 Hs2. wp_step.
  apply HQ; [simpl; lia|by constructor|by eapply dht_step_trans].
Qed.

Lemma keeps_do_toping : keeps do_toping.
Proof.
  intros d w Hd. unfold do_toping. do 4 wp_step. wp_step; [wp_step; by apply dht_step_refl|].
  do 3 wp_step. destruct (dw_toping _ Hd) as [Hl1 Hl2].
  pose proof (step_last_toping d t Hd) as Hs. apply wp_toping_loop; [apply Hs|done|].
  intros l' d2 w2 H1 H2 Hs2. wp_step. eapply dht_step_trans; [done|]. eapply dht_step_trans; [done|].
  apply step_toping; [apply Hs2|congruence|done].
Qed.

Lemma keeps_bind_const {A B} (m : M DHT A) (k : M DHT B) : keeps m -> keeps k -> keeps (m ;;; k).
Proof.
  intros Hm Hk d w Hd. wp_step. eapply wp_keeps; [done..|]. intros a d1 w1 Hs1.
  eapply wp_keeps; [done|apply Hs1|]. intros b d2 w2 Hs2. by eapply dht_step_trans.
Qed.

Lemma keeps_do_DHT : keeps do_DHT.
Proof.
  repeat apply keeps_bind_const; auto using keeps_do_Close, keeps_do_DHT_friends, keeps_do_NAT, keeps_do_toping.
Qed.

(** *** Ping packets *)

Lemma ping_decode_length pk sk packet x :
  ping_decode pk sk packet = Some x -> length packet = DHT_PING_SIZE.
Proof. unfold ping_decode. destruct (Nat.eqb_spec (length packet) DHT_PING_SIZE); done. Qed.

Lemma keeps_handle_ping_request source packet : keeps (handle_ping_request source packet).
Proof.
  intros d w Hd. unfold handle_ping_request. do 2 wp_step.
  destruct (ping_decode _ _ _) as [x|] eqn:E; [|wp_step; by apply dht_step_refl].
  wp_step. apply wp_send_ping_response. intros r w1. wp_step.
  eapply wp_keeps; [apply keeps_add_toping|done|].
  { eapply length_sender; [by eapply ping_decode_length|]. unfold DHT_PING_SIZE. csize. lia. }
  intros y d1 w2 Hs. by wp_step.
Qed.

(** A ping response is refused, or it answers a ping. *)
Lemma wp_handle_ping_response source packet d w (Q : Z -> DHT -> World -> Prop) :
  dht_wf d -> (forall p w', ping_wf p -> Q 1 (set_dht_ping p d) w') ->
  (forall x e d' w', ping_decode (dht_pk d) (dht_sk d) packet = Some x -> e ∈ ping_queue (dht_ping d) ->
     ping_match source x e = true -> dht_step d d' -> Q 0 d' w') ->
  wp (handle_ping_response source packet) Q d w.
Proof.
  intros Hd Hno Hyes. unfold handle_ping_response. do 2 wp_step.
  destruct (ping_decode _ _ _) as [x|] eqn:E.
  2: { wp_step. specialize (Hno (dht_ping d) w (dw_ping _ Hd)). by destruct d. }
  wp_step. unfold in_ping. rewrite wp_zoom. apply wp_is_pinging; [apply Hd|]. intros p w1 Hp [k Hk].
  wp_step; [wp_step; by apply Hno|]. wp_step.
  match goal with E : existsb _ _ = true |- _ => apply existsb_elem in E as (e & He & Hm) end.
  pose proof (step_ping d p Hd Hp) as St1. eapply wp_keeps; [apply keeps_addto_lists|apply St1|].
  { eapply length_sender; [by eapply ping_decode_length|]. unfold DHT_PING_SIZE. csize. lia. }
  intros y d1 w2 St2. wp_step. eapply (Hyes x e); [done| |done|by eapply dht_step_trans].
  rewrite Hk in He. by eapply subseteq_drop.
Qed.

Lemma keeps_handle_ping_response source packet : keeps (handle_ping_response source packet).
Proof. intros d w Hd. apply wp_handle_ping_response; [done|by intros; apply step_ping|done]. Qed.

(** *** Friends *)

(** The friend [DHT_addfriend] appends. *)
Definition added_friend (client_id : list Z) (ping_id : Z) : DHT_Friend :=
  set_df_NATping_id ping_id (set_df_client_id (take CLIENT_ID_SIZE client_id) friend_zero).

Lemma added_friend_ok client_id x :
  length client_id = CLIENT_ID_SIZE -> friend_ok (added_friend client_id x).
Proof. intros Hid. destruct friend_zero_ok. split; [by apply length_take_id|done]. Qed.

Lemma wp_DHT_addfriend client_id d w (Q : Z -> DHT -> World -> Prop) :
  (forall w', Q 1 d w') ->
  (friend_number d client_id = -1 -> forall x w',
     Q 0 (set_friends_list (append_friend (friends_list d) (added_friend client_id x)) d) w') ->
  wp (DHT_addfriend client_id) Q d w.
Proof.
  intros H1 H0. unfold DHT_addfriend. do 2 wp_step. wp_step; [by wp_step|]. do 2 wp_step.
  wp_step; [by wp_step|]. wp_step. apply wp_random_id. intros y w1 _. do 3 wp_step. by apply H0.
Qed.

Lemma append_friend_small l f : Z.of_nat (length l) < 65535 -> append_friend l f = l ++ [f].
Proof.
  intros Hl. unfold append_friend. apply take_ge. rewrite length_app. simpl.
  rewrite u16_small by (unfold is_u16; lia). lia.
Qed.

Lemma wf_append_friend d f :
  dht_wf d -> friend_ok f -> dht_wf (set_friends_list (append_friend (friends_list d) f) d).
Proof.
  intros [] Hf. split; try done. cbn. apply Forall_take, Forall_app. by split; [|apply Forall_singleton].
Qed.

Lemma del_friend_ok l i : Forall friend_ok l -> Forall friend_ok (del_friend l i).
Proof.
  intros Hl. unfold del_friend. apply Forall_take. case_if; [done|].
  assert (Hlen : length (df_client_id (nth (length l - 1) l friend_zero)) = CLIENT_ID_SIZE).
  { rewrite nth_lookup. destruct (l !! _) as [f|] eqn:E; [|apply length_zeros].
    simpl. eapply (Forall_lookup_1 _ _ _ _ Hl) in E. apply E. }
  apply Forall_alter_keep; [|done]. intros f [H1 H2]. by split.
Qed.

Lemma wp_DHT_delfriend client_id d w (Q : Z -> DHT -> World -> Prop) :
  (forall w', Q 1 d w') ->
  (forall r i w', first_index (fun f => id_equal (df_client_id f) client_id) (friends_list d) = Some i ->
     Q r (set_friends_list (del_friend (friends_list d) i) d) w') ->
  wp (DHT_delfriend client_id) Q d w.
Proof.
  intros H1 H0. unfold DHT_delfriend. do 2 wp_step. destruct (first_index _ _) as [i|] eqn:E; [|by wp_step].
  do 2 wp_step. wp_step; [wp_step; by apply H0|]. do 3 wp_step. by apply H0.
Qed.

Lemma reads_DHT_getfriendip client_id : reads (DHT_getfriendip client_id).
Proof.
  intros d w Hd. unfold DHT_getfriendip. do 4 wp_step. destruct (first_index _ _) as [i|] eqn:E; [|by wp_step].
  wp_step. apply wp_get_friend; [done|by eapply first_index_lt|]. intros f _ _. clear E.
  by destruct (first_index _ _); wp_step.
Qed.

Lemma wp_load_friend b d w :
  length b = FRIEND_SIZE -> dht_wf d -> wp (load_friend b) (fun _ d' _ => dht_wf d') d w.
Proof.
  intros Hb Hd. unfold load_friend.
  assert (length (take CLIENT_ID_SIZE b) = CLIENT_ID_SIZE) as Hid.
  { rewrite length_take, Hb. done. }
  assert (Hrest : forall d1 w1, dht_wf d1 -> wp (forM (seq 0 MAX_FRIEND_CLIENTS) (fun j =>
    let client := client_of_bytes (bytes_at (CLIENT_ID_SIZE + CLIENT_SIZE * j) CLIENT_SIZE b) in
    if negb (cd_timestamp client =? 0)
    then getnodes (cd_ip_port client) (cd_client_id client) (take CLIENT_ID_SIZE b) ;;; retM tt
    else retM tt)) (fun _ d' _ => dht_wf d') d1 w1).
  { intros d1 w1 Hd1. apply (wp_forM (fun d _ => dht_wf d)); [|done].
    intros j d2 w2 _ Hd2. cbv zeta. wp_step; [|by wp_step]. wp_step.
    eapply wp_keeps; [apply keeps_getnodes|done|]. intros r d3 w3 Hs. wp_step. apply Hs. }
  wp_step. apply wp_DHT_addfriend; [by auto|]. intros _ x w1. apply Hrest.
  apply wf_append_friend; [done|by apply added_friend_ok].
Qed.

Lemma wp_DHT_load data d w : dht_wf d -> wp (DHT_load data) (fun _ d' _ => dht_wf d') d w.
Proof.
  intros Hd. unfold DHT_load. wp_step; [by wp_step|]. wp_step; [by wp_step|]. wp_step.
  eapply wp_mono; [apply (wp_forM (fun d _ => dht_wf d)); [|done]|].
  - intros i d1 w1 Hi Hd1. apply wp_load_friend; [|done]. apply length_bytes_at.
    apply elem_of_seq in Hi. apply Nat.ltb_ge in Heqb. change CLOSE_SIZE with 2304%nat in *.
    change FRIEND_SIZE with 656%nat in *.
    pose proof (Nat.Div0.mul_div_le (length data - 2304) 656) as Hq.
    set (q := ((length data - 2304) / 656)%nat) in *. unfold u16 in Hi. lia.
  - intros ? d1 w1 Hd1. wp_step.
    eapply wp_mono; [apply (wp_forM (fun d _ => dht_wf d)); [|done]|].
    + intros i d2 w2 _ Hd2. cbv zeta. wp_step; [|by wp_step].
      eapply wp_keeps; [apply keeps_DHT_bootstrap|done|]. intros r d3 w3 Hs. apply Hs.
    + intros ? d2 w2 Hd2. by wp_step.
Qed.

(** What [new_DHT] registers. *)
Definition node_tables (c : Net_Crypto) : Net_Crypto :=
  let reg n b cb := networking_registerhandler n b cb in
  let n := net (lossless_udp c) in
  let n := reg n NET_PACKET_PING_REQUEST handle_ping_request_cb in
  let n := reg n NET_PACKET_PING_RESPONSE handle_ping_response_cb in
  let n := reg n NET_PACKET_GET_NODES handle_getnodes_cb in
  let n := reg n NET_PACKET_SEND_NODES handle_sendnodes_cb in
  let c := init_cryptopackets (set_lossless_udp (set_net n (lossless_udp c)) c) in
  cryptopacket_registerhandler CRYPTO_PACKET_NAT_PING handle_NATping_cb c.

Lemma wp_new_DHT_tables c w (Q : option DHT -> unit -> World -> Prop) :
  (forall w', Q None tt w') ->
  (forall w', Q (Some (set_dht_c (node_tables c) (idle_dht (self_public_key c) (self_secret_key c)))) tt w') ->
  wp (new_DHT c) Q tt w.
Proof.
  intros H0 H1. unfold new_DHT. do 2 wp_step. wp_step; [by wp_step|]. do 2 wp_step.
  destruct x0; simpl new_ping; cbv beta iota zeta; [by wp_step|]. wp_step. apply H1.
Qed.

Lemma wp_new_DHT c w (Q : option DHT -> unit -> World -> Prop) :
  (forall w', Q None tt w') ->
  (forall c' w', dht_wf (set_dht_c c' (idle_dht (self_public_key c) (self_secret_key c))) ->
     Q (Some (set_dht_c c' (idle_dht (self_public_key c) (self_secret_key c)))) tt w') ->
  wp (new_DHT c) Q tt w.
Proof.
  intros H0 H1. apply wp_new_DHT_tables; [done|]. intros w'. apply H1.
  pose proof (idle_dht_wf (self_public_key c) (self_secret_key c)) as []. by split.
Qed.

(** ** Every sequence of calls *)

Inductive dht_call :=
  | do_getnodes_packet (source : IP_Port) (packet : list Z)
  | do_sendnodes_packet (source : IP_Port) (packet : list Z)
  | do_ping_request_packet (source : IP_Port) (packet : list Z)
  | do_ping_response_packet (source : IP_Port) (packet : list Z)
  | do_NATping_packet (source : IP_Port) (source_pubkey packet : list Z)
  | do_addfriend (client_id : list Z)
  | do_delfriend (client_id : list Z)
  | do_getfriendip (client_id : list Z)
  | do_bootstrap (ip_port : IP_Port) (public_key : list Z)
  | do_route (client_id packet : list Z)
  | do_route_tofriend (friend_id packet : list Z)
  | do_load (data : list Z)
  | do_loop.

(** Ids handed to the DHT by its callers are arrays of [CLIENT_ID_SIZE] bytes. *)
Definition call_ok (c : dht_call) : Prop :=
  match c with
  | do_addfriend client_id => length client_id = CLIENT_ID_SIZE
  | _ => True
  end.

Definition run_dht (c : dht_call) : M DHT unit :=
  match c with
  | do_getnodes_packet s p => handle_getnodes s p ;;; retM tt
  | do_sendnodes_packet s p => handle_sendnodes s p ;;; retM tt
  | do_ping_request_packet s p => handle_ping_request s p ;;; retM tt
  | do_ping_response_packet s p => handle_ping_response s p ;;; retM tt
  | do_NATping_packet s k p => handle_NATping s k p ;;; retM tt
  | do_addfriend i => DHT_addfriend i ;;; retM tt
  | do_delfriend i => DHT_delfriend i ;;; retM tt
  | do_getfriendip i => DHT_getfriendip i ;;; retM tt
  | do_bootstrap a k => DHT_bootstrap a k
  | do_route i p => route_packet i p ;;; retM tt
  | do_route_tofriend i p => route_tofriend i p ;;; retM tt
  | do_load data => DHT_load data ;;; retM tt
  | do_loop => do_DHT
  end.

Lemma wf_keeps {A} (m : M DHT A) d w :
  keeps m -> dht_wf d -> wp (m ;;; retM tt) (fun _ d' _ => dht_wf d') d w.
Proof. intros Hm Hd. wp_step. eapply wp_keeps; [done..|]. intros a d' w' Hs. wp_step. apply Hs. Qed.

Lemma wf_reads {A} (m : M DHT A) d w :
  reads m -> dht_wf d -> wp (m ;;; retM tt) (fun _ d' _ => dht_wf d') d w.
Proof. intros Hm Hd. wp_step. eapply wp_reads; [done..|]. intros a w'. by wp_step. Qed.

Lemma run_dht_wf c d w : call_ok c -> dht_wf d -> wp (run_dht c) (fun _ d' _ => dht_wf d') d w.
Proof.
  intros Hc Hd. destruct c; cbn [run_dht].
  - by apply wf_keeps; [apply keeps_handle_getnodes|].
  - by apply wf_keeps; [apply keeps_handle_sendnodes|].
  - by apply wf_keeps; [apply keeps_handle_ping_request|].
  - by apply wf_keeps; [apply keeps_handle_ping_response|].
  - by apply wf_keeps; [apply keeps_handle_NATping|].
  - wp_step. apply wp_DHT_addfriend; [by intros; wp_step|]. intros _ x w'. wp_step.
    apply wf_append_friend; [done|by apply added_friend_ok].
  - wp_step. apply wp_DHT_delfriend; [by intros; wp_step|]. intros r i w' _. wp_step.
    destruct Hd. split; try done. by apply del_friend_ok.
  - by apply wf_reads; [apply reads_DHT_getfriendip|].
  - eapply wp_keeps; [apply keeps_DHT_bootstrap|done|]. intros ? ? ? Hs. apply Hs.
  - by apply wf_reads; [apply reads_route_packet|].
  - by apply wf_reads; [apply reads_route_tofriend|].
  - wp_step. eapply wp_mono; [by apply wp_DHT_load|]. intros ? ? ? Hs. by wp_step.
  - eapply wp_keeps; [apply keeps_do_DHT|done|]. intros ? ? ? Hs. apply Hs.
Qed.

Lemma run_dht_all calls d w :
  Forall call_ok calls -> dht_wf d -> wp (forM calls run_dht) (fun _ d' _ => dht_wf d') d w.
Proof.
  intros Hc Hd. apply (wp_forM (fun d _ => dht_wf d)); [|done].
  intros c d1 w1 Hin Hd1. apply run_dht_wf; [|done]. rewrite Forall_forall in Hc. by apply Hc.
Qed.
End operations.
