(* ===== verification/DHTThms.v ===== *)
(** * DHT.c and ping.c: the properties

    Safety of every sequence of calls, the saved state, which answers are believed,
    the ring of outstanding pings, the nodes sent in answers, and what deleting a
    friend does. *)

From S2P Require Import Prelude MiscTools Network LosslessUDP LosslessInv LosslessSafe Crypto NetCrypto CryptoThms Ping DHTLists DHT DHTDistance DHTSafe.
From stdpp Require Import sorting.
Local Open Scope Z_scope.
Local Open Scope tox_scope.

(** ** Memory: operations after which no allocation is to fail, if none was before *)

Definition calm {S A} (m : M S A) : Prop :=
  forall s w a s' w', m s w = Some (a, s', w') -> w_nomem w = [] -> w_nomem w' = [].

Lemma calm_bind {S A B} (m : M S A) (k : A -> M S B) :
  calm m -> (forall a, calm (k a)) -> calm (bindM m k).
Proof.
  intros Hm Hk s w b s' w'. unfold bindM. destruct (m s w) as [[[a s1] w1]|] eqn:E; [|done].
  intros E2 Hw. by eapply Hk, Hm.
Qed.

Lemma calm_ret {S A} (a : A) : calm (S := S) (retM a).
Proof. by intros s w ? ? ? [= <- <- <-]. Qed.

Lemma calm_get {S} : calm (getM (S := S)).
Proof. by intros s w ? ? ? [= <- <- <-]. Qed.

Lemma calm_mod {S} (f : S -> S) : calm (modM f).
Proof. by intros s w ? ? ? [= <- <- <-]. Qed.

Lemma calm_put {S} (x : S) : calm (putM x).
Proof. by intros s w ? ? ? [= <- <- <-]. Qed.

Lemma calm_world {S A} (f : World -> A * World) :
  (forall w, w_nomem w = [] -> w_nomem (snd (f w)) = []) -> calm (S := S) (worldM f).
Proof.
  intros Hf s w a s' w'. unfold worldM. specialize (Hf w). destruct (f w). intros [= <- <- <-]. done.
Qed.

Lemma calm_liftO {S A} (o : option A) : calm (S := S) (liftO o).
Proof. destruct o; [apply calm_ret|done]. Qed.

Lemma calm_zoom {S T A} (get : S -> T) set (m : M T A) : calm m -> calm (zoom get set m).
Proof.
  intros Hm s w a s' w'. unfold zoom. destruct (m (get s) w) as [[[? ?] ?]|] eqn:E; [|done].
  intros [= <- <- <-]. by eapply Hm.
Qed.

Lemma calm_forM {S X} (l : list X) (f : X -> M S unit) :
  (forall x, calm (f x)) -> calm (forM l f).
Proof. intros Hf. induction l; simpl; [apply calm_ret|by apply calm_bind]. Qed.

Lemma calm_ub {S A} : calm (ubM (S := S) (A := A)).
Proof. done. Qed.

Create HintDb calm.
#[export] Hint Resolve calm_ub calm_ret calm_get calm_mod calm_put calm_liftO : calm.

Ltac calm_prim := apply calm_world; intros ? Hw; simpl; rewrite ?Hw; repeat case_match; simpl in *; by simplify_eq.

Lemma calm_unix_time {S} : calm (unix_time (S := S)).
Proof. unfold unix_time. calm_prim. Qed.

Lemma calm_random_int {S} : calm (random_int (S := S)).
Proof. unfold random_int. calm_prim. Qed.

Lemma calm_sendpacket {S} a p : calm (sendpacket (S := S) a p).
Proof. unfold sendpacket. calm_prim. Qed.

Lemma calm_alloc_fails {S} : calm (alloc_fails (S := S)).
Proof. unfold alloc_fails. calm_prim. Qed.

Lemma calm_junk_bytes {S} n : calm (junk_bytes (S := S) n).
Proof.
  induction n as [|n IH]; cbn [junk_bytes]; [apply calm_ret|].
  apply calm_bind; [unfold junk_byte; calm_prim|]. intros b. apply calm_bind; [done|]. intros. apply calm_ret.
Qed.

#[export] Hint Resolve calm_unix_time calm_random_int calm_sendpacket calm_alloc_fails calm_junk_bytes : calm.

(** [calm_steps] runs through an operation. *)
Ltac calm_steps :=
  repeat (intros; cbv beta zeta;
    lazymatch goal with
    | |- calm (bindM _ _) => apply calm_bind
    | |- calm (zoom _ _ _) => apply calm_zoom
    | |- calm (forM _ _) => apply calm_forM
    | |- calm (if ?b then _ else _) => destruct b
    | |- calm (match ?x with _ => _ end) => destruct x
    | |- calm _ => solve [auto with calm]
    | _ => idtac
    end).

Lemma calm_random_words {S} n : calm (random_words (S := S) n).
Proof. induction n; cbn [random_words]; calm_steps. Qed.
#[export] Hint Resolve calm_random_words : calm.

Lemma calm_random_nonce {S} : calm (random_nonce (S := S)).
Proof. unfold random_nonce. calm_steps. Qed.
#[export] Hint Resolve calm_random_nonce : calm.

Lemma calm_timeouts_loop n i : calm (timeouts_loop n i).
Proof. revert i. induction n; intros i; cbn [timeouts_loop]; unfold ping_timeout; calm_steps. Qed.
#[export] Hint Resolve calm_timeouts_loop : calm.

Section calm_requests.
Context `{CryptoBox}.

Lemma calm_ping_request ip_port client_id : calm (ping_request ip_port client_id).
Proof.
  unfold ping_request, in_ping, send_ping_request, is_pinging, add_ping, remove_timeouts, random_64b.
  calm_steps.
Qed.

Lemma calm_getnodes ip_port public_key client_id : calm (getnodes ip_port public_key client_id).
Proof.
  unfold getnodes, is_gettingnodes, add_gettingnodes, random_id. calm_steps.
Qed.

Lemma calm_DHT_bootstrap ip_port public_key : calm (DHT_bootstrap ip_port public_key).
Proof.
  unfold DHT_bootstrap. calm_steps; [apply calm_getnodes|apply calm_ping_request].
Qed.
End calm_requests.

Lemma wp_calm {S A} (m : M S A) Q s w :
  calm m -> w_nomem w = [] -> wp m Q s w -> wp m (fun a s' w' => Q a s' w' /\ w_nomem w' = []) s w.
Proof.
  unfold wp. intros Hm Hw. specialize (Hm s w). destruct (m s w) as [[[a s'] w']|]; [|done].
  intros HQ. split; [done|by eapply Hm].
Qed.

(** ** The saved state *)

Lemma length_client_bytes c : client_ok c -> length (client_bytes c) = CLIENT_SIZE.
Proof.
  intros Hc. unfold client_bytes. rewrite !length_app, !length_ipp_bytes, !length_le_bytes, Hc. done.
Qed.

Lemma length_flat_map {A} (f : A -> list Z) n l :
  (forall x, x ∈ l -> length (f x) = n) -> length (flat_map f l) = (n * length l)%nat.
Proof.
  induction l as [|x r IH]; intros Hf; simpl; [lia|]. rewrite length_app, Hf, IH; [lia| |by left].
  intros y Hy. apply Hf. by right.
Qed.

Lemma length_friend_bytes f : friend_ok f -> length (friend_bytes f) = FRIEND_SIZE.
Proof.
  intros [H1 [H2 H3]]. unfold friend_bytes.
  rewrite !length_app, !length_le_bytes, length_zeros, H1, (length_flat_map _ CLIENT_SIZE), H2; [done|].
  intros c Hc. rewrite Forall_forall in H3. by apply length_client_bytes, H3.
Qed.

Lemma bytes_at_flat_map {A} (f : A -> list Z) n l i x :
  (forall y, y ∈ l -> length (f y) = n) -> l !! i = Some x ->
  bytes_at (n * i) n (flat_map f l) = f x.
Proof.
  revert i. induction l as [|y r IH]; intros i Hf Hi; [done|].
  assert (length (f y) = n) as Hy by (apply Hf; by left). destruct i as [|i]; simpl in *.
  - simplify_eq. unfold bytes_at. rewrite Nat.mul_0_r, drop_0. by apply take_app_length.
  - unfold bytes_at. rewrite drop_app_ge by lia. rewrite Hy.
    replace (n * S i - n)%nat with (n * i)%nat by lia. apply IH; [|done]. intros z Hz. apply Hf. by right.
Qed.

Lemma length_save_close d : dht_wf d -> length (flat_map client_bytes (close_clientlist d)) = CLOSE_SIZE.
Proof.
  intros Hd. destruct (dw_close _ Hd) as [H1 H2].
  rewrite (length_flat_map _ CLIENT_SIZE), H1; [done|]. intros c Hc. rewrite Forall_forall in H2.
  by apply length_client_bytes, H2.
Qed.

Lemma friends_ok_elem d f : dht_wf d -> f ∈ friends_list d -> length (friend_bytes f) = FRIEND_SIZE.
Proof.
  intros Hd Hf. pose proof (dw_friends _ Hd) as H. rewrite Forall_forall in H.
  by apply length_friend_bytes, H.
Qed.

Lemma length_DHT_save d : dht_wf d -> length (DHT_save d) = DHT_size d.
Proof.
  intros Hd. unfold DHT_save, DHT_size. rewrite length_app, length_save_close by done. f_equal.
  apply length_flat_map. intros f. by apply friends_ok_elem.
Qed.

Lemma saved_friend d i f :
  dht_wf d -> friends_list d !! i = Some f ->
  bytes_at (CLOSE_SIZE + FRIEND_SIZE * i) FRIEND_SIZE (DHT_save d) = friend_bytes f.
Proof.
  intros Hd Hf. unfold DHT_save, bytes_at.
  rewrite drop_app_ge by (rewrite length_save_close by done; lia).
  rewrite length_save_close by done.
  replace (CLOSE_SIZE + FRIEND_SIZE * i - CLOSE_SIZE)%nat with (FRIEND_SIZE * i)%nat by lia.
  apply bytes_at_flat_map; [|done]. intros y. by apply friends_ok_elem.
Qed.

Lemma saved_friend_id f : friend_ok f -> take CLIENT_ID_SIZE (friend_bytes f) = df_client_id f.
Proof. intros [H1 _]. unfold friend_bytes. by apply take_app_length'. Qed.

(** ** Loading *)

Lemma wp_forM_seq {T} (I : nat -> T -> World -> Prop) (f : nat -> M T unit) k n s w :
  (forall i s w, (k <= i < k + n)%nat -> I i s w -> wp (f i) (fun _ => I (S i)) s w) ->
  I k s w -> wp (forM (seq k n) f) (fun _ => I (k + n)%nat) s w.
Proof.
  revert k s w. induction n as [|n IH]; intros k s w Hf HI; cbn [seq forM].
  { wp_step. by rewrite Nat.add_0_r. }
  wp_step. eapply wp_mono; [apply Hf; [lia|done]|]. intros ? s' w' HI'.
  replace (k + S n)%nat with (S k + n)%nat by lia. apply IH; [|done]. intros. apply Hf; [lia|done].
Qed.

Lemma friend_number_new d x :
  Forall (fun i => length i = CLIENT_ID_SIZE) (friend_ids d) -> length x = CLIENT_ID_SIZE ->
  x ∉ friend_ids d -> friend_number d x = -1.
Proof.
  intros Hl Hx Hn. unfold friend_number. rewrite first_index_nowhere; [done|]. intros f Hf.
  assert (df_client_id f ∈ friend_ids d) as Hin by (apply list_elem_of_fmap; eauto).
  destruct (id_equal (df_client_id f) x) eqn:E; [|done]. exfalso. apply Hn.
  rewrite Forall_forall in Hl. apply memcmp_eq_full in E; [by subst|by apply Hl|done].
Qed.

Lemma friend_ids_ok d : dht_wf d -> Forall (fun i => length i = CLIENT_ID_SIZE) (friend_ids d).
Proof.
  intros Hd. unfold friend_ids. apply Forall_fmap. eapply Forall_impl; [apply Hd|]. by intros f [].
Qed.

Lemma calm_random_id {S} : calm (random_id (S := S)).
Proof. unfold random_id. calm_steps. Qed.

Lemma wp_addfriend_new x d w :
  friend_number d x = -1 -> w_nomem w = [] -> Z.of_nat (num_friends d) < 65535 ->
  wp (DHT_addfriend x) (fun r d' w' => r = 0 /\ w_nomem w' = [] /\
        exists y, d' = set_friends_list (friends_list d ++ [added_friend x y]) d) d w.
Proof.
  intros Hx Hw Hnum. unfold DHT_addfriend. do 2 wp_step. rewrite Hx. cbv beta iota zeta delta [negb Z.eqb Pos.eqb].
  rewrite wp_bind. unfold wp at 1. rewrite alloc_works by done. wp_step.
  eapply wp_mono; [apply wp_calm; [apply calm_random_id|done|by apply (wp_random_id (fun _ s _ => s = d))]|].
  intros y d1 w1 [-> Hw1]. do 3 wp_step. split_and!; [done|congruence|]. exists y. by rewrite append_friend_small.
Qed.

Section load.
Context `{CryptoBox}.

(** The state while loading: what has been read so far, and memory. *)
Definition loaded (ids : list (list Z)) (d : DHT) (w : World) : Prop :=
  dht_wf d /\ friend_ids d = ids /\ w_nomem w = [].

Lemma wp_loaded {A} (m : M DHT A) ids d w :
  keeps m -> calm m -> loaded ids d w -> wp m (fun _ => loaded ids) d w.
Proof.
  intros Hm Hf (Hd & Hi & Hw). eapply wp_mono; [apply wp_calm; [done|done|by apply Hm]|].
  intros a d' w' [[] ?]. split_and!; [done|congruence..].
Qed.

Lemma wp_load_friend_new b d w x ids :
  length b = FRIEND_SIZE -> take CLIENT_ID_SIZE b = x -> loaded ids d w -> x ∉ ids ->
  Z.of_nat (length ids) < 65535 ->
  wp (load_friend b) (fun _ => loaded (ids ++ [x])) d w.
Proof.
  intros Hb Hx (Hd & Hi & Hw) Hn Hnum.
  assert (Hnd : Z.of_nat (length (friends_list d)) < 65535) by (rewrite <- Hi in Hnum; unfold friend_ids in Hnum; by rewrite length_map in Hnum).
  assert (length x = CLIENT_ID_SIZE) as Hlx by (rewrite <- Hx, length_take, Hb; done).
  unfold load_friend. rewrite Hx. wp_step. eapply wp_mono; [apply wp_addfriend_new; [|done|done]|].
  { apply friend_number_new; [by apply friend_ids_ok|done|by rewrite Hi]. }
  intros r d1 w1 (_ & Hw1 & y & ->). apply (wp_forM (loaded (ids ++ [x]))).
  - intros j d2 w2 _ Hl. cbv zeta. wp_step; [|by wp_step]. wp_step.
    eapply wp_mono; [by apply wp_loaded; [apply keeps_getnodes|apply calm_getnodes|]|].
    intros. by wp_step.
  - split_and!; [rewrite <- append_friend_small by done; apply wf_append_friend; [done|by apply added_friend_ok]| |done].
    unfold friend_ids in *. cbn [friends_list set_friends_list]. rewrite map_app, Hi. f_equal.
    cbn [map]. f_equal.
    apply take_ge. by rewrite Hlx.
Qed.

Lemma DHT_load_saved d0 w d :
  dht_wf d -> NoDup (friend_ids d) -> Z.of_nat (num_friends d) < 65536 ->
  dht_wf d0 -> friends_list d0 = [] -> w_nomem w = [] ->
  wp (DHT_load (DHT_save d)) (fun r d' w' => r = 0 /\ loaded (friend_ids d) d' w') d0 w.
Proof.
  intros Hd Hnd Hnum Hd0 H0 Hw. unfold DHT_load. rewrite length_DHT_save by done. unfold DHT_size.
  replace (CLOSE_SIZE + FRIEND_SIZE * num_friends d - CLOSE_SIZE)%nat
    with (num_friends d * FRIEND_SIZE)%nat by lia.
  rewrite (proj2 (Nat.ltb_ge _ _)) by lia. rewrite Nat.Div0.mod_mul, Nat.div_mul by done. simpl negb. cbv iota.
  replace (Z.to_nat (u16 (Z.of_nat (num_friends d)))) with (num_friends d) by (unfold u16; lia).
  wp_step. eapply wp_mono; [apply (wp_forM_seq (fun i => loaded (take i (friend_ids d))))|].
  - intros i d1 w1 Hi Hl. destruct (lookup_lt_is_Some_2 (friends_list d) i) as [f Hf]; [unfold num_friends in Hi; lia|].
    rewrite (saved_friend d i f) by done.
    assert (friend_ok f) as Hok by (eapply (Forall_lookup_1 _ _ _ _ (dw_friends _ Hd)); eauto).
    assert (friend_ids d !! i = Some (df_client_id f)) as Hid
      by (unfold friend_ids; rewrite list_lookup_fmap, Hf; done).
    rewrite (take_S_r _ _ _ Hid). apply wp_load_friend_new; [|by apply saved_friend_id|done| |rewrite length_take; lia].
    + by apply length_friend_bytes.
    + intros (j & Hj)%list_elem_of_lookup. apply lookup_take_Some in Hj as [Hj Hlt].
      pose proof (NoDup_lookup _ _ _ _ Hnd Hid Hj). lia.
  - split_and!; [done| |done]. unfold friend_ids. by rewrite H0.
  - intros ? d1 w1 Hl. wp_step. rewrite Nat.add_0_l in Hl.
    rewrite take_ge in Hl by (unfold friend_ids, num_friends; by rewrite length_map).
    eapply wp_mono; [apply (wp_forM (loaded (friend_ids d))); [|exact Hl]|].
    + intros i d2 w2 _ Hl2. cbv zeta. wp_step; [|by wp_step].
      by apply wp_loaded; [apply keeps_DHT_bootstrap|apply calm_DHT_bootstrap|].
    + intros ? d2 w2 Hl2. by wp_step.
Qed.
End load.

(** ** The nodes sent in answers *)

(** What the list under construction satisfies: [cands] are the clients seen. *)
Record close_inv (now : Z) (cands : list Client_data) (st : list Node_format * nat) : Prop := {
  ci_len : length (fst st) = MAX_SENT_NODES;
  ci_num : (snd st <= MAX_SENT_NODES)%nat;
  ci_from : forall n, n ∈ take (snd st) (fst st) -> exists c, c ∈ cands /\ n = node_of c /\
              is_timeout now (cd_timestamp c) BAD_NODE_TIMEOUT = false;
  ci_nodup : NoDup (map (fun n => take CLIENT_ID_SIZE (nf_client_id n)) (take (snd st) (fst st)))
}.

Lemma client_in_nodelist_false l client_id n :
  client_in_nodelist l client_id = false -> n ∈ l ->
  take CLIENT_ID_SIZE (nf_client_id n) <> take CLIENT_ID_SIZE client_id.
Proof.
  unfold client_in_nodelist. intros H Hn E. apply not_true_iff_false in H. apply H, existsb_exists.
  exists n. split; [by apply list_elem_of_In|]. by apply memcmp_eq_true.
Qed.

Lemma elem_of_insert_inv {A} (l : list A) j x y : y ∈ <[j := x]> l -> y = x \/ y ∈ l.
Proof.
  intros [k Hk]%list_elem_of_lookup. apply list_lookup_insert_Some in Hk as [(_ & -> & _)|[_ Hk]]; [by left|].
  right. by eapply list_elem_of_lookup_2.
Qed.

Lemma NoDup_insert_new {A} (l : list A) j x :
  NoDup l -> x ∉ l -> NoDup (<[j := x]> l).
Proof.
  intros Hl Hx. destruct (decide (j < length l)%nat) as [Hj|]; [|by rewrite list_insert_ge by lia].
  apply NoDup_alt. intros i1 i2 y H1 H2.
  apply list_lookup_insert_Some in H1 as [(<- & -> & _)|[N1 H1]];
    apply list_lookup_insert_Some in H2 as [(<- & E & _)|[N2 H2]]; try done.
  - by apply list_elem_of_lookup_2 in H2.
  - subst y. by apply list_elem_of_lookup_2 in H1.
  - by eapply NoDup_lookup.
Qed.

Lemma close_step_inv now client_id cands st c :
  close_inv now cands st -> close_inv now (cands ++ [c]) (close_step now client_id st c).
Proof.
  intros [Hlen Hnum Hfrom Hnd]. destruct st as [l n]. cbn [fst snd] in *. unfold close_step.
  assert (Hold : forall m, m ∈ take n l -> exists c0, c0 ∈ cands ++ [c] /\ m = node_of c0 /\
            is_timeout now (cd_timestamp c0) BAD_NODE_TIMEOUT = false).
  { intros m Hm. destruct (Hfrom m Hm) as (c0 & ? & ?). exists c0. split; [apply elem_of_app; by left|done]. }
  destruct (is_timeout now (cd_timestamp c) BAD_NODE_TIMEOUT) eqn:Ht; [by split|].
  destruct (client_in_nodelist l (cd_client_id c)) eqn:Hin; [by split|]. simpl orb. cbv iota.
  assert (Hc : c ∈ cands ++ [c]) by (apply elem_of_app; right; by apply list_elem_of_singleton).
  pose proof (fun m => client_in_nodelist_false l (cd_client_id c) m Hin) as Hne.
  assert (Hfresh : forall k, take CLIENT_ID_SIZE (nf_client_id (node_of c))
            ∉ map (fun m => take CLIENT_ID_SIZE (nf_client_id m)) (take k l)).
  { intros k (m & E & Hm)%list_elem_of_fmap. eapply Hne; [|symmetry; exact E]. by eapply subseteq_take. }
  destruct (Nat.ltb_spec n MAX_SENT_NODES) as [Hlt|Hge].
  - assert (Htk : take (S n) (<[n := node_of c]> l) = take n l ++ [node_of c]).
    { rewrite (take_S_r _ _ (node_of c)) by (apply list_lookup_insert_eq; lia).
      by rewrite take_insert_ge by lia. }
    split; cbn [fst snd]; [by rewrite length_insert|lia| |].
    + rewrite Htk. intros m [Hm|Hm%list_elem_of_singleton]%elem_of_app; [by apply Hold|]. subst m. by exists c.
    + rewrite Htk, map_app. apply NoDup_app. split_and!; [done| |apply NoDup_singleton].
      intros x Hx Hx2. apply list_elem_of_singleton in Hx2 as ->. by eapply Hfresh.
  - assert (n = MAX_SENT_NODES) as -> by lia.
    rewrite take_ge in Hold, Hnd by lia. destruct (first_index _ l) as [j|]; cbn [fst snd];
      [|split; cbn [fst snd]; [done|lia|by rewrite take_ge by lia..]].
    split; cbn [fst snd]; [by rewrite length_insert|lia| |];
      rewrite take_ge by (rewrite length_insert; lia).
    + intros m [->|Hm]%elem_of_insert_inv; [by exists c|by apply Hold].
    + change (NoDup ((fun m => take CLIENT_ID_SIZE (nf_client_id m)) <$> <[j := node_of c]> l)). rewrite list_fmap_insert. apply NoDup_insert_new; [done|].
      rewrite <- (firstn_all l). apply Hfresh.
Qed.

Lemma get_close_nodes_inv now close friends client_id junk :
  length junk = MAX_SENT_NODES ->
  close_inv now (close ++ flat_map df_client_list friends)
    (get_close_nodes now close friends client_id junk).
Proof.
  intros Hj. unfold get_close_nodes. set (cs := close ++ _).
  cut (forall done st, close_inv now done st ->
         close_inv now (done ++ cs) (fold_left (close_step now client_id) cs st)).
  { intros Hf. apply (Hf [] (junk, 0%nat)). split; simpl; [done|lia| |constructor].
    intros n Hn. by apply not_elem_of_nil in Hn. }
  induction cs as [|c r IH]; intros dn st Hst; cbn [fold_left]; [by rewrite app_nil_r|].
  replace (dn ++ c :: r) with ((dn ++ [c]) ++ r) by (by rewrite <- app_assoc).
  by apply IH, close_step_inv.
Qed.

(** ** The ring of pings, with a clock that stands still *)

(** The pings that are still waited for. *)
Definition waiting (now : Z) (p : PING) : list pinged_t := drop (expired now (ping_queue p)) (ping_queue p).

(** Room for one more: the oldest goes when there are [PING_NUM_MAX]. *)
Definition make_room (q : list pinged_t) : list pinged_t :=
  if (length q =? PING_NUM_MAX)%nat then drop 1 q else q.

Lemma is_pinging_still p w t addr ping_id :
  w_unix w = [t] -> ping_wf p -> negb ((ip addr =? 0) && (ping_id =? 0)) = true ->
  exists p', ping_wf p' /\ ping_queue p' = waiting (u64 t) p /\
    is_pinging addr ping_id p w = Some (existsb (ping_match addr ping_id) (waiting (u64 t) p), p', w).
Proof.
  intros Hw Hp Hne. destruct (remove_timeouts_still p w t Hw Hp) as (p' & E & Hp' & Hq).
  exists p'. split_and!; [done..|]. unfold is_pinging.
  apply negb_true_iff in Hne. rewrite Hne. erewrite bind_eval by exact E. erewrite bind_eval by reflexivity.
  unfold retM. rewrite pinging_loop_spec. unfold waiting. rewrite <- Hq. done.
Qed.

(** The id drawn by [random_64b]. *)
Lemma lor_u64 a b : is_u64 a -> is_u64 b -> is_u64 (Z.lor a b).
Proof.
  intros [A1 A2] [B1 B2]. split; [by apply Z.lor_nonneg|].
  destruct (Z.eq_dec (Z.lor a b) 0) as [->|Hz]; [lia|].
  change 18446744073709551616 with (2 ^ 64). apply Z.log2_lt_pow2; [pose proof (proj2 (Z.lor_nonneg a b) (conj A1 B1)); lia|].
  rewrite Z.log2_lor by done. apply Z.max_lub_lt; [destruct (Z.eq_dec a 0) as [->|]; [done|]|destruct (Z.eq_dec b 0) as [->|]; [done|]];
    (apply Z.log2_lt_pow2; [lia|done]).
Qed.

Lemma random_64b_eval {S} (s : S) w :
  exists x w', random_64b s w = Some (x, s, w') /\ is_u64 x /\ same_io w w'.
Proof.
  destruct (random_64b s w) as [[[x s'] w']|] eqn:E.
  - destruct (silent_random_64b _ _ _ _ _ E) as [-> Hio]. exists x, w'. split_and!; [done| |done].
    revert E. unfold random_64b, random_int, bindM, worldM. destruct (next_of 0 (w_random w)) as [a r]. simpl.
    destruct (next_of 0 r) as [b r2]. intros [= <- _]. apply lor_u64; [apply u64_range|]. pose proof (u32_range b). uarith.
  - revert E. unfold random_64b, random_int, bindM, worldM. destruct (next_of 0 (w_random w)) as [a r]. simpl.
    by destruct (next_of 0 r).
Qed.

Lemma add_ping_still p w t addr :
  w_unix w = [t] -> ping_wf p ->
  exists x p' w', add_ping addr p w = Some (x, p', w') /\ is_u64 x /\ same_io w w' /\ ping_wf p' /\
    ping_queue p' = make_room (waiting (u64 t) p) ++ [mkPinged addr x (u64 t)].
Proof.
  intros Hw Hp. destruct (remove_timeouts_still p w t Hw Hp) as (p1 & E & Hp1 & Hq).
  unfold add_ping. erewrite bind_eval by exact E. erewrite bind_eval by reflexivity.
  set (p2 := if (num_pings p1 =? PING_NUM_MAX)%nat then _ else _).
  assert (H2 : ping_wf p2 /\ ping_queue p2 = make_room (waiting (u64 t) p) /\
               (num_pings p2 < PING_NUM_MAX)%nat).
  { unfold make_room, waiting. rewrite <- Hq, length_ping_queue. subst p2.
    destruct (Nat.eqb_spec (num_pings p1) PING_NUM_MAX) as [En|En].
    - destruct (ping_queue_drop p1 1 Hp1) as [? Eq]; [rewrite En; unfold PING_NUM_MAX; lia|].
      split_and!; [done|done|]. simpl. rewrite En. unfold PING_NUM_MAX. lia.
    - split_and!; [done..|]. pose proof (pw_num _ Hp1). lia. }
  destruct H2 as (Hp2 & Hq2 & Hn). clearbody p2.
  erewrite bind_eval by (by apply unix_time_still).
  destruct (random_64b_eval p2 w) as (x & w' & E2 & Hx & Hw2). erewrite bind_eval by exact E2.
  erewrite bind_eval by reflexivity.
  destruct (ping_queue_push p2 (mkPinged addr x (u64 t)) Hp2 Hn) as [? Eq].
  do 3 eexists. split_and!; [reflexivity|done|done|done|]. rewrite Eq. by rewrite Hq2.
Qed.

(** * Claims *)

Section claims.
Context `{CryptoBox}.


(** C24: what [DHT_save] writes fills exactly [DHT_size] bytes, and [DHT_load] of it in
  a node without friends accepts it and restores the ids of the friends, in order.  (Only the
  ids: the clients of the lists that were saved are asked for nodes again, not restored.)
  Assumed: no two friends have the same id, there are fewer than 65536 of them, as
  [num_friends] has 16 bits, and there is memory -- else [DHT_load] ignores the failure of
  [DHT_addfriend] and still returns 0. *)
Theorem DHT_save_load (d d0 : DHT) (w : World) :
dht_wf d -> NoDup (friend_ids d) -> Z.of_nat (num_friends d) < 65536 ->
dht_wf d0 -> friends_list d0 = [] -> w_nomem w = [] ->
length (DHT_save d) = DHT_size d /\
wp (DHT_load (DHT_save d)) (fun r d' _ => r = 0 /\ dht_wf d' /\ friend_ids d' = friend_ids d) d0 w.
Proof.
intros. split; [by apply length_DHT_save|]. eapply wp_mono; [by apply DHT_load_saved|].
by intros r d' w' (-> & ? & ? & _).
Qed.

(** An answer from [source] with identifier [x] matches a request to [addr] with identifier
  [id]: it comes from where the request went, and has its identifier -- except that the code
  takes 0, as an address or as an identifier, to match anything. *)
Definition solicited (source : IP_Port) (x : Z) (addr : IP_Port) (id : Z) : Prop :=
(ip source <> 0 -> ipp_eq addr source = true) /\ (x <> 0 -> id = x).

Lemma ping_match_solicited source x e :
ping_match source x e = true -> solicited source x (ipp e) (Ping.id e).
Proof.
unfold ping_match, solicited. rewrite andb_true_iff, !orb_true_iff, !Z.eqb_eq. tauto.
Qed.

Lemma getting_match_solicited now source x p :
getting_match now source x p = true ->
is_timeout now (pd_timestamp p) PING_TIMEOUT = false /\ solicited source x (pd_ip_port p) (pd_ping_id p).
Proof.
unfold getting_match, solicited. destruct (is_timeout now (pd_timestamp p) PING_TIMEOUT); [done|]. intros E. split; [done|].
change (ipport_equal (pd_ip_port p) source) with (ipp_eq (pd_ip_port p) source) in E.
destruct (Z.eqb_spec (ip source) 0), (Z.eqb_spec x 0), (Z.eqb_spec (pd_ping_id p) x), (ipp_eq (pd_ip_port p) source); by auto.
Qed.

(** C25: answers are believed only if they match a request.  A ping response changes the client
  lists only when the identifier decrypted from it and the address it comes from match a
  ping that is in the ring; and a packet of nodes changes anything at all only when the
  identifier decrypted from it and its source match a request for nodes that was sent and
  has not timed out at the time the clock shows.  Matching is [solicited]: the exact
  exception is an answer with the identifier 0, which matches any outstanding request to
  its source ([ping_response_zero_id]), and one from the address 0. *)
Theorem answers_solicited (d : DHT) (w : World) (source : IP_Port) (packet : list Z) :
dht_wf d ->
wp (handle_ping_response source packet) (fun r d' _ =>
  (close_clientlist d' = close_clientlist d /\ friends_list d' = friends_list d) \/
  exists x e, ping_decode (dht_pk d) (dht_sk d) packet = Some x /\ e ∈ ping_queue (dht_ping d) /\
    solicited source x (ipp e) (Ping.id e)) d w /\
wp (handle_sendnodes source packet) (fun r d' _ =>
  d' = d \/
  exists x p, answered_id (dht_sk d) packet = Some x /\ p ∈ send_nodes d /\
    is_timeout (fst (next_clock (w_unix w))) (pd_timestamp p) PING_TIMEOUT = false /\
    solicited source x (pd_ip_port p) (pd_ping_id p)) d w.
Proof.
intros Hd. split.
- apply wp_handle_ping_response; [done|by left|]. intros x e d' w' ? ? ?%ping_match_solicited _. right. by exists x, e.
- apply wp_handle_sendnodes; [done|by left|]. intros x p d' w' ? ? [? ?]%getting_match_solicited _. right. by exists x, p.
Qed.

(** The identifier in a ping does not protect it: a response that carries the
  identifier 0, which no ping needs to have had, is accepted as the answer to any
  outstanding ping to the address it comes from: [handle_ping_response] returns 0. *)
Theorem ping_response_zero_id (d : DHT) (w : World) (t : Z) (source : IP_Port) (packet : list Z)
  (e : pinged_t) :
dht_wf d -> w_unix w = [t] -> ping_decode (dht_pk d) (dht_sk d) packet = Some 0 ->
e ∈ waiting (u64 t) (dht_ping d) -> ipp_eq (ipp e) source = true -> ip source <> 0 ->
wp (handle_ping_response source packet) (fun r _ _ => r = 0) d w.
Proof.
intros Hd Hw E He Heq Hip. unfold handle_ping_response. do 2 wp_step. rewrite E.
destruct (is_pinging_still (dht_ping d) w t source 0 Hw (dw_ping _ Hd)) as (p & Hp & Hq & Ep).
{ apply Z.eqb_neq in Hip. by rewrite Hip. }
wp_step. unfold in_ping. rewrite wp_zoom. unfold wp at 1. rewrite Ep.
replace (existsb _ _) with true.
2: { symmetry. apply existsb_exists. exists e. split; [by apply list_elem_of_In|].
     unfold ping_match. by rewrite Heq, orb_true_r. }
simpl negb. cbv iota. wp_step.
eapply wp_keeps; [apply keeps_addto_lists|by apply step_ping|by intros; wp_step].
eapply length_sender; [by eapply ping_decode_length|]. unfold DHT_PING_SIZE. csize. lia.
Qed.
End claims.

(** C26: the cyclic buffer of ping.c is a queue: while the clock stands still, a ping is
    appended to the pings that have not timed out, the oldest being forgotten when there
    are 256; and [is_pinging] answers whether a ping of the queue that has not timed out
    matches. *)
Theorem ping_ring_is_queue (p : PING) (w : World) (t : Z) (addr : IP_Port) (ping_id : Z) :
  ping_wf p -> w_unix w = [t] -> ip addr <> 0 \/ ping_id <> 0 ->
  (exists x p' w', add_ping addr p w = Some (x, p', w') /\ ping_wf p' /\
     ping_queue p' = make_room (waiting (u64 t) p) ++ [mkPinged addr x (u64 t)]) /\
  (exists p', is_pinging addr ping_id p w
              = Some (existsb (ping_match addr ping_id) (waiting (u64 t) p), p', w) /\
     ping_wf p' /\ ping_queue p' = waiting (u64 t) p).
Proof.
  intros Hp Hw Hne. split.
  - destruct (add_ping_still p w t addr Hw Hp) as (x & p' & w' & ? & _ & _ & ? & ?). by exists x, p', w'.
  - destruct (is_pinging_still p w t addr ping_id Hw Hp) as (p' & ? & ? & ?); [|by exists p'].
    destruct Hne as [Hne|Hne]; apply Z.eqb_neq in Hne; rewrite Hne; [done|by rewrite andb_false_r].
Qed.

(** C27: the nodes of an answer are at most 8 (they fit the packet and the buffer), each
    is a client of our lists that has not timed out, and no id occurs twice, whatever
    the uninitialised array held. *)
Theorem get_close_nodes_sound (now : Z) (close : list Client_data) (friends : list DHT_Friend)
    (client_id : list Z) (junk l : list Node_format) (n : nat) :
  length junk = MAX_SENT_NODES -> get_close_nodes now close friends client_id junk = (l, n) ->
  (n <= MAX_SENT_NODES)%nat /\ length l = MAX_SENT_NODES /\
  NoDup (map (fun m => take CLIENT_ID_SIZE (nf_client_id m)) (take n l)) /\
  (forall m, m ∈ take n l -> exists c, c ∈ close ++ flat_map df_client_list friends /\
     m = node_of c /\ is_timeout now (cd_timestamp c) BAD_NODE_TIMEOUT = false).
Proof.
  intros Hj E. pose proof (get_close_nodes_inv now close friends client_id junk Hj) as [H1 H2 H3 H4].
  rewrite E in *. by split_and!.
Qed.

(** Clients with the given first bytes, all good at time 100. *)
Definition demo_client (x : Z) : Client_data :=
  set_cd_timestamp 90 (set_cd_client_id (x :: zeros 31) client_zero).

(** The nodes sent are not the closest ones: a newcomer takes the place of the
    first node that is further, not of the furthest, so of nine good clients the node
    at distance 6 is dropped and the one at distance 100 is sent. *)
Theorem get_close_nodes_not_closest :
  exists close client_id l n,
    Forall (fun c => is_timeout 100 (cd_timestamp c) BAD_NODE_TIMEOUT = false) close /\
    get_close_nodes 100 close [] client_id (replicate MAX_SENT_NODES (mkNode (255 :: zeros 31) ipp_zero)) = (l, n) /\
    exists c c', c ∈ close /\ c' ∈ close /\ id_closest client_id (cd_client_id c) (cd_client_id c') = 1 /\
      (node_of c ∉ take n l) /\ (node_of c' ∈ take n l).
Proof.
  exists (map demo_client [6; 100; 1; 2; 3; 4; 7; 8; 5]), (zeros 32).
  eexists _, _. split_and!; [repeat constructor|vm_compute; reflexivity|].
  exists (demo_client 6), (demo_client 100). split_and!; [| |reflexivity| |].
  - apply list_elem_of_here.
  - apply list_elem_of_further, list_elem_of_here.
  - apply (bool_decide_unpack _). vm_compute. exact I.
  - apply (bool_decide_unpack _). vm_compute. exact I.
Qed.

(** [DHT_delfriend] of a friend that is not the last one moves only the id of the
    last friend into the freed place: the friend that stays gets the clients, the
    timestamps and the hole punching state of the one deleted, and loses its own. *)
Theorem DHT_delfriend_mixes (d : DHT) (w : World) (client_id : list Z) (i : nat) (f g : DHT_Friend) :
  first_index (fun f => id_equal (df_client_id f) client_id) (friends_list d) = Some i ->
  friends_list d !! i = Some f -> friends_list d !! (num_friends d - 1)%nat = Some g ->
  (i < num_friends d - 1)%nat ->
  wp (DHT_delfriend client_id) (fun _ d' _ =>
    num_friends d' = (num_friends d - 1)%nat /\
    friends_list d' !! i = Some (set_df_client_id (df_client_id g) f)) d w.
Proof.
  intros Hi Hf Hg Hlt. unfold DHT_delfriend. do 2 wp_step. rewrite Hi. do 2 wp_step.
  assert (Hpost : num_friends (set_friends_list (del_friend (friends_list d) i) d) = (num_friends d - 1)%nat /\
    friends_list (set_friends_list (del_friend (friends_list d) i) d) !! i
    = Some (set_df_client_id (df_client_id g) f)).
  { unfold num_friends in *. cbn [friends_list set_friends_list]. unfold del_friend.
    rewrite (proj2 (Nat.eqb_neq _ _)) by lia. split; [rewrite length_take, length_alter; lia|].
    rewrite lookup_take_lt by lia. rewrite list_lookup_alter_eq, Hf. simpl. by rewrite nth_lookup, Hg. }
  wp_step; [by wp_step|]. by do 3 wp_step.
Qed.

(** ** Witnesses *)

Section witnesses.
#[local] Existing Instance ToyBox.box.
#[local] Existing Instance ToyBox.laws.

Definition demo_node : DHT := idle_dht (pk 2) (sk 2).


(** A node with two friends. *)
Definition demo_friends : DHT :=
  set_friends_list [added_friend (1 :: zeros 31) 7; added_friend (2 :: zeros 31) 8] demo_node.

Lemma demo_friends_wf : dht_wf demo_friends.
Proof.
  destruct (idle_dht_wf (pk 2) (sk 2)). split; try done.
  repeat constructor; apply added_friend_ok; reflexivity.
Qed.

Lemma DHT_save_load_witness :
  length (DHT_save demo_friends) = DHT_size demo_friends /\
  wp (DHT_load (DHT_save demo_friends))
    (fun r d' _ => r = 0 /\ dht_wf d' /\ friend_ids d' = [1 :: zeros 31; 2 :: zeros 31])
    demo_node (still_world 0 100).
Proof.
  apply (DHT_save_load demo_friends demo_node (still_world 0 100)).
  - exact demo_friends_wf.
  - apply (bool_decide_unpack _). vm_compute. exact I.
  - reflexivity.
  - apply idle_dht_wf.
  - reflexivity.
  - reflexivity.
Defined.

Lemma answers_solicited_witness :
  wp (handle_sendnodes (mkIPP 7 8 0) (zeros 200)) (fun r d' _ =>
    d' = demo_node \/
    exists x p, answered_id (dht_sk demo_node) (zeros 200) = Some x /\ p ∈ send_nodes demo_node /\
      is_timeout (fst (next_clock [100])) (pd_timestamp p) PING_TIMEOUT = false /\
      solicited (mkIPP 7 8 0) x (pd_ip_port p) (pd_ping_id p))
    demo_node (still_world 0 100).
Proof.
  exact (proj2 (answers_solicited demo_node (still_world 0 100) (mkIPP 7 8 0) (zeros 200) (idle_dht_wf _ _))).
Defined.

(** One outstanding ping, with identifier 55, to the address 7; and a response of node
    1 with identifier 0. *)
Definition demo_ping : PING :=
  mkPING (<[0%nat := mkPinged (mkIPP 7 8 0) 55 98]> (replicate PING_NUM_MAX pinged_zero)) 1 0.
Definition demo_response : list Z :=
  default [] (ping_packet NET_PACKET_PING_RESPONSE (pk 1) (sk 1) (zeros 24) (pk 2) 0).

Lemma demo_ping_wf : ping_wf demo_ping.
Proof.
  split; [|vm_compute; lia..]. unfold demo_ping. cbn [pings]. rewrite length_insert. apply length_replicate.
Qed.

Lemma ping_response_zero_id_witness :
  wp (handle_ping_response (mkIPP 7 8 0) demo_response) (fun r _ _ => r = 0)
    (set_dht_ping demo_ping demo_node) (still_world 0 100).
Proof.
  apply (ping_response_zero_id (set_dht_ping demo_ping demo_node) (still_world 0 100) 100
           (mkIPP 7 8 0) demo_response (mkPinged (mkIPP 7 8 0) 55 98)).
  - apply (step_ping demo_node demo_ping); [apply idle_dht_wf|apply demo_ping_wf].
  - reflexivity.
  - vm_compute. reflexivity.
  - vm_compute. apply list_elem_of_here.
  - reflexivity.
  - discriminate.
Defined.

Lemma ping_ring_is_queue_witness :
  waiting 100 demo_ping = [mkPinged (mkIPP 7 8 0) 55 98] /\
  exists x p' w', add_ping (mkIPP 9 9 0) demo_ping (still_world 0 100) = Some (x, p', w') /\ ping_wf p' /\
    ping_queue p' = make_room (waiting (u64 100) demo_ping) ++ [mkPinged (mkIPP 9 9 0) x (u64 100)].
Proof.
  split; [vm_compute; reflexivity|].
  apply (ping_ring_is_queue demo_ping (still_world 0 100) 100 (mkIPP 9 9 0) 1 demo_ping_wf eq_refl).
  left. discriminate.
Defined.

Lemma get_close_nodes_sound_witness :
  (1 <= MAX_SENT_NODES)%nat /\
  (forall m, m ∈ take 1 (fst (get_close_nodes 100 [demo_client 3] [] (zeros 32) (replicate 8 node_zero))) ->
     exists c, c ∈ [demo_client 3] ++ flat_map df_client_list [] /\
     m = node_of c /\ is_timeout 100 (cd_timestamp c) BAD_NODE_TIMEOUT = false).
Proof.
  destruct (get_close_nodes_sound 100 [demo_client 3] [] (zeros 32) (replicate 8 node_zero)
              (fst (get_close_nodes 100 [demo_client 3] [] (zeros 32) (replicate 8 node_zero))) 1
              eq_refl eq_refl) as (H1 & _ & _ & H2).
  exact (conj H1 H2).
Defined.

Lemma DHT_delfriend_mixes_witness :
  wp (DHT_delfriend (1 :: zeros 31)) (fun _ d' _ =>
    num_friends d' = 1%nat /\
    friends_list d' !! 0%nat
    = Some (set_df_client_id (2 :: zeros 31) (added_friend (1 :: zeros 31) 7)))
    demo_friends (still_world 0 100).
Proof.
  apply (DHT_delfriend_mixes demo_friends (still_world 0 100) (1 :: zeros 31) 0
           (added_friend (1 :: zeros 31) 7) (added_friend (2 :: zeros 31) 8));
    [vm_compute; reflexivity|reflexivity|reflexivity|vm_compute; lia].
Defined.
End witnesses.
