(* ===== verification/DHTLookup.v ===== *)
(** * DHT.c and ping.c: a question and its answer, from end to end

    Two nodes that exchange packets: what one writes into a request the other reads in it,
    and the answer is recognised and believed.  The world of an exchange has a clock that
    stands still during each call and a socket that works. *)

From S2P Require Import Prelude MiscTools Network LosslessUDP Crypto NetCrypto CryptoThms Ping DHTLists DHT DHTDistance DHTSafe DHTThms.
Local Open Scope Z_scope.
Local Open Scope tox_scope.

(** ** What random numbers and memory are read for *)

Lemma silent_junk_nodes n : silent (junk_nodes n).
Proof. induction n; cbn [junk_nodes]; auto with silent. Qed.

Lemma silent_random_nonce {S} : silent (random_nonce (S := S)).
Proof.
  unfold random_nonce. generalize (crypto_box_NONCEBYTES / 4)%nat. intros n.
  induction n; cbn [random_words]; auto with silent.
Qed.

Lemma silent_random_id {S} : silent (random_id (S := S)).
Proof. unfold random_id. auto 10 with silent. Qed.

(** ** A world in which packets get out *)

Definition quiet (t : Z) (w : World) : Prop := w_unix w = [t] /\ w_senderr w = [].

Lemma quiet_io t w w' : quiet t w -> same_io w w' -> quiet t w'.
Proof. intros [H1 H2] [E1 E2 _]. split; congruence. Qed.

Lemma wp_clock {S} t (Q : Z -> S -> World -> Prop) s w : quiet t w -> Q (u64 t) s w -> wp unix_time Q s w.
Proof. intros [Hw _] HQ. unfold wp. by rewrite (unix_time_still s w t Hw). Qed.

Lemma wp_sends {S} t addr data (Q : Z -> S -> World -> Prop) s w :
  quiet t w ->
  (forall w', quiet t w' -> w_out w' = w_out w ++ [(addr, data)] -> Q (Z.of_nat (length data)) s w') ->
  wp (sendpacket addr data) Q s w.
Proof. intros [H1 H2] HQ. apply wp_world. rewrite H2. simpl. apply HQ; [|done]. by split. Qed.

(** ** Packets *)

Section packets.
Context `{CryptoBoxLaws}.

(** The packets of the DHT: a kind, the sender, a nonce and a box. *)
Definition box_packet (kind : Z) (a : Z) (nonce enc : list Z) : list Z := [kind] ++ pk a ++ nonce ++ enc.

Lemma box_packet_sender kind a nonce enc : bytes_at 1 CLIENT_ID_SIZE (box_packet kind a nonce enc) = pk a.
Proof. unfold box_packet, bytes_at. simpl. apply take_app_length'. by rewrite length_pk. Qed.

Lemma box_packet_nonce kind a nonce enc :
  length nonce = 24%nat -> bytes_at (1 + CLIENT_ID_SIZE) crypto_box_NONCEBYTES (box_packet kind a nonce enc) = nonce.
Proof.
  intros Hn. unfold box_packet, bytes_at. change (1 + CLIENT_ID_SIZE)%nat with (S CLIENT_ID_SIZE). simpl app. rewrite skipn_cons.
  rewrite drop_app_length' by (by rewrite length_pk). apply take_app_length'. by rewrite Hn.
Qed.

Lemma box_packet_box kind a nonce enc :
  length nonce = 24%nat -> drop (1 + CLIENT_ID_SIZE + crypto_box_NONCEBYTES) (box_packet kind a nonce enc) = enc.
Proof.
  intros Hn. unfold box_packet. change (1 + CLIENT_ID_SIZE + crypto_box_NONCEBYTES)%nat with (S (CLIENT_ID_SIZE + crypto_box_NONCEBYTES)).
  simpl app. rewrite skipn_cons. rewrite app_assoc. apply drop_app_length'. by rewrite length_app, length_pk, Hn.
Qed.

Lemma length_box_packet kind a nonce enc :
  length nonce = 24%nat -> length (box_packet kind a nonce enc) = (57 + length enc)%nat.
Proof. intros Hn. unfold box_packet. simpl. rewrite !length_app, length_pk, Hn. lia. Qed.

(** The box is opened by the one it was made for. *)
Lemma box_opens a b nonce plain :
  (0 < length plain)%nat -> (length plain <= 1008)%nat ->
  exists enc, encrypt_data (pk b) (sk a) nonce plain = Some enc /\ length enc = (length plain + 16)%nat /\
    decrypt_data (pk a) (sk b) nonce enc = Some plain.
Proof.
  intros H1 H2. destruct (encrypt_data_fast_total (encrypt_precompute (pk b) (sk a)) nonce plain) as [enc E]; [lia..|].
  exists enc. split_and!; [done|by destruct (encrypt_data_fast_bounds _ _ _ _ E) as (_ & _ & ->)|].
  unfold decrypt_data, encrypt_precompute in *. unfold pk, sk in *. rewrite beforenm_agree. by apply decrypt_encrypt_fast.
Qed.
End packets.

(** ** Asking for nodes *)

Section lookup.
Context `{CryptoBoxLaws}.

Definition node_keys (a : Z) (d : DHT) : Prop := dht_pk d = pk a /\ dht_sk d = sk a.

Lemma id_equal_pk a b : pk a <> pk b -> id_equal (pk a) (pk b) = false.
Proof.
  intros Hne. apply not_true_iff_false. intros E. apply Hne.
  apply memcmp_eq_full in E; [done|by rewrite length_pk..].
Qed.

Lemma le_val_u64 x : is_u64 x -> le_val (le_bytes 8 x) = x.
Proof. intros Hx. rewrite le_val_bytes. by apply u64_small. Qed.

(** The question as the other node reads it. *)
Lemma getnodes_read a b src x target nonce enc e we :
  node_keys b e -> pk a <> pk b -> is_u64 x -> length target = CLIENT_ID_SIZE -> length nonce = 24%nat ->
  length enc = (8 + CLIENT_ID_SIZE + 16)%nat ->
  decrypt_data (pk a) (sk b) nonce enc = Some (le_bytes 8 x ++ target) ->
  handle_getnodes src (box_packet NET_PACKET_GET_NODES a nonce enc) e we
  = (sendnodes src (pk a) target x ;;; retM 0) e we.
Proof.
  intros [E1 E2] Hne Hx Ht Hn He Hd. unfold handle_getnodes. rewrite (proj2 (Nat.eqb_eq _ _)) by (by rewrite length_box_packet, He).
  cbn [negb]. erewrite bind_eval by reflexivity.
  rewrite (bytes_at_drop _ (1 + CLIENT_ID_SIZE + crypto_box_NONCEBYTES)) by (rewrite length_box_packet, He by done; unfold ENCRYPTION_PADDING; simpl; lia).
  rewrite box_packet_sender, box_packet_nonce, box_packet_box, E1, E2 by done.
  rewrite id_equal_pk, Hd by done. erewrite bind_eval by (apply room_fits; rewrite length_app, length_le_bytes, Ht; done). rewrite (proj2 (Nat.eqb_eq _ _)) by (by rewrite length_app, length_le_bytes, Ht).
  cbn [negb]. rewrite drop_app_length' by (by rewrite length_le_bytes). rewrite take_app_length' by (by rewrite length_le_bytes).
  by rewrite le_val_u64.
Qed.

(** What the answer is for: the node that answers enters the lists, the nodes it names are
    pinged and their addresses noted. *)
Definition learn_nodes (source : IP_Port) (sender : list Z) (nodes : list Node_format) : M DHT Z :=
addto_lists source sender ;;;
forM nodes (fun n =>
  ping_request (nf_ip_port n) (nf_client_id n) ;;;
  returnedip_ports (nf_ip_port n) (nf_client_id n) sender) ;;;
retM 0.

Definition node_sound (n : Node_format) : Prop := length (nf_client_id n) = CLIENT_ID_SIZE /\ ipp_ok (nf_ip_port n).

Lemma node_of_to_bytes n : node_sound n -> node_of_bytes (node_bytes n) = n.
Proof.
  intros [Hl Hi]. destruct n as [i a]. unfold node_of_bytes, node_bytes. cbn [nf_client_id nf_ip_port] in *.
  rewrite take_app_length' by done. f_equal. unfold bytes_at. rewrite drop_app_length' by done.
  rewrite take_ge by (by rewrite length_ipp_bytes). by apply ipp_of_to_bytes.
Qed.

Lemma length_node_bytes n : node_sound n -> length (node_bytes n) = NODE_SIZE.
Proof. intros [Hl _]. unfold node_bytes. by rewrite length_app, length_ipp_bytes, Hl. Qed.

Lemma sent_nodes_read head nodes :
  length head = 8%nat -> Forall node_sound nodes ->
  sent_nodes (length nodes) (head ++ flat_map node_bytes nodes) = nodes.
Proof.
  intros Hh Hn. unfold sent_nodes. apply list_eq. intros i. rewrite list_lookup_fmap.
  destruct (decide (i < length nodes)%nat) as [Hi|Hi].
  - destruct (lookup_lt_is_Some_2 nodes i Hi) as [n En]. rewrite lookup_seq_lt, En by done. cbn [fmap option_fmap option_map Nat.add]. f_equal.
    unfold bytes_at. rewrite drop_app_ge by (rewrite Hh; lia).
    replace (_ - length head)%nat with (NODE_SIZE * i)%nat by (rewrite Hh; lia).
    change (node_of_bytes (bytes_at (NODE_SIZE * i) NODE_SIZE (flat_map node_bytes nodes)) = n).
    rewrite (bytes_at_flat_map _ _ _ _ n); [|intros y Hy; by eapply length_node_bytes, Forall_forall|done].
    by eapply node_of_to_bytes, Forall_lookup_1.
  - rewrite !lookup_ge_None_2; [done|lia|by rewrite length_seq; lia].
Qed.

(** The answer as the node that asked reads it. *)
Lemma sendnodes_read a b addr x t0 t nodes nonce enc d w :
  node_keys a d -> is_u64 x -> x <> 0 -> (1 <= length nodes <= MAX_SENT_NODES)%nat -> Forall node_sound nodes ->
  length nonce = 24%nat -> length enc = (8 + length nodes * NODE_SIZE + 16)%nat ->
  decrypt_data (pk b) (sk a) nonce enc = Some (le_bytes 8 x ++ flat_map node_bytes nodes) ->
  mkPd addr x t0 ∈ send_nodes d -> w_unix w = [t] -> is_timeout (u64 t) t0 PING_TIMEOUT = false ->
  handle_sendnodes addr (box_packet NET_PACKET_SEND_NODES b nonce enc) d w = learn_nodes addr (pk b) nodes d w.
Proof.
  intros [_ E2] Hx Hx0 Hn Hs Hno He Hd Hin Hw Hto. unfold handle_sendnodes. rewrite length_box_packet, He by done.
  change (Z.of_nat (1 + CLIENT_ID_SIZE + (crypto_box_NONCEBYTES + 8 + ENCRYPTION_PADDING))) with 81.
  unfold MAX_SENT_NODES, NODE_SIZE in *.
  destruct (Z.ltb_spec (81 + Z.of_nat 40 * Z.of_nat 8) (Z.of_nat (57 + (8 + length nodes * 40 + 16)))); [lia|].
  destruct (Z.ltb_spec (Z.of_nat (57 + (8 + length nodes * 40 + 16))) (81 + Z.of_nat 40)); [lia|].
  rewrite (proj2 (Z.eqb_eq _ _)) by uarith. cbn [negb orb].
  replace (Z.to_nat (u32 (Z.of_nat (57 + (8 + length nodes * 40 + 16)) - 81) / Z.of_nat 40)) with (length nodes) by uarith.
  erewrite bind_eval by reflexivity. rewrite box_packet_sender, box_packet_nonce, E2 by done.
  unfold bytes_at at 1. rewrite box_packet_box by done. rewrite (take_ge enc) by (rewrite He; unfold ENCRYPTION_PADDING; simpl; lia).
  rewrite Hd. assert (Hlen : length (flat_map node_bytes nodes) = (40 * length nodes)%nat).
  { apply length_flat_map. intros n Hin'. by eapply length_node_bytes, Forall_forall. }
  erewrite bind_eval by (apply room_fits; rewrite length_app, length_le_bytes, Hlen; lia).
  rewrite (proj2 (Nat.eqb_eq _ _)) by (rewrite length_app, length_le_bytes, Hlen; lia). cbn [negb].
  rewrite take_app_length' by (by rewrite length_le_bytes). rewrite le_val_u64, sent_nodes_read by done.
  assert (Hget : is_gettingnodes addr x d w = Some (true, d, w)).
  { unfold is_gettingnodes. erewrite bind_eval by (by apply unix_time_still). erewrite bind_eval by reflexivity.
    unfold retM. do 3 f_equal. apply existsb_exists. exists (mkPd addr x t0). split; [by apply list_elem_of_In|].
    unfold getting_match. cbn [pd_timestamp pd_ip_port pd_ping_id]. rewrite Hto. unfold ipport_equal. rewrite !Z.eqb_refl.
    apply Z.eqb_neq in Hx0. rewrite Hx0. by destruct (ip addr =? 0). }
  erewrite bind_eval by exact Hget. cbn [negb]. erewrite bind_eval; [done|]. apply room_fits.
  pose proof (length_bytes_at_le 8 (length nodes * 40) (le_bytes 8 x ++ flat_map node_bytes nodes)). lia.
Qed.

(** Nobody is being asked at [addr], and there is a place to note the question. *)
Definition can_ask (now : Z) (addr : IP_Port) (d : DHT) : Prop :=
existsb (getting_match now addr 0) (send_nodes d) = false /\
getting_slot (Z.to_nat PING_TIMEOUT) now (send_nodes d) <> None.

Lemma getting_slot_lt i now l j : getting_slot i now l = Some j -> (j < length l)%nat.
Proof.
  induction i as [|i IH]; [done|]. cbn [getting_slot].
  destruct (first_index _ l) as [k|] eqn:E; [|done]. intros [= <-]. by eapply first_index_lt.
Qed.

(** The question is sent and noted. *)
Lemma wp_getnodes a b addr target t x d w w1 (Q : Z -> DHT -> World -> Prop) :
  node_keys a d -> pk a <> pk b -> length target = CLIENT_ID_SIZE -> quiet t w ->
  random_id d w = Some (x, d, w1) -> x <> 0 -> can_ask (u64 t) addr d ->
  (forall nonce enc d1 w', length nonce = 24%nat -> length enc = (8 + CLIENT_ID_SIZE + 16)%nat ->
     decrypt_data (pk a) (sk b) nonce enc = Some (le_bytes 8 x ++ target) ->
     node_keys a d1 -> mkPd addr x (u64 t) ∈ send_nodes d1 ->
     w_out w' = w_out w ++ [(addr, box_packet NET_PACKET_GET_NODES a nonce enc)] ->
     Q (Z.of_nat (length (box_packet NET_PACKET_GET_NODES a nonce enc))) d1 w') ->
  wp (getnodes addr (pk b) target) Q d w.
Proof.
  intros [E1 E2] Hne Ht Hw Hr Hx [Hbusy Hslot] HQ. unfold getnodes. do 2 wp_step. rewrite E1, id_equal_pk by congruence.
  unfold is_gettingnodes. do 2 wp_step. apply (wp_clock t); [done|]. do 2 wp_step. wp_step. rewrite Hbusy.
  unfold add_gettingnodes. do 2 wp_step. unfold wp at 1. rewrite Hr.
  destruct (silent_random_id _ _ _ _ _ Hr) as [_ Hio]. pose proof (quiet_io _ _ _ Hw Hio) as Hw1.
  wp_step. apply (wp_clock t); [done|]. do 2 wp_step.
  destruct (getting_slot _ _ _) as [j|] eqn:Ej; [|done]. do 2 wp_step. wp_step. apply Z.eqb_neq in Hx. rewrite Hx.
  wp_step. apply wp_silent; [apply silent_random_nonce|]. apply wp_random_nonce. intros nonce w2 Hn _ w3 Hio3.
  rewrite take_ge by (by rewrite Ht). rewrite E2.
  destruct (box_opens a b nonce (le_bytes 8 x ++ target)) as (enc & Ee & Hl & Hd); [rewrite length_app, length_le_bytes; lia|
    rewrite length_app, length_le_bytes, Ht; unfold CLIENT_ID_SIZE, crypto_box_PUBLICKEYBYTES; lia|].
  rewrite length_app, length_le_bytes, Ht in Hl. rewrite Ee. rewrite (proj2 (Nat.eqb_eq _ _)) by (by rewrite Hl). cbn [negb].
  pose proof (quiet_io _ _ _ Hw1 Hio3) as Hw3.
  apply (wp_sends t); [done|]. intros w4 _ Ho. apply HQ; [done|done|done|done| |].
  - cbn [send_nodes set_send_nodes]. apply list_elem_of_lookup_2 with j, list_lookup_insert_eq. by eapply getting_slot_lt.
  - rewrite Ho, (si_out _ _ Hio3), (si_out _ _ Hio). done.
Qed.

(** Everything a node would name in an answer can be written and read back. *)
Definition clients_sound (d : DHT) : Prop :=
Forall (fun c => node_sound (node_of c)) (close_clientlist d ++ flat_map df_client_list (friends_list d)).

(** The answer is sent, if there is a node to name. *)
Lemma wp_sendnodes a b src target x t d w (Q : Z -> DHT -> World -> Prop) :
  node_keys b d -> pk a <> pk b -> quiet t w -> clients_sound d ->
  (forall junk l n nonce enc r w', length junk = MAX_SENT_NODES ->
     get_close_nodes (u64 t) (close_clientlist d) (friends_list d) target junk = (l, n) ->
     (n <= MAX_SENT_NODES)%nat -> Forall node_sound (take n l) -> length (take n l) = n ->
     (n = 0%nat /\ w_out w' = w_out w \/
      (1 <= n)%nat /\ length nonce = 24%nat /\ length enc = (8 + n * NODE_SIZE + 16)%nat /\
      decrypt_data (pk b) (sk a) nonce enc = Some (le_bytes 8 x ++ flat_map node_bytes (take n l)) /\
      w_out w' = w_out w ++ [(src, box_packet NET_PACKET_SEND_NODES b nonce enc)]) -> Q r d w') ->
  wp (sendnodes src (pk a) target x) Q d w.
Proof.
  intros [E1 E2] Hne Hw Hs HQ. unfold sendnodes. do 2 wp_step. rewrite E1, id_equal_pk by done.
  wp_step. apply wp_silent; [apply silent_junk_nodes|]. apply wp_junk_nodes. intros junk w1 Hj w2 Hio.
  pose proof (quiet_io _ _ _ Hw Hio) as Hw2. wp_step. apply (wp_clock t); [done|].
  destruct (get_close_nodes (u64 t) (close_clientlist d) (friends_list d) target junk) as [l n] eqn:Eg.
  pose proof (get_close_nodes_inv (u64 t) (close_clientlist d) (friends_list d) target junk Hj) as [G1 G2 G3 _].
  rewrite Eg in *. cbn [fst snd] in *.
  assert (Hsound : Forall node_sound (take n l)).
  { apply Forall_forall. intros m Hm. destruct (G3 m Hm) as (c & Hc & -> & _). by eapply Forall_forall in Hc; [|exact Hs]. }
  assert (Hlen : length (take n l) = n) by (rewrite length_take; lia).
  destruct (Nat.eqb_spec n 0) as [->|Hn]; [wp_step; apply (HQ junk l 0%nat [] []); [done..|left; by rewrite (si_out _ _ Hio)]|].
  destruct (Nat.ltb_spec MAX_SENT_NODES n); [lia|].
  wp_step. apply wp_silent; [apply silent_random_nonce|]. apply wp_random_nonce. intros nonce w3 Hno _ w4 Hio4.
  assert (Hl8 : length (flat_map node_bytes (take n l)) = (n * NODE_SIZE)%nat).
  { rewrite (length_flat_map _ NODE_SIZE), Hlen; [lia|]. intros m Hm. by eapply length_node_bytes, Forall_forall. }
  rewrite E2. destruct (box_opens b a nonce (le_bytes 8 x ++ flat_map node_bytes (take n l))) as (enc & Ee & Hle & Hd);
    [rewrite length_app, length_le_bytes; lia|rewrite length_app, length_le_bytes, Hl8; unfold NODE_SIZE, MAX_SENT_NODES in *; lia|].
  rewrite length_app, length_le_bytes, Hl8 in Hle. rewrite Ee. rewrite (proj2 (Nat.eqb_eq _ _)) by (by rewrite Hle). cbn [negb].
  pose proof (quiet_io _ _ _ Hw2 Hio4) as Hw4. apply (wp_sends t); [done|]. intros w5 _ Ho.
  eapply (HQ junk l n nonce enc); [done..|]. right. split_and!; [lia|done|done|done|].
  by rewrite Ho, (si_out _ _ Hio4), (si_out _ _ Hio).
Qed.

Lemma random_id_u64 {S} (s : S) w x s' w' : random_id s w = Some (x, s', w') -> is_u64 x.
Proof.
  unfold random_id, random_int, bindM, worldM. destruct (next_of 0 (w_random w)) as [r l]. simpl.
  destruct (next_of 0 l) as [r2 l2]. intros [= <- _ _]. apply u64_range.
Qed.
End lookup.

(** ** Pings *)

Section pings.
Context `{CryptoBoxLaws}.

Lemma ping_packet_read kind a b nonce x :
  pk a <> pk b -> is_u64 x -> length nonce = 24%nat ->
  exists p, ping_packet kind (pk a) (sk a) nonce (pk b) x = Some p /\
    ping_decode (pk b) (sk b) p = Some x /\ bytes_at 1 CLIENT_ID_SIZE p = pk a.
Proof.
  intros Hne Hx Hn. unfold ping_packet. destruct (box_opens a b nonce (le_bytes 8 x)) as (enc & Ee & Hl & Hd);
    [rewrite length_le_bytes; lia..|]. rewrite length_le_bytes in Hl. rewrite Ee.
  rewrite (proj2 (Nat.eqb_eq _ _)) by (by rewrite Hl). cbn [negb]. exists (box_packet kind a nonce enc).
  split_and!; [done| |apply box_packet_sender]. unfold ping_decode.
  rewrite (proj2 (Nat.eqb_eq _ _)) by (by rewrite length_box_packet, Hl). cbn [negb].
  assert (id_eq (drop 1 (box_packet kind a nonce enc)) (pk b) = false) as ->.
  { apply not_true_iff_false. unfold id_eq. rewrite memcmp_eq_true. intros E. apply Hne.
    change (drop 1 (box_packet kind a nonce enc)) with (pk a ++ nonce ++ enc) in E. rewrite take_app_length' in E by (by rewrite length_pk). by rewrite take_ge in E by (by rewrite length_pk). }
  rewrite (box_packet_sender kind a nonce enc : bytes_at 1 crypto_box_PUBLICKEYBYTES _ = _).
  rewrite (box_packet_nonce kind a nonce enc Hn : bytes_at (1 + crypto_box_PUBLICKEYBYTES) crypto_box_NONCEBYTES _ = _).
  unfold bytes_at. rewrite (box_packet_box kind a nonce enc Hn : drop (1 + crypto_box_PUBLICKEYBYTES + crypto_box_NONCEBYTES) _ = _).
  rewrite take_ge by (by rewrite Hl). rewrite Hd, length_le_bytes. cbn [negb Nat.eqb]. by rewrite le_val_u64.
Qed.

(** A ping is sent and waited for. *)
Lemma wp_ping_request a b addr t d w (Q : Z -> DHT -> World -> Prop) :
  node_keys a d -> dht_wf d -> pk a <> pk b -> quiet t w -> ip addr <> 0 ->
  existsb (ping_match addr 0) (waiting (u64 t) (dht_ping d)) = false ->
  (forall x p d1 w', is_u64 x -> ping_decode (pk b) (sk b) p = Some x -> bytes_at 1 CLIENT_ID_SIZE p = pk a ->
     dht_step d d1 -> friends_list d1 = friends_list d -> mkPinged addr x (u64 t) ∈ ping_queue (dht_ping d1) ->
     w_out w' = w_out w ++ [(addr, p)] -> Q (Z.of_nat (length p)) d1 w') ->
  wp (ping_request addr (pk b)) Q d w.
Proof.
  intros [E1 E2] Hd Hne Hw Hip Hbusy HQ. unfold ping_request. do 2 wp_step. unfold in_ping. rewrite wp_zoom, E1, E2.
  unfold send_ping_request. wp_step. destruct (is_pinging_still (dht_ping d) w t addr 0) as (p1 & Hp1 & Hq1 & Ep);
    [apply Hw|apply Hd|apply Z.eqb_neq in Hip; by rewrite Hip|].
  unfold wp at 1. rewrite Ep, Hbusy.
  assert (id_eq (pk b) (pk a) = false) as -> by (apply (id_equal_pk b a); congruence). cbn [orb].
  wp_step. destruct (add_ping_still p1 w t addr) as (x & p2 & w2 & Ea & Hx & Hio & Hp2 & Hq2); [apply Hw|done|].
  unfold wp at 1. rewrite Ea. wp_step. apply wp_silent; [apply silent_random_nonce|]. apply wp_random_nonce.
  intros nonce w3 Hn _ w4 Hio4. destruct (ping_packet_read NET_PACKET_PING_REQUEST a b nonce x) as (p & Epk & Hdec & Hs); [done..|].
  rewrite Epk. apply (wp_sends t); [eapply quiet_io; [by eapply quiet_io|done]|]. intros w5 _ Ho.
  apply (HQ x p); [done|done|done|by apply step_ping|done| |].
  - cbn [dht_ping set_dht_ping]. rewrite Hq2. apply elem_of_app. right. by apply list_elem_of_singleton.
  - by rewrite Ho, (si_out _ _ Hio4), (si_out _ _ Hio).
Qed.

(** A ping is answered. *)
Lemma wp_answer_ping a b src x t p d w (Q : Z -> DHT -> World -> Prop) :
  node_keys b d -> pk a <> pk b -> quiet t w -> is_u64 x ->
  ping_decode (pk b) (sk b) p = Some x -> bytes_at 1 CLIENT_ID_SIZE p = pk a ->
  (forall q d1 w', ping_decode (pk a) (sk a) q = Some x -> bytes_at 1 CLIENT_ID_SIZE q = pk b ->
     w_out w' = w_out w ++ [(src, q)] -> Q 0 d1 w') ->
  wp (handle_ping_request src p) Q d w.
Proof.
  intros [E1 E2] Hne Hw Hx Hdec Hs HQ. unfold handle_ping_request. do 2 wp_step. rewrite E1, E2, Hdec, Hs.
  wp_step. unfold send_ping_response. assert (id_eq (pk a) (pk b) = false) as -> by (by apply (id_equal_pk a b)).
  wp_step. apply wp_silent; [apply silent_random_nonce|]. apply wp_random_nonce. intros nonce w1 Hn _ w2 Hio.
  destruct (ping_packet_read NET_PACKET_PING_RESPONSE b a nonce x) as (q & Epk & Hdec2 & Hs2); [by symmetry|done..|]. rewrite Epk.
  apply (wp_sends t); [by eapply quiet_io|]. intros w3 _ Ho. wp_step. unfold add_toping. do 2 wp_step.
  destruct (add_toping_list _ _ _ _) as [r l]. do 3 wp_step. apply (HQ q); [done|done|]. by rewrite Ho, (si_out _ _ Hio).
Qed.
End pings.

(** ** A node in its own friend list *)

Lemma byte_distance_zero x y : is_u8 x -> is_u8 y -> byte_distance x y = 0 <-> x = y.
Proof.
  assert (forallb (fun i => forallb (fun j =>
    Bool.eqb (byte_distance (Z.of_nat i) (Z.of_nat j) =? 0) (i =? j)%nat) (seq 0 256)) (seq 0 256) = true) as H
    by (vm_compute; reflexivity).
  unfold is_u8. intros Hx Hy. rewrite forallb_forall in H.
  specialize (H (Z.to_nat x) ltac:(apply in_seq; lia)). rewrite forallb_forall in H.
  specialize (H (Z.to_nat y) ltac:(apply in_seq; lia)). rewrite !Z2Nat.id in H by lia. apply eqb_prop in H.
  rewrite <- Z.eqb_eq, H, Nat.eqb_eq. lia.
Qed.

Lemma distance_loop_zero n id a :
  length id = n -> length a = n -> bytes_ok id -> bytes_ok a -> distance_loop n id a = 0 <-> id = a.
Proof.
  revert id a. induction n as [|n IH]; intros id a Hi Ha Oi Oa.
  { apply nil_length_inv in Hi as ->. apply nil_length_inv in Ha as ->. done. }
  destruct id as [|x id]; [done|]. destruct a as [|y a]; [done|].
  apply Forall_cons_iff in Oi as [Ox Oi]. apply Forall_cons_iff in Oa as [Oy Oa]. injection Hi as Hi. injection Ha as Ha.
  cbn [distance_loop nth drop]. rewrite !drop_0. pose proof (byte_distance_range x y) as [D0 _]. pose proof (distance_loop_range n id a) as [R0 _].
  pose proof (byte_distance_zero x y Ox Oy) as Hz. specialize (IH id a Hi Ha Oi Oa).
  assert (0 < 256 ^ Z.of_nat n) by (apply Z.pow_pos_nonneg; lia). split.
  - intros E. assert (byte_distance x y = 0) by nia. f_equal; [by apply Hz|]. apply IH. nia.
  - intros [= -> ->]. rewrite (proj2 Hz), (proj2 IH) by done. lia.
Qed.

Lemma distance_closer id a : id_ok id -> id_ok a -> id_equal a id = false -> distance id id < distance id a.
Proof.
  intros [Li Oi] [La Oa] Hne. unfold distance. rewrite (proj2 (distance_loop_zero _ id id Li Li Oi Oi)) by done.
  pose proof (distance_loop_range CLIENT_ID_SIZE id a) as [R _].
  destruct (Z.eq_dec (distance_loop CLIENT_ID_SIZE id a) 0) as [E|]; [|lia].
  apply distance_loop_zero in E as <-; [|done..]. exfalso. unfold id_equal in Hne.
  by rewrite (proj2 (memcmp_eq_full _ _ _ Li Li)) in Hne.
Qed.

(** [c] is the first client of the list with this id, and it is as it was just seen. *)
Definition seen_first (now : Z) (id : list Z) (addr : IP_Port) (l : list Client_data) : Prop :=
  exists pre c post, l = pre ++ c :: post /\ holds now id addr c /\
    Forall (fun c => id_equal (cd_client_id c) id = false) pre.

Lemma client_in_list_first now lst id addr :
  match client_in_list now lst id addr with
  | (true, l) => seen_first now id addr l
  | (false, l) => l = lst /\ Forall (fun c => id_equal (cd_client_id c) id = false) lst
  end.
Proof.
  destruct (client_in_list now lst id addr) as [b l] eqn:E. revert b l E.
  induction lst as [|c r IH]; intros b l; [intros [= <- <-]; by split|]. cbn [client_in_list].
  set (c1 := if ipport_equal (cd_ip_port c) addr then _ else _). destruct (id_equal (cd_client_id c1) id) eqn:E1.
  - intros [= <- <-]. exists [], (refresh now addr c1), r. split_and!; [done| |done]. split_and!; [|done..].
    by apply memcmp_eq_true in E1.
  - assert (c1 = c) as ->.
    { unfold c1 in *. destruct (ipport_equal (cd_ip_port c) addr); [|done]. exfalso. apply not_true_iff_false in E1. apply E1.
      apply memcmp_eq_true. simpl. by rewrite take_take, Nat.min_id. }
    destruct (client_in_list now r id addr) as [b' r'] eqn:Er. intros [= <- <-]. specialize (IH _ _ eq_refl).
    destruct b'; [|destruct IH as [-> IH]; split; [done|by constructor]].
    destruct IH as (pre & c0 & post & -> & Hh & Hp). exists (c :: pre), c0, post. split_and!; [done|done|by constructor].
Qed.

Lemma added_self now lst id addr l :
  id_ok id -> lst <> [] -> Forall (fun c => id_ok (cd_client_id c)) lst ->
  added now now now lst id addr id = Some l -> seen_first now id addr l.
Proof.
  intros Hid Hne Hok. unfold added. pose proof (client_in_list_first now lst id addr) as Hf.
  destruct (client_in_list now lst id addr) as [[|] l1]; [by intros [= <-]|]. destruct Hf as [-> Hf].
  destruct (replace_bad_ok now lst id addr) as [(i & c & Hi & _ & E2)|[_ E2]]; rewrite E2.
  - intros [= <-]. exists (take i lst), (new_client now id addr c), (drop (S i) lst).
    split_and!; [apply insert_take_drop; by eapply lookup_lt_Some|apply new_client_holds|by apply Forall_take].
  - destruct (replace_good_ok now lst id addr id Hne) as (f & s & Hp & _ & E3). simpl. rewrite E3.
    assert (f ∈ lst) as Hin by (rewrite <- Hp; left). rewrite !Forall_forall in *.
    rewrite (proj2 (Z.ltb_lt _ _)) by (apply distance_closer; [done|by apply Hok|by apply Hf]).
    intros [= <-]. exists [], (new_client now id addr f), s. split_and!; [done|apply new_client_holds|constructor].
Qed.

(** Looking for it finds it. *)
Lemma seen_first_index now id addr l :
  seen_first now id addr l -> is_timeout now now BAD_NODE_TIMEOUT = false ->
  exists j c, first_index (fun c => id_equal (cd_client_id c) id && negb (is_timeout now (cd_timestamp c) BAD_NODE_TIMEOUT)) l = Some j /\
    l !! j = Some c /\ ipport_equal (cd_ip_port c) addr = true.
Proof.
  intros (pre & c & post & -> & (H1 & H2 & H3 & H4) & Hp) Ht. exists (length pre), c. split_and!.
  - apply first_index_Some. exists c. split_and!; [by apply list_lookup_middle| |].
    + rewrite H2, Ht. apply andb_true_iff. split; [by apply memcmp_eq_true|done].
    + intros j y Hj Hy. rewrite lookup_app_l in Hy by done. by rewrite (Forall_lookup_1 _ _ _ _ Hp Hy).
  - by apply list_lookup_middle.
  - unfold ipport_equal. by rewrite H3, H4, !Z.eqb_refl.
Qed.

(** ** Entering the lists while the clock stands still *)

Definition friend_added (now : Z) (id : list Z) (addr : IP_Port) (f f' : DHT_Friend) : Prop :=
  exists l, added now now now (df_client_list f) id addr (df_client_id f) = Some l /\ f' = set_df_client_list l f.

Lemma addto_friends_still t id addr w fs pre d :
  w_unix w = [t] -> friends_list d = pre ++ fs ->
  exists fs', forM (seq (length pre) (length fs)) (addto_friend addr id) d w
    = Some (tt, set_friends_list (pre ++ fs') d, w) /\ Forall2 (friend_added (u64 t) id addr) fs fs'.
Proof.
  intros Hw. revert pre d. induction fs as [|f fs IH]; intros pre d Hd.
  { exists []. split; [|constructor]. cbn [length seq forM]. unfold retM. rewrite <- Hd. by destruct d. }
  cbn [length seq forM]. destruct (add_client_still (df_client_list f) id addr (df_client_id f) d w t Hw) as (l & Ea & Hl).
  set (f' := set_df_client_list l f).
  assert (Ef : addto_friend addr id (length pre) d w = Some (tt, set_friends_list ((pre ++ [f']) ++ fs) d, w)).
  { unfold addto_friend. erewrite bind_eval.
    2: { unfold get_friend. erewrite bind_eval by reflexivity. rewrite Hd, list_lookup_middle by done. reflexivity. }
    erewrite bind_eval by exact Ea. unfold mod_friend, modM. do 3 f_equal. rewrite Hd, <- app_assoc. cbn [app].
    rewrite alter_app_r_alt, Nat.sub_diag by done. done. }
  erewrite bind_eval by exact Ef.
  destruct (IH (pre ++ [f']) (set_friends_list ((pre ++ [f']) ++ fs) d)) as (fs' & E & HF); [done|].
  rewrite length_app in E. cbn [length] in E. rewrite Nat.add_1_r in E. rewrite E.
  exists (f' :: fs'). split; [by rewrite <- app_assoc|]. constructor; [by exists l|done].
Qed.

Lemma addto_lists_still t id addr d w :
  w_unix w = [t] ->
  exists d', addto_lists addr id d w = Some (tt, d', w) /\
    Forall2 (friend_added (u64 t) id addr) (friends_list d) (friends_list d').
Proof.
  intros Hw. unfold addto_lists. erewrite bind_eval by reflexivity.
  destruct (add_client_still (close_clientlist d) id addr (dht_pk d) d w t Hw) as (l & Ea & _).
  erewrite bind_eval by exact Ea. erewrite bind_eval by reflexivity.
  destruct (addto_friends_still t id addr w (friends_list d) [] (set_close_clientlist l d) Hw eq_refl) as (fs' & E & HF).
  eexists. split; [exact E|done].
Qed.

Lemma wp_eval {S A} (m m' : M S A) Q s w : m s w = m' s w -> wp m' Q s w -> wp m Q s w.
Proof. unfold wp. by intros ->. Qed.

(** A friend that has just entered the lists is found in them. *)
Lemma friend_ip_found t id addr d d' w :
  w_unix w = [t] -> u64 t < 2 ^ 63 -> id_ok id -> dht_wf d ->
  Forall (fun f => Forall (fun c => bytes_ok (cd_client_id c)) (df_client_list f)) (friends_list d) ->
  friend_number d id <> -1 -> Forall2 (friend_added (u64 t) id addr) (friends_list d) (friends_list d') ->
  wp (DHT_getfriendip id) (fun r _ _ => ipport_equal r addr = true) d' w.
Proof.
  intros Hw Ht Hid Hd Hby Hfn HF. unfold friend_number in Hfn.
  destruct (first_index (fun f => id_equal (df_client_id f) id) (friends_list d)) as [i|] eqn:Ei; [|done]. clear Hfn.
  apply first_index_Some in Ei as (f & Hi & Hf & Hbefore).
  destruct (Forall2_lookup_l _ _ _ _ _ HF Hi) as (f' & Hi' & l & Hl & ->).
  assert (Hidx : first_index (fun f => id_equal (df_client_id f) id) (friends_list d') = Some i).
  { apply first_index_Some. eexists. split_and!; [exact Hi'|done|]. intros j y Hj Hy.
    destruct (Forall2_lookup_r _ _ _ _ _ HF Hy) as (y0 & Hy0 & l0 & _ & ->). exact (Hbefore j y0 Hj Hy0). }
  unfold DHT_getfriendip. wp_step. unfold wp at 1. rewrite (unix_time_still _ _ t Hw). do 2 wp_step. rewrite Hidx.
  wp_step. unfold get_friend. do 2 wp_step. rewrite Hi'. cbn [liftO]. wp_step. cbn [df_client_list set_df_client_list].
  pose proof (Forall_lookup_1 _ _ _ _ (dw_friends _ Hd) Hi) as [Hlf [Hlc Hoc]].
  pose proof (Forall_lookup_1 _ _ _ _ Hby Hi) as Hbf. simpl in Hbf.
  assert (Ef : df_client_id f = id) by (apply memcmp_eq_full in Hf; [done|done|apply Hid]). rewrite Ef in Hl.
  assert (Hs : seen_first (u64 t) id addr l).
  { eapply (added_self (u64 t) (df_client_list f) id addr); [done| | |exact Hl].
    - intros E. by rewrite E in Hlc.
    - rewrite Forall_forall in *. intros c Hc. split; [by apply Hoc|by apply Hbf]. }
  destruct (seen_first_index _ _ _ _ Hs) as (j & c & -> & Hj & Hc).
  { unfold is_timeout. apply Z.leb_gt. pose proof (u64_range t). unfold BAD_NODE_TIMEOUT. uarith. }
  wp_step. by rewrite nth_lookup, Hj.
Qed.

(** * Claims *)

Section claims.
Context `{CryptoBoxLaws}.

(** C18: a lookup is answered.  Node [a], which is not asking at [addr] already and has a
    place to note a question, asks there for the nodes close to [target]: one datagram
    goes out and the question is noted.  The node [b] whose key it was asked with reads it
    and answers, where it came from, with the nodes [get_close_nodes] gives for [target]
    (with nothing, if it knows none that is good).  And when the answer arrives before the
    question times out, [a] believes it: [handle_sendnodes] enters [b] into the lists and
    pings exactly the nodes [b] has named, with their addresses. *)
Theorem lookup_answered a b addr src target t x d w w1 :
  node_keys a d -> pk a <> pk b -> length target = CLIENT_ID_SIZE -> quiet t w ->
  random_id d w = Some (x, d, w1) -> x <> 0 -> can_ask (u64 t) addr d ->
  wp (getnodes addr (pk b) target) (fun r d1 w' =>
    exists q, r = Z.of_nat (length q) /\ w_out w' = w_out w ++ [(addr, q)] /\
    mkPd addr x (u64 t) ∈ send_nodes d1 /\
    forall e we te, node_keys b e -> clients_sound e -> quiet te we ->
      wp (handle_getnodes src q) (fun r2 e2 we2 =>
        r2 = 0 /\ e2 = e /\
        exists junk l n, length junk = MAX_SENT_NODES /\
        get_close_nodes (u64 te) (close_clientlist e) (friends_list e) target junk = (l, n) /\
        if (n =? 0)%nat then w_out we2 = w_out we
        else exists p, w_out we2 = w_out we ++ [(src, p)] /\
          forall d3 w3 t3, node_keys a d3 -> mkPd addr x (u64 t) ∈ send_nodes d3 ->
            w_unix w3 = [t3] -> is_timeout (u64 t3) (u64 t) PING_TIMEOUT = false ->
            handle_sendnodes addr p d3 w3 = learn_nodes addr (pk b) (take n l) d3 w3) e we) d w.
Proof.
  intros Ha Hne Ht Hw Hr Hx Hask. pose proof (random_id_u64 _ _ _ _ _ Hr) as Hxu.
  eapply (wp_getnodes a b); [done..|]. intros nonce enc d1 w' Hn He Hd _ Hin Ho. eexists. split_and!; [done|done|done|].
  intros e we te Hb Hs Hq. eapply wp_eval; [by apply (getnodes_read a b src x target nonce enc e we)|].
  wp_step. eapply (wp_sendnodes a b); [done..|].
  intros junk l n nonce2 enc2 r we2 Hj Eg Hn8 Hsound Hlen Hcase. wp_step. split_and!; [done|done|].
  exists junk, l, n. split_and!; [done|done|]. destruct Hcase as [[-> Ho2]|(Hn1 & Hno2 & He2 & Hd2 & Ho2)]; [done|].
  rewrite (proj2 (Nat.eqb_neq _ _)) by lia. eexists. split; [done|]. intros d3 w3 t3 Ha3 Hin3 Hw3 Ht3.
  eapply (sendnodes_read a b); [done..|by rewrite Hlen|done|done|by rewrite Hlen|done|done|done|done].
Qed.

(** C20: a friend that is online is found.  Node [a] pings, at [addr], the node [b]; [b]
    answers; and when the answer arrives in time, and [b] is a friend of [a], [a] knows
    where [b] is: [DHT_getfriendip] returns [addr]. *)
Theorem friend_found a b addr src t d w :
  node_keys a d -> dht_wf d -> pk a <> pk b -> bytes_ok (pk b) -> quiet t w -> ip addr <> 0 ->
  existsb (ping_match addr 0) (waiting (u64 t) (dht_ping d)) = false ->
  wp (ping_request addr (pk b)) (fun r d1 w' =>
    exists q x, r = Z.of_nat (length q) /\ w_out w' = w_out w ++ [(addr, q)] /\
    mkPinged addr x (u64 t) ∈ ping_queue (dht_ping d1) /\
    forall e we te, node_keys b e -> quiet te we ->
      wp (handle_ping_request src q) (fun r2 _ we2 =>
        r2 = 0 /\ exists p, w_out we2 = w_out we ++ [(src, p)] /\
        forall d3 w3 t3, node_keys a d3 -> dht_wf d3 ->
          Forall (fun f => Forall (fun c => bytes_ok (cd_client_id c)) (df_client_list f)) (friends_list d3) ->
          friend_number d3 (pk b) <> -1 -> mkPinged addr x (u64 t) ∈ waiting (u64 t3) (dht_ping d3) ->
          w_unix w3 = [t3] -> u64 t3 < 2 ^ 63 ->
          wp (handle_ping_response addr p) (fun r3 d4 w4 =>
            r3 = 0 /\ wp (DHT_getfriendip (pk b)) (fun ip4 _ _ => ipport_equal ip4 addr = true) d4 w4) d3 w3) e we) d w.
Proof.
  intros Ha Hd Hne Hby Hw Hip Hbusy. eapply (wp_ping_request a b); [done..|].
  intros x q d1 w' Hx Hdec Hs _ _ Hin Ho. exists q, x. split_and!; [done..|]. intros e we te Hb Hwe.
  eapply (wp_answer_ping a b); [done..|]. intros p e1 we2 Hdec2 Hs2 Ho2. split; [done|]. exists p. split; [done|].
  intros d3 w3 t3 [A1 A2] Hd3 Hbytes Hfn Hwait Hw3 Ht3. unfold handle_ping_response. do 2 wp_step. rewrite A1, A2, Hdec2, Hs2.
  wp_step. unfold in_ping. rewrite wp_zoom.
  destruct (is_pinging_still (dht_ping d3) w3 t3 addr x Hw3 (dw_ping _ Hd3)) as (p1 & _ & _ & Ep).
  { apply Z.eqb_neq in Hip. by rewrite Hip. }
  unfold wp at 1. rewrite Ep.
  replace (existsb _ _) with true.
  2: { symmetry. apply existsb_exists. eexists. split; [by apply list_elem_of_In|].
       unfold ping_match, ipp_eq. simpl. by rewrite !Z.eqb_refl. }
  cbn [negb]. wp_step. destruct (addto_lists_still t3 (pk b) addr (set_dht_ping p1 d3) w3 Hw3) as (d4 & E4 & HF).
  unfold wp at 1. rewrite E4. wp_step. split; [done|].
  apply (friend_ip_found t3 (pk b) addr d3); [done|done|split; [by rewrite length_pk|done]|done..].
Qed.

(** Handling a request at its receiver: the handler registered for it is called, with the
    key of the sender and the data. *)
Definition request_taken (cb : option crypto_handler) (call : crypto_handler -> IP_Port -> list Z -> list Z -> M DHT Z)
    (src : IP_Port) (sender data : list Z) : M DHT Z :=
match cb with
| Some cb => call cb src sender data ;;; retM 1
| None => retM 1
end.

(** C17: a request reaches the one it is for, also through a node in between.  A request
    with 1 to 918 bytes of data is made, in a packet of at most 1024 bytes.  A node that is
    not its receiver and has the receiver in its close list sends the packet on as it is, to
    the address it has; and at the receiver, whoever it comes from, the handler registered
    for that kind of request is called with the sender's key and the data. *)
Theorem request_delivered a b request_id data (s : DHT) w
    (call : crypto_handler -> IP_Port -> list Z -> list Z -> M DHT Z) :
  (1 <= length data <= 918)%nat ->
  wp (create_request (pk a) (sk a) (pk b) data request_id) (fun r s' _ =>
    s' = s /\ exists p, r = Some p /\ (length p <= 1024)%nat /\
    (forall m d wm t i c src, node_keys m d -> pk m <> pk b -> quiet t wm ->
       first_index (fun c => id_equal (pk b) (cd_client_id c)) (close_clientlist d) = Some i ->
       close_clientlist d !! i = Some c ->
       wp (cryptopacket_handle (fun d => d) (fun d _ => d) call src p) (fun r d' w' =>
         r = 0 /\ d' = d /\ w_out w' = w_out wm ++ [(cd_ip_port c, p)]) d wm) /\
    (forall d wb src, node_keys b d ->
       cryptopacket_handle (fun d => d) (fun d _ => d) call src p d wb
       = request_taken (cryptopackethandlers (dht_c d) !! request_id) call src (pk a) data d wb)) s w.
Proof.
  intros Hlen. eapply wp_mono; [apply create_request_read|]. intros [p|] s' w' [-> Hr]; [|lia].
  destruct Hr as (_ & Hl1 & Hl2 & Hk & Hdst & Hread). split; [done|]. exists p. split_and!; [done|done| |].
  - intros m d wm t i c src [E1 E2] Hne Hq Hi Hc. unfold cryptopacket_handle. do 2 wp_step. cbv beta zeta. rewrite Hk, Z.eqb_refl.
    change (request_header + ENCRYPTION_PADDING)%nat with 105%nat. change (MAX_DATA_SIZE + Z.of_nat ENCRYPTION_PADDING) with 1040.
    destruct (Z.leb_spec (Z.of_nat (length p)) (Z.of_nat 105)); [lia|]. destruct (Z.ltb_spec 1040 (Z.of_nat (length p))); [lia|]. cbn [orb].
    assert (memcmp_eq crypto_box_PUBLICKEYBYTES (drop 1 p) (dht_pk d) = false) as ->.
    { apply not_true_iff_false. rewrite memcmp_eq_true, E1. unfold crypto_box_PUBLICKEYBYTES. rewrite Hdst.
      rewrite take_ge by (by rewrite length_pk). congruence. }
    wp_step. rewrite wp_zoom. unfold route_packet. do 2 wp_step. unfold bytes_at, CLIENT_ID_SIZE, crypto_box_PUBLICKEYBYTES.
    cbv beta zeta. rewrite Hdst, Hi. apply (wp_sends t); [done|]. intros w2 _ Ho. wp_step. rewrite Z.eqb_refl. split_and!; [done|done|].
    rewrite Ho, nth_lookup, Hc. done.
  - intros d wb src [E1 E2]. unfold cryptopacket_handle. erewrite bind_eval by reflexivity. cbv beta zeta. rewrite Hk, Z.eqb_refl.
    change (request_header + ENCRYPTION_PADDING)%nat with 105%nat. change (MAX_DATA_SIZE + Z.of_nat ENCRYPTION_PADDING) with 1040.
    destruct (Z.leb_spec (Z.of_nat (length p)) (Z.of_nat 105)); [lia|]. destruct (Z.ltb_spec 1040 (Z.of_nat (length p))); [lia|]. cbn [orb].
    assert (memcmp_eq crypto_box_PUBLICKEYBYTES (drop 1 p) (dht_pk d) = true) as ->.
    { rewrite memcmp_eq_true, E1. unfold crypto_box_PUBLICKEYBYTES. rewrite Hdst. by rewrite take_ge by (by rewrite length_pk). }
    rewrite E1, E2, Hread. destruct (Nat.eqb_spec (length data) 0); [lia|].
    unfold request_taken. by destruct (cryptopackethandlers (dht_c d) !! request_id).
Qed.
End claims.

(** ** Witnesses *)

Section witnesses.
#[local] Existing Instance ToyBox.box.
#[local] Existing Instance ToyBox.laws.

Definition lookup_world : World := set_random [0; 7] (still_world 0 100).

(** A node with one good client. *)
Definition lookup_node : DHT :=
set_close_clientlist (<[0%nat := set_cd_ip_port (mkIPP 5 6 0) (set_cd_timestamp 90 (set_cd_client_id (3 :: zeros 31) client_zero))]>
  (replicate LCLIENT_LIST client_zero)) (idle_dht (pk 2) (sk 2)).

Lemma lookup_answered_witness :
  wp (getnodes (mkIPP 9 9 0) (pk 2) (zeros 32)) (fun r d1 w' =>
    exists q, w_out w' = [(mkIPP 9 9 0, q)] /\
      wp (handle_getnodes (mkIPP 8 8 0) q) (fun r2 e2 we2 => r2 = 0 /\ e2 = lookup_node) lookup_node (still_world 0 100))
    (idle_dht (pk 1) (sk 1)) lookup_world.
Proof.
  eapply wp_mono; [apply (lookup_answered 1 2 (mkIPP 9 9 0) (mkIPP 8 8 0) (zeros 32) 100 7 (idle_dht (pk 1) (sk 1)) lookup_world
    (set_random [] lookup_world))|].
  - by split.
  - by vm_compute.
  - done.
  - by split.
  - done.
  - done.
  - split; by vm_compute.
  - intros r d1 w' (q & _ & Ho & _ & Hnext). exists q. split; [done|].
    eapply wp_mono; [apply (Hnext lookup_node (still_world 0 100) 100)|].
    + by split.
    + unfold clients_sound. change (close_clientlist lookup_node ++ flat_map df_client_list (friends_list lookup_node))
        with (close_clientlist lookup_node).
      assert (node_sound (node_of client_zero)) as Hz by (split; [done|vm_compute; split_and!; (discriminate || reflexivity)]).
      apply Forall_insert; [by apply Forall_replicate|]. split; [done|vm_compute; split_and!; (discriminate || reflexivity)].
    + by split.
    + by intros r2 e2 we2 (-> & -> & _).
Defined.

(** Node 1 with node 2 as its friend, waiting for the answer to ping [x]. *)
Definition waiting_node (x : Z) : DHT :=
set_dht_ping (mkPING (<[0%nat := mkPinged (mkIPP 9 9 0) x 100]> (replicate PING_NUM_MAX pinged_zero)) 1 0)
  (set_friends_list [added_friend (pk 2) 7] (idle_dht (pk 1) (sk 1))).

Lemma friend_found_witness :
  wp (ping_request (mkIPP 9 9 0) (pk 2)) (fun r d1 w' =>
    exists q x, w_out w' = [(mkIPP 9 9 0, q)] /\
      wp (handle_ping_request (mkIPP 8 8 0) q) (fun r2 _ we2 =>
        exists p, w_out we2 = [(mkIPP 8 8 0, p)] /\
        wp (handle_ping_response (mkIPP 9 9 0) p) (fun r3 d4 w4 =>
          r3 = 0 /\ wp (DHT_getfriendip (pk 2)) (fun ip4 _ _ => ipport_equal ip4 (mkIPP 9 9 0) = true) d4 w4)
          (waiting_node x) (still_world 0 101))
        (idle_dht (pk 2) (sk 2)) (still_world 0 100))
    (idle_dht (pk 1) (sk 1)) lookup_world.
Proof.
  eapply wp_mono; [apply (friend_found 1 2 (mkIPP 9 9 0) (mkIPP 8 8 0) 100 (idle_dht (pk 1) (sk 1)) lookup_world)|].
  - by split.
  - apply idle_dht_wf.
  - by vm_compute.
  - vm_compute. repeat constructor; discriminate.
  - by split.
  - done.
  - by vm_compute.
  - intros r d1 w' (q & x & _ & Ho & _ & Hnext). exists q, x. split; [done|].
    eapply wp_mono; [apply (Hnext (idle_dht (pk 2) (sk 2)) (still_world 0 100) 100); by split|].
    intros r2 e2 we2 (_ & p & Hp & Hlast). exists p. split; [done|]. apply (Hlast (waiting_node x) (still_world 0 101) 101).
    + by split.
    + apply (step_ping (set_friends_list [added_friend (pk 2) 7] (idle_dht (pk 1) (sk 1)))).
      * destruct (idle_dht_wf (pk 1) (sk 1)). split; try done. repeat constructor; apply added_friend_ok; reflexivity.
      * split; [|vm_compute; lia..]. cbn [pings]. rewrite length_insert. apply length_replicate.
    + repeat constructor; (vm_compute; discriminate || reflexivity).
    + by vm_compute.
    + vm_compute. apply list_elem_of_here.
    + done.
    + by vm_compute.
Defined.

(** A request of node 1 for node 2, by way of a node that knows where node 2 is. *)
Definition middle_node : DHT :=
set_close_clientlist (<[0%nat := set_cd_ip_port (mkIPP 5 6 0) (set_cd_client_id (pk 2) client_zero)]>
  (replicate LCLIENT_LIST client_zero)) (idle_dht (pk 3) (sk 3)).

Lemma request_delivered_witness :
  wp (create_request (pk 1) (sk 1) (pk 2) [5; 6] 32) (fun r s' _ =>
    exists p, r = Some p /\
      wp (cryptopacket_handle (fun d => d) (fun d _ => d) (fun _ _ _ _ => retM 0) (mkIPP 7 7 0) p)
        (fun r d' w' => r = 0 /\ w_out w' = [(mkIPP 5 6 0, p)]) middle_node (still_world 0 100))
    (idle_dht (pk 1) (sk 1)) (still_world 0 100).
Proof.
  eapply wp_mono; [apply (request_delivered 1 2 32 [5; 6] (idle_dht (pk 1) (sk 1)) (still_world 0 100) (fun _ _ _ _ => retM 0))|].
  - simpl. lia.
  - intros r s' w' (_ & p & -> & _ & Hmid & _). exists p. split; [done|].
    eapply wp_mono; [apply (Hmid 3 middle_node (still_world 0 100) 100 0%nat
      (set_cd_ip_port (mkIPP 5 6 0) (set_cd_client_id (pk 2) client_zero)) (mkIPP 7 7 0))|].
    + by split.
    + by vm_compute.
    + by split.
    + by vm_compute.
    + done.
    + by intros r2 d' w2 (-> & _ & ->).
Defined.
End witnesses.
