(* ===== verification/FriendRequests.v ===== *)
(** * friend_requests.c: sending and receiving friend requests *)

From S2P Require Import Prelude MiscTools Network LosslessUDP Crypto NetCrypto Ping DHTLists DHT.
Local Open Scope Z_scope.
Local Open Scope tox_scope.

Definition MAX_RECEIVED_STORED : nat := 32.

(** The callback itself belongs to the client: [handle_friendrequest_isset] says
    whether there is one, and the handler below says when it is called. *)
Record Friend_Requests := mkFR {
  nospam : Z;
  handle_friendrequest_isset : Z;
  received_requests : list (list Z);
  received_requests_index : nat
}.

Definition fr_zero : Friend_Requests :=
  mkFR 0 0 (replicate MAX_RECEIVED_STORED (zeros crypto_box_PUBLICKEYBYTES)) 0.

Definition set_nospam (num : Z) (fr : Friend_Requests) : Friend_Requests :=
  mkFR num (handle_friendrequest_isset fr) (received_requests fr) (received_requests_index fr).
Definition get_nospam (fr : Friend_Requests) : Z := nospam fr.

Definition callback_friendrequest (fr : Friend_Requests) : Friend_Requests :=
  mkFR (nospam fr) 1 (received_requests fr) (received_requests_index fr).

Definition addto_receivedlist (fr : Friend_Requests) (client_id : list Z) : Friend_Requests :=
  let index := if (MAX_RECEIVED_STORED <=? received_requests_index fr)%nat then 0%nat
               else received_requests_index fr in
  mkFR (nospam fr) (handle_friendrequest_isset fr)
    (<[index := take crypto_box_PUBLICKEYBYTES client_id]> (received_requests fr)) (S index).

Definition request_received (fr : Friend_Requests) (client_id : list Z) : bool :=
  existsb (fun x => memcmp_eq crypto_box_PUBLICKEYBYTES x client_id) (received_requests fr).

(** The result, the state after, and what the callback is called with. *)
Definition friendreq_handlepacket (fr : Friend_Requests) (source_pubkey packet : list Z)
  : Z * Friend_Requests * option (list Z * list Z) :=
  if handle_friendrequest_isset fr =? 0 then (1, fr, None)
  else if (length packet <=? 4)%nat then (1, fr, None)
  else if request_received fr source_pubkey then (1, fr, None)
  else if negb (memcmp_eq 4 packet (le_bytes 4 (nospam fr))) then (1, fr, None)
  else (0, addto_receivedlist fr source_pubkey, Some (source_pubkey, drop 4 packet)).

Definition friendreq_init (c : Net_Crypto) : Net_Crypto :=
  cryptopacket_registerhandler CRYPTO_PACKET_FRIEND_REQ friendreq_handlepacket_cb c.

Section send.
Context `{CryptoBox}.

Definition send_friendrequest (public_key : list Z) (nospam_num : Z) (data : list Z) : M DHT Z :=
if MAX_DATA_SIZE <? Z.of_nat (length data + 4) then retM (-1)
else
  d <- getM ;;
  p <- create_request (dht_pk d) (dht_sk d) public_key (le_bytes 4 nospam_num ++ data)
         CRYPTO_PACKET_FRIEND_REQ ;;
  match p with
  | None => retM (-1)
  | Some packet =>
    ip_port <- DHT_getfriendip public_key ;;
    if ip ip_port =? 1 then retM (-1)
    else if negb (ip ip_port =? 0) then
      r <- sendpacket ip_port packet ;;
      retM (if negb (r =? -1) then 0 else -1)
    else
      num <- route_tofriend public_key packet ;;
      retM (if num =? 0 then -1 else num)
  end.
End send.

(** ** Lemmas *)

Lemma request_received_spec fr k :
  request_received fr k = true <->
  exists i x, received_requests fr !! i = Some x /\ take 32 x = take 32 k.
Proof.
  unfold request_received. rewrite existsb_exists. split.
  - intros (x & Hx & E). apply list_elem_of_In, list_elem_of_lookup in Hx as [i Hi].
    apply memcmp_eq_true in E. by exists i, x.
  - intros (i & x & Hi & E). exists x. split; [|by apply memcmp_eq_true].
    apply list_elem_of_In, list_elem_of_lookup. by exists i.
Qed.

Lemma received_added fr k :
  length (received_requests fr) = MAX_RECEIVED_STORED ->
  request_received (addto_receivedlist fr k) k = true.
Proof.
  intros Hl. apply request_received_spec.
  set (index := if (MAX_RECEIVED_STORED <=? received_requests_index fr)%nat then 0%nat
                else received_requests_index fr).
  assert (index < MAX_RECEIVED_STORED)%nat.
  { subst index. destruct (Nat.leb_spec MAX_RECEIVED_STORED (received_requests_index fr));
      [unfold MAX_RECEIVED_STORED; lia|done]. }
  exists index, (take crypto_box_PUBLICKEYBYTES k). split.
  - unfold addto_receivedlist. cbn [received_requests]. fold index.
    apply list_lookup_insert_eq. lia.
  - rewrite take_take. f_equal.
Qed.
