(* ===== verification/LANDiscovery.v ===== *)
(** * LAN_discovery.c: finding nodes on the local network

    [get_broadcast] and [broadcast_ip] are in [Host]. *)

From S2P Require Import Prelude MiscTools Network Host LosslessUDP Crypto NetCrypto CryptoThms Ping DHTLists DHT DHTSafe.
From stdpp Require Import gmap.
Local Open Scope Z_scope.
Local Open Scope tox_scope.

(** Byte [i] of an address. *)
Definition ip_uint8 (a : Z) (i : nat) : Z := nth i (le_bytes 4 a) 0.

Definition LAN_ip (a : Z) : Z :=
  if ip_uint8 a 0 =? 127 then 0
  else if ip_uint8 a 0 =? 10 then 0
  else if (ip_uint8 a 0 =? 172) && (16 <=? ip_uint8 a 1) && (ip_uint8 a 1 <=? 31) then 0
  else if (ip_uint8 a 0 =? 192) && (ip_uint8 a 1 =? 168) then 0
  else if (ip_uint8 a 0 =? 169) && (ip_uint8 a 1 =? 254) && negb (ip_uint8 a 2 =? 0)
          && negb (ip_uint8 a 2 =? 255) then 0
  else -1.

Section lan.
Context `{CryptoBox}.

Definition handle_LANdiscovery (source : IP_Port) (packet : list Z) : M DHT Z :=
if LAN_ip (ip source) =? -1 then retM 1
else if negb (length packet =? crypto_box_PUBLICKEYBYTES + 1)%nat then retM 1
else DHT_bootstrap source (drop 1 packet) ;;; retM 0.

End lan.

Definition send_LANdiscovery (port : Z) (self_public_key : list Z) : M Host Z :=
  ip <- broadcast_ip ;;
  sendpacket (mkIPP ip port 0) ([NET_PACKET_LAN_DISCOVERY] ++ self_public_key).

Definition LANdiscovery_init (d : DHT) : DHT :=
  let l := lossless_udp (dht_c d) in
  set_dht_c (set_lossless_udp
    (set_net (networking_registerhandler (net l) NET_PACKET_LAN_DISCOVERY handle_LANdiscovery_cb) l)
    (dht_c d)) d.

(** ** Claim *)

Lemma wp_broadcast_ip Q h w : (forall a h', a <> 0 -> Q a h' w) -> wp broadcast_ip Q h w.
Proof.
  intros HQ. unfold broadcast_ip. wp_step. apply (wp_mono _ (fun _ _ w' => w' = w)).
  - unfold get_broadcast, sys_socket, sys_close. do 3 wp_step. destruct (next_of _ _) as [fd r]. do 3 wp_step.
    wp_step; [by wp_step|]. do 2 wp_step. repeat case_match; repeat wp_step; done.
  - intros a h' w' ->. wp_step. apply HQ. destruct (Z.eqb_spec a 0); [done|lia].
Qed.

Lemma ip_uint8_bytes a b c d :
  is_u8 a -> is_u8 b -> is_u8 c -> is_u8 d -> le_bytes 4 (le_val [a; b; c; d]) = [a; b; c; d].
Proof. intros. by apply (le_bytes_val [a; b; c; d]); repeat apply Forall_cons_2. Qed.

Section claims.
Context `{CryptoBox}.

(** C34: Nodes on one network find each other: what [send_LANdiscovery] broadcasts (to
    some address that is not 0.0.0.0) is a packet from which a node that receives it
    bootstraps with the sender's address and key, if that address is 127.x, 10.x,
    172.16-31.x, 192.168.x or 169.254.1-254.x; from any other address the packet is
    ignored. *)
Theorem LAN_discovery_found (port : Z) (key : list Z) (h : Host) (w : World) :
length key = crypto_box_PUBLICKEYBYTES -> w_senderr w = [] ->
wp (send_LANdiscovery port key) (fun _ _ w' =>
  exists broadcast packet, broadcast <> 0 /\ w_out w' = w_out w ++ [(mkIPP broadcast port 0, packet)] /\
  forall (a b c d from : Z) (dht : DHT) (w2 : World), is_u8 a -> is_u8 b -> is_u8 c -> is_u8 d ->
    let source := mkIPP (le_val [a; b; c; d]) from 0 in
    let local := a = 127 \/ a = 10 \/ (a = 172 /\ 16 <= b <= 31) \/ (a = 192 /\ b = 168) \/
                 (a = 169 /\ b = 254 /\ 1 <= c <= 254) in
    (local -> handle_LANdiscovery source packet dht w2 = (DHT_bootstrap source key ;;; retM 0) dht w2) /\
    (~ local -> handle_LANdiscovery source packet dht w2 = Some (1, dht, w2))) h w.
Proof.
  intros Hk Hs. unfold send_LANdiscovery. wp_step. apply wp_broadcast_ip. intros bc h' Hbc.
  apply wp_world. rewrite Hs. cbn [next_of].
  exists bc, (NET_PACKET_LAN_DISCOVERY :: key). split_and!; [done|done|].
  intros a b c d from dht w2 Ha Hb Hc Hd. set (source := mkIPP _ _ _). set (local := a = 127 \/ _).
  assert (Hlan : LAN_ip (ip source) = if decide local then 0 else -1).
  { unfold LAN_ip, ip_uint8. cbn [ip source]. subst source. cbn [ip]. rewrite ip_uint8_bytes by done. cbn [nth].
    subst local. unfold is_u8 in *. destruct (decide _) as [Hl|Hl]; repeat case_if; bool_to_prop; lia. }
  unfold handle_LANdiscovery. rewrite Hlan. cbn [length]. rewrite Hk.
  split; intros Hl; [by rewrite decide_True|by rewrite decide_False].
Qed.
End claims.

Section witness.
#[local] Existing Instance ToyBox.box.

(** Node 1 is heard by node 2 from 10.0.0.7. *)
Lemma LAN_discovery_found_witness :
wp (send_LANdiscovery 5 (pk 1)) (fun _ _ w' =>
  exists packet, w_out w' = [(mkIPP 7 5 0, packet)] /\
    handle_LANdiscovery (mkIPP (le_val [10; 0; 0; 7]) 9 0) packet (idle_dht (pk 2) (sk 2)) (still_world 0 0) =
    (DHT_bootstrap (mkIPP (le_val [10; 0; 0; 7]) 9 0) (pk 1) ;;; retM 0) (idle_dht (pk 2) (sk 2)) (still_world 0 0))
  (mkHost 1 [] ∅ [3] true (fun _ => true) (Some [lo_name; [101]]) (fun _ => Some 7)) (still_world 0 0).
Proof.
  pose proof (LAN_discovery_found 5 (pk 1)
    (mkHost 1 [] ∅ [3] true (fun _ => true) (Some [lo_name; [101]]) (fun _ => Some 7)) (still_world 0 0)
    eq_refl eq_refl) as (r & h' & w' & E & bc & packet & _ & Hout & Hnext)%wp_Some.
  apply wp_Some. exists r, h', w'. split; [exact E|]. exists packet. split.
  - vm_compute in E. injection E as <- <- <-. cbn in Hout. rewrite Hout. by injection Hout as <- <-.
  - apply (Hnext 10 0 0 7 9); try (split; reflexivity || discriminate). right. by left.
Defined.
End witness.
