(* ===== verification/Frame.v ===== *)
(** * What operations leave alone

    Only [receivepacket] takes datagrams off the socket; every other operation of the
    library leaves the datagrams that wait where they are.  This is what makes the loop of
    [networking_poll] end: [quiet] operations do not change [w_in]. *)

From S2P Require Import Prelude MiscTools Network LosslessUDP Crypto NetCrypto Ping DHTLists DHT FriendRequests LANDiscovery.
From stdpp Require Import gmap.
Local Open Scope Z_scope.
Local Open Scope tox_scope.

Definition quiet {S A} (m : M S A) : Prop :=
  forall s w a s' w', m s w = Some (a, s', w') -> w_in w' = w_in w.

Section quiet.
Context {S : Type}.

Lemma quiet_bind {A B} (m : M S A) (k : A -> M S B) :
  quiet m -> (forall a, quiet (k a)) -> quiet (bindM m k).
Proof.
  intros Hm Hk s w b s' w'. unfold bindM. destruct (m s w) as [[[a s1] w1]|] eqn:E; [|done].
  intros E2. rewrite (Hk _ _ _ _ _ _ E2). by eapply Hm.
Qed.

Lemma quiet_ret {A} (a : A) : quiet (S := S) (retM a).
Proof. by intros s w ? ? ? [= <- <- <-]. Qed.
Lemma quiet_ub {A} : quiet (S := S) (A := A) ubM.
Proof. done. Qed.
Lemma quiet_get : quiet (S := S) getM.
Proof. by intros s w ? ? ? [= <- <- <-]. Qed.
Lemma quiet_mod (f : S -> S) : quiet (modM f).
Proof. by intros s w ? ? ? [= <- <- <-]. Qed.
Lemma quiet_put (x : S) : quiet (putM x).
Proof. by intros s w ? ? ? [= <- <- <-]. Qed.
Lemma quiet_liftO {A} (o : option A) : quiet (S := S) (liftO o).
Proof. destruct o; [apply quiet_ret|apply quiet_ub]. Qed.
Lemma quiet_world {A} (f : World -> A * World) :
  (forall w, w_in (snd (f w)) = w_in w) -> quiet (S := S) (worldM f).
Proof. intros Hf s w a s' w'. unfold worldM. specialize (Hf w). destruct (f w). by intros [= <- <- <-]. Qed.
Lemma quiet_forM {X} (l : list X) (f : X -> M S unit) : (forall x, quiet (f x)) -> quiet (forM l f).
Proof. intros Hf. induction l; simpl; [apply quiet_ret|by apply quiet_bind]. Qed.
End quiet.

Lemma quiet_zoom {S T A} (get : S -> T) set (m : M T A) : quiet m -> quiet (zoom get set m).
Proof.
  intros Hm s w a s' w'. unfold zoom. destruct (m (get s) w) as [[[? ?] ?]|] eqn:E; [|done].
  intros [= <- <- <-]. by eapply Hm.
Qed.

Create HintDb quiet.
#[export] Hint Resolve quiet_ret quiet_ub quiet_get quiet_mod quiet_put quiet_liftO : quiet.

Ltac quiet_prim := apply quiet_world; intros ?; repeat case_match; simpl in *; by simplify_eq/=.

Lemma quiet_unix_time {S} : quiet (S := S) unix_time.
Proof. unfold unix_time. quiet_prim. Qed.
Lemma quiet_current_time {S} : quiet (S := S) current_time.
Proof. unfold current_time. quiet_prim. Qed.
Lemma quiet_random_int {S} : quiet (S := S) random_int.
Proof. unfold random_int. quiet_prim. Qed.
Lemma quiet_crand {S} : quiet (S := S) crand.
Proof. unfold crand. quiet_prim. Qed.
Lemma quiet_entropy {S} : quiet (S := S) entropy.
Proof. unfold entropy. quiet_prim. Qed.
Lemma quiet_junk_byte {S} : quiet (S := S) junk_byte.
Proof. unfold junk_byte. quiet_prim. Qed.
Lemma quiet_alloc_fails {S} : quiet (S := S) alloc_fails.
Proof. unfold alloc_fails. quiet_prim. Qed.
Lemma quiet_sendpacket {S} a p : quiet (S := S) (sendpacket a p).
Proof. unfold sendpacket. quiet_prim. Qed.

#[export] Hint Resolve quiet_unix_time quiet_current_time quiet_random_int quiet_crand quiet_entropy
  quiet_junk_byte quiet_alloc_fails quiet_sendpacket : quiet.

Ltac head_of t := lazymatch t with ?f _ => head_of f | _ => t end.

(** [quiet_steps] runs through an operation, unfolding the operations it calls; the
    recursive ones have lemmas. *)
Ltac quiet_steps :=
  repeat (intros; cbv beta iota zeta;
    lazymatch goal with
    | |- quiet (bindM _ _) => apply quiet_bind
    | |- quiet (zoom _ _ _) => apply quiet_zoom
    | |- quiet (forM _ _) => apply quiet_forM
    | |- quiet (if ?b then _ else _) => destruct b
    | |- quiet (match ?x with _ => _ end) => destruct x
    | |- quiet ?m => first [solve [auto with quiet nocore] | let h := head_of m in unfold h]
    end).

Lemma quiet_junk_bytes {S} n : quiet (S := S) (junk_bytes n).
Proof. induction n; cbn [junk_bytes]; quiet_steps. Qed.
Lemma quiet_random_words {S} n : quiet (S := S) (random_words n).
Proof. induction n; cbn [random_words]; quiet_steps. Qed.
#[export] Hint Resolve quiet_junk_bytes quiet_random_words : quiet.

(** ** The transport *)

Lemma quiet_handshake_loop idx source id : quiet (handshake_loop idx source id).
Proof. revert id. induction idx; intros id; cbn [handshake_loop]; quiet_steps. Qed.
Lemma quiet_over_read_words {S} n : quiet (S := S) (over_read_words n).
Proof. induction n; cbn [over_read_words]; quiet_steps. Qed.
#[export] Hint Resolve quiet_handshake_loop quiet_over_read_words : quiet.
Lemma quiet_req_copy idx number req dst : quiet (req_copy idx number req dst).
Proof. revert dst. induction idx; intros dst; cbn [req_copy]; quiet_steps. Qed.
#[export] Hint Resolve quiet_req_copy : quiet.

Lemma quiet_each_conn fuel i body : (forall k, quiet (body k)) -> quiet (each_conn fuel i body).
Proof. intros Hb. revert i. induction fuel; intros i; cbn [each_conn]; quiet_steps. Qed.
Lemma quiet_send_data_loop fuel i j t : quiet (send_data_loop fuel i j t).
Proof. revert j. induction fuel; intros j; cbn [send_data_loop]; quiet_steps. Qed.
#[export] Hint Resolve quiet_send_data_loop : quiet.

Lemma quiet_handle_handshake source packet : quiet (handle_handshake source packet).
Proof. quiet_steps. Qed.
Lemma quiet_handle_SYNC source packet : quiet (handle_SYNC source packet).
Proof. quiet_steps. Qed.
Lemma quiet_handle_data source packet : quiet (handle_data source packet).
Proof. quiet_steps. Qed.
Lemma quiet_do_lossless_udp : quiet do_lossless_udp.
Proof.
  unfold do_lossless_udp, do_new, do_SYNC, do_data, adjust_rates, for_each_conn.
  quiet_steps; apply quiet_each_conn; quiet_steps.
Qed.
#[export] Hint Resolve quiet_handle_handshake quiet_handle_SYNC quiet_handle_data quiet_do_lossless_udp : quiet.

(** ** The DHT *)

Section dht.
Context `{CryptoBox}.

Lemma quiet_timeouts_loop n i : quiet (timeouts_loop n i).
Proof. revert i. induction n; intros i; cbn [timeouts_loop]; quiet_steps. Qed.
#[local] Hint Resolve quiet_timeouts_loop : quiet.

Lemma quiet_junk_nodes n : quiet (junk_nodes n).
Proof. induction n; cbn [junk_nodes]; quiet_steps. Qed.
#[local] Hint Resolve quiet_junk_nodes : quiet.

Lemma quiet_ping_request ip_port client_id : quiet (ping_request ip_port client_id).
Proof. quiet_steps. Qed.
Lemma quiet_getnodes ip_port public_key client_id : quiet (getnodes ip_port public_key client_id).
Proof. quiet_steps. Qed.
#[local] Hint Resolve quiet_ping_request quiet_getnodes : quiet.

Lemma quiet_ping_clients t l : quiet (ping_clients t l).
Proof. induction l; cbn [ping_clients]; quiet_steps. Qed.
Lemma quiet_route_all t packet l : quiet (route_all t packet l).
Proof. induction l; cbn [route_all]; quiet_steps. Qed.
Lemma quiet_toping_loop l : quiet (toping_loop l).
Proof. induction l; cbn [toping_loop]; quiet_steps. Qed.
#[local] Hint Resolve quiet_ping_clients quiet_route_all quiet_toping_loop : quiet.

Lemma quiet_route_tofriend id packet : quiet (route_tofriend id packet).
Proof. quiet_steps. Qed.
Lemma quiet_routeone_tofriend id packet : quiet (routeone_tofriend id packet).
Proof. quiet_steps. Qed.
Lemma quiet_addto_lists ip_port client_id : quiet (addto_lists ip_port client_id).
Proof. quiet_steps. Qed.
Lemma quiet_returnedip_ports ip_port client_id nodeclient_id : quiet (returnedip_ports ip_port client_id nodeclient_id).
Proof. quiet_steps. Qed.
#[local] Hint Resolve quiet_route_tofriend quiet_routeone_tofriend quiet_addto_lists quiet_returnedip_ports : quiet.

Lemma quiet_handle_getnodes source packet : quiet (handle_getnodes source packet).
Proof. quiet_steps. Qed.
Lemma quiet_handle_sendnodes source packet : quiet (handle_sendnodes source packet).
Proof. quiet_steps. Qed.
Lemma quiet_handle_ping_request source packet : quiet (handle_ping_request source packet).
Proof. quiet_steps. Qed.
Lemma quiet_handle_ping_response source packet : quiet (handle_ping_response source packet).
Proof. quiet_steps. Qed.
Lemma quiet_handle_NATping source key packet : quiet (handle_NATping source key packet).
Proof. quiet_steps. Qed.
Lemma quiet_DHT_bootstrap ip_port key : quiet (DHT_bootstrap ip_port key).
Proof. quiet_steps. Qed.
#[local] Hint Resolve quiet_DHT_bootstrap : quiet.
Lemma quiet_handle_LANdiscovery source packet : quiet (handle_LANdiscovery source packet).
Proof. quiet_steps. Qed.
Lemma quiet_DHT_isconnected : quiet DHT_isconnected.
Proof. quiet_steps. Qed.
Lemma quiet_do_DHT : quiet do_DHT.
Proof. quiet_steps. Qed.
Lemma quiet_send_friendrequest key num data : quiet (send_friendrequest key num data).
Proof. quiet_steps. Qed.
Lemma quiet_DHT_getfriendip id : quiet (DHT_getfriendip id).
Proof. quiet_steps. Qed.

Lemma quiet_cryptopacket_handle {S} (get : S -> DHT) set call source packet :
  (forall cb src k d, quiet (call cb src k d)) -> quiet (cryptopacket_handle get set call source packet).
Proof. intros Hc. unfold cryptopacket_handle. quiet_steps. Qed.
End dht.

#[export] Hint Resolve quiet_handle_getnodes quiet_handle_sendnodes quiet_handle_ping_request
  quiet_handle_ping_response quiet_handle_NATping quiet_DHT_bootstrap quiet_handle_LANdiscovery
  quiet_DHT_isconnected quiet_do_DHT quiet_send_friendrequest quiet_DHT_getfriendip : quiet.

(** ** The loop of [networking_poll] *)

Lemma receivepacket_cases {S} (s : S) w :
  (receivepacket s w = Some (None, s, w) /\ w_in w = []) \/
  exists src data r, w_in w = (src, data) :: r /\
    let d := take (Z.to_nat MAX_UDP_PACKET_SIZE) data in
    receivepacket s w = Some (match d with [] => None | _ => Some (src, d) end, s, set_in r w).
Proof.
  unfold receivepacket, worldM. destruct (w_in w) as [|[src data] r]; [by left|]. right.
  exists src, data, r. split; [done|]. simpl. by destruct (take _ data).
Qed.

Section poll.
Context {S : Type} (handlers : S -> gmap Z packet_handler).
Context (dispatch : packet_handler -> IP_Port -> list Z -> M S unit).
Context (dispatch_quiet : forall cb src data, quiet (dispatch cb src data)).

(** Each turn takes a datagram: with one turn more than there are datagrams, more fuel
    changes nothing. *)
Lemma poll_fuel_irrelevant n k s w :
  (length (w_in w) < n)%nat ->
  poll_loop handlers dispatch (n + k) s w = poll_loop handlers dispatch n s w.
Proof.
  revert s w. induction n as [|n IH]; intros s w Hn; [lia|]. cbn [poll_loop Nat.add].
  destruct (receivepacket_cases s w) as [[E _]|(src & data & r & Hr & E)].
  { by rewrite !(bind_eval _ _ _ _ _ _ _ E). }
  rewrite !(bind_eval _ _ _ _ _ _ _ E). rewrite Hr in Hn. simpl in Hn.
  destruct (take _ data) as [|b d]; [done|].
  assert (Hlen : length (w_in (set_in r w)) = length r) by done.
  destruct (Z.of_nat (length (b :: d)) <? 1); [apply IH; lia|]. unfold bindM at 1 3, getM.
  destruct (handlers s !! nth 0 (b :: d) 0) as [cb|]; [|apply IH; lia].
  unfold bindM. destruct (dispatch cb src (b :: d) s (set_in r w)) as [[[u s'] w']|] eqn:Ed; [|done].
  apply IH. rewrite (dispatch_quiet _ _ _ _ _ _ _ _ Ed). lia.
Qed.

(** A handler that keeps an invariant for datagrams that satisfy [P] is enough for the
    loop to end and to keep it. *)
Lemma wp_networking_poll (I : S -> Prop) (P : IP_Port -> list Z -> Prop) s w :
  (forall cb src data s w, I s -> P src data ->
     handlers s !! nth 0 data 0 = Some cb -> wp (dispatch cb src data) (fun _ s' _ => I s') s w) ->
  I s -> Forall (fun p => P (fst p) (take (Z.to_nat MAX_UDP_PACKET_SIZE) (snd p))) (w_in w) ->
  wp (networking_poll handlers dispatch) (fun _ s' w' => I s' /\ exists l, w_in w = l ++ w_in w') s w.
Proof.
  intros Hd HI HP. unfold networking_poll. rewrite wp_bind. unfold wp at 1. unfold getW.
  assert (Hn : (length (w_in w) < Datatypes.S (length (w_in w)))%nat) by lia. revert Hn HP.
  generalize (Datatypes.S (length (w_in w))) as n. intros n. revert s w HI.
  induction n as [|n IH]; intros s w HI Hn HP; [lia|]. cbn [poll_loop]. rewrite wp_bind. unfold wp at 1.
  destruct (receivepacket_cases s w) as [[E El]|(src & data & r & Hr & E)]; rewrite E.
  { wp_step. split; [done|]. by exists []. }
  rewrite Hr in Hn, HP. simpl in Hn. apply Forall_cons in HP as [HP1 HP2]. simpl in HP1.
  assert (Hpost : forall s' w' (m : M S unit), (forall s2 w2, m s2 w2 = poll_loop handlers dispatch n s2 w2) ->
    I s' -> w_in w' = r -> wp m (fun _ s' w' => I s' /\ exists l, w_in w = l ++ w_in w') s' w').
  { intros s' w' m Hm HI' Hw'. unfold wp. rewrite Hm. eapply wp_mono; [apply IH; [done|rewrite Hw'; lia|by rewrite Hw']|].
    intros [] s2 w2 [HI2 [l Hl]]. split; [done|]. exists ((src, data) :: l). rewrite Hr, <- Hw', Hl. done. }
  destruct (take (Z.to_nat MAX_UDP_PACKET_SIZE) data) as [|b d] eqn:Et.
  { wp_step. split; [done|]. exists [(src, data)]. by rewrite Hr. }
  destruct (Z.of_nat (length (b :: d)) <? 1); [by apply Hpost|]. do 2 wp_step.
  destruct (handlers s !! nth 0 (b :: d) 0) as [cb|] eqn:Hcb; [|by apply Hpost]. wp_step.
  pose proof (Hd cb src (b :: d) s (set_in r w) HI HP1 Hcb) as Hw. unfold wp in Hw at 1.
  unfold wp at 1. destruct (dispatch cb src (b :: d) s (set_in r w)) as [[[u s'] w']|] eqn:Ed; [|done].
  apply Hpost; [done|done|]. by rewrite (dispatch_quiet _ _ _ _ _ _ _ _ Ed).
Qed.

Lemma wlp_networking_poll (I : S -> Prop) s w :
  (forall cb src data s w, I s ->
     handlers s !! nth 0 data 0 = Some cb -> wlp (dispatch cb src data) (fun _ s' _ => I s') s w) ->
  I s -> wlp (networking_poll handlers dispatch) (fun _ s' _ => I s') s w.
Proof.
  intros Hd HI. unfold networking_poll. rewrite wlp_bind. unfold wlp at 1. unfold getW.
  generalize (Datatypes.S (length (w_in w))) as n. intros n. revert s w HI.
  induction n as [|n IH]; intros s w HI; [done|]. cbn [poll_loop]. rewrite wlp_bind. unfold wlp at 1.
  destruct (receivepacket_cases s w) as [[E El]|(src & data & r & Hr & E)]; rewrite E; [done|].
  destruct (take (Z.to_nat MAX_UDP_PACKET_SIZE) data) as [|b d] eqn:Et; [done|].
  destruct (Z.of_nat (length (b :: d)) <? 1); [by apply IH|]. do 2 wlp_step.
  destruct (handlers s !! nth 0 (b :: d) 0) as [cb|] eqn:Hcb; [|by apply IH]. rewrite wlp_bind.
  eapply wlp_mono; [by apply Hd|]. intros [] s' w'. apply IH.
Qed.

(** *** What the loop means *)

(** The datagrams a poll looks at: those before the first empty one. *)
Fixpoint served (l : list (IP_Port * list Z)) : list (IP_Port * list Z) :=
match l with
| (src, b :: d) :: r => (src, b :: d) :: served r
| _ => []
end.

Definition popW : M S unit := fun s w => Some (tt, s, set_in (tail (w_in w)) w).

(** One datagram, cut at the size of the buffer, goes to the handler its first byte has
    in the table. *)
Definition serve (table : gmap Z packet_handler) (p : IP_Port * list Z) : M S unit :=
  popW ;;;
  let data := take (Z.to_nat MAX_UDP_PACKET_SIZE) (snd p) in
  match table !! nth 0 data 0 with
  | Some cb => dispatch cb (fst p) data
  | None => retM tt
  end.

Lemma forM_then {X} (f : X -> M S unit) x l (k : M S unit) s w :
  (forM (x :: l) f ;;; k) s w =
  match f x s w with Some (_, s', w') => (forM l f ;;; k) s' w' | None => None end.
Proof. unfold bindM. cbn [forM]. unfold bindM. by destruct (f x s w) as [[[??]?]|]. Qed.

Lemma poll_loop_serves (I : S -> Prop) table n s w :
  (forall s, I s -> handlers s = table) ->
  (forall cb src data s w, I s -> wlp (dispatch cb src data) (fun _ s' _ => I s') s w) ->
  I s -> (length (w_in w) < n)%nat ->
  poll_loop handlers dispatch n s w = (forM (served (w_in w)) (serve table) ;;; popW) s w.
Proof.
  intros Ht Hd. revert s w. induction n as [|n IH]; intros s w HI Hn; [lia|]. cbn [poll_loop].
  destruct (receivepacket_cases s w) as [[E El]|(src & data & r & Hr & E)]; rewrite (bind_eval _ _ _ _ _ _ _ E).
  { rewrite El. unfold bindM, popW, retM. cbn. rewrite El. by destruct w; simpl in *; subst. }
  rewrite Hr in *. simpl in Hn. destruct data as [|b d].
  { unfold bindM, popW, retM. cbn. by rewrite Hr. }
  assert (exists d', take (Z.to_nat MAX_UDP_PACKET_SIZE) (b :: d) = b :: d') as [d' Ed'].
  { destruct (Z.to_nat MAX_UDP_PACKET_SIZE) eqn:Em; [discriminate Em|]. by eexists. }
  rewrite Ed'. rewrite (proj2 (Z.ltb_ge _ _)) by (cbn [length]; lia).
  assert (Es : serve table (src, b :: d) s w =
    match table !! b with Some cb => dispatch cb src (b :: d') | None => retM tt end s (set_in r w)).
  { unfold serve, bindM, popW. cbn [fst snd]. rewrite Ed', Hr. done. }
  cbn [served]. rewrite forM_then, Es. unfold bindM at 1, getM. rewrite (Ht _ HI). cbn [nth].
  destruct (table !! b) as [cb|]; [|apply (IH s (set_in r w) HI); simpl; lia]. unfold bindM at 1.
  pose proof (Hd cb src (b :: d') s (set_in r w) HI) as HI'. unfold wlp in HI'.
  destruct (dispatch cb src (b :: d') s (set_in r w)) as [[[u s'] w']|] eqn:Ed; [|done].
  apply dispatch_quiet in Ed as Hw. simpl in Hw. rewrite <- Hw. apply IH; [done|rewrite Hw; lia].
Qed.
End poll.

(** ** Parts of the state that stay the same *)

(** [steady f m]: [m] does not change what [f] sees of the state. *)
Definition steady {S A B} (f : S -> B) (m : M S A) : Prop :=
  forall s w a s' w', m s w = Some (a, s', w') -> f s' = f s.

Section steady.
Context {S B : Type} (f : S -> B).

Lemma steady_bind {A C} (m : M S A) (k : A -> M S C) :
  steady f m -> (forall a, steady f (k a)) -> steady f (bindM m k).
Proof.
  intros Hm Hk s w b s' w'. unfold bindM. destruct (m s w) as [[[a s1] w1]|] eqn:E; [|done].
  intros E2. rewrite (Hk _ _ _ _ _ _ E2). by eapply Hm.
Qed.

Lemma steady_ret {A} (a : A) : steady f (retM a).
Proof. by intros s w ? ? ? [= <- <- <-]. Qed.
Lemma steady_ub {A} : steady f (A := A) ubM.
Proof. done. Qed.
Lemma steady_get : steady f getM.
Proof. by intros s w ? ? ? [= <- <- <-]. Qed.
Lemma steady_mod (g : S -> S) : (forall s, f (g s) = f s) -> steady f (modM g).
Proof. by intros Hg s w ? ? ? [= <- <- <-]. Qed.
Lemma steady_liftO {A} (o : option A) : steady f (liftO o).
Proof. destruct o; [apply steady_ret|apply steady_ub]. Qed.
Lemma steady_world {A} (g : World -> A * World) : steady f (worldM g).
Proof. intros s w a s' w'. unfold worldM. destruct (g w). by intros [= <- <- <-]. Qed.
Lemma steady_forM {X} (l : list X) (g : X -> M S unit) : (forall x, steady f (g x)) -> steady f (forM l g).
Proof. intros Hg. induction l; simpl; [apply steady_ret|by apply steady_bind]. Qed.

Lemma steady_zoom {T C A} (f' : T -> C) (get : S -> T) set (m : M T A) :
  steady f' m -> (forall s t, f' t = f' (get s) -> f (set t s) = f s) -> steady f (zoom get set m).
Proof.
  intros Hm Hf s w a s' w'. unfold zoom. destruct (m (get s) w) as [[[? ?] ?]|] eqn:E; [|done].
  intros [= <- <- <-]. apply Hf. by eapply Hm.
Qed.

(** A step of a weakest precondition may assume it. *)
Lemma wlp_steady {A} (m : M S A) Q s w :
  steady f m -> wlp m (fun a s' w' => f s' = f s -> Q a s' w') s w -> wlp m Q s w.
Proof.
  unfold wlp. intros Hm. destruct (m s w) as [[[a s'] w']|] eqn:E; [|done].
  intros HQ. apply HQ. by eapply Hm.
Qed.

Lemma wp_steady {A} (m : M S A) Q s w :
  steady f m -> wp m (fun a s' w' => f s' = f s -> Q a s' w') s w -> wp m Q s w.
Proof.
  unfold wp. intros Hm. destruct (m s w) as [[[a s'] w']|] eqn:E; [|done].
  intros HQ. apply HQ. by eapply Hm.
Qed.
End steady.

Create HintDb steady.
#[export] Hint Resolve steady_ret steady_ub steady_get steady_liftO steady_world : steady.

Ltac steady_steps :=
  repeat (intros; cbv beta iota zeta;
    lazymatch goal with
    | |- steady _ (bindM _ _) => apply steady_bind
    | |- steady _ (forM _ _) => apply steady_forM
    | |- steady _ (modM _) => apply steady_mod; done
    | |- steady _ (if ?b then _ else _) => destruct b
    | |- steady _ (match ?x with _ => _ end) => destruct x
    | |- steady _ ?m => first [solve [auto with steady nocore] | let h := head_of m in unfold h]
    end).

(** *** The transport keeps its socket and its table of handlers *)

Section ludp_net.

Lemma steady_junk_bytes {S B} (f : S -> B) n : steady f (junk_bytes n).
Proof. induction n; cbn [junk_bytes]; steady_steps. Qed.
#[local] Hint Resolve steady_junk_bytes : steady.
Lemma steady_over_read_words {S B} (f : S -> B) n : steady f (over_read_words n).
Proof. induction n; cbn [over_read_words]; steady_steps. Qed.
#[local] Hint Resolve steady_over_read_words : steady.
Lemma steady_handshake_loop idx source id : steady net (handshake_loop idx source id).
Proof. revert id. induction idx; intros id; cbn [handshake_loop]; steady_steps. Qed.
Lemma steady_req_copy idx number req dst : steady net (req_copy idx number req dst).
Proof. revert dst. induction idx; intros dst; cbn [req_copy]; steady_steps. Qed.
Lemma steady_send_data_loop fuel i j t : steady net (send_data_loop fuel i j t).
Proof. revert j. induction fuel; intros j; cbn [send_data_loop]; steady_steps. Qed.
#[local] Hint Resolve steady_handshake_loop steady_req_copy steady_send_data_loop : steady.
Lemma steady_each_conn fuel i body : (forall k, steady net (body k)) -> steady net (each_conn fuel i body).
Proof. intros Hb. revert i. induction fuel; intros i; cbn [each_conn]; steady_steps. Qed.

Lemma steady_handle_handshake source packet : steady net (handle_handshake source packet).
Proof. steady_steps. Qed.
Lemma steady_handle_SYNC source packet : steady net (handle_SYNC source packet).
Proof. steady_steps. Qed.
Lemma steady_handle_data source packet : steady net (handle_data source packet).
Proof. steady_steps. Qed.
Lemma steady_do_lossless_udp : steady net do_lossless_udp.
Proof.
  unfold do_lossless_udp, do_new, do_SYNC, do_data, adjust_rates, for_each_conn.
  steady_steps; apply steady_each_conn; steady_steps.
Qed.
Lemma steady_new_connection a : steady net (new_connection a).
Proof. steady_steps. Qed.
Lemma steady_incoming_connection : steady net incoming_connection.
Proof. steady_steps. Qed.
Lemma steady_kill_connection i : steady net (kill_connection i).
Proof. steady_steps. Qed.
Lemma steady_kill_connection_in i t : steady net (kill_connection_in i t).
Proof. steady_steps. Qed.
Lemma steady_read_packet i : steady net (read_packet i).
Proof. steady_steps. Qed.
Lemma steady_write_packet i data : steady net (write_packet i data).
Proof. steady_steps. Qed.
End ludp_net.

#[export] Hint Resolve steady_junk_bytes steady_handle_handshake steady_handle_SYNC steady_handle_data
  steady_do_lossless_udp steady_new_connection steady_incoming_connection steady_kill_connection
  steady_kill_connection_in steady_read_packet steady_write_packet : steady.
