(* ===== verification/NetCryptoInv.v ===== *)
(** * Typing of operations, and the invariant of [Net_Crypto]

    [typed I m Q]: from a state that satisfies [I], a run of [m] that is defined ends in one
    that satisfies [I], with a result that satisfies [Q].  The rules follow the structure of
    a program; [typed_steps] applies them with the lemmas of the hint database [typed]. *)

From S2P Require Import Prelude MiscTools Network LosslessUDP LosslessInv LosslessSafe Crypto NetCrypto CryptoThms Ping DHTLists DHT FriendRequests LANDiscovery Frame.
From stdpp Require Import gmap.
Local Open Scope Z_scope.
Local Open Scope tox_scope.

Definition typed {S A} (I : S -> Prop) (m : M S A) (Q : A -> Prop) : Prop :=
  forall s w, I s -> wlp m (fun a s' _ => I s' /\ Q a) s w.

Definition any {A} (_ : A) : Prop := True.

Section typed.
Context {S : Type} (I : S -> Prop).

Lemma typed_bind {A B} (m : M S A) (k : A -> M S B) (R : A -> Prop) (Q : B -> Prop) :
  typed I m R -> (forall a, R a -> typed I (k a) Q) -> typed I (bindM m k) Q.
Proof.
  intros Hm Hk s w Hs. rewrite wlp_bind. eapply wlp_mono; [by apply Hm|].
  intros a s' w' [Hs' Ha]. by apply Hk.
Qed.

Lemma typed_ret {A} (a : A) (Q : A -> Prop) : Q a -> typed I (retM a) Q.
Proof. intros Ha s w Hs. by split. Qed.
Lemma typed_ub {A} (Q : A -> Prop) : typed I ubM Q.
Proof. done. Qed.
Lemma typed_get : typed I getM I.
Proof. intros s w Hs. by split. Qed.
Lemma typed_mod (f : S -> S) : (forall s, I s -> I (f s)) -> typed I (modM f) any.
Proof. intros Hf s w Hs. split; [by apply Hf|done]. Qed.
Lemma typed_liftO {A} (o : option A) (Q : A -> Prop) : (forall a, o = Some a -> Q a) -> typed I (liftO o) Q.
Proof. intros Ho. destruct o; [apply typed_ret; by apply Ho|apply typed_ub]. Qed.

Lemma typed_weaken {A} (m : M S A) (Q R : A -> Prop) :
  typed I m Q -> (forall a, Q a -> R a) -> typed I m R.
Proof. intros Hm HQ s w Hs. eapply wlp_mono; [by apply Hm|]. naive_solver. Qed.

Lemma typed_any {A} (m : M S A) (Q : A -> Prop) : typed I m Q -> typed I m any.
Proof. intros Hm. by eapply typed_weaken. Qed.

Lemma typed_forM {X} (l : list X) (f : X -> M S unit) :
  (forall x, x ∈ l -> typed I (f x) any) -> typed I (forM l f) any.
Proof.
  induction l as [|x r IH]; intros Hf; simpl; [by apply typed_ret|].
  eapply typed_bind; [apply Hf; by left|]. intros _ _. apply IH. intros y Hy. apply Hf. by right.
Qed.

Lemma typed_wp {A} (m : M S A) (Q : A -> Prop) :
  (forall s w, I s -> wp m (fun a s' _ => I s' /\ Q a) s w) -> typed I m Q.
Proof. intros Hm s w Hs. by apply wp_wlp, Hm. Qed.

(** Operations that only read the world. *)
Lemma typed_read {A} (m : M S A) (Q : A -> Prop) :
  (forall s w (P : A -> S -> World -> Prop), (forall a w', Q a -> P a s w') -> wp m P s w) -> typed I m Q.
Proof. intros Hm. apply typed_wp. intros s w Hs. apply Hm. by split. Qed.
End typed.

Lemma typed_zoom {S T A} (I : S -> Prop) (I' : T -> Prop) (get : S -> T) set (m : M T A) (Q : A -> Prop) :
  typed I' m Q -> (forall s, I s -> I' (get s)) -> (forall s t, I s -> I' t -> I (set t s)) ->
  typed I (zoom get set m) Q.
Proof.
  intros Hm Hg Hs s w Hi. rewrite wlp_zoom. eapply wlp_mono; [apply Hm; by apply Hg|].
  intros a t w' [Ht Ha]. split; [by apply Hs|done].
Qed.

(** A part of the state that an operation does not change joins the invariant. *)
Lemma typed_steady {S A B} (I : S -> Prop) (f : S -> B) (b : B) (m : M S A) (Q : A -> Prop) :
  typed I m Q -> steady f m -> typed (fun s => I s /\ f s = b) m Q.
Proof.
  intros Hm Hf s w [Hs Hb]. eapply wlp_steady; [exact Hf|]. eapply wlp_mono; [by apply Hm|].
  intros a s' w' [Hs' Ha] Hfs. split; [split; [done|congruence]|done].
Qed.

Section readings.
Context {S : Type} (I : S -> Prop).

Lemma typed_current_time : typed I current_time is_u64.
Proof. apply typed_read. intros s w P HP. apply wp_current_time. auto. Qed.
Lemma typed_unix_time : typed I unix_time is_u64.
Proof. apply typed_read. intros s w P HP. apply wp_unix_time. auto. Qed.
Lemma typed_random_int : typed I random_int is_u32.
Proof. apply typed_read. intros s w P HP. apply wp_random_int. auto. Qed.
Lemma typed_crand : typed I crand (fun x => 0 <= x).
Proof. apply typed_read. intros s w P HP. apply wp_crand. intros. apply HP. lia. Qed.
Lemma typed_alloc_fails : typed I alloc_fails any.
Proof. apply typed_read. intros s w P HP. apply wp_alloc_fails. intros. by apply HP. Qed.
Lemma typed_entropy : typed I entropy any.
Proof. apply typed_read. intros s w P HP. apply wp_entropy. intros. by apply HP. Qed.
Lemma typed_sendpacket a p : typed I (sendpacket a p) any.
Proof. apply typed_read. intros s w P HP. apply wp_sendpacket. intros. by apply HP. Qed.
Lemma typed_junk_bytes n : typed I (junk_bytes n) (fun l => length l = n).
Proof. apply typed_read. intros s w P HP. apply wp_junk_bytes. intros. by apply HP. Qed.
Lemma typed_random_nonce : typed I random_nonce (fun l => length l = 24%nat).
Proof. apply typed_read. intros s w P HP. apply wp_random_nonce. intros. by apply HP. Qed.
End readings.

Create HintDb typed.
#[export] Hint Resolve typed_current_time typed_unix_time typed_random_int typed_crand typed_alloc_fails
  typed_entropy typed_sendpacket typed_junk_bytes typed_random_nonce typed_get typed_ub : typed.

(** [typed_steps] runs through a program; what is left are the facts about results and
    about the updates of the state. *)
Ltac typed_step :=
  lazymatch goal with
  | |- typed _ (bindM _ _) _ => eapply typed_bind; [|intros ? ?]
  | |- typed _ (retM _) _ => apply typed_ret; try exact Logic.I
  | |- typed _ ubM _ => apply typed_ub
  | |- typed _ getM _ => apply typed_get
  | |- typed _ (forM _ _) _ => apply typed_forM; intros ? ?
  | |- typed _ (if ?b then _ else _) _ => destruct b eqn:?
  | |- typed _ (match ?x with _ => _ end) _ => destruct x eqn:?
  | |- typed _ _ _ => first [solve [eauto with typed nocore] | solve [eapply typed_any; eauto with typed nocore]]
  end.
Ltac typed_steps := repeat (cbv beta iota zeta; typed_step).

(** ** The transport *)

Section ludp.
Context (n : Networking_Core).

(** A sound transport on the socket and the handlers of [n]. *)
Definition ludp_inv (l : Lossless_UDP) : Prop := ludp_wf l /\ net l = n.

Lemma typed_ludp_wp {A} (m : M Lossless_UDP A) :
  (forall l w (Q : A -> Lossless_UDP -> World -> Prop), ludp_wf l ->
     (forall a l' w', ludp_wf l' -> Q a l' w') -> wlp m Q l w) ->
  steady net m -> typed ludp_inv m any.
Proof.
  intros Hm Hs. apply typed_steady; [|done]. intros l w Hl. apply Hm; [done|]. by split.
Qed.

Lemma typed_new_connection a : typed ludp_inv (new_connection a) any.
Proof.
  apply typed_ludp_wp; [|auto with steady]. intros l w Q Hl HQ. apply wp_wlp, wp_new_connection; [done|].
  intros id l' w' [H _]. by apply HQ.
Qed.
Lemma typed_incoming_connection : typed ludp_inv incoming_connection any.
Proof.
  apply typed_ludp_wp; [|auto with steady]. intros l w Q Hl HQ.
  apply wp_wlp, wp_incoming_connection; [done|intros; by apply HQ..].
Qed.
Lemma typed_kill_connection i : typed ludp_inv (kill_connection i) any.
Proof.
  apply typed_ludp_wp; [|auto with steady]. intros l w Q Hl HQ.
  apply wp_wlp, wp_kill_connection; [done|intros; by apply HQ..].
Qed.
Lemma typed_kill_connection_in i t : typed ludp_inv (kill_connection_in i t) any.
Proof.
  apply typed_ludp_wp; [|auto with steady]. intros l w Q Hl HQ.
  apply wp_wlp, wp_kill_connection_in; [done|intros; by apply HQ].
Qed.
Lemma typed_read_packet i : typed ludp_inv (read_packet i) any.
Proof.
  apply typed_ludp_wp; [|auto with steady]. intros l w Q Hl HQ.
  apply wp_wlp, wp_read_packet; [done|intros; by apply HQ..].
Qed.
Lemma typed_write_packet i data : typed ludp_inv (write_packet i data) any.
Proof.
  apply typed_ludp_wp; [|auto with steady]. intros l w Q Hl HQ.
  apply wlp_write_packet; [done|intros; by apply HQ].
Qed.
Lemma typed_handle_handshake a p : typed ludp_inv (handle_handshake a p) any.
Proof.
  apply typed_ludp_wp; [|auto with steady]. intros l w Q Hl HQ.
  apply wp_wlp, wp_handle_handshake; [done|intros; by apply HQ].
Qed.
Lemma typed_handle_SYNC a p : typed ludp_inv (handle_SYNC a p) any.
Proof.
  apply typed_ludp_wp; [|auto with steady]. intros l w Q Hl HQ.
  apply wlp_handle_SYNC; [done|intros; by apply HQ].
Qed.
Lemma typed_handle_data a p : typed ludp_inv (handle_data a p) any.
Proof.
  apply typed_ludp_wp; [|auto with steady]. intros l w Q Hl HQ.
  apply wp_wlp, wp_handle_data; [done|intros; by apply HQ].
Qed.
Lemma typed_do_lossless_udp : typed ludp_inv do_lossless_udp any.
Proof.
  apply typed_ludp_wp; [|auto with steady]. intros l w Q Hl HQ. apply wlp_do_lossless_udp; [done|].
  intros; by apply HQ.
Qed.
End ludp.
#[export] Hint Resolve typed_new_connection typed_incoming_connection typed_kill_connection
  typed_kill_connection_in typed_read_packet typed_write_packet typed_handle_handshake typed_handle_SYNC
  typed_handle_data typed_do_lossless_udp : typed.

(** ** Encrypted connections *)

(** The arrays of a connection have the sizes the source declares; its status is one of
    the five; its number is a [uint16_t]. *)
Record cc_wf (cc : Crypto_Connection) : Prop := {
  cw_public : length (cc_public_key cc) = 32%nat;
  cw_recv : length (cc_recv_nonce cc) = 24%nat;
  cw_sent : length (cc_sent_nonce cc) = 24%nat;
  cw_spk : length (cc_sessionpublic_key cc) = 32%nat;
  cw_ssk : length (cc_sessionsecret_key cc) = 32%nat;
  cw_peer : length (cc_peersessionpublic_key cc) = 32%nat;
  cw_status : CONN_NO_CONNECTION <= cc_status cc <= CONN_TIMED_OUT;
  cw_number : is_u16 (cc_number cc)
}.

(** The state: the transport is sound and keeps the socket and handlers [n]; every
    connection is well formed; the keys and the list of incoming connections have their
    sizes; the handlers of requests are [ch]. *)
Record nc_wf (n : Networking_Core) (ch : gmap Z crypto_handler) (s : Net_Crypto) : Prop := {
  nw_ludp : ludp_inv n (lossless_udp s);
  nw_ccs : Forall cc_wf (crypto_connections s);
  nw_incoming : length (incoming_connections s) = MAX_INCOMING;
  nw_pk : length (self_public_key s) = 32%nat;
  nw_sk : length (self_secret_key s) = 32%nat;
  nw_handlers : cryptopackethandlers s = ch
}.

Lemma cc_zero_wf : cc_wf cc_zero.
Proof. by split; cbn; rewrite ?length_zeros. Qed.

(** [cc_solve]: an update of some fields keeps a connection well formed. *)
Ltac cc_solve :=
  cbv beta in *; destruct_and?;
  lazymatch goal with
  | H : cc_wf ?cc |- cc_wf _ => destruct H; split; cbn;
      rewrite ?length_increment_nonce, ?length_take, ?length_drop; csize; try done; try lia;
      unfold CONN_NO_CONNECTION, CONN_HANDSHAKE_SENT, CONN_NOT_CONFIRMED, CONN_ESTABLISHED, CONN_TIMED_OUT in *;
      try lia; try uarith
  | |- cc_wf cc_zero => apply cc_zero_wf
  end.
#[export] Hint Extern 1 (cc_wf _) => solve [cc_solve] : typed.

Section nc.
Context `{CryptoBoxLaws} (n : Networking_Core) (ch : gmap Z crypto_handler).

Definition nc_typed {A} (m : M Net_Crypto A) (Q : A -> Prop) : Prop := typed (nc_wf n ch) m Q.

Lemma typed_ludp {A} (m : M Lossless_UDP A) Q : typed (ludp_inv n) m Q -> typed (nc_wf n ch) (ludp m) Q.
Proof.
  intros Hm. eapply typed_zoom; [exact Hm|by intros s []|]. intros s l [] Hl. by split.
Qed.

Lemma set_ccs_wf s l : nc_wf n ch s -> Forall cc_wf l -> nc_wf n ch (set_crypto_connections l s).
Proof. intros [] Hl. by split. Qed.

Lemma typed_get_cc i : typed (nc_wf n ch) (get_cc i) cc_wf.
Proof.
  unfold get_cc. typed_steps. apply typed_liftO. intros cc Hcc. eapply Forall_lookup_1; [|exact Hcc].
  by destruct H1.
Qed.

Lemma typed_put_cc i cc : cc_wf cc -> typed (nc_wf n ch) (put_cc i cc) any.
Proof.
  intros Hcc. apply typed_mod. intros s Hs. apply set_ccs_wf; [done|].
  apply Forall_insert; [apply Hs|done].
Qed.

Lemma typed_put_slot i cc : cc_wf cc -> typed (nc_wf n ch) (put_slot i cc) any.
Proof.
  intros Hcc. apply typed_mod. intros s Hs. apply set_ccs_wf; [done|]. case_if.
  - apply Forall_app. split; [apply Hs|by constructor].
  - apply Forall_insert; [apply Hs|done].
Qed.

Lemma cc_free_slot_wf s : nc_wf n ch s -> cc_wf (snd (cc_free_slot s)).
Proof.
  intros Hs. unfold cc_free_slot. destruct (first_index _ _) as [i|]; [|apply cc_zero_wf]. cbn [snd].
  rewrite nth_lookup. destruct (crypto_connections s !! i) as [cc|] eqn:E; [|apply cc_zero_wf].
  eapply Forall_lookup_1; [apply (nw_ccs _ _ _ Hs)|exact E].
Qed.

Lemma typed_set_incoming i x : typed (nc_wf n ch) (set_incoming i x) any.
Proof.
  apply typed_mod. intros s []. split; try done. cbn. by rewrite length_insert.
Qed.

Lemma handle_cryptohandshake_lengths sk data k nonce session :
  handle_cryptohandshake sk data = Some (k, nonce, session) ->
  length k = 32%nat /\ length nonce = 24%nat /\ length session = 32%nat.
Proof.
  unfold handle_cryptohandshake. cbv zeta. csize.
  destruct (Nat.eqb_spec (length data) (1 + 32 + 24 + 24 + 32 + (32 - 16))) as [Hd|]; cbn [negb]; [|done].
  case_if; [done|]. destruct (decrypt_data _ _ _ _) as [temp|]; [|done].
  destruct (Nat.eqb_spec (length temp) (24 + 32)) as [Ht|]; cbn [negb]; [|done].
  intros E. apply (inj Some) in E. simplify_eq. rewrite length_take, length_drop.
  rewrite length_bytes_at by lia. lia.
Qed.

Lemma typed_keypair : typed (nc_wf n ch) keypair (fun k => length (fst k) = 32%nat /\ length (snd k) = 32%nat).
Proof. unfold keypair. typed_steps. apply keypair_length. Qed.
End nc.

#[export] Hint Resolve typed_ludp typed_get_cc typed_put_cc typed_put_slot typed_set_incoming typed_keypair : typed.

Section operations.
Context `{CryptoBoxLaws} (n : Networking_Core) (ch : gmap Z crypto_handler).
Let I : Net_Crypto -> Prop := nc_wf n ch.

Lemma typed_read_cryptpacket i : typed I (read_cryptpacket i) any.
Proof. unfold read_cryptpacket, I. typed_steps. Qed.

Lemma typed_write_cryptpacket i data : typed I (write_cryptpacket i data) any.
Proof. unfold write_cryptpacket, I. typed_steps. Qed.

Lemma typed_send_cryptohandshake i k nonce session : typed I (send_cryptohandshake i k nonce session) any.
Proof. unfold send_cryptohandshake, I. typed_steps. Qed.

Lemma typed_realloc_cryptoconnection k : typed I (realloc_cryptoconnection k) any.
Proof. unfold realloc_cryptoconnection, I. typed_steps. Qed.
#[local] Hint Resolve typed_read_cryptpacket typed_write_cryptpacket typed_send_cryptohandshake
  typed_realloc_cryptoconnection : typed.

Lemma typed_crypto_connect k a : (32 <= length k)%nat -> typed I (crypto_connect k a) any.
Proof.
  intros Hk. unfold crypto_connect, I. eapply typed_bind; [apply typed_get|]. intros s Hs. cbv zeta.
  eapply typed_bind; [instantiate (1 := any); typed_steps|]. intros same _.
  pose proof (cc_free_slot_wf n ch s Hs) as Hcc. destruct (cc_free_slot s) as [i cc0]. cbn [snd] in Hcc.
  typed_steps.
Qed.

Lemma typed_inbound_loop k i : typed I (inbound_loop k i) (fun r =>
  match r with
  | Some (_, k, nonce, session) => length k = 32%nat /\ length nonce = 24%nat /\ length session = 32%nat
  | None => True
  end).
Proof.
  unfold I. revert i. induction k as [|k IH]; intros i; cbn [inbound_loop]; [by apply typed_ret|].
  typed_steps. by eapply handle_cryptohandshake_lengths.
Qed.

Lemma typed_crypto_kill i : typed I (crypto_kill i) any.
Proof.
  unfold crypto_kill, I. typed_steps. apply typed_mod. intros s Hs. apply set_ccs_wf; [done|].
  apply Forall_take. match goal with H : nc_wf _ _ ?a |- Forall _ (crypto_connections ?a) => apply H end.
Qed.

Lemma typed_confirm_session i cc : cc_wf cc -> typed I (confirm_session i cc) any.
Proof. intros Hcc. unfold confirm_session, I. typed_steps. Qed.
#[local] Hint Resolve typed_confirm_session : typed.

Lemma typed_accept_crypto_inbound i k nonce session :
  length k = 32%nat -> length nonce = 24%nat -> length session = 32%nat ->
  typed I (accept_crypto_inbound i k nonce session) any.
Proof.
  intros Hk Hn Hse. unfold accept_crypto_inbound, I. typed_step; [typed_steps|].
  eapply typed_bind; [apply typed_get|]. intros s Hs.
  pose proof (cc_free_slot_wf n ch s Hs) as Hcc. destruct (cc_free_slot s) as [j cc0]. cbn [snd] in Hcc.
  typed_steps.
Qed.
#[local] Hint Resolve typed_crypto_kill typed_confirm_session : typed.

Lemma typed_new_keys : typed I new_keys any.
Proof.
  unfold new_keys, I. eapply typed_bind; [eauto with typed|]. intros k [H1 H2].
  apply typed_mod. intros s []. by split.
Qed.

Lemma typed_load_keys keys : (64 <= length keys)%nat -> typed I (load_keys keys) any.
Proof.
  intros Hk. apply typed_mod. intros s []. split; try done; cbn.
  - rewrite length_take. csize. lia.
  - unfold bytes_at. rewrite length_take, length_drop. csize. lia.
Qed.

Lemma typed_new_incoming id : typed I (new_incoming id) any.
Proof. unfold new_incoming, I. typed_steps. Qed.
#[local] Hint Resolve typed_new_incoming : typed.

Lemma typed_incomings_loop f : typed I (incomings_loop f) any.
Proof. unfold I. induction f; cbn [incomings_loop]; typed_steps. Qed.

Lemma typed_receive_handshake i : typed I (receive_handshake i) any.
Proof.
  unfold receive_handshake, I. typed_steps. apply typed_confirm_session.
  match goal with E : handle_cryptohandshake _ _ = _ |- _ => apply handle_cryptohandshake_lengths in E as (? & ? & ?) end.
  cc_solve.
Qed.

Lemma typed_receive_confirmation i : typed I (receive_confirmation i) any.
Proof.
  unfold receive_confirmation, I. eapply typed_bind; [eauto with typed|]. intros cc Hcc.
  typed_step; [typed_steps|]. eapply typed_bind; [apply typed_get|]. intros s Hs.
  eapply typed_bind; [instantiate (1 := any)|intros; typed_steps]. typed_steps.
Qed.
#[local] Hint Resolve typed_incomings_loop typed_receive_handshake typed_receive_confirmation : typed.

Lemma typed_receive_loop f i : typed I (receive_loop f i) any.
Proof. unfold I. revert i. induction f; intros i; cbn [receive_loop]; typed_steps. Qed.

Lemma typed_kill_all_loop f i : typed I (kill_all_loop f i) any.
Proof. unfold I. revert i. induction f; intros i; cbn [kill_all_loop]; typed_steps. Qed.
#[local] Hint Resolve typed_receive_loop typed_kill_all_loop : typed.

Lemma typed_kill_timedout_one i : typed I (kill_timedout_one i) any.
Proof.
  unfold kill_timedout_one, I. eapply typed_bind; [apply typed_get|]. intros s Hs.
  destruct (crypto_connections s !! i) as [cc|] eqn:E; [|typed_steps].
  assert (cc_wf cc) as Hcc by (eapply Forall_lookup_1; [apply Hs|exact E]).
  typed_steps.
Qed.
#[local] Hint Resolve typed_kill_timedout_one : typed.

Lemma typed_do_net_crypto : typed I do_net_crypto any.
Proof. unfold do_net_crypto, handle_incomings, receive_crypto, kill_timedout, I. typed_steps. Qed.

Lemma typed_kill_net_crypto : typed I kill_net_crypto any.
Proof.
  unfold kill_net_crypto, I. typed_steps. apply typed_mod. intros s [[[] ?]]. by split.
Qed.
End operations.

#[export] Hint Resolve typed_read_cryptpacket typed_write_cryptpacket typed_crypto_kill typed_new_keys
  typed_do_net_crypto typed_kill_net_crypto : typed.

(** ** Closing everything *)

Lemma length_ccs_without i l : (length (ccs_without i l) <= length l)%nat.
Proof. unfold ccs_without. cbv zeta. rewrite length_take, length_insert. lia. Qed.

(** The fuel of [kill_all_loop] is enough. *)
Lemma wp_kill_all_loop fuel i s w :
  ludp_wf (lossless_udp s) -> 0 <= i -> cc_length s - i <= Z.of_nat fuel ->
  wp (kill_all_loop fuel i) (fun _ s' _ => ludp_wf (lossless_udp s')) s w.
Proof.
  revert i s w. induction fuel as [|f IH]; intros i s w Hs Hi Hf; cbn [kill_all_loop]; do 2 wp_step; wp_step;
    try wp_step; try done; try lia.
  apply wp_crypto_kill; [done|intros _; apply IH; [done|lia..]|].
  intros cc l w' _ _ Hl. apply IH; [done|lia|]. unfold cc_length in *. cbn [crypto_connections set_crypto_connections].
  pose proof (length_ccs_without i (crypto_connections s)). lia.
Qed.

Lemma wp_kill_net_crypto s w :
  ludp_wf (lossless_udp s) -> wp kill_net_crypto (fun _ _ _ => True) s w.
Proof.
  intros Hs. unfold kill_net_crypto. do 2 wp_step. wp_step.
  eapply wp_mono; [apply wp_kill_all_loop; [done|lia|unfold cc_length; lia]|]. intros. by wp_step.
Qed.
