(* ===== verification/CryptoLoop.v ===== *)
(** * net_crypto.c: the main loop

    [do_net_crypto] runs the passes of the transport, takes over the connections that came
    in, advances the handshakes and drops what timed out.  Its loops run on fuel in the
    model; here it is shown that the fuel is enough and that no step leaves an array. *)

From S2P Require Import Prelude MiscTools Network LosslessUDP LosslessInv LosslessSafe LosslessThms Crypto NetCrypto CryptoThms Session Frame NetCryptoInv.
From stdpp Require Import gmap.
Local Open Scope Z_scope.
Local Open Scope tox_scope.

(** ** The clock *)

(** The readings of the clock to come are not within a second of overflow. *)
Definition clock_ok (w : World) : Prop := Forall (fun t => u64 t + 1000000 < 18446744073709551616) (w_us w).

(** Operations that only read the clock. *)
Definition ticks {S A} (m : M S A) : Prop := forall s w, clock_ok w -> wlp m (fun _ _ w' => clock_ok w') s w.

Section ticks.
Context {S : Type}.

Lemma ticks_bind {A B} (m : M S A) (k : A -> M S B) : ticks m -> (forall a, ticks (k a)) -> ticks (bindM m k).
Proof. intros Hm Hk s w Hw. rewrite wlp_bind. eapply wlp_mono; [by apply Hm|]. intros a s1 w1. apply Hk. Qed.
Lemma ticks_ret {A} (a : A) : ticks (S := S) (retM a).
Proof. by intros s w. Qed.
Lemma ticks_ub {A} : ticks (S := S) (A := A) ubM.
Proof. by intros s w. Qed.
Lemma ticks_get : ticks (S := S) getM.
Proof. by intros s w. Qed.
Lemma ticks_mod (f : S -> S) : ticks (modM f).
Proof. by intros s w. Qed.
Lemma ticks_liftO {A} (o : option A) : ticks (S := S) (liftO o).
Proof. destruct o; [apply ticks_ret|apply ticks_ub]. Qed.
Lemma ticks_world {A} (f : World -> A * World) :
  (forall w, clock_ok w -> clock_ok (snd (f w))) -> ticks (S := S) (worldM f).
Proof. intros Hf s w Hw. specialize (Hf w Hw). unfold wlp, worldM. by destruct (f w). Qed.
End ticks.

Lemma ticks_zoom {S T A} (get : S -> T) set (m : M T A) : ticks m -> ticks (zoom get set m).
Proof. intros Hm s w Hw. rewrite wlp_zoom. by apply Hm. Qed.

Create HintDb ticks.
#[export] Hint Resolve ticks_ret ticks_ub ticks_get ticks_mod ticks_liftO : ticks.

Ltac ticks_prim := apply ticks_world; intros ? ?; unfold clock_ok in *; repeat case_match; simpl in *; by simplify_eq/=.

Lemma ticks_current_time {S} : ticks (S := S) current_time.
Proof.
  apply ticks_world. intros w Hw. unfold clock_ok in *. destruct (w_us w) as [|t [|t' r]] eqn:E; simpl; rewrite ?E; try done.
  by inversion Hw.
Qed.
Lemma ticks_random_int {S} : ticks (S := S) random_int.
Proof. unfold random_int. ticks_prim. Qed.
Lemma ticks_junk_byte {S} : ticks (S := S) junk_byte.
Proof. unfold junk_byte. ticks_prim. Qed.
Lemma ticks_alloc_fails {S} : ticks (S := S) alloc_fails.
Proof. unfold alloc_fails. ticks_prim. Qed.
Lemma ticks_sendpacket {S} a p : ticks (S := S) (sendpacket a p).
Proof. unfold sendpacket. ticks_prim. Qed.
#[export] Hint Resolve ticks_current_time ticks_random_int ticks_junk_byte ticks_alloc_fails ticks_sendpacket : ticks.

Ltac ticks_steps :=
  repeat (intros; cbv beta iota zeta;
    lazymatch goal with
    | |- ticks (bindM _ _) => apply ticks_bind
    | |- ticks (zoom _ _ _) => apply ticks_zoom
    | |- ticks (if ?b then _ else _) => destruct b
    | |- ticks (match ?x with _ => _ end) => destruct x
    | |- ticks ?m => first [solve [auto with ticks nocore] | let h := head_of m in unfold h]
    end).

Lemma ticks_each_conn fuel i body : (forall k, ticks (body k)) -> ticks (each_conn fuel i body).
Proof. intros Hb. revert i. induction fuel; intros i; cbn [each_conn]; ticks_steps. Qed.

Lemma ticks_do_new : ticks do_new.
Proof. unfold do_new, for_each_conn. ticks_steps. apply ticks_each_conn. ticks_steps. Qed.
Lemma ticks_do_SYNC : ticks do_SYNC.
Proof. unfold do_SYNC, for_each_conn. ticks_steps. apply ticks_each_conn. ticks_steps. Qed.

(** ** The window *)

Definition win (c : Connection) : Prop := u32 (osent_packetnum c - recv_packetnum c) <= 15.

Lemma typed_win_get i : typed window_ok (get_conn i) win.
Proof.
  intros l w Hl. apply wlp_get_conn. intros c Hc. split; [done|]. by apply (window_ok_at _ _ _ Hl Hc).
Qed.
Lemma typed_win_put i c : win c -> typed window_ok (put_conn i c) any.
Proof. intros Hc l w Hl. apply wp_wlp. rewrite wp_put_conn. split; [by apply window_ok_upd|done]. Qed.
Lemma typed_win_change a : typed window_ok (change_handshake a) any.
Proof. unfold change_handshake. typed_steps. by apply typed_mod. Qed.
Lemma typed_win_free : typed window_ok free_connections any.
Proof.
  intros l w Hl. unfold free_connections. do 2 wlp_step. rewrite wlp_bind.
  eapply (wlp_mono _ (fun _ l' _ => l' = l)); [wlp_step; by wlp_step|]. intros oob l1 w1 ->.
  cbv zeta. wlp_step; [by wlp_step|]. do 3 wlp_step. split; [|done].
  unfold window_ok. cbn [connections set_connections].
  destruct (tox_array_pop_prefix x (connections l) (conn_count l - Z.of_nat (free_scan (ta_data (connections l)) oob (length (ta_data (connections l)))))) as [n Hn].
  rewrite Hn. by apply Forall_take.
Qed.

Lemma typed_win_kill i : typed window_ok (kill_connection i) any.
Proof.
  unfold kill_connection.
  eapply typed_bind; [apply typed_get|intros l Hl]. typed_step; [|typed_steps].
  eapply typed_bind; [apply typed_win_get|intros c Hc]. typed_step; [|typed_steps].
  eapply typed_bind; [by apply typed_win_put|intros _ _]. eapply typed_bind; [apply typed_win_change|intros _ _].
  eapply typed_bind; [by apply typed_win_put|intros _ _]. eapply typed_bind; [apply typed_win_free|intros _ _]. typed_steps.
Qed.

Lemma typed_win_do_new_conn t i : typed window_ok (do_new_conn t i) any.
Proof.
  unfold do_new_conn. eapply typed_bind; [apply typed_win_get|intros c Hc].
  eapply (typed_bind _ _ _ any).
  { destruct (status c =? 1); [|typed_steps].
    eapply (typed_bind _ _ _ any); [unfold interval; typed_steps|intros; typed_steps]. }
  intros due _. eapply (typed_bind _ _ _ any).
  { destruct due; [|typed_steps]. unfold send_handshake. typed_steps. by apply typed_win_put. }
  intros _ _. eapply typed_bind; [apply typed_win_get|intros c1 Hc1]. eapply (typed_bind _ _ _ any).
  { destruct (_ && _); [by apply typed_win_put|typed_steps]. }
  intros _ _. eapply typed_bind; [apply typed_win_get|intros c2 Hc2].
  destruct (_ && _); [|typed_steps]. eapply typed_bind; [apply typed_win_kill|intros _ _]. typed_steps.
Qed.

Lemma typed_win_do_new : typed window_ok do_new any.
Proof.
  unfold do_new, for_each_conn. eapply typed_bind; [apply typed_current_time|intros t _].
  eapply typed_bind; [apply typed_get|intros l _]. generalize (length (ta_data (connections l))), 0. intros fuel.
  induction fuel as [|n IH]; intros i; cbn [each_conn]; (eapply typed_bind; [apply typed_get|intros l1 _]);
    (destruct (i <? conn_count l1); [|by apply typed_ret]); [apply typed_ub|].
  eapply typed_bind; [apply typed_win_do_new_conn|intros _ _]. apply IH.
Qed.

(** *** The passes of the transport *)

Lemma wp_do_lossless_udp l w :
  ludp_wf l -> window_ok l -> clock_ok w -> wp do_lossless_udp (fun _ l' _ => ludp_wf l') l w.
Proof.
  intros Hwf Hwin Hw. unfold do_lossless_udp. wp_step.
  eapply wp_mono; [apply (wp_wlp_and _ (fun _ l' _ => ludp_wf l') (fun _ l' w' => window_ok l' /\ clock_ok w'))|].
  { by apply wp_do_new. }
  { pose proof (typed_win_do_new l w Hwin) as H1. pose proof (ticks_do_new l w Hw) as H2.
    unfold wlp in *. destruct (do_new l w) as [[[??]?]|]; naive_solver. }
  intros _ l1 w1 (Hwf1 & Hwin1 & Hw1). wp_step.
  eapply wp_mono; [apply (wp_wlp_and _ _ (fun _ _ w' => clock_ok w') _ _ (wp_do_SYNC l1 w1 Hwf1 Hwin1)); by apply ticks_do_SYNC|].
  intros _ l2 w2 ((Hwf2 & _) & Hw2). wp_step. apply wp_do_data; [done|done|]. intros l3 w3 Hwf3.
  by apply wp_adjust_rates.
Qed.

(** ** The connections that came in *)

(** Those not yet taken over. *)
Definition newcomers (l : list Connection) : nat := length (List.filter (fun c => inbound c =? 2) l).

Lemma newcomers_le l : (newcomers l <= length l)%nat.
Proof. unfold newcomers. induction l as [|c l IH]; simpl; [lia|]. case_if; simpl; lia. Qed.

Lemma newcomers_taken l k c :
  l !! k = Some c -> inbound c = 2 -> newcomers l = S (newcomers (<[k := set_inbound 1 c]> l)).
Proof.
  unfold newcomers. revert k. induction l as [|x l IH]; intros [|k] Hk Hc; simplify_eq/=.
  - by rewrite Hc.
  - case_if; simpl; erewrite IH by done; done.
Qed.

Section loops.
Context `{CryptoBox}.

Definition sound (s : Net_Crypto) : Prop := ludp_wf (lossless_udp s).

Lemma wp_incomings_loop fuel s w :
  sound s -> (newcomers (ta_data (connections (lossless_udp s))) < fuel)%nat ->
  wp (incomings_loop fuel) (fun _ s' _ => sound s') s w.
Proof.
  revert s w. induction fuel as [|f IH]; intros s w Hs Hf; [lia|]. cbn [incomings_loop]. wp_step. rewrite wp_ludp.
  apply wp_incoming_connection; [done|intros; wp_step; by destruct s|].
  intros i c w1 [Hi Hc]%conn_at_Some Hin Hl. rewrite (proj2 (Z.eqb_neq _ _)) by lia. wp_step.
  unfold new_incoming. do 2 wp_step. pose proof (newcomers_taken _ _ _ Hc Hin) as Hw.
  destruct (first_index _ _) as [j|]; [|wp_step; by wp_step].
  unfold set_incoming. do 3 wp_step. apply IH; [done|]. simpl in *. lia.
Qed.

Lemma wp_handle_incomings s w : sound s -> wp handle_incomings (fun _ s' _ => sound s') s w.
Proof. intros Hs. unfold handle_incomings. do 2 wp_step. apply wp_incomings_loop; [done|]. pose proof (newcomers_le (ta_data (connections (lossless_udp s)))). lia. Qed.

(** ** The handshakes *)

(** Writing on a connection whose transport exists. *)
Lemma wp_write_cryptpacket_safe i cc c data s w :
  sound s -> cc_at s i cc -> conn_at (lossless_udp s) (cc_number cc) c ->
  wp (write_cryptpacket i data) (fun _ s' _ => sound s' /\ length (crypto_connections s') = length (crypto_connections s)) s w.
Proof.
  intros Hs Hcc Hc. unfold write_cryptpacket. do 2 wp_step. rewrite (cc_at_valid _ _ _ Hcc). cbn [negb].
  wp_step; [by wp_step|]. wp_step. erewrite wp_get_cc by done. wp_step; [by wp_step|].
  destruct (encrypt_data_fast _ _ _) as [enc|]; [|by wp_step]. wp_step. rewrite wp_ludp.
  eapply wp_write_packet; [done|done|..].
  - intros _. cbn [Z.eqb]. wp_step. done.
  - intros _ _ Hl. cbn [Z.eqb]. wp_step. unfold put_cc. do 2 wp_step. cbn. by rewrite length_insert.
Qed.

Lemma id_packet_conn l i : id_packet l i <> -1 -> exists c, conn_at l i c.
Proof. unfold id_packet. destruct (valid_id l i) eqn:E; [intros _; by apply valid_id_conn|done]. Qed.

Lemma wp_confirm_session_safe i cc c s w :
  sound s -> 0 <= i < cc_length s -> conn_at (lossless_udp s) (cc_number cc) c ->
  wp (confirm_session i cc) (fun _ s' _ => sound s' /\ length (crypto_connections s') = length (crypto_connections s)) s w.
Proof.
  intros Hs Hi Hc. unfold confirm_session. wp_step. unfold put_cc at 1. do 2 wp_step.
  assert (Hlt : (Z.to_nat i < length (crypto_connections s))%nat) by (unfold cc_length in Hi; lia).
  eapply wp_mono; [eapply wp_write_cryptpacket_safe; [done|split; [lia|cbn; by apply list_lookup_insert_eq]|exact Hc]|].
  intros ? s1 w1 [Hs1 Hl]. cbn in Hl. rewrite length_insert in Hl. wp_step.
  destruct (lookup_lt_is_Some_2 (crypto_connections s1) (Z.to_nat i)) as [x Hx]; [lia|].
  erewrite wp_get_cc by (split; [lia|done]). unfold put_cc. wp_step. cbn. by rewrite length_insert.
Qed.

Lemma wp_receive_handshake_safe i s w :
  sound s -> 0 <= i < cc_length s ->
  wp (receive_handshake i) (fun stop s' _ => sound s' /\
    (stop = false -> length (crypto_connections s') = length (crypto_connections s))) s w.
Proof.
  intros Hs Hi. assert (exists cc, cc_at s i cc) as [cc Hcc].
  { apply cc_valid_at. unfold cc_valid. apply andb_true_iff. split; [apply Z.leb_le|apply Z.ltb_lt]; lia. }
  unfold receive_handshake. wp_step. erewrite wp_get_cc by done. wp_step; [by wp_step|].
  do 2 wp_step. wp_step.
  - wp_step. rewrite wp_ludp. destruct (id_packet_conn (lossless_udp s) (cc_number cc)) as [c Hc]; [lia|].
    assert (Hrest : forall l r w1, ludp_wf l -> (exists c, conn_at l (cc_number cc) c) ->
      wp (match handle_cryptohandshake (self_secret_key s) r with
          | Some (public_key, secret_nonce, session_key) =>
            if memcmp_eq crypto_box_PUBLICKEYBYTES public_key (cc_public_key cc)
            then confirm_session i (set_cc_peersessionpublic_key session_key
                   (set_cc_sent_nonce (increment_nonce secret_nonce) cc)) ;;; retM false
            else retM false
          | None => retM false
          end) (fun stop s' _ => sound s' /\ (stop = false -> length (crypto_connections s') = length (crypto_connections s)))
        (set_lossless_udp l s) w1).
    { intros l r w1 Hl [c1 Hc1]. destruct (handle_cryptohandshake _ _) as [[[key nonce] session]|]; [|by wp_step].
      wp_step; [|by wp_step]. wp_step.
      eapply wp_mono; [eapply (wp_confirm_session_safe i _ c1); [done|done|exact Hc1]|]. intros ? s2 w2 [? ?]. by wp_step. }
    apply wp_read_packet; [done|intros _|intros c1 Hc1 _ Hl]; (apply Hrest; [done|]); [by exists c|].
    eexists. by eapply conn_at_upd.
  - wp_step; [|by wp_step]. wp_step. apply wp_crypto_kill; [done|intros _|intros ? l w1 _ _ Hl]; by wp_step.
Qed.

Lemma wp_receive_confirmation_safe i s w :
  sound s -> 0 <= i < cc_length s ->
  wp (receive_confirmation i) (fun stop s' _ => sound s' /\
    (stop = false -> length (crypto_connections s') = length (crypto_connections s))) s w.
Proof.
  intros Hs Hi. assert (exists cc, cc_at s i cc) as [cc Hcc].
  { apply cc_valid_at. unfold cc_valid. apply andb_true_iff. split; [apply Z.leb_le|apply Z.ltb_lt]; lia. }
  unfold receive_confirmation. wp_step. erewrite wp_get_cc by done. wp_step; [by wp_step|].
  do 3 wp_step. eapply (wp_mono _ (fun _ s' _ => sound s')); [|intros; by wp_step].
  assert (Hkill : forall s1 w1, sound s1 -> wp (crypto_kill i ;;; retM tt) (fun _ s' _ => sound s') s1 w1).
  { intros s1 w1 Hs1. wp_step. apply wp_crypto_kill; [done|intros _|intros ? l w2 _ _ Hl]; by wp_step. }
  wp_step; [|wp_step; [by apply Hkill|by wp_step]]. wp_step. rewrite wp_ludp.
  assert (Hrest : forall l r w1, ludp_wf l ->
    wp (match decrypt_data (cc_peersessionpublic_key cc) (cc_sessionsecret_key cc) (cc_recv_nonce cc) (drop 1 r) with
        | Some data =>
          if bool_decide (data = zero_word) then
            put_cc i (set_cc_status CONN_ESTABLISHED (set_cc_shared_key (encrypt_precompute (cc_peersessionpublic_key cc)
              (cc_sessionsecret_key cc)) (set_cc_recv_nonce (increment_nonce (cc_recv_nonce cc)) cc))) ;;;
            ludp (kill_connection_in (cc_number cc) 3000000) ;;; retM tt
          else crypto_kill i ;;; retM tt
        | None => crypto_kill i ;;; retM tt
        end) (fun _ s' _ => sound s') (set_lossless_udp l s) w1).
  { intros l r w1 Hl. destruct (decrypt_data _ _ _ _) as [data|]; [|by apply Hkill].
    wp_step; [|by apply Hkill]. wp_step. unfold put_cc. do 2 wp_step. rewrite wp_ludp.
    apply wp_kill_connection_in; [done|]. intros. by wp_step. }
  apply wp_read_packet; [done|intros _|intros c1 Hc1 _ Hl]; by apply Hrest.
Qed.

Lemma wp_receive_loop fuel i s w :
  sound s -> 0 <= i -> cc_length s - i <= Z.of_nat fuel -> wp (receive_loop fuel i) (fun _ s' _ => sound s') s w.
Proof.
  revert i s w. induction fuel as [|f IH]; intros i s w Hs Hi Hf; cbn [receive_loop]; do 2 wp_step;
    (wp_step; [|by wp_step]); [lia|].
  wp_step. eapply wp_mono; [apply wp_receive_handshake_safe; [done|lia]|]. intros [] s1 w1 [Hs1 Hl1]; [by wp_step|].
  specialize (Hl1 eq_refl). wp_step.
  eapply wp_mono; [apply wp_receive_confirmation_safe; [done|unfold cc_length in *; lia]|].
  intros [] s2 w2 [Hs2 Hl2]; [by wp_step|]. specialize (Hl2 eq_refl). apply IH; [done|lia|unfold cc_length in *; lia].
Qed.

Lemma wp_kill_timedout s w : sound s -> wp kill_timedout (fun _ s' _ => sound s') s w.
Proof.
  intros Hs. unfold kill_timedout. do 2 wp_step. apply (wp_forM (fun s' _ => sound s')); [|done].
  intros i s1 w1 _ Hs1. unfold kill_timedout_one. do 2 wp_step.
  destruct (crypto_connections s1 !! i) as [cc|]; [|by wp_step].
  wp_step; [unfold put_cc; by wp_step|]. wp_step; [|by wp_step]. wp_step. rewrite wp_ludp. unfold put_cc.
  apply wp_kill_connection; [done|intros w2 _; by wp_step|intros c1 l1 l2 w2 _ _ _ _ Hl; by wp_step].
Qed.

(** ** Claim *)

(** C12: [do_net_crypto] always ends, and every access is inside of its array but one:
    closing a connection makes [free_connections] read the element behind the array of
    connections, whose value is taken to be arbitrary here, so that the theorem holds whatever
    that memory contains ([over_read]).  From a well-formed state in which no peer has announced more than 15 packets beyond what
    was received, and with a clock that is not about to overflow, one call runs to its
    end: the four passes of the transport (the loop that sends data at its rate among
    them), the loop that takes over new connections, the loop over the handshakes, which
    may close connections and thereby shorten the array it walks over, and the pass that
    drops what timed out; whatever the packets that arrived contain.  The state it ends
    in is well formed again. *)
Theorem do_net_crypto_total (n : Networking_Core) (ch : gmap Z crypto_handler) s w :
  nc_wf n ch s -> window_ok (lossless_udp s) -> clock_ok w ->
  wp do_net_crypto (fun _ s' _ => nc_wf n ch s') s w.
Proof.
  intros Hs Hwin Hw.
  eapply wp_mono; [apply (wp_wlp_and _ (fun _ s' _ => sound s') (fun _ s' _ => nc_wf n ch s'))|].
  - unfold do_net_crypto. wp_step. rewrite wp_ludp.
    eapply wp_mono; [apply wp_do_lossless_udp; [apply Hs|done..]|]. intros ? l1 w1 Hl1. wp_step.
    eapply wp_mono; [by apply wp_handle_incomings|]. intros ? s2 w2 Hs2. wp_step.
    unfold receive_crypto. do 2 wp_step.
    eapply wp_mono; [apply wp_receive_loop; [done|lia|unfold cc_length; lia]|]. intros ? s3 w3 Hs3.
    by apply wp_kill_timedout.
  - eapply wlp_mono; [by apply (typed_do_net_crypto n ch)|]. by intros ? s' w' [? _].
  - by intros ? s' w' [_ ?].
Qed.
End loops.

Section witnesses.
#[local] Existing Instance ToyBox.box.
#[local] Existing Instance ToyBox.laws.

(** A handshake is under way on an open transport. *)
Definition demo_handshaking : Net_Crypto := demo_nc demo_transport (set_cc_status CONN_HANDSHAKE_SENT demo_cc).

Lemma do_net_crypto_total_witness :
  wp do_net_crypto (fun _ s' _ => nc_wf net_zero ∅ s') demo_handshaking (still_world 0 100).
Proof.
  apply (do_net_crypto_total net_zero ∅ demo_handshaking (still_world 0 100)).
  - split; [|apply Forall_singleton; by split|done..].
    split; [apply demo_nc_wf, demo_transport_wf|done].
  - apply window_ok_dec. vm_compute. reflexivity.
  - by repeat constructor.
Defined.
End witnesses.
