(* ===== verification/Bootstrap.v ===== *)
(** * other/: the two bootstrap nodes

    DHT_bootstrap.c and bootstrap_serverdaemon/DHT_bootstrap_daemon.c run a DHT node
    without a messenger.  The state [Server] holds the node and the files; a program that
    calls [exit] returns [inl] of its exit code.  The operating system, the resolver and
    libconfig are not part of the program: their answers are arguments. *)

From S2P Require Import Prelude MiscTools Network Host Hex LosslessUDP Crypto NetCrypto Ping DHTLists DHT LANDiscovery.
From stdpp Require Import gmap.
Local Open Scope Z_scope.
Local Open Scope tox_scope.

(** ** State *)

(** Files by name; which can be opened for reading and for writing, and how many bytes
    can be written to each. *)
Record Files := mkFiles {
  fs_files : gmap (list Z) (list Z);
  fs_readable : list Z -> bool;
  fs_writable : list Z -> bool;
  fs_room : list Z -> nat
}.

Definition set_files (x : gmap (list Z) (list Z)) (f : Files) : Files :=
  mkFiles x (fs_readable f) (fs_writable f) (fs_room f).

Record Server := mkServer { sv_dht : DHT; sv_files : Files }.

Definition set_sv_dht (x : DHT) (s : Server) : Server := mkServer x (sv_files s).
Definition set_sv_files (x : Files) (s : Server) : Server := mkServer (sv_dht s) x.

Definition in_node {A} (m : M DHT A) : M Server A := zoom sv_dht set_sv_dht m.
Definition node_crypto {A} (m : M Net_Crypto A) : M Server A := in_node (in_nc m).
Definition sv_crypto (s : Server) : Net_Crypto := dht_c (sv_dht s).

(** [fopen(name, "r")] and the contents; [None] is NULL. *)
Definition fopen_r (f : Files) (name : list Z) : option (list Z) :=
  if fs_readable f name then fs_files f !! name else None.

(** [fopen(name, "w")] and [fwrite]: the number of bytes written; [None] when the file
    could not be opened, and NULL is passed to [fwrite]. *)
Definition fwrite_new (name data : list Z) : M Server (option nat) :=
  s <- getM ;;
  let f := sv_files s in
  if fs_writable f name then
    let n := Nat.min (length data) (fs_room f name) in
    putM (set_sv_files (set_files (<[name := take n data]> (fs_files f)) f) s) ;;;
    retM (Some n)
  else retM None.

Definition KEYS_SIZE : nat := crypto_box_PUBLICKEYBYTES + crypto_box_SECRETKEYBYTES.

Section bootstrap.
Context `{CryptoBox}.

(** ** The node *)

(** The handlers of requests: a node without a messenger has registered only
  [handle_NATping]. *)
Definition node_request (cb : crypto_handler) (source : IP_Port) (public_key data : list Z) : M DHT Z :=
match cb with
| handle_NATping_cb => handle_NATping source public_key data
| friendreq_handlepacket_cb => retM 1
end.

Definition node_dispatch (cb : packet_handler) (source : IP_Port) (packet : list Z) : M DHT unit :=
(match cb with
 | handle_ping_request_cb => handle_ping_request source packet
 | handle_ping_response_cb => handle_ping_response source packet
 | handle_getnodes_cb => handle_getnodes source packet
 | handle_sendnodes_cb => handle_sendnodes source packet
 | handle_handshake_cb => in_nc (ludp (handle_handshake source packet))
 | handle_SYNC_cb => in_nc (ludp (handle_SYNC source packet))
 | handle_data_cb => in_nc (ludp (handle_data source packet))
 | cryptopacket_handle_cb => cryptopacket_handle (fun d => d) (fun d _ => d) node_request source packet
 | handle_LANdiscovery_cb => handle_LANdiscovery source packet
 end) ;;; retM tt.

Definition node_handlers (d : DHT) : gmap Z packet_handler := packethandlers (net (lossless_udp (dht_c d))).

(** [do_DHT] and [networking_poll], the body of every loop of the two programs. *)
Definition node_turn : M DHT unit := do_DHT ;;; networking_poll node_handlers node_dispatch.

(** ** DHT_bootstrap.c *)

(** "key". *)
Definition key_name : list Z := [107; 101; 121].

Definition manage_keys : M Server (Z + unit) :=
s <- getM ;;
match fopen_r (sv_files s) key_name with
| Some content =>
  let keys := take KEYS_SIZE content in
  if negb (length keys =? KEYS_SIZE)%nat then retM (inl 1)
  else node_crypto (load_keys keys) ;;; retM (inr tt)
| None =>
  node_crypto new_keys ;;;
  s <- getM ;;
  n <- fwrite_new key_name (save_keys (sv_crypto s)) ;;
  match n with
  | None => ubM
  | Some n => retM (if (n =? KEYS_SIZE)%nat then inr tt else inl 1)
  end
end.

(** "PUBLIC_ID.txt" *)
Definition id_name : list Z := [80; 85; 66; 76; 73; 67; 95; 73; 68; 46; 116; 120; 116].

(** The node the programs start: NULL is passed on by each constructor, and used. *)
Definition new_node (port : Z) : M Host DHT :=
n <- new_networking 0 port ;;
match n with
| None => ubM
| Some n =>
  c <- new_net_crypto n ;;
  match c with
  | None => ubM
  | Some c =>
    d <- zoom (fun _ => tt) (fun _ h => h) (new_DHT c) ;;
    match d with
    | None => ubM
    | Some d => retM d
    end
  end
end.

(** The command line, when it names a node: the results of [inet_addr] and [atoi], and
  the memory at [argv[3]]. *)
Definition bootstrap_arg (arg : option (Z * Z * list Z)) : M Server unit :=
match arg with
| None => retM tt
| Some (addr, port, hex) =>
  bootstrap_key <- hex_string_to_bin hex ;;
  in_node (DHT_bootstrap (mkIPP addr (htons (u16 port)) 0) bootstrap_key)
end.

(** What [main] does before its loop; [inl] is the exit code.  The number printed on the
  screen is the text of the key. *)
Definition bootstrap_start (arg : option (Z * Z * list Z)) : M Server (Z + list Z) :=
r <- manage_keys ;;
match r with
| inl code => retM (inl code)
| inr _ =>
  s <- getM ;;
  let pk := self_public_key (sv_crypto s) in
  n <- fwrite_new id_name (print_key_file pk) ;;
  match n with
  | None => ubM
  | Some _ => bootstrap_arg arg ;;; retM (inr (print_key_screen pk))
  end
end.

(** One turn of the loop of [main]; the result is the new value of
  [is_waiting_for_dht_connection]. *)
Definition bootstrap_turn (waiting : bool) : M Server bool :=
c <- (if waiting then in_node DHT_isconnected else retM 0) ;;
in_node node_turn ;;;
retM (waiting && (c =? 0)).

(** ** The daemon *)

Record server_info := mkInfo { si_valid : bool; si_conn : IP_Port; si_bs_pk : list Z }.

Definition info_zero : server_info := mkInfo false ipp_zero (zeros 32).

Record server_conf := mkConf {
  sc_err : Z;
  sc_port : Z;
  sc_pid_file : list Z;
  sc_keys_file : list Z;
  sc_info : list server_info
}.

Definition set_err x c := mkConf x (sc_port c) (sc_pid_file c) (sc_keys_file c) (sc_info c).
Definition set_sc_info x c := mkConf (sc_err c) (sc_port c) (sc_pid_file c) (sc_keys_file c) x.

(** What libconfig finds in a file: an entry of the list of servers, and the file. *)
Record setting := mkSetting { st_ip : option (list Z); st_port : option Z; st_bs_pk : option (list Z) }.
Record config := mkConfig {
  cfg_port : option Z;
  cfg_pid_file : option (list Z);
  cfg_keys_file : option (list Z);
  cfg_bootstrap_servers : option (list setting)
}.

Definition DEFAULT_PORT : Z := 33445.
(** "bootstrap_server.pid" and "bootstrap_server.keys" *)
Definition DEFAULT_PID_FILE : list Z :=
  [98; 111; 111; 116; 115; 116; 114; 97; 112; 95; 115; 101; 114; 118; 101; 114; 46; 112; 105; 100].
Definition DEFAULT_KEYS_FILE : list Z :=
  [98; 111; 111; 116; 115; 116; 114; 97; 112; 95; 115; 101; 114; 118; 101; 114; 46; 107; 101; 121; 115].

(** [strcpy] to a buffer: the terminator must fit too. *)
Definition strcpy (buf src : list Z) : option (list Z) :=
  if (length buf <=? length src)%nat then None else Some (memcpy buf (src ++ [0]) (length src + 1)).

(** [getaddrinfo] for the name: [None] when the lookup fails, or the family and the
  address of the first record. *)
Section resolve.
Context (getaddrinfo : list Z -> option (Z * Z)).

Definition AF_INET : Z := 2.

Definition resolve_addr (address : list Z) : Z :=
match getaddrinfo address with
| None => 0
| Some (family, addr) => if negb (family =? AF_INET) then 0 else addr
end.

(** The buffers of the loop over the servers: [tmp_ip] and [tmp_pk], which keep what an
  earlier turn has left in them. *)
Definition buffers : Type := list Z * list Z.

(** One turn.  Entry [i] of [info] is written, whatever [i] is. *)
Definition conf_server (i : nat) (server : setting) (info : list server_info) (b : buffers)
  : option (list server_info * buffers) :=
match st_ip server, st_port server, st_bs_pk server with
| Some bs_ip, Some bs_port, Some bs_pk =>
  e ← info !! i;
  tmp_ip ← strcpy (fst b) bs_ip;
  s ← c_string tmp_ip 0;
  let addr := resolve_addr s in
  let valid := negb (addr =? 0) && (length bs_pk =? 64)%nat && negb (bs_port =? 0) in
  tmp_pk ← strcpy (snd b) bs_pk;
  key ← b16_to_key tmp_pk (si_bs_pk e);
  Some (<[i := mkInfo valid (mkIPP addr (htons (u16 bs_port)) (padding (si_conn e))) key]> info,
        (tmp_ip, tmp_pk))
| _, _, _ => Some (info, b)
end.

Fixpoint conf_servers (i : nat) (l : list setting) (info : list server_info) (b : buffers)
  : option (list server_info) :=
match l with
| [] => Some info
| s :: r => p ← conf_server i s info b; conf_servers (S i) r (fst p) (snd p)
end.

(** The last loop: [err] becomes -2 for every entry before the first valid one. *)
Definition conf_check (c : server_conf) : server_conf :=
match sc_info c with
| e :: _ => if si_valid e then c else set_err (-2) c
| [] => c
end.

(** [strcpy] of a name of the file, if there is one, over the default. *)
Definition conf_name (o : option (list Z)) (name : list Z) : option (list Z) :=
match o with
| None => Some name
| Some n => if (512 <=? length n)%nat then None else Some n
end.

(** [cfg] is [None] when the file could not be read.  [tmp_ip] has 30 bytes and [tmp_pk] 64,
  which do not hold a key of 64 digits and its terminator.  [None] is undefined behaviour. *)
Definition configure_server (junk_ip junk_pk : list Z) (cfg : option config) : option server_conf :=
let conf := mkConf 0 DEFAULT_PORT DEFAULT_PID_FILE DEFAULT_KEYS_FILE (replicate 32 info_zero) in
match cfg with
| None => Some (set_err (-1) conf)
| Some cfg =>
  pid_file ← conf_name (cfg_pid_file cfg) (sc_pid_file conf);
  keys_file ← conf_name (cfg_keys_file cfg) (sc_keys_file conf);
  let conf := mkConf 0 (default (sc_port conf) (cfg_port cfg)) pid_file keys_file (sc_info conf) in
  match cfg_bootstrap_servers cfg with
  | None => Some (set_err (-2) conf)
  | Some l =>
    info ← conf_servers 0 l (sc_info conf) (take 30 (junk_ip ++ zeros 30), take 64 (junk_pk ++ zeros 64));
    Some (conf_check (set_sc_info info conf))
  end
end.
End resolve.

(** [stat] succeeds if the file exists. *)
Definition daemon_manage_keys (keys_file : list Z) : M Server (Z + unit) :=
s <- getM ;;
match fs_files (sv_files s) !! keys_file with
| Some _ =>
  match fopen_r (sv_files s) keys_file with
  | None => ubM
  | Some content =>
    let keys := take KEYS_SIZE content in
    if negb (length keys =? KEYS_SIZE)%nat then retM (inl 1)
    else node_crypto (load_keys keys) ;;; retM (inr tt)
  end
| None =>
  node_crypto new_keys ;;;
  s <- getM ;;
  n <- fwrite_new keys_file (save_keys (sv_crypto s)) ;;
  match n with
  | None => ubM
  | Some n => retM (if (n =? KEYS_SIZE)%nat then inr tt else inl 1)
  end
end.

(** The second loop of [connect_to_servers], from [c]; [n] turns are left. *)
Fixpoint connect_loop (n : nat) (c : Z) : M DHT Z :=
match n with
| O => retM 0
| S k =>
  x <- DHT_isconnected ;;
  if negb (x =? 0) then retM 1
  else
    y <- DHT_isconnected ;;
    if (y =? 0) && (c =? 99) then retM (-1)
    else node_turn ;;; connect_loop k (c + 1)
end.

Definition connect_to_servers (info : list server_info) : M DHT Z :=
forM info (fun e => if si_valid e then DHT_bootstrap (si_conn e) (si_bs_pk e) else retM tt) ;;;
connect_loop 100 0.

(** How [main] of the daemon ends, short of its loop. *)
Inductive daemon_end :=
  | D_exit (code : Z)
  | D_parent (pid : Z)     (** the parent: the PID file is written *)
  | D_child.               (** the child, about to enter the loop *)

(** The digits of a number, for "%d". *)
Fixpoint digits (fuel : nat) (n : Z) : list Z :=
match fuel with
| O => []
| S f => (if n <? 10 then [] else digits f (n / 10)) ++ [48 + n mod 10]
end.

(** What the system answers to [fork], [setsid] and [chdir]; [errno] is its value before
  [manage_keys], which is restored after each call that could change it.  The PID file is
  opened (and emptied) first; its pointer is used in the parent only. *)
Definition daemon_main (conf : server_conf) (errno pid sid chdir : Z) : M Server daemon_end :=
pidf <- fwrite_new (sc_pid_file conf) [] ;;
r <- daemon_manage_keys (sc_keys_file conf) ;;
match r with
| inl code => retM (D_exit code)
| inr _ =>
  in_node (connect_to_servers (sc_info conf)) ;;;
  x <- in_node DHT_isconnected ;;
  if x =? 0 then retM (D_exit 1)
  else if negb (errno =? 0) then retM (D_exit 1)
  else if pid <? 0 then retM (D_exit 1)
  else if 0 <? pid then
    match pidf with
    | None => ubM
    | Some _ => fwrite_new (sc_pid_file conf) (digits 10 pid ++ [10]) ;;; retM (D_parent pid)
    end
  else if sid <? 0 then retM (D_exit 1)
  else if chdir <? 0 then retM (D_exit 1)
  else retM D_child
end.
End bootstrap.
