(* ===== verification/BootstrapThms.v ===== *)
(** * The bootstrap nodes: safety, keys, configuration *)

From S2P Require Import Prelude MiscTools Network Host Hex LosslessUDP LosslessInv LosslessSafe Crypto NetCrypto CryptoThms Ping DHTLists DHT DHTDistance DHTSafe DHTThms FriendRequests LANDiscovery Frame Bootstrap.
From stdpp Require Import gmap.
Local Open Scope Z_scope.
Local Open Scope tox_scope.

(** ** The node *)





Section node.
Context `{CryptoBox}.








(** ** The programs *)












(** ** Starting *)





















End node.

(** ** Keys *)

Section keys.
Context `{CryptoBoxLaws}.











End keys.

(** ** The configuration *)

Section config.
Context (getaddrinfo : list Z -> option (Z * Z)).

Lemma strcpy_length buf src buf' :
strcpy buf src = Some buf' -> (length src < length buf)%nat /\ length buf' = length buf.
Proof.
  unfold strcpy. destruct (Nat.leb_spec (length buf) (length src)); [done|]. intros [= <-]. split; [done|].
  unfold memcpy. rewrite !length_app, length_take, length_drop, length_app. simpl. lia.
Qed.

(** While the servers are read: the buffers keep their sizes and no server is valid. *)
Definition reading (info : list server_info) (b : buffers) : Prop :=
length info = 32%nat /\ Forall (fun e => si_valid e = false) info /\ length (snd b) = 64%nat.

Lemma conf_server_reading i s info b info' b' :
reading info b -> conf_server getaddrinfo i s info b = Some (info', b') ->
reading info' b' /\ (forall a p k, st_ip s = Some a -> st_port s = Some p -> st_bs_pk s = Some k -> (length k < 64)%nat).
Proof.
  intros (H1 & H2 & H3) E. unfold conf_server in E.
  destruct (st_ip s) as [ip|]; [|injection E as <- <-; split; done].
  destruct (st_port s) as [port|]; [|injection E as <- <-; split; done].
  destruct (st_bs_pk s) as [pk|]; [|injection E as <- <-; split; done].
  apply bind_Some in E as (e & He & E). apply bind_Some in E as (tmp_ip & _ & E). apply bind_Some in E as (a & _ & E).
  apply bind_Some in E as (tmp_pk & Hpk & E). apply bind_Some in E as (key & _ & E). injection E as <- <-.
  apply strcpy_length in Hpk as [Hl Hl']. rewrite H3 in Hl. split; [|intros ? ? ? _ _ [= <-]; done].
  split_and!; [by rewrite length_insert| |cbn; congruence]. apply Forall_insert; [done|]. cbn.
  rewrite (proj2 (Nat.eqb_neq _ _)) by lia. by rewrite andb_false_r.
Qed.

Lemma conf_servers_reading i l info b info' :
reading info b -> conf_servers getaddrinfo i l info b = Some info' ->
(exists b', reading info' b') /\
Forall (fun s => forall a p k, st_ip s = Some a -> st_port s = Some p -> st_bs_pk s = Some k -> (length k < 64)%nat) l.
Proof.
  revert i info b. induction l as [|s r IH]; intros i info b Hr E; cbn [conf_servers] in E.
  { injection E as <-. split; [by exists b|constructor]. }
  apply bind_Some in E as ([info1 b1] & E1 & E). apply conf_server_reading in E1 as [Hr1 Hs]; [|done].
  destruct (IH _ _ _ Hr1 E). split; [done|by constructor].
Qed.

Definition name_fits (o : option (list Z)) : Prop := forall n, o = Some n -> (length n < 512)%nat.

Lemma conf_name_ok o d : name_fits o -> conf_name o d = Some (default d o).
Proof.
  intros Ho. destruct o as [n|]; [|done]. unfold conf_name. by rewrite (proj2 (Nat.leb_gt _ _)) by (by apply Ho).
Qed.

(** An entry that lacks one of its three fields is passed over. *)
Definition incomplete (s : setting) : Prop := st_ip s = None \/ st_port s = None \/ st_bs_pk s = None.

Lemma conf_servers_incomplete i l info b :
Forall incomplete l -> conf_servers getaddrinfo i l info b = Some info.
Proof.
  intros Hl. revert i. induction Hl as [|s r Hs _ IH]; intros i; [done|]. cbn [conf_servers].
  assert (conf_server getaddrinfo i s info b = Some (info, b)) as ->.
  { unfold conf_server, incomplete in *. destruct (st_ip s), (st_port s), (st_bs_pk s); try done. by destruct Hs as [|[|]]. }
  apply IH.
Qed.

(** The daemon, given no server it could use, says so: the error is -1 if the file could not be
  read and -2 else, as the comment of the function has it; the port and the file names are
  those of the file, or the default ones; and no server is marked valid. *)
Definition conf_outcome (cfg : option config) (conf : server_conf) : Prop :=
sc_err conf = match cfg with None => -1 | Some _ => -2 end /\
sc_port conf = default DEFAULT_PORT (c ← cfg; cfg_port c) /\
sc_pid_file conf = default DEFAULT_PID_FILE (c ← cfg; cfg_pid_file c) /\
sc_keys_file conf = default DEFAULT_KEYS_FILE (c ← cfg; cfg_keys_file c) /\
Forall (fun e => si_valid e = false) (sc_info conf).

(** C37: what [configure_server] makes of any configuration file.  Whenever it returns, it
  reports an error and no valid server ([conf_outcome]).  It does return if the file
  cannot be read, or has file names of fewer than 512 characters and lists no server with all
  three fields.  And it never returns with a usable server: an entry with an address, a port
  and a key of 64 digits, the only length that would be valid, anywhere in the list, is
  undefined behaviour, since [tmp_pk] has no room for the 65th byte that [strcpy] writes. *)
Theorem configure_server_outcome ji jp cfg :
(forall conf, configure_server getaddrinfo ji jp cfg = Some conf -> conf_outcome cfg conf) /\
match cfg with
| None => is_Some (configure_server getaddrinfo ji jp cfg)
| Some c =>
  (name_fits (cfg_pid_file c) -> name_fits (cfg_keys_file c) ->
   (forall l, cfg_bootstrap_servers c = Some l -> Forall incomplete l) ->
   is_Some (configure_server getaddrinfo ji jp cfg)) /\
  (forall l s ip port key, cfg_bootstrap_servers c = Some l -> s ∈ l ->
   s = mkSetting (Some ip) (Some port) (Some key) -> length key = 64%nat ->
   configure_server getaddrinfo ji jp cfg = None)
end.
Proof.
  assert (H0 : reading (replicate 32 info_zero) (take 30 (ji ++ zeros 30), take 64 (jp ++ zeros 64))).
  { split_and!; [done|by apply (Forall_replicate _ 32)|]. cbn [snd]. rewrite length_take, length_app, length_zeros. lia. }
  unfold configure_server. destruct cfg as [c|]; cbn [sc_pid_file sc_keys_file sc_port sc_info].
  2: { split; [|by eexists]. intros conf [= <-]. split_and!; try done. by apply (Forall_replicate _ 32). }
  split_and!.
  - intros conf E. apply bind_Some in E as (pf & Ep & E). apply bind_Some in E as (kf & Ek & E).
    assert (En : forall o d n, conf_name o d = Some n -> n = default d o).
    { intros [n|] d n' En; unfold conf_name in En; [|by injection En]. by case_match; simplify_eq. }
    apply En in Ep as ->, Ek as ->. destruct (cfg_bootstrap_servers c) as [l|].
    + apply bind_Some in E as (info & Ei & E). destruct (conf_servers_reading _ _ _ _ _ H0 Ei) as [[b (L1 & L2 & _)] _].
      injection E as <-. unfold conf_check. cbn [sc_info set_sc_info]. destruct info as [|e r]; [done|].
      pose proof L2 as L3. apply Forall_cons in L3 as [-> _]. by split_and!.
    + injection E as <-. split_and!; try done. by apply (Forall_replicate _ 32).
  - intros Hp Hk Hl. rewrite !conf_name_ok by done. cbn [mbind option_bind].
    destruct (cfg_bootstrap_servers c) as [l|]; [|by eexists].
    rewrite conf_servers_incomplete by (by apply Hl). by eexists.
  - intros l s ip port key El Hs Es Hkey. rewrite El.
    destruct (conf_name (cfg_pid_file c) _) as [pf|]; [|done]. destruct (conf_name (cfg_keys_file c) _) as [kf|]; [|done].
    cbn [mbind option_bind]. destruct (conf_servers _ _ _ _ _) as [info|] eqn:Ei; [|done].
    destruct (conf_servers_reading _ _ _ _ _ H0 Ei) as [_ Hall]. rewrite Forall_forall in Hall.
    specialize (Hall s Hs ip port key). subst s. specialize (Hall eq_refl eq_refl eq_refl). lia.
Qed.
End config.

(** ** PUBLIC_ID.txt *)

(** The file leaves out the leading zero of a byte, so that it does not determine the key. *)
Lemma public_id_ambiguous :
exists k1 k2, k1 <> k2 /\ length k1 = 32%nat /\ length k2 = 32%nat /\ bytes_ok k1 /\ bytes_ok k2 /\
  print_key_file k1 = print_key_file k2 /\ print_key_screen k1 <> print_key_screen k2.
Proof.
  exists ([1; 16] ++ replicate 30 7), ([17; 0] ++ replicate 30 7).
  split_and!; [done|done|done|repeat (constructor; [uarith|]); constructor..|reflexivity|done].
Qed.

(** ** Witnesses *)

Section witnesses.
#[local] Existing Instance ToyBox.box.
#[local] Existing Instance ToyBox.laws.






(** A file without servers, and one with the key of a node. *)
Lemma configure_server_outcome_witness :
(exists conf, configure_server (fun _ => Some (2, 16777343)) [] [] (Some (mkConfig (Some 1000) None None (Some []))) = Some conf /\
   sc_err conf = -2 /\ sc_port conf = 1000) /\
configure_server (fun _ => Some (2, 16777343)) [] [] (Some (mkConfig (Some 1000) None None
    (Some [mkSetting (Some [108; 104]) (Some 33445) (Some (print_key (replicate 32 171)))]))) = None.
Proof.
  split.
  - destruct (configure_server_outcome (fun _ => Some (2, 16777343)) [] [] (Some (mkConfig (Some 1000) None None (Some []))))
      as [H1 [[conf E] _]].
    + done.
    + done.
    + intros l [= <-]. constructor.
    + exists conf. destruct (H1 conf E) as (E1 & E2 & _). split_and!; [exact E|exact E1|exact E2].
  - eapply (proj2 (proj2 (configure_server_outcome (fun _ => Some (2, 16777343)) [] [] (Some (mkConfig (Some 1000) None None
      (Some [mkSetting (Some [108; 104]) (Some 33445) (Some (print_key (replicate 32 171)))]))))));
      [reflexivity|apply list_elem_of_here|reflexivity|reflexivity].
Defined.
End witnesses.
