(* ===== verification/Messenger.v ===== *)
(** * Messenger.c: friends, messages, the main loop

    The state [Messenger] holds the DHT node (and through it the encrypted
    connections and the socket), the friend requests and the friend list; one
    definition per function.  The client's callbacks are not part of the program: a
    call of one is recorded in [m_events], and they are taken not to call back into
    the library. *)

From S2P Require Import Prelude MiscTools Network Host LosslessUDP Crypto NetCrypto Ping DHTLists DHT FriendRequests LANDiscovery.
From stdpp Require Import gmap.
Local Open Scope Z_scope.
Local Open Scope tox_scope.

Definition MAX_NAME_LENGTH : nat := 128.
Definition MAX_STATUSMESSAGE_LENGTH : nat := 128.
Definition FRIEND_ADDRESS_SIZE : nat := crypto_box_PUBLICKEYBYTES + 4 + 2.
Definition PACKET_ID_PING : Z := 0.
Definition PACKET_ID_NICKNAME : Z := 48.
Definition PACKET_ID_STATUSMESSAGE : Z := 49.
Definition PACKET_ID_USERSTATUS : Z := 50.
Definition PACKET_ID_RECEIPT : Z := 65.
Definition PACKET_ID_MESSAGE : Z := 64.
Definition PACKET_ID_ACTION : Z := 63.
Definition NOFRIEND : Z := 0.
Definition FRIEND_ADDED : Z := 1.
Definition FRIEND_REQUESTED : Z := 2.
Definition FRIEND_CONFIRMED : Z := 3.
Definition FRIEND_ONLINE : Z := 4.
Definition FAERR_TOOLONG : Z := -1.
Definition FAERR_NOMESSAGE : Z := -2.
Definition FAERR_OWNKEY : Z := -3.
Definition FAERR_ALREADYSENT : Z := -4.
Definition FAERR_UNKNOWN : Z := -5.
Definition FAERR_BADCHECKSUM : Z := -6.
Definition FAERR_SETNEWNOSPAM : Z := -7.
Definition FAERR_NOMEM : Z := -8.
Definition FRIENDREQUEST_TIMEOUT : Z := 5.
Definition FRIEND_PING_INTERVAL : Z := 5.
Definition FRIEND_CONNECTION_TIMEOUT : Z := FRIEND_PING_INTERVAL * 2.
Definition USERSTATUS_NONE : Z := 0.
Definition USERSTATUS_AWAY : Z := 1.
Definition USERSTATUS_BUSY : Z := 2.
Definition USERSTATUS_INVALID : Z := 3.
Definition LAN_DISCOVERY_INTERVAL : Z := 60.
Definition PORT : Z := 33445.

(** ** State *)

Record Friend := mkFriend {
  f_client_id : list Z;
  f_crypt_connection_id : Z;
  f_friendrequest_lastsent : Z;
  f_friendrequest_timeout : Z;
  f_status : Z;
  f_info : list Z;
  f_name : list Z;
  f_name_sent : Z;
  f_statusmessage : list Z;
  f_statusmessage_length : Z;
  f_statusmessage_sent : Z;
  f_userstatus : Z;
  f_userstatus_sent : Z;
  f_info_size : Z;
  f_message_id : Z;
  f_receives_read_receipts : Z;
  f_friendrequest_nospam : Z;
  f_ping_lastrecv : Z;
  f_ping_lastsent : Z
}.

Definition set_f_client_id (x : list Z) (c : Friend) : Friend :=
  mkFriend x (f_crypt_connection_id c) (f_friendrequest_lastsent c) (f_friendrequest_timeout c)
    (f_status c) (f_info c) (f_name c) (f_name_sent c) (f_statusmessage c) (f_statusmessage_length
    c) (f_statusmessage_sent c) (f_userstatus c) (f_userstatus_sent c) (f_info_size c)
    (f_message_id c) (f_receives_read_receipts c) (f_friendrequest_nospam c) (f_ping_lastrecv c)
    (f_ping_lastsent c).
Definition set_f_crypt_connection_id (x : Z) (c : Friend) : Friend :=
  mkFriend (f_client_id c) x (f_friendrequest_lastsent c) (f_friendrequest_timeout c) (f_status c)
    (f_info c) (f_name c) (f_name_sent c) (f_statusmessage c) (f_statusmessage_length c)
    (f_statusmessage_sent c) (f_userstatus c) (f_userstatus_sent c) (f_info_size c) (f_message_id
    c) (f_receives_read_receipts c) (f_friendrequest_nospam c) (f_ping_lastrecv c)
    (f_ping_lastsent c).
Definition set_f_friendrequest_lastsent (x : Z) (c : Friend) : Friend :=
  mkFriend (f_client_id c) (f_crypt_connection_id c) x (f_friendrequest_timeout c) (f_status c)
    (f_info c) (f_name c) (f_name_sent c) (f_statusmessage c) (f_statusmessage_length c)
    (f_statusmessage_sent c) (f_userstatus c) (f_userstatus_sent c) (f_info_size c) (f_message_id
    c) (f_receives_read_receipts c) (f_friendrequest_nospam c) (f_ping_lastrecv c)
    (f_ping_lastsent c).
Definition set_f_friendrequest_timeout (x : Z) (c : Friend) : Friend :=
  mkFriend (f_client_id c) (f_crypt_connection_id c) (f_friendrequest_lastsent c) x (f_status c)
    (f_info c) (f_name c) (f_name_sent c) (f_statusmessage c) (f_statusmessage_length c)
    (f_statusmessage_sent c) (f_userstatus c) (f_userstatus_sent c) (f_info_size c) (f_message_id
    c) (f_receives_read_receipts c) (f_friendrequest_nospam c) (f_ping_lastrecv c)
    (f_ping_lastsent c).
Definition set_f_status (x : Z) (c : Friend) : Friend :=
  mkFriend (f_client_id c) (f_crypt_connection_id c) (f_friendrequest_lastsent c)
    (f_friendrequest_timeout c) x (f_info c) (f_name c) (f_name_sent c) (f_statusmessage c)
    (f_statusmessage_length c) (f_statusmessage_sent c) (f_userstatus c) (f_userstatus_sent c)
    (f_info_size c) (f_message_id c) (f_receives_read_receipts c) (f_friendrequest_nospam c)
    (f_ping_lastrecv c) (f_ping_lastsent c).
Definition set_f_info (x : list Z) (c : Friend) : Friend :=
  mkFriend (f_client_id c) (f_crypt_connection_id c) (f_friendrequest_lastsent c)
    (f_friendrequest_timeout c) (f_status c) x (f_name c) (f_name_sent c) (f_statusmessage c)
    (f_statusmessage_length c) (f_statusmessage_sent c) (f_userstatus c) (f_userstatus_sent c)
    (f_info_size c) (f_message_id c) (f_receives_read_receipts c) (f_friendrequest_nospam c)
    (f_ping_lastrecv c) (f_ping_lastsent c).
Definition set_f_name (x : list Z) (c : Friend) : Friend :=
  mkFriend (f_client_id c) (f_crypt_connection_id c) (f_friendrequest_lastsent c)
    (f_friendrequest_timeout c) (f_status c) (f_info c) x (f_name_sent c) (f_statusmessage c)
    (f_statusmessage_length c) (f_statusmessage_sent c) (f_userstatus c) (f_userstatus_sent c)
    (f_info_size c) (f_message_id c) (f_receives_read_receipts c) (f_friendrequest_nospam c)
    (f_ping_lastrecv c) (f_ping_lastsent c).
Definition set_f_name_sent (x : Z) (c : Friend) : Friend :=
  mkFriend (f_client_id c) (f_crypt_connection_id c) (f_friendrequest_lastsent c)
    (f_friendrequest_timeout c) (f_status c) (f_info c) (f_name c) x (f_statusmessage c)
    (f_statusmessage_length c) (f_statusmessage_sent c) (f_userstatus c) (f_userstatus_sent c)
    (f_info_size c) (f_message_id c) (f_receives_read_receipts c) (f_friendrequest_nospam c)
    (f_ping_lastrecv c) (f_ping_lastsent c).
Definition set_f_statusmessage (x : list Z) (c : Friend) : Friend :=
  mkFriend (f_client_id c) (f_crypt_connection_id c) (f_friendrequest_lastsent c)
    (f_friendrequest_timeout c) (f_status c) (f_info c) (f_name c) (f_name_sent c) x
    (f_statusmessage_length c) (f_statusmessage_sent c) (f_userstatus c) (f_userstatus_sent c)
    (f_info_size c) (f_message_id c) (f_receives_read_receipts c) (f_friendrequest_nospam c)
    (f_ping_lastrecv c) (f_ping_lastsent c).
Definition set_f_statusmessage_length (x : Z) (c : Friend) : Friend :=
  mkFriend (f_client_id c) (f_crypt_connection_id c) (f_friendrequest_lastsent c)
    (f_friendrequest_timeout c) (f_status c) (f_info c) (f_name c) (f_name_sent c)
    (f_statusmessage c) x (f_statusmessage_sent c) (f_userstatus c) (f_userstatus_sent c)
    (f_info_size c) (f_message_id c) (f_receives_read_receipts c) (f_friendrequest_nospam c)
    (f_ping_lastrecv c) (f_ping_lastsent c).
Definition set_f_statusmessage_sent (x : Z) (c : Friend) : Friend :=
  mkFriend (f_client_id c) (f_crypt_connection_id c) (f_friendrequest_lastsent c)
    (f_friendrequest_timeout c) (f_status c) (f_info c) (f_name c) (f_name_sent c)
    (f_statusmessage c) (f_statusmessage_length c) x (f_userstatus c) (f_userstatus_sent c)
    (f_info_size c) (f_message_id c) (f_receives_read_receipts c) (f_friendrequest_nospam c)
    (f_ping_lastrecv c) (f_ping_lastsent c).
Definition set_f_userstatus (x : Z) (c : Friend) : Friend :=
  mkFriend (f_client_id c) (f_crypt_connection_id c) (f_friendrequest_lastsent c)
    (f_friendrequest_timeout c) (f_status c) (f_info c) (f_name c) (f_name_sent c)
    (f_statusmessage c) (f_statusmessage_length c) (f_statusmessage_sent c) x (f_userstatus_sent
    c) (f_info_size c) (f_message_id c) (f_receives_read_receipts c) (f_friendrequest_nospam c)
    (f_ping_lastrecv c) (f_ping_lastsent c).
Definition set_f_userstatus_sent (x : Z) (c : Friend) : Friend :=
  mkFriend (f_client_id c) (f_crypt_connection_id c) (f_friendrequest_lastsent c)
    (f_friendrequest_timeout c) (f_status c) (f_info c) (f_name c) (f_name_sent c)
    (f_statusmessage c) (f_statusmessage_length c) (f_statusmessage_sent c) (f_userstatus c) x
    (f_info_size c) (f_message_id c) (f_receives_read_receipts c) (f_friendrequest_nospam c)
    (f_ping_lastrecv c) (f_ping_lastsent c).
Definition set_f_info_size (x : Z) (c : Friend) : Friend :=
  mkFriend (f_client_id c) (f_crypt_connection_id c) (f_friendrequest_lastsent c)
    (f_friendrequest_timeout c) (f_status c) (f_info c) (f_name c) (f_name_sent c)
    (f_statusmessage c) (f_statusmessage_length c) (f_statusmessage_sent c) (f_userstatus c)
    (f_userstatus_sent c) x (f_message_id c) (f_receives_read_receipts c) (f_friendrequest_nospam
    c) (f_ping_lastrecv c) (f_ping_lastsent c).
Definition set_f_message_id (x : Z) (c : Friend) : Friend :=
  mkFriend (f_client_id c) (f_crypt_connection_id c) (f_friendrequest_lastsent c)
    (f_friendrequest_timeout c) (f_status c) (f_info c) (f_name c) (f_name_sent c)
    (f_statusmessage c) (f_statusmessage_length c) (f_statusmessage_sent c) (f_userstatus c)
    (f_userstatus_sent c) (f_info_size c) x (f_receives_read_receipts c) (f_friendrequest_nospam
    c) (f_ping_lastrecv c) (f_ping_lastsent c).
Definition set_f_receives_read_receipts (x : Z) (c : Friend) : Friend :=
  mkFriend (f_client_id c) (f_crypt_connection_id c) (f_friendrequest_lastsent c)
    (f_friendrequest_timeout c) (f_status c) (f_info c) (f_name c) (f_name_sent c)
    (f_statusmessage c) (f_statusmessage_length c) (f_statusmessage_sent c) (f_userstatus c)
    (f_userstatus_sent c) (f_info_size c) (f_message_id c) x (f_friendrequest_nospam c)
    (f_ping_lastrecv c) (f_ping_lastsent c).
Definition set_f_friendrequest_nospam (x : Z) (c : Friend) : Friend :=
  mkFriend (f_client_id c) (f_crypt_connection_id c) (f_friendrequest_lastsent c)
    (f_friendrequest_timeout c) (f_status c) (f_info c) (f_name c) (f_name_sent c)
    (f_statusmessage c) (f_statusmessage_length c) (f_statusmessage_sent c) (f_userstatus c)
    (f_userstatus_sent c) (f_info_size c) (f_message_id c) (f_receives_read_receipts c) x
    (f_ping_lastrecv c) (f_ping_lastsent c).
Definition set_f_ping_lastrecv (x : Z) (c : Friend) : Friend :=
  mkFriend (f_client_id c) (f_crypt_connection_id c) (f_friendrequest_lastsent c)
    (f_friendrequest_timeout c) (f_status c) (f_info c) (f_name c) (f_name_sent c)
    (f_statusmessage c) (f_statusmessage_length c) (f_statusmessage_sent c) (f_userstatus c)
    (f_userstatus_sent c) (f_info_size c) (f_message_id c) (f_receives_read_receipts c)
    (f_friendrequest_nospam c) x (f_ping_lastsent c).
Definition set_f_ping_lastsent (x : Z) (c : Friend) : Friend :=
  mkFriend (f_client_id c) (f_crypt_connection_id c) (f_friendrequest_lastsent c)
    (f_friendrequest_timeout c) (f_status c) (f_info c) (f_name c) (f_name_sent c)
    (f_statusmessage c) (f_statusmessage_length c) (f_statusmessage_sent c) (f_userstatus c)
    (f_userstatus_sent c) (f_info_size c) (f_message_id c) (f_receives_read_receipts c)
    (f_friendrequest_nospam c) (f_ping_lastrecv c) x.

Definition mfriend_zero : Friend :=
  mkFriend (zeros CLIENT_ID_SIZE) 0 0 0 0 (zeros (Z.to_nat MAX_DATA_SIZE)) (zeros MAX_NAME_LENGTH)
    0 [] 0 0 0 0 0 0 0 0 0 0.

(** The callbacks the client can set, and the calls of them. *)
Inductive callback :=
  | friend_message | friend_action | friend_namechange | friend_statusmessagechange
  | friend_userstatuschange | read_receipt | friend_connectionstatuschange.

#[export] Instance callback_eq_dec : EqDecision callback.
Proof. solve_decision. Defined.

Inductive event :=
  | Ev_friendrequest (public_key data : list Z)
  (** the bytes at the pointer, and the length that is passed *)
  | Ev_message (friendnumber : Z) (message : list Z) (length : Z)
  | Ev_action (friendnumber : Z) (action : list Z)
  | Ev_namechange (friendnumber : Z) (name : list Z)
  | Ev_statusmessage (friendnumber : Z) (status : list Z)
  | Ev_userstatus (friendnumber status : Z)
  | Ev_receipt (friendnumber id : Z)
  | Ev_connectionstatus (friendnumber status : Z).

Record Messenger := mkMessenger {
  m_dht : DHT;
  m_fr : Friend_Requests;
  m_name : list Z;
  m_name_length : Z;
  m_statusmessage : list Z;
  m_statusmessage_length : Z;
  m_userstatus : Z;
  m_friendlist : list Friend;
  m_last_LANdiscovery : Z;
  m_callbacks : list callback;
  m_events : list event
}.

Definition set_m_dht (x : DHT) (c : Messenger) : Messenger :=
  mkMessenger x (m_fr c) (m_name c) (m_name_length c) (m_statusmessage c) (m_statusmessage_length
    c) (m_userstatus c) (m_friendlist c) (m_last_LANdiscovery c) (m_callbacks c) (m_events c).
Definition set_m_fr (x : Friend_Requests) (c : Messenger) : Messenger :=
  mkMessenger (m_dht c) x (m_name c) (m_name_length c) (m_statusmessage c) (m_statusmessage_length
    c) (m_userstatus c) (m_friendlist c) (m_last_LANdiscovery c) (m_callbacks c) (m_events c).
Definition set_m_name (x : list Z) (c : Messenger) : Messenger :=
  mkMessenger (m_dht c) (m_fr c) x (m_name_length c) (m_statusmessage c) (m_statusmessage_length
    c) (m_userstatus c) (m_friendlist c) (m_last_LANdiscovery c) (m_callbacks c) (m_events c).
Definition set_m_name_length (x : Z) (c : Messenger) : Messenger :=
  mkMessenger (m_dht c) (m_fr c) (m_name c) x (m_statusmessage c) (m_statusmessage_length c)
    (m_userstatus c) (m_friendlist c) (m_last_LANdiscovery c) (m_callbacks c) (m_events c).
Definition set_m_statusmessage (x : list Z) (c : Messenger) : Messenger :=
  mkMessenger (m_dht c) (m_fr c) (m_name c) (m_name_length c) x (m_statusmessage_length c)
    (m_userstatus c) (m_friendlist c) (m_last_LANdiscovery c) (m_callbacks c) (m_events c).
Definition set_m_statusmessage_length (x : Z) (c : Messenger) : Messenger :=
  mkMessenger (m_dht c) (m_fr c) (m_name c) (m_name_length c) (m_statusmessage c) x (m_userstatus
    c) (m_friendlist c) (m_last_LANdiscovery c) (m_callbacks c) (m_events c).
Definition set_m_userstatus (x : Z) (c : Messenger) : Messenger :=
  mkMessenger (m_dht c) (m_fr c) (m_name c) (m_name_length c) (m_statusmessage c)
    (m_statusmessage_length c) x (m_friendlist c) (m_last_LANdiscovery c) (m_callbacks c)
    (m_events c).
Definition set_m_friendlist (x : list Friend) (c : Messenger) : Messenger :=
  mkMessenger (m_dht c) (m_fr c) (m_name c) (m_name_length c) (m_statusmessage c)
    (m_statusmessage_length c) (m_userstatus c) x (m_last_LANdiscovery c) (m_callbacks c)
    (m_events c).
Definition set_m_last_LANdiscovery (x : Z) (c : Messenger) : Messenger :=
  mkMessenger (m_dht c) (m_fr c) (m_name c) (m_name_length c) (m_statusmessage c)
    (m_statusmessage_length c) (m_userstatus c) (m_friendlist c) x (m_callbacks c) (m_events c).
Definition set_m_callbacks (x : list callback) (c : Messenger) : Messenger :=
  mkMessenger (m_dht c) (m_fr c) (m_name c) (m_name_length c) (m_statusmessage c)
    (m_statusmessage_length c) (m_userstatus c) (m_friendlist c) (m_last_LANdiscovery c) x
    (m_events c).
Definition set_m_events (x : list event) (c : Messenger) : Messenger :=
  mkMessenger (m_dht c) (m_fr c) (m_name c) (m_name_length c) (m_statusmessage c)
    (m_statusmessage_length c) (m_userstatus c) (m_friendlist c) (m_last_LANdiscovery c)
    (m_callbacks c) x.

Definition in_dht {A} (m : M DHT A) : M Messenger A := zoom m_dht set_m_dht m.
Definition in_crypto {A} (m : M Net_Crypto A) : M Messenger A := in_dht (in_nc m).
Definition in_ludp {A} (m : M Lossless_UDP A) : M Messenger A := in_crypto (ludp m).

(** A program that runs a [Messenger] on a [Host]. *)
Definition in_m {A} (m : M Messenger A) : M (Messenger * Host) A :=
  zoom fst (fun x p => (x, snd p)) m.
Definition in_host {A} (m : M Host A) : M (Messenger * Host) A :=
  zoom snd (fun x p => (fst p, x)) m.

Definition net_crypto (m : Messenger) : Net_Crypto := dht_c (m_dht m).
Definition m_pk (m : Messenger) : list Z := self_public_key (net_crypto m).
Definition numfriends (m : Messenger) : Z := Z.of_nat (length (m_friendlist m)).
Definition bad_friend (m : Messenger) (friendnumber : Z) : bool :=
  (numfriends m <=? friendnumber) || (friendnumber <? 0).

Definition get_mfriend (i : Z) : M Messenger Friend :=
  m <- getM ;; if i <? 0 then ubM else liftO (m_friendlist m !! Z.to_nat i).
Definition mod_mfriend (i : Z) (f : Friend -> Friend) : M Messenger unit :=
  modM (fun m => set_m_friendlist (alter f (Z.to_nat i) (m_friendlist m)) m).

(** Calling a callback, if it is set. *)
Definition call_cb (cb : callback) (e : event) : M Messenger unit :=
  modM (fun m => if bool_decide (cb ∈ m_callbacks m) then set_m_events (m_events m ++ [e]) m else m).

Section messenger.
Context `{CryptoBox}.

(** ** Friends *)

Definition realloc_friendlist (num : nat) : M Messenger bool :=
match num with
| O => retM true
| _ => nomem <- alloc_fails ;; retM (negb nomem)
end.

Definition getfriend_id (m : Messenger) (client_id : list Z) : Z :=
match first_index (fun f => (0 <? f_status f)
                            && memcmp_eq crypto_box_PUBLICKEYBYTES client_id (f_client_id f))
        (m_friendlist m) with
| Some i => Z.of_nat i
| None => -1
end.

(** [None] is the result -1. *)
Definition getclient_id (m : Messenger) (friend_id : Z) : option (list Z) :=
if bad_friend m friend_id then None
else
  let f := nth (Z.to_nat friend_id) (m_friendlist m) mfriend_zero in
  if 0 <? f_status f then Some (f_client_id f) else None.

Definition checksum_step (st : Z * Z * nat) (b : Z) : Z * Z * nat :=
let '(c0, c1, i) := st in
if Nat.even i then (Z.lxor c0 b, c1, S i) else (c0, Z.lxor c1 b, S i).

Definition address_checksum (address : list Z) : Z :=
let '(c0, c1, _) := fold_left checksum_step address (0, 0, 0%nat) in le_val [c0; c1].

Definition getaddress (m : Messenger) : list Z :=
let address := m_pk m ++ le_bytes 4 (get_nospam (m_fr m)) in
address ++ le_bytes 2 (address_checksum address).

(** The slot a new friend takes, and its contents. *)
Definition friend_slot (m : Messenger) : nat * Friend :=
match first_index (fun f => f_status f =? NOFRIEND) (m_friendlist m) with
| Some i => (i, nth i (m_friendlist m) mfriend_zero)
| None => (length (m_friendlist m), mfriend_zero)
end.

Definition put_friend (i : nat) (f : Friend) : M Messenger unit :=
modM (fun m => set_m_friendlist
                 (if (i =? length (m_friendlist m))%nat then m_friendlist m ++ [f]
                  else <[i := f]> (m_friendlist m)) m).

(** [calloc(1, 1)]. *)
Definition empty_statusmessage : M Messenger (list Z) :=
nomem <- alloc_fails ;; retM (if (nomem : bool) then [] else [0]).

Definition m_addfriend (address data : list Z) : M Messenger Z :=
if MAX_DATA_SIZE - 32 - 24 - 16 + 32 <=? Z.of_nat (length data) then retM FAERR_TOOLONG
else
  let client_id := take crypto_box_PUBLICKEYBYTES address in
  let checksum := address_checksum (take (FRIEND_ADDRESS_SIZE - 2) address) in
  let check := le_val (bytes_at (crypto_box_PUBLICKEYBYTES + 4) 2 address) in
  if negb (check =? checksum) then retM FAERR_BADCHECKSUM
  else if (length data <? 1)%nat then retM FAERR_NOMESSAGE
  else
    m <- getM ;;
    if memcmp_eq crypto_box_PUBLICKEYBYTES client_id (m_pk m) then retM FAERR_OWNKEY
    else
      let friend_id := getfriend_id m client_id in
      let nospam := le_val (bytes_at crypto_box_PUBLICKEYBYTES 4 address) in
      if negb (friend_id =? -1) then
        f <- get_mfriend friend_id ;;
        if f_friendrequest_nospam f =? nospam then retM FAERR_ALREADYSENT
        else
          mod_mfriend friend_id (set_f_friendrequest_nospam nospam) ;;;
          retM FAERR_SETNEWNOSPAM
      else
        ok <- realloc_friendlist (length (m_friendlist m) + 1) ;;
        if negb ok then retM FAERR_NOMEM
        else
          let '(i, f0) := friend_slot m in
          in_dht (DHT_addfriend client_id) ;;;
          sm <- empty_statusmessage ;;
          put_friend i
            (set_f_friendrequest_nospam nospam (set_f_receives_read_receipts 1
            (set_f_message_id 0 (set_f_info_size (Z.of_nat (length data))
            (set_f_info (memcpy (f_info f0) data (length data)) (set_f_userstatus USERSTATUS_NONE
            (set_f_statusmessage_length 1 (set_f_statusmessage sm (set_f_client_id client_id
            (set_f_friendrequest_timeout FRIENDREQUEST_TIMEOUT (set_f_friendrequest_lastsent 0
            (set_f_crypt_connection_id (-1) (set_f_status FRIEND_ADDED f0))))))))))))) ;;;
          retM (Z.of_nat i).

Definition m_addfriend_norequest (client_id : list Z) : M Messenger Z :=
m <- getM ;;
if negb (getfriend_id m client_id =? -1) then retM (-1)
else
  ok <- realloc_friendlist (length (m_friendlist m) + 1) ;;
  if negb ok then retM FAERR_NOMEM
  else
    let '(i, f0) := friend_slot m in
    in_dht (DHT_addfriend client_id) ;;;
    sm <- empty_statusmessage ;;
    put_friend i
      (set_f_receives_read_receipts 1 (set_f_message_id 0 (set_f_userstatus USERSTATUS_NONE
      (set_f_statusmessage_length 1 (set_f_statusmessage sm
      (set_f_client_id (take CLIENT_ID_SIZE client_id) (set_f_friendrequest_lastsent 0
      (set_f_crypt_connection_id (-1) (set_f_status FRIEND_CONFIRMED f0))))))))) ;;;
    retM (Z.of_nat i).

Definition friend_live (f : Friend) : bool := negb (f_status f =? NOFRIEND).

Definition m_delfriend (friendnumber : Z) : M Messenger Z :=
m <- getM ;;
if bad_friend m friendnumber then retM (-1)
else
  f <- get_mfriend friendnumber ;;
  in_dht (DHT_delfriend (f_client_id f)) ;;;
  in_crypto (crypto_kill (f_crypt_connection_id f)) ;;;
  mod_mfriend friendnumber (fun _ => mfriend_zero) ;;;
  m <- getM ;;
  let i := shrink friend_live (m_friendlist m) (length (m_friendlist m)) in
  modM (set_m_friendlist (take i (m_friendlist m))) ;;;
  ok <- realloc_friendlist i ;;
  retM (if (ok : bool) then 0 else FAERR_NOMEM).

Definition m_friendstatus (m : Messenger) (friendnumber : Z) : Z :=
if bad_friend m friendnumber then NOFRIEND
else f_status (nth (Z.to_nat friendnumber) (m_friendlist m) mfriend_zero).

(** ** Sending *)

Definition write_cryptpacket_id (friendnumber packet_id : Z) (data : list Z) : M Messenger Z :=
m <- getM ;;
if bad_friend m friendnumber then retM 0
else
  f <- get_mfriend friendnumber ;;
  if (MAX_DATA_SIZE <=? Z.of_nat (length data)) || negb (f_status f =? FRIEND_ONLINE) then retM 0
  else in_crypto (write_cryptpacket (f_crypt_connection_id f) ([packet_id] ++ data)).

Definition m_sendmessage_withid (friendnumber theid : Z) (message : list Z) : M Messenger Z :=
if MAX_DATA_SIZE - 4 <=? Z.of_nat (length message) then retM 0
else write_cryptpacket_id friendnumber PACKET_ID_MESSAGE (le_bytes 4 (htonl theid) ++ message).

Definition m_sendmessage (friendnumber : Z) (message : list Z) : M Messenger Z :=
m <- getM ;;
if bad_friend m friendnumber then retM 0
else
  f <- get_mfriend friendnumber ;;
  let msgid := u32 (f_message_id f + 1) in
  mod_mfriend friendnumber (set_f_message_id msgid) ;;;
  let msgid := if msgid =? 0 then 1 else msgid in
  r <- m_sendmessage_withid friendnumber msgid message ;;
  retM (if negb (r =? 0) then msgid else 0).

Definition m_sendaction (friendnumber : Z) (action : list Z) : M Messenger Z :=
write_cryptpacket_id friendnumber PACKET_ID_ACTION action.

Definition m_sendname (friendnumber : Z) (name : list Z) : M Messenger Z :=
if (MAX_NAME_LENGTH <? length name)%nat || (length name =? 0)%nat then retM 0
else write_cryptpacket_id friendnumber PACKET_ID_NICKNAME name.

Definition send_statusmessage (friendnumber : Z) (status : list Z) : M Messenger Z :=
write_cryptpacket_id friendnumber PACKET_ID_STATUSMESSAGE status.

Definition send_userstatus (friendnumber status : Z) : M Messenger Z :=
write_cryptpacket_id friendnumber PACKET_ID_USERSTATUS [u8 status].

Definition send_ping (friendnumber : Z) : M Messenger Z :=
t <- unix_time ;;
mod_mfriend friendnumber (set_f_ping_lastsent t) ;;;
write_cryptpacket_id friendnumber PACKET_ID_PING [].

(** ** Names and statuses *)

(** [name] has at least [MAX_NAME_LENGTH] bytes. *)
Definition setfriendname (friendnumber : Z) (name : list Z) : M Messenger Z :=
m <- getM ;;
if bad_friend m friendnumber then retM (-1)
else mod_mfriend friendnumber (set_f_name (take MAX_NAME_LENGTH name)) ;;; retM 0.

Definition setname (name : list Z) : M Messenger Z :=
if (MAX_NAME_LENGTH <? length name)%nat || (length name =? 0)%nat then retM (-1)
else
  modM (fun m => set_m_friendlist (map (set_f_name_sent 0) (m_friendlist m))
                   (set_m_name_length (Z.of_nat (length name))
                   (set_m_name (memcpy (m_name m) name (length name)) m))) ;;;
  retM 0.

(** The bytes copied; their number is the result. *)
Definition getself_name (m : Messenger) (nlen : Z) : list Z :=
if nlen =? 0 then [] else take (Z.to_nat (Z.min nlen (m_name_length m))) (m_name m).

Definition getname (m : Messenger) (friendnumber : Z) : option (list Z) :=
if bad_friend m friendnumber then None
else Some (f_name (nth (Z.to_nat friendnumber) (m_friendlist m) mfriend_zero)).

Definition m_set_statusmessage (status : list Z) : M Messenger Z :=
if (MAX_STATUSMESSAGE_LENGTH <? length status)%nat then retM (-1)
else
  modM (fun m => set_m_friendlist (map (set_f_statusmessage_sent 0) (m_friendlist m))
                   (set_m_statusmessage_length (Z.of_nat (length status))
                   (set_m_statusmessage (memcpy (m_statusmessage m) status (length status)) m))) ;;;
  retM 0.

Definition m_set_userstatus (status : Z) : M Messenger Z :=
if USERSTATUS_INVALID <=? status then retM (-1)
else
  modM (fun m => set_m_friendlist (map (set_f_userstatus_sent 0) (m_friendlist m))
                   (set_m_userstatus status m)) ;;;
  retM 0.

Definition m_get_statusmessage_size (m : Messenger) (friendnumber : Z) : Z :=
if bad_friend m friendnumber then -1
else f_statusmessage_length (nth (Z.to_nat friendnumber) (m_friendlist m) mfriend_zero).

(** What the two copying functions put in [buf], of [maxlen] bytes: the number of
  bytes copied is a 32-bit number, and reading past [src] or writing past [buf] is
  undefined behaviour. *)
Definition copy_status (src : list Z) (maxlen : Z) : option (list Z) :=
let n := u32 (Z.min maxlen (Z.of_nat MAX_STATUSMESSAGE_LENGTH) - 1) in
if (Z.of_nat (length src) <? n) || (maxlen <? n) then None
else Some (memcpy (zeros (Z.to_nat maxlen)) src (Z.to_nat n)).

(** [Some None] is the result -1. *)
Definition m_copy_statusmessage (m : Messenger) (friendnumber maxlen : Z) : option (option (list Z)) :=
if bad_friend m friendnumber then Some None
else option_map Some
       (copy_status (f_statusmessage (nth (Z.to_nat friendnumber) (m_friendlist m) mfriend_zero)) maxlen).

Definition m_copy_self_statusmessage (m : Messenger) (maxlen : Z) : option (list Z) :=
copy_status (m_statusmessage m) maxlen.

Definition m_get_userstatus (m : Messenger) (friendnumber : Z) : Z :=
if bad_friend m friendnumber then USERSTATUS_INVALID
else
  let status := f_userstatus (nth (Z.to_nat friendnumber) (m_friendlist m) mfriend_zero) in
  if USERSTATUS_INVALID <=? status then USERSTATUS_NONE else status.

Definition m_get_self_userstatus (m : Messenger) : Z := m_userstatus m.

(** A failure of [calloc] is not handled. *)
Definition set_friend_statusmessage (friendnumber : Z) (status : list Z) : M Messenger Z :=
m <- getM ;;
if bad_friend m friendnumber then retM (-1)
else
  nomem <- alloc_fails ;;
  if (nomem : bool) then ubM
  else
    mod_mfriend friendnumber (fun f => set_f_statusmessage_length (Z.of_nat (length status))
                                         (set_f_statusmessage status f)) ;;;
    retM 0.

Definition set_friend_userstatus (friendnumber status : Z) : M Messenger unit :=
mod_mfriend friendnumber (set_f_userstatus status).

Definition m_set_sends_receipts (friendnumber yesno : Z) : M Messenger unit :=
if negb (yesno =? 0) || negb (yesno =? 1) then retM tt
else
  m <- getM ;;
  if bad_friend m friendnumber then retM tt
  else mod_mfriend friendnumber (set_f_receives_read_receipts yesno).

(** ** Callbacks *)

Definition m_callback_friendrequest (m : Messenger) : Messenger :=
set_m_fr (callback_friendrequest (m_fr m)) m.

(** [m_callback_friendmessage], [_action], [_namechange], [_statusmessage],
  [_userstatus], [_read_receipt] and [_connectionstatus]. *)
Definition m_callback (cb : callback) (m : Messenger) : Messenger := set_m_callbacks (cb :: m_callbacks m) m.

Definition check_friend_connectionstatus (friendnumber status : Z) : M Messenger unit :=
if status =? NOFRIEND then retM tt
else
  f <- get_mfriend friendnumber ;;
  let was_connected := f_status f =? FRIEND_ONLINE in
  let is_connected := status =? FRIEND_ONLINE in
  if negb (eqb is_connected was_connected)
  then call_cb friend_connectionstatuschange
         (Ev_connectionstatus friendnumber (if is_connected then 1 else 0))
  else retM tt.

Definition set_friend_status (friendnumber status : Z) : M Messenger unit :=
check_friend_connectionstatus friendnumber status ;;;
mod_mfriend friendnumber (set_f_status status).

(** ** The main loop *)

Definition LANdiscovery : M (Messenger * Host) unit :=
mh <- getM ;;
let m := fst mh in
t <- unix_time ;;
if u64 (m_last_LANdiscovery m + LAN_DISCOVERY_INTERVAL) <? t then
  in_host (send_LANdiscovery (htons PORT) (m_pk m)) ;;;
  t <- unix_time ;;
  in_m (modM (set_m_last_LANdiscovery t))
else retM tt.

(** "Online" and its terminator. *)
Definition online_message : list Z := [79; 110; 108; 105; 110; 101; 0].

(** [None] is NULL; the socket is closed on the way out. *)
Definition initMessenger : M Host (option Messenger) :=
nomem <- alloc_fails ;;
if (nomem : bool) then retM None
else
  n <- new_networking 0 PORT ;;
  match n with
  | None => retM None
  | Some n =>
    c <- new_net_crypto n ;;
    match c with
    | None => kill_networking n ;;; retM None
    | Some c =>
      d <- zoom (fun _ => tt) (fun _ h => h) (new_DHT c) ;;
      match d with
      | None => kill_networking n ;;; retM None
      | Some d =>
        e <- entropy ;;
        let keys := crypto_box_keypair e in
        let c := friendreq_init (set_self_secret_key (snd keys) (set_self_public_key (fst keys) (dht_c d))) in
        let d := LANdiscovery_init (set_dht_c c d) in
        x <- random_int ;;
        retM (Some (mkMessenger d (set_nospam x fr_zero) (zeros MAX_NAME_LENGTH) 0
                      (memcpy (zeros MAX_STATUSMESSAGE_LENGTH) online_message (length online_message))
                      (Z.of_nat (length online_message)) 0 [] 0 [] []))
      end
    end
  end.

(** First part of a turn of [doFriends]: a friend to whom a request must be sent. *)
Definition friend_added (t i : Z) : M Messenger unit :=
f <- get_mfriend i ;;
if f_status f =? FRIEND_ADDED then
  fr <- in_dht (send_friendrequest (f_client_id f) (f_friendrequest_nospam f)
                  (take (Z.to_nat (f_info_size f)) (f_info f))) ;;
  if 0 <=? fr then
    set_friend_status i FRIEND_REQUESTED ;;;
    mod_mfriend i (set_f_friendrequest_lastsent t)
  else retM tt
else retM tt.

(** Second part: a friend that is not online. *)
Definition friend_offline (t i : Z) : M Messenger unit :=
f <- get_mfriend i ;;
if (f_status f =? FRIEND_REQUESTED) || (f_status f =? FRIEND_CONFIRMED) then
  (if (f_status f =? FRIEND_REQUESTED)
      && (u64 (f_friendrequest_lastsent f + f_friendrequest_timeout f) <? t) then
     set_friend_status i FRIEND_ADDED ;;;
     mod_mfriend i (set_f_friendrequest_timeout (u32 (f_friendrequest_timeout f * 2)))
   else retM tt) ;;;
  friendip <- in_dht (DHT_getfriendip (f_client_id f)) ;;
  m <- getM ;;
  let st := is_cryptoconnected (net_crypto m) (f_crypt_connection_id f) in
  if st =? 0 then
    if 1 <? ip friendip then
      id <- in_crypto (crypto_connect (f_client_id f) friendip) ;;
      mod_mfriend i (set_f_crypt_connection_id id)
    else retM tt
  else if st =? 3 then
    set_friend_status i FRIEND_ONLINE ;;;
    mod_mfriend i (fun f => set_f_ping_lastrecv t (set_f_statusmessage_sent 0
                              (set_f_userstatus_sent 0 (set_f_name_sent 0 f))))
  else if st =? 4 then
    in_crypto (crypto_kill (f_crypt_connection_id f)) ;;;
    mod_mfriend i (set_f_crypt_connection_id (-1))
  else retM tt
else retM tt.

(** What is sent to a friend that is online: name, status message, status, ping. *)
Definition friend_sends (t i : Z) : M Messenger unit :=
m <- getM ;;
f <- get_mfriend i ;;
(if f_name_sent f =? 0 then
   r <- m_sendname i (take (Z.to_nat (m_name_length m)) (m_name m)) ;;
   if negb (r =? 0) then mod_mfriend i (set_f_name_sent 1) else retM tt
 else retM tt) ;;;
(if f_statusmessage_sent f =? 0 then
   r <- send_statusmessage i (take (Z.to_nat (m_statusmessage_length m)) (m_statusmessage m)) ;;
   if negb (r =? 0) then mod_mfriend i (set_f_statusmessage_sent 1) else retM tt
 else retM tt) ;;;
(if f_userstatus_sent f =? 0 then
   r <- send_userstatus i (m_userstatus m) ;;
   if negb (r =? 0) then mod_mfriend i (set_f_userstatus_sent 1) else retM tt
 else retM tt) ;;;
if u64 (f_ping_lastsent f + FRIEND_PING_INTERVAL) <? t then send_ping i ;;; retM tt else retM tt.

(** A packet of a friend: the [switch] of [doFriends]. *)
Definition friend_packet (t i packet_id : Z) (data : list Z) : M Messenger unit :=
let data_length := Z.of_nat (length data) in
if packet_id =? PACKET_ID_PING then mod_mfriend i (set_f_ping_lastrecv t)
else if packet_id =? PACKET_ID_NICKNAME then
  if (Z.of_nat MAX_NAME_LENGTH <=? data_length) || (data_length =? 0) then retM tt
  else
    call_cb friend_namechange (Ev_namechange i data) ;;;
    mod_mfriend i (fun f => set_f_name (<[(length data - 1)%nat := 0]>
                                          (memcpy (f_name f) data (length data))) f)
else if packet_id =? PACKET_ID_STATUSMESSAGE then
  if data_length =? 0 then retM tt
  else
    nomem <- alloc_fails ;;
    if (nomem : bool) then ubM
    else
      let status := take MAX_STATUSMESSAGE_LENGTH data in
      call_cb friend_statusmessagechange (Ev_statusmessage i status) ;;;
      set_friend_statusmessage i status ;;;
      retM tt
else if packet_id =? PACKET_ID_USERSTATUS then
  if negb (data_length =? 1) then retM tt
  else
    let status := nth 0 data 0 in
    call_cb friend_userstatuschange (Ev_userstatus i status) ;;;
    set_friend_userstatus i status
else if packet_id =? PACKET_ID_MESSAGE then
  (* four bytes are read whatever the length *)
  junk <- junk_bytes (4 - length data) ;;
  f <- get_mfriend i ;;
  (if negb (f_receives_read_receipts f =? 0)
   then write_cryptpacket_id i PACKET_ID_RECEIPT (take 4 (data ++ junk)) ;;; retM tt
   else retM tt) ;;;
  call_cb friend_message (Ev_message i (drop 4 data) (u16 (data_length - 4)))
else if packet_id =? PACKET_ID_ACTION then call_cb friend_action (Ev_action i data)
else if packet_id =? PACKET_ID_RECEIPT then
  if data_length <? 4 then retM tt
  else call_cb read_receipt (Ev_receipt i (ntohl (le_val (take 4 data))))
else retM tt.

(** The connection of a friend is gone. *)
Definition friend_lost (i : Z) : M Messenger unit :=
f <- get_mfriend i ;;
in_crypto (crypto_kill (f_crypt_connection_id f)) ;;;
mod_mfriend i (set_f_crypt_connection_id (-1)) ;;;
set_friend_status i FRIEND_CONFIRMED.

(** The [while] loop of [doFriends]. *)
Fixpoint friend_online (fuel : nat) (t i : Z) : M Messenger unit :=
f <- get_mfriend i ;;
if f_status f =? FRIEND_ONLINE then
  match fuel with
  | O => ubM
  | S n =>
    friend_sends t i ;;;
    r <- in_crypto (read_cryptpacket (f_crypt_connection_id f)) ;;
    let '(len, temp) := r in
    if 0 <? len then
      friend_packet t i (nth 0 temp 0) (drop 1 temp) ;;;
      f <- get_mfriend i ;;
      (if u64 (f_ping_lastrecv f + FRIEND_CONNECTION_TIMEOUT) <? t then friend_lost i else retM tt) ;;;
      friend_online n t i
    else
      m <- getM ;;
      if is_cryptoconnected (net_crypto m) (f_crypt_connection_id f) =? 4 then friend_lost i
      else retM tt
  end
else retM tt.

(** The number of packets the loop can read: each turn but the last reads one. *)
Definition online_fuel (m : Messenger) (f : Friend) : nat :=
let c := net_crypto m in
match crypto_connections c !! Z.to_nat (f_crypt_connection_id f) with
| Some cc => S (Z.to_nat (recvqueue (lossless_udp c) (cc_number cc)))
| None => 1
end.

Definition doFriend (t i : Z) : M Messenger unit :=
friend_added t i ;;;
friend_offline t i ;;;
m <- getM ;;
f <- get_mfriend i ;;
friend_online (online_fuel m f) t i.

Definition doFriends : M Messenger unit :=
t <- unix_time ;;
m <- getM ;;
forM (seq 0 (length (m_friendlist m))) (fun i => doFriend t (Z.of_nat i)).

Definition doInbound : M Messenger unit :=
r <- in_crypto crypto_inbound ;;
match r with
| None => retM tt
| Some (inconnection, public_key, secret_nonce, session_key) =>
  m <- getM ;;
  let friend_id := getfriend_id m public_key in
  if negb (friend_id =? -1) then
    f <- get_mfriend friend_id ;;
    in_crypto (crypto_kill (f_crypt_connection_id f)) ;;;
    id <- in_crypto (accept_crypto_inbound inconnection public_key secret_nonce session_key) ;;
    mod_mfriend friend_id (set_f_crypt_connection_id id) ;;;
    set_friend_status friend_id FRIEND_CONFIRMED
  else retM tt
end.

(** The handlers of requests. *)
Definition call_request (cb : crypto_handler) (source : IP_Port) (public_key data : list Z)
: M Messenger Z :=
match cb with
| handle_NATping_cb => in_dht (handle_NATping source public_key data)
| friendreq_handlepacket_cb =>
  m <- getM ;;
  let '(r, fr, ev) := friendreq_handlepacket (m_fr m) public_key data in
  modM (set_m_fr fr) ;;;
  match ev with
  | Some (k, d) => modM (fun m => set_m_events (m_events m ++ [Ev_friendrequest k d]) m)
  | None => retM tt
  end ;;;
  retM r
end.

(** The handlers of packets. *)
Definition dispatch (cb : packet_handler) (source : IP_Port) (packet : list Z) : M Messenger unit :=
(match cb with
 | handle_ping_request_cb => in_dht (handle_ping_request source packet)
 | handle_ping_response_cb => in_dht (handle_ping_response source packet)
 | handle_getnodes_cb => in_dht (handle_getnodes source packet)
 | handle_sendnodes_cb => in_dht (handle_sendnodes source packet)
 | handle_handshake_cb => in_ludp (handle_handshake source packet)
 | handle_SYNC_cb => in_ludp (handle_SYNC source packet)
 | handle_data_cb => in_ludp (handle_data source packet)
 | cryptopacket_handle_cb => cryptopacket_handle m_dht set_m_dht call_request source packet
 | handle_LANdiscovery_cb => in_dht (handle_LANdiscovery source packet)
 end) ;;; retM tt.

Definition m_handlers (m : Messenger) : gmap Z packet_handler :=
packethandlers (net (lossless_udp (net_crypto m))).

Definition doMessenger : M (Messenger * Host) unit :=
in_m (networking_poll m_handlers dispatch) ;;;
in_m (in_dht do_DHT) ;;;
in_m (in_crypto do_net_crypto) ;;;
in_m doInbound ;;;
in_m doFriends ;;;
LANdiscovery.

(** ** Saving and loading *)

Definition SIZEOF_FRIEND : nat := 1256.

(** The bytes of a [Friend], with its padding; [ptr] is the address of its status
  message. *)
Definition mfriend_bytes (ptr : list Z) (f : Friend) : list Z :=
f_client_id f ++ le_bytes 4 (f_crypt_connection_id f) ++ zeros 4
++ le_bytes 8 (f_friendrequest_lastsent f) ++ le_bytes 4 (f_friendrequest_timeout f)
++ [f_status f] ++ f_info f ++ f_name f ++ [f_name_sent f] ++ zeros 2 ++ ptr
++ le_bytes 2 (f_statusmessage_length f) ++ [f_statusmessage_sent f] ++ zeros 1
++ le_bytes 4 (f_userstatus f) ++ [f_userstatus_sent f] ++ zeros 1
++ le_bytes 2 (f_info_size f) ++ le_bytes 4 (f_message_id f) ++ [f_receives_read_receipts f]
++ zeros 3 ++ le_bytes 4 (f_friendrequest_nospam f) ++ le_bytes 8 (f_ping_lastrecv f)
++ le_bytes 8 (f_ping_lastsent f).

Definition Messenger_size (m : Messenger) : nat :=
crypto_box_PUBLICKEYBYTES + crypto_box_SECRETKEYBYTES + 4 + 4 + DHT_size (m_dht m) + 4
+ SIZEOF_FRIEND * length (m_friendlist m) + 2 + Z.to_nat (m_name_length m).

Fixpoint save_friends (l : list Friend) : M Messenger (list Z) :=
match l with
| [] => retM []
| f :: r => ptr <- junk_bytes 8 ;; rest <- save_friends r ;; retM (mfriend_bytes ptr f ++ rest)
end.

Definition Messenger_save : M Messenger (list Z) :=
m <- getM ;;
friends <- save_friends (m_friendlist m) ;;
retM (save_keys (net_crypto m)
      ++ le_bytes 4 (get_nospam (m_fr m))
      ++ le_bytes 4 (Z.of_nat (DHT_size (m_dht m))) ++ DHT_save (m_dht m)
      ++ le_bytes 4 (Z.of_nat (SIZEOF_FRIEND * length (m_friendlist m))) ++ friends
      ++ le_bytes 2 (m_name_length m) ++ take (Z.to_nat (m_name_length m)) (m_name m)).

(** Loading one saved friend. *)
Definition load_mfriend (b : list Z) : M Messenger unit :=
let client_id := take crypto_box_PUBLICKEYBYTES b in
let status := nth 52 b 0 in
if 3 <=? status then
  fnum <- m_addfriend_norequest client_id ;;
  setfriendname fnum (bytes_at 1077 MAX_NAME_LENGTH b) ;;;
  retM tt
else if negb (status =? 0) then
  let address := client_id ++ bytes_at 1236 4 b in
  let info_size := le_val (bytes_at 1226 2 b) in
  m_addfriend (address ++ le_bytes 2 (address_checksum address))
    (bytes_at 53 (Z.to_nat info_size) b) ;;;
  retM tt
else retM tt.

Definition Messenger_load (data : list Z) : M Messenger Z :=
let length := Z.of_nat (List.length data) in
if length =? 4294967295 then retM (-1)
else if length <? 32 + 32 + 4 * 3 then retM (-1)
else
  let length := length - (32 + 32 + 4 * 3) in
  in_crypto (load_keys (take 64 data)) ;;;
  modM (fun m => set_m_fr (set_nospam (le_val (bytes_at 64 4 data)) (m_fr m)) m) ;;;
  let size := le_val (bytes_at 68 4 data) in
  let data := drop 72 data in
  if length <? size then retM (-1)
  else
    let length := length - size in
    r <- in_dht (DHT_load (take (Z.to_nat size) data)) ;;
    if r =? -1 then retM (-1)
    else
      let data := drop (Z.to_nat size) data in
      let size := le_val (take 4 data) in
      let data := drop 4 data in
      if (length <? size) || negb (size mod Z.of_nat SIZEOF_FRIEND =? 0) then retM (-1)
      else
        nomem <- (if size =? 0 then retM false else alloc_fails) ;;
        if (nomem : bool) then ubM
        else
          let num := Z.to_nat (u16 (size / Z.of_nat SIZEOF_FRIEND)) in
          forM (seq 0 num) (fun i => load_mfriend (bytes_at (SIZEOF_FRIEND * i) SIZEOF_FRIEND data)) ;;;
          let data := drop (Z.to_nat size) data in
          let length := length - size in
          if length <? 2 then retM (-1)
          else
            let small_size := le_val (take 2 data) in
            let length := length - 2 in
            if negb (length =? small_size) then retM (-1)
            else setname (drop 2 data) ;;; retM 0.

(** Releases the connections and closes the socket; the rest is memory. *)
Definition cleanupMessenger : M (Messenger * Host) unit :=
in_m (in_crypto kill_net_crypto) ;;;
mh <- getM ;;
in_host (kill_networking (net (lossless_udp (net_crypto (fst mh))))).
End messenger.
