(* ===== verification/MessengerThms.v ===== *)
(** * Messenger.c and friend_requests.c: the properties

    Addresses and their checksum, adding friends, friend requests, the framing of
    messages, the size of the saved state, and the loop that reads a friend's packets. *)

From S2P Require Import Prelude MiscTools Network LosslessUDP LosslessInv LosslessSafe Crypto NetCrypto CryptoThms Ping DHTLists DHT DHTDistance DHTSafe DHTThms FriendRequests LANDiscovery Messenger.
From stdpp Require Import gmap.
Local Open Scope Z_scope.
Local Open Scope tox_scope.

(** ** The checksum of an address *)

Lemma checksum_shift l c0 c1 d0 d1 i :
  fold_left checksum_step l (Z.lxor c0 d0, Z.lxor c1 d1, i) =
  (let '(a, b, n) := fold_left checksum_step l (c0, c1, i) in (Z.lxor a d0, Z.lxor b d1, n)).
Proof.
  revert c0 c1 i. induction l as [|x l IH]; intros c0 c1 i; simpl; [done|].
  destruct (Nat.even i); rewrite <- IH; do 3 f_equal.
  - rewrite !Z.lxor_assoc. f_equal. apply Z.lxor_comm.
  - rewrite !Z.lxor_assoc. f_equal. apply Z.lxor_comm.
Qed.

Lemma lxor_u8 a b : is_u8 a -> is_u8 b -> is_u8 (Z.lxor a b).
Proof.
  intros Ha Hb. assert (E : Z.lxor a b = Z.lxor a b mod 2 ^ 8); [|rewrite E; apply (u8_range (Z.lxor a b))].
  rewrite <- Z.land_ones by lia. rewrite <- (Z.mod_small a (2 ^ 8)) at 1 by exact Ha.
  rewrite <- (Z.mod_small b (2 ^ 8)) at 1 by exact Hb. rewrite <- !Z.land_ones by lia.
  apply Z.bits_inj'. intros n Hn. rewrite !Z.lxor_spec, !Z.land_spec, Z.lxor_spec.
  destruct (Z.testbit a n), (Z.testbit b n), (Z.testbit (Z.ones 8) n); done.
Qed.

(** The two halves of a checksum. *)
Definition checksum_bytes (l : list Z) : Z * Z :=
  let '(c0, c1, _) := fold_left checksum_step l (0, 0, 0%nat) in (c0, c1).

Lemma checksum_fold_ok l c0 c1 i :
  bytes_ok l -> is_u8 c0 -> is_u8 c1 ->
  let '(a, b, _) := fold_left checksum_step l (c0, c1, i) in is_u8 a /\ is_u8 b.
Proof.
  intros Hl. revert c0 c1 i. induction Hl as [|x l Hx Hl IH]; intros c0 c1 i H0 H1; [done|].
  cbn [fold_left checksum_step]. destruct (Nat.even i); apply IH; auto using lxor_u8.
Qed.

Lemma checksum_bytes_ok l : bytes_ok l -> is_u8 (fst (checksum_bytes l)) /\ is_u8 (snd (checksum_bytes l)).
Proof.
  intros Hl. unfold checksum_bytes. pose proof (checksum_fold_ok l 0 0 0 Hl) as H.
  destruct (fold_left _ _ _) as [[a b] n]. apply H; unfold is_u8; lia.
Qed.

Lemma address_checksum_bytes l :
  address_checksum l = fst (checksum_bytes l) + 256 * snd (checksum_bytes l).
Proof.
  unfold address_checksum, checksum_bytes. destruct (fold_left _ _ _) as [[a b] n]. simpl. lia.
Qed.

Lemma address_checksum_u16 l : bytes_ok l -> is_u16 (address_checksum l).
Proof.
  intros [H0 H1]%checksum_bytes_ok. rewrite address_checksum_bytes. unfold is_u8, is_u16 in *. lia.
Qed.

Lemma checksum_replace l1 x y l2 :
  let n := length l1 in
  checksum_bytes (l1 ++ y :: l2) =
  (let '(a, b) := checksum_bytes (l1 ++ x :: l2) in
   if Nat.even n then (Z.lxor a (Z.lxor x y), b) else (a, Z.lxor b (Z.lxor x y))).
Proof.
  intros n. unfold checksum_bytes. rewrite !fold_left_app. cbn [fold_left].
  destruct (fold_left checksum_step l1 (0, 0, 0%nat)) as [[c0 c1] k] eqn:E.
  assert (Hk : k = n).
  { subst n. cut (forall l c, snd (fold_left checksum_step l c) = (snd c + length l)%nat).
    { intros H. specialize (H l1 (0, 0, 0%nat)). rewrite E in H. simpl in H. lia. }
    induction l as [|z l IH]; intros [[a b] m]; simpl; [lia|]. rewrite IH. destruct (Nat.even m); simpl; lia. }
  subst k. cbn [checksum_step].
  assert (Hx : forall c, Z.lxor c y = Z.lxor (Z.lxor c x) (Z.lxor x y)).
  { intros c. rewrite Z.lxor_assoc, <- (Z.lxor_assoc x x y), Z.lxor_nilpotent, Z.lxor_0_l. done. }
  destruct (Nat.even n).
  - rewrite Hx. rewrite <- (Z.lxor_0_r c1) at 1. rewrite checksum_shift.
    destruct (fold_left _ l2 _) as [[a b] m]. cbv beta iota. by rewrite Z.lxor_0_r.
  - rewrite Hx. rewrite <- (Z.lxor_0_r c0) at 1. rewrite checksum_shift.
    destruct (fold_left _ l2 _) as [[a b] m]. cbv beta iota. by rewrite Z.lxor_0_r.
Qed.

(** One wrong byte gives another checksum. *)
Lemma checksum_detects l i x y :
  bytes_ok l -> is_u8 y -> l !! i = Some x -> x <> y ->
  address_checksum (<[i := y]> l) <> address_checksum l.
Proof.
  intros Hl Hy Hi Hne. pose proof (lookup_lt_Some _ _ _ Hi) as Hlt.
  assert (bytes_ok (<[i := y]> l)) as Hl' by (by apply Forall_insert).
  pose proof (checksum_bytes_ok _ Hl) as [H0 H1]. pose proof (checksum_bytes_ok _ Hl') as [H0' H1'].
  rewrite !address_checksum_bytes. rewrite insert_take_drop in * by done.
  pose proof (checksum_replace (take i l) x y (drop (S i) l)) as E. rewrite length_take in E.
  rewrite (take_drop_middle l i x Hi) in E.
  assert (Z.lxor x y <> 0) as Hxy by (intros H; by apply Z.lxor_eq in H).
  assert (Hch : forall a, Z.lxor a (Z.lxor x y) <> a).
  { intros a H. apply Hxy. rewrite <- (Z.lxor_0_r a) in H at 2.
    apply (f_equal (Z.lxor a)) in H. by rewrite <- !Z.lxor_assoc, Z.lxor_nilpotent, !Z.lxor_0_l in H. }
  cbv zeta in E. destruct (checksum_bytes l) as [a b]. cbn [fst snd] in *.
  destruct (Nat.even _); rewrite E in *; cbn [fst snd] in *; unfold is_u8 in *.
  - specialize (Hch a). lia.
  - specialize (Hch b). lia.
Qed.

(** ** Adding friends *)

(** The address of the node with the given key and nospam bytes. *)
Definition full_address (body : list Z) : list Z := body ++ le_bytes 2 (address_checksum body).

Lemma address_body body : length body = 36%nat -> take (FRIEND_ADDRESS_SIZE - 2) (full_address body) = body.
Proof. intros H. by apply take_app_length'. Qed.

Lemma address_check body :
  length body = 36%nat -> bytes_ok body ->
  le_val (bytes_at (crypto_box_PUBLICKEYBYTES + 4) 2 (full_address body)) = address_checksum body.
Proof.
  intros Hl Hb. unfold full_address. change (crypto_box_PUBLICKEYBYTES + 4)%nat with 36%nat.
  rewrite <- Hl, bytes_at_app_r by (rewrite length_le_bytes; lia). rewrite le_val_bytes.
  apply u16_small, address_checksum_u16, Hb.
Qed.

(** Adding to the list of friends: the slot is free, and what is found afterwards. *)
Lemma friend_slot_put (m : Messenger) f i f0 client_id :
  friend_slot m = (i, f0) -> getfriend_id m client_id = -1 ->
  f_status f = FRIEND_ADDED -> take crypto_box_PUBLICKEYBYTES (f_client_id f) = take crypto_box_PUBLICKEYBYTES client_id ->
  let l := m_friendlist m in
  let l' := if (i =? length l)%nat then l ++ [f] else <[i := f]> l in
  first_index (fun f => (0 <? f_status f) && memcmp_eq crypto_box_PUBLICKEYBYTES client_id (f_client_id f)) l' = Some i /\
  l' !! i = Some f /\
  (forall j g, l !! j = Some g -> f_status g <> NOFRIEND -> l' !! j = Some g).
Proof.
  intros Hs Hg Hst Hid l l'. unfold getfriend_id in Hg. fold l in Hg.
  destruct (first_index _ l) as [k|] eqn:Hnone; [lia|]. clear Hg.
  pose proof (proj1 (first_index_None _ _) Hnone) as Hno.
  assert (Hslot : (i <= length l)%nat /\ (forall g, l !! i = Some g -> f_status g = NOFRIEND)).
  { unfold friend_slot in Hs. fold l in Hs. destruct (first_index _ l) as [k|] eqn:E2; simplify_eq.
    - apply first_index_Some in E2 as (g & Hgk & Hz & _). apply Z.eqb_eq in Hz. split.
      + apply lookup_lt_Some in Hgk. lia.
      + intros g' Hg'. congruence.
    - split; [lia|]. intros g Hgl. apply lookup_lt_Some in Hgl. lia. }
  destruct Hslot as [Hi Hfree].
  assert (Hl' : l' !! i = Some f).
  { subst l'. case_if.
    - apply Nat.eqb_eq in Heqb as ->. rewrite lookup_app_r, Nat.sub_diag by lia. done.
    - apply Nat.eqb_neq in Heqb. apply list_lookup_insert_eq. lia. }
  assert (Hother : forall j, j <> i -> (j < length l)%nat -> l' !! j = l !! j).
  { intros j Hj Hlt. subst l'. case_if; [by apply lookup_app_l|by apply list_lookup_insert_ne]. }
  split_and!; [|done|].
  - apply first_index_Some. exists f. split_and!; [done| |].
    + rewrite Hst. simpl. apply memcmp_eq_true. done.
    + intros j y Hj Hy. rewrite Hother in Hy by lia. by eapply Hno.
  - intros j g Hj Hne. destruct (decide (j = i)) as [->|Hji]; [by apply Hfree in Hj|].
    rewrite Hother; [done..|]. by eapply lookup_lt_Some.
Qed.

(** What a call that adds a friend leaves. *)
Definition friend_found (m : Messenger) (client_id : list Z) (r : Z) (m' : Messenger) : Prop :=
  getfriend_id m' client_id = r /\ 0 <= r /\ m_friendstatus m' r = FRIEND_ADDED /\
  (forall j g, m_friendlist m !! j = Some g -> f_status g <> NOFRIEND -> m_friendlist m' !! j = Some g).

(** The end of [m_addfriend]: the new friend is written to its slot. *)
Lemma wp_put_new (m : Messenger) d' w i f0 client_id (F : list Z -> Friend) :
  friend_slot m = (i, f0) -> getfriend_id m client_id = -1 ->
  (forall sm, f_status (F sm) = FRIEND_ADDED) ->
  (forall sm, take crypto_box_PUBLICKEYBYTES (f_client_id (F sm)) = take crypto_box_PUBLICKEYBYTES client_id) ->
  wp (sm <- empty_statusmessage ;; put_friend i (F sm) ;;; retM (Z.of_nat i))
    (fun r m' _ => friend_found m client_id r m') (set_m_dht d' m) w.
Proof.
  intros Hslot Hnew Hst Hid. wp_step. unfold empty_statusmessage. do 3 wp_step. unfold put_friend. do 3 wp_step.
  set (sm := if (x : bool) then [] else [0]).
  destruct (friend_slot_put m (F sm) i f0 client_id Hslot Hnew (Hst sm) (Hid sm)) as (Hf & Hi & Ho).
  unfold friend_found, getfriend_id, m_friendstatus, bad_friend, numfriends.
  cbn [m_friendlist set_m_friendlist set_m_dht]. rewrite Hf. split_and!; [done|lia| |done].
  apply lookup_lt_Some in Hi as Hlt. rewrite (proj2 (Z.leb_gt _ _)), (proj2 (Z.ltb_ge _ _)) by lia.
  rewrite Nat2Z.id, nth_lookup, Hi. apply Hst.
Qed.

(** ** Friend requests *)

(** The place of the next request. *)
Definition next_request (fr : Friend_Requests) : nat :=
  if (MAX_RECEIVED_STORED <=? received_requests_index fr)%nat then 0%nat else received_requests_index fr.

Lemma next_request_lt fr : (next_request fr < MAX_RECEIVED_STORED)%nat.
Proof.
  unfold next_request. destruct (Nat.leb_spec MAX_RECEIVED_STORED (received_requests_index fr));
    unfold MAX_RECEIVED_STORED in *; lia.
Qed.

Lemma next_request_add fr k :
  next_request (addto_receivedlist fr k) = (S (next_request fr) mod MAX_RECEIVED_STORED)%nat.
Proof.
  pose proof (next_request_lt fr) as Hn. unfold addto_receivedlist.
  change (if (MAX_RECEIVED_STORED <=? received_requests_index fr)%nat then 0%nat
          else received_requests_index fr) with (next_request fr).
  unfold next_request at 1. cbn [received_requests_index]. revert Hn. generalize (next_request fr). intros n Hn.
  destruct (Nat.leb_spec MAX_RECEIVED_STORED (S n)) as [Hge|Hlt].
  - replace (S n) with MAX_RECEIVED_STORED by lia. reflexivity.
  - symmetry. by apply Nat.mod_small.
Qed.

Lemma add_keeps_request fr k j x :
  received_requests fr !! j = Some x -> j <> next_request fr ->
  received_requests (addto_receivedlist fr k) !! j = Some x.
Proof. intros Hj Hne. unfold addto_receivedlist. cbn [received_requests]. by rewrite list_lookup_insert_ne. Qed.

(** A stored request survives until its place comes round again. *)
Lemma request_survives others : forall fr j x d,
  received_requests fr !! j = Some x -> (j < MAX_RECEIVED_STORED)%nat ->
  next_request fr = ((j + d) mod MAX_RECEIVED_STORED)%nat -> (1 <= d)%nat ->
  (length others + d <= MAX_RECEIVED_STORED)%nat ->
  received_requests (fold_left addto_receivedlist others fr) !! j = Some x.
Proof.
  induction others as [|k r IH]; intros fr j x d Hj Hlt Hn Hd Hlen; simpl; [done|]. simpl in Hlen.
  apply (IH _ j x (S d)); [|done| |lia|lia].
  - apply add_keeps_request; [done|]. rewrite Hn. intros E.
    unfold MAX_RECEIVED_STORED in *.
    assert (Z.of_nat j = (Z.of_nat j + Z.of_nat d) mod 32) as Ez.
    { rewrite <- Nat2Z.inj_add. change 32 with (Z.of_nat 32). rewrite <- Nat2Z.inj_mod. by f_equal. }
    lia.
  - rewrite next_request_add, Hn. rewrite <- Nat.add_1_r, Nat.Div0.add_mod_idemp_l. f_equal. lia.
Qed.

Lemma request_blocked fr k others :
  length (received_requests fr) = MAX_RECEIVED_STORED ->
  (length others < MAX_RECEIVED_STORED)%nat ->
  request_received (fold_left addto_receivedlist others (addto_receivedlist fr k)) k = true.
Proof.
  intros Hl Ho. apply request_received_spec. exists (next_request fr), (take crypto_box_PUBLICKEYBYTES k).
  pose proof (next_request_lt fr) as Hn. split; [|by rewrite take_take].
  apply (request_survives _ _ _ _ 1); [|done| |lia|lia].
  - unfold addto_receivedlist. cbn [received_requests].
    change (if (MAX_RECEIVED_STORED <=? received_requests_index fr)%nat then 0%nat
            else received_requests_index fr) with (next_request fr).
    apply list_lookup_insert_eq. lia.
  - rewrite next_request_add. f_equal. lia.
Qed.

(** ** Saving *)

Record mfriend_ok (f : Friend) : Prop := {
  mo_id : length (f_client_id f) = crypto_box_PUBLICKEYBYTES;
  mo_info : length (f_info f) = Z.to_nat MAX_DATA_SIZE;
  mo_name : length (f_name f) = MAX_NAME_LENGTH
}.

(** The arrays of the messenger have their sizes. *)
Record messenger_wf (m : Messenger) : Prop := {
  ms_dht : dht_wf (m_dht m);
  ms_keys : length (self_public_key (net_crypto m)) = crypto_box_PUBLICKEYBYTES /\
            length (self_secret_key (net_crypto m)) = crypto_box_SECRETKEYBYTES;
  ms_friends : Forall mfriend_ok (m_friendlist m);
  ms_name : length (m_name m) = MAX_NAME_LENGTH /\ 0 <= m_name_length m <= Z.of_nat MAX_NAME_LENGTH
}.

Lemma length_mfriend_bytes ptr f :
  length ptr = 8%nat -> mfriend_ok f -> length (mfriend_bytes ptr f) = SIZEOF_FRIEND.
Proof.
  intros Hp [H1 H2 H3]. unfold mfriend_bytes.
  rewrite !length_app, !length_le_bytes, !length_zeros, H1, H2, H3, Hp. reflexivity.
Qed.

Lemma wp_save_friends l m w (Q : list Z -> Messenger -> World -> Prop) :
  Forall mfriend_ok l ->
  (forall b w', length b = (SIZEOF_FRIEND * length l)%nat -> Q b m w') -> wp (save_friends l) Q m w.
Proof.
  intros Hl. revert w Q. induction Hl as [|f r Hf Hr IH]; intros w Q HQ; cbn [save_friends].
  { wp_step. apply HQ. simpl. lia. }
  wp_step. apply wp_junk_bytes. intros ptr w1 Hp _. wp_step. apply IH. intros b w2 Hb. wp_step.
  apply HQ. rewrite length_app, Hb, length_mfriend_bytes by done. simpl length. lia.
Qed.

(** * Claims *)

Section claims.
Context `{CryptoBox}.

(** C28: the checksum of an address catches any wrong byte: if one of the 38 bytes of a
  valid address is changed, [m_addfriend] answers FAERR_BADCHECKSUM and changes
  nothing. *)
Theorem address_corruption_detected (body data : list Z) (i : nat) (x y : Z) (m : Messenger) (w : World) :
length body = 36%nat -> bytes_ok body -> is_u8 y -> full_address body !! i = Some x -> x <> y ->
Z.of_nat (length data) < 984 ->
m_addfriend (<[i := y]> (full_address body)) data m w = Some (FAERR_BADCHECKSUM, m, w).
Proof.
intros Hl Hb Hy Hi Hne Hd. unfold m_addfriend.
rewrite (proj2 (Z.leb_gt _ _)) by exact Hd.
assert (Hbad : (le_val (bytes_at (crypto_box_PUBLICKEYBYTES + 4) 2 (<[i := y]> (full_address body)))
  =? address_checksum (take (FRIEND_ADDRESS_SIZE - 2) (<[i := y]> (full_address body)))) = false).
{ apply Z.eqb_neq. destruct (decide (i < 36)%nat) as [Hlt|Hge].
  - unfold full_address in *. rewrite lookup_app_l in Hi by lia. rewrite insert_app_l by lia.
    assert (Hl' : length (<[i := y]> body) = 36%nat) by by rewrite length_insert.
    change (FRIEND_ADDRESS_SIZE - 2)%nat with 36%nat. rewrite (take_app_length' _ _ 36) by done.
    change (crypto_box_PUBLICKEYBYTES + 4)%nat with 36%nat.
    rewrite <- Hl', bytes_at_app_r by (rewrite length_le_bytes; lia). rewrite le_val_bytes.
    rewrite (u16_small _ (address_checksum_u16 _ Hb) : address_checksum body mod 256 ^ Z.of_nat 2 = _).
    intros E. eapply (checksum_detects body i x y); [done..|by rewrite <- E].
  - unfold full_address in *. rewrite lookup_app_r in Hi by lia. rewrite Hl in Hi.
    rewrite insert_app_r_alt by lia. rewrite Hl.
    change (FRIEND_ADDRESS_SIZE - 2)%nat with 36%nat. rewrite (take_app_length' _ _ 36) by done.
    change (crypto_box_PUBLICKEYBYTES + 4)%nat with 36%nat. rewrite <- Hl at 1.
    rewrite bytes_at_app_r by (rewrite length_insert, length_le_bytes; lia).
    set (c := address_checksum body) in *. pose proof (address_checksum_u16 body Hb) as Hc. fold c in Hc.
    intros E. assert (Hii : <[(i - 36)%nat := y]> (le_bytes 2 c) = le_bytes 2 c).
    { assert (bytes_ok (<[(i - 36)%nat := y]> (le_bytes 2 c))) as Ho by (apply Forall_insert; [apply le_bytes_ok|done]).
      pose proof (le_bytes_val _ Ho) as Hv. rewrite E, length_insert, length_le_bytes in Hv. by rewrite <- Hv. }
    apply (f_equal (fun l => l !! (i - 36)%nat)) in Hii. rewrite Hi in Hii.
    rewrite list_lookup_insert_eq in Hii by (eapply lookup_lt_Some; exact Hi). congruence. }
cbv zeta. rewrite Hbad. reflexivity.
Qed.

(** C29: a friend that is added is found: given a valid address of somebody else who is
  not a friend, a message and memory, [m_addfriend] returns a friend number under
  which the friend is then listed, waiting for its request, and which
  [getfriend_id] finds; no other friend moves or changes. *)
Theorem m_addfriend_found (body data : list Z) (m : Messenger) (w : World) :
length body = 36%nat -> bytes_ok body -> (1 <= length data)%nat -> Z.of_nat (length data) < 984 ->
memcmp_eq crypto_box_PUBLICKEYBYTES body (m_pk m) = false ->
getfriend_id m (take crypto_box_PUBLICKEYBYTES body) = -1 -> w_nomem w = [] ->
wp (m_addfriend (full_address body) data)
  (fun r m' _ => friend_found m (take crypto_box_PUBLICKEYBYTES body) r m') m w.
Proof.
intros Hl Hb Hd1 Hd2 Hown Hnew Hw. unfold m_addfriend.
rewrite (proj2 (Z.leb_gt _ _)) by exact Hd2. cbv zeta.
rewrite address_check, address_body, Z.eqb_refl by done. simpl negb. cbv iota.
rewrite (proj2 (Nat.ltb_ge _ _)) by lia. do 2 wp_step.
assert (Hk : take crypto_box_PUBLICKEYBYTES (full_address body) = take crypto_box_PUBLICKEYBYTES body).
{ unfold full_address. rewrite take_app_le; [done|]. rewrite Hl. csize. lia. }
rewrite Hk. replace (memcmp_eq _ (take _ body) (m_pk m)) with false.
2: { symmetry. rewrite <- Hown. unfold memcmp_eq. by rewrite take_take, Nat.min_id. }
rewrite Hnew. simpl negb. cbv iota. wp_step. rewrite Nat.add_1_r. cbn [realloc_friendlist].
wp_step. unfold wp at 1. rewrite alloc_works by done. wp_step. simpl negb. cbv iota.
destruct (friend_slot m) as [i f0] eqn:Hslot. wp_step. unfold in_dht. rewrite wp_zoom.
apply (wp_DHT_addfriend _ (m_dht m) w).
- intros w1. by apply (wp_put_new m _ w1 i f0).
- intros _ x w1. by apply (wp_put_new m _ w1 i f0).
Qed.

(** C30: a friend request reaches the client only with our nospam number, and only
  once: after it was accepted, requests of the same key are refused whatever they
  contain, as long as fewer than 32 other requests have been stored since. *)
Theorem friend_request_once (fr fr' : Friend_Requests) (key packet : list Z) (ev : list Z * list Z) :
length (received_requests fr) = MAX_RECEIVED_STORED ->
friendreq_handlepacket fr key packet = (0, fr', Some ev) ->
ev = (key, drop 4 packet) /\ take 4 packet = le_bytes 4 (nospam fr) /\ (4 < length packet)%nat /\
forall others packet2, (length others < MAX_RECEIVED_STORED)%nat ->
  let fr2 := fold_left addto_receivedlist others fr' in
  friendreq_handlepacket fr2 key packet2 = (1, fr2, None).
Proof.
intros Hl. unfold friendreq_handlepacket at 1.
destruct (handle_friendrequest_isset fr =? 0) eqn:Hset; [done|].
destruct (Nat.leb_spec (length packet) 4) as [|Hlen]; [done|].
destruct (request_received fr key); [done|].
destruct (memcmp_eq 4 packet (le_bytes 4 (nospam fr))) eqn:Hns; [|done]. simpl negb. cbv iota.
intros [= <- <-]. split_and!; [done| |done|].
- apply memcmp_eq_true in Hns. rewrite Hns. apply take_ge. by rewrite length_le_bytes.
- intros others packet2 Ho. unfold friendreq_handlepacket. rewrite request_blocked by done.
  by repeat case_if.
Qed.

(** Messages and read receipts survive the wire: from the packet that
  [m_sendmessage_withid] builds for a message, the receiver hands the client exactly
  the message and its length and sends back the four bytes of its id as a receipt;
  from that receipt, the sender reports exactly the id. *)
Theorem message_receipt_round_trip (t i theid : Z) (message : list Z) (m : Messenger) (w : World) (f : Friend) :
is_u32 theid -> Z.of_nat (length message) < MAX_DATA_SIZE - 4 -> 0 <= i ->
m_friendlist m !! Z.to_nat i = Some f -> f_receives_read_receipts f <> 0 ->
let wire := le_bytes 4 (htonl theid) in
m_sendmessage_withid i theid message m w
  = write_cryptpacket_id i PACKET_ID_MESSAGE (wire ++ message) m w /\
friend_packet t i PACKET_ID_MESSAGE (wire ++ message) m w
  = (write_cryptpacket_id i PACKET_ID_RECEIPT wire ;;;
     call_cb friend_message (Ev_message i message (Z.of_nat (length message)))) m w /\
friend_packet t i PACKET_ID_RECEIPT wire m w = call_cb read_receipt (Ev_receipt i theid) m w.
Proof.
intros Hid Hlen Hi Hf Hr wire. assert (Hw : length wire = 4%nat) by apply length_le_bytes. split_and!.
- unfold m_sendmessage_withid. rewrite (proj2 (Z.leb_gt _ _)) by done. done.
- unfold friend_packet. cbv beta zeta. change (PACKET_ID_MESSAGE =? _) with false at 1.
  cbn [Z.eqb PACKET_ID_MESSAGE PACKET_ID_PING PACKET_ID_NICKNAME PACKET_ID_STATUSMESSAGE PACKET_ID_USERSTATUS Pos.eqb].
  rewrite length_app, Hw. change (4 - (4 + length message))%nat with 0%nat.
  erewrite bind_eval by reflexivity.
  erewrite bind_eval by (unfold get_mfriend; erewrite bind_eval by reflexivity;
    rewrite (proj2 (Z.ltb_ge _ _)) by done; rewrite Hf; reflexivity).
  apply Z.eqb_neq in Hr. rewrite Hr. simpl negb. cbv iota. rewrite app_nil_r.
  rewrite (take_app_length' wire), (drop_app_length' wire) by done.
  unfold bindM. destruct (write_cryptpacket_id _ _ _ _ _) as [[[? ?] ?]|]; [|done]. simpl.
  do 3 f_equal. unfold u16. unfold MAX_DATA_SIZE in Hlen. lia.
- unfold friend_packet. cbv beta zeta.
  cbn [Z.eqb PACKET_ID_MESSAGE PACKET_ID_RECEIPT PACKET_ID_ACTION PACKET_ID_PING PACKET_ID_NICKNAME PACKET_ID_STATUSMESSAGE PACKET_ID_USERSTATUS Pos.eqb].
  unfold wire. rewrite length_le_bytes. change (Z.of_nat 4 <? 4) with false. cbv iota.
  rewrite take_ge by (by rewrite length_le_bytes). rewrite le_val_bytes.
  rewrite (u32_small _ (htonl_range theid) : htonl theid mod 256 ^ Z.of_nat 4 = htonl theid).
  by rewrite ntohl_htonl.
Qed.

(** A message packet with fewer than four bytes of data is handed to the client as
  a message of 65532 bytes or more, of which none was received. *)
Theorem short_message_length (t i : Z) (data : list Z) (m : Messenger) (w : World) (f : Friend) :
(length data < 4)%nat -> 0 <= i -> m_friendlist m !! Z.to_nat i = Some f ->
f_receives_read_receipts f = 0 -> friend_message ∈ m_callbacks m ->
wp (friend_packet t i PACKET_ID_MESSAGE data) (fun _ m' _ =>
  exists n, m_events m' = m_events m ++ [Ev_message i [] n] /\ 65532 <= n) m w.
Proof.
intros Hl Hi Hf Hr Hcb. unfold friend_packet. cbv beta zeta.
cbn [Z.eqb PACKET_ID_MESSAGE PACKET_ID_PING PACKET_ID_NICKNAME PACKET_ID_STATUSMESSAGE PACKET_ID_USERSTATUS Pos.eqb].
wp_step. apply wp_junk_bytes. intros junk w1 _ _. wp_step. unfold get_mfriend. do 2 wp_step.
rewrite (proj2 (Z.ltb_ge _ _)) by done. apply wp_liftO. exists f. split; [done|].
rewrite Hr. simpl negb. cbv iota. do 2 wp_step. unfold call_cb. wp_step.
rewrite bool_decide_eq_true_2 by done. eexists. split; [cbn; by rewrite drop_ge by lia|]. unfold u16. lia.
Qed.

(** What [Messenger_save] writes fills exactly [Messenger_size] bytes. *)
Theorem Messenger_save_size (m : Messenger) (w : World) :
messenger_wf m -> wp Messenger_save (fun b m' _ => m' = m /\ length b = Messenger_size m) m w.
Proof.
intros [Hd [Hk1 Hk2] Hf [Hn1 Hn2]]. unfold Messenger_save. do 3 wp_step.
apply wp_save_friends; [done|]. intros b w1 Hb. wp_step. split; [done|].
unfold save_keys, Messenger_size. rewrite !length_app, !length_le_bytes, Hk1, Hk2, Hb.
rewrite length_DHT_save by done. rewrite length_take, Hn1.
replace (Z.to_nat (m_name_length m) `min` MAX_NAME_LENGTH)%nat with (Z.to_nat (m_name_length m)) by lia. lia.
Qed.
End claims.

(** ** Witnesses *)

Section witnesses.
#[local] Existing Instance ToyBox.box.
#[local] Existing Instance ToyBox.laws.

(** A messenger with an empty slot and an online friend on crypto connection 0. *)
Definition demo_online : Friend :=
  set_f_client_id (7 :: zeros 31) (set_f_status FRIEND_ONLINE (set_f_crypt_connection_id 0 mfriend_zero)).
Definition demo_messenger (s : Net_Crypto) : Messenger :=
  mkMessenger (set_dht_c s demo_node) fr_zero (zeros MAX_NAME_LENGTH) 0 (zeros MAX_STATUSMESSAGE_LENGTH) 0 0
    [mfriend_zero; demo_online] 0 [friend_message] [].

Definition demo_m : Messenger := demo_messenger (idle_crypto (pk 2) (sk 2)).

(** The address of node 1 with nospam 5. *)
Definition demo_body : list Z := pk 1 ++ le_bytes 4 5.

Lemma demo_body_ok : bytes_ok demo_body.
Proof. apply Forall_app. split; apply le_bytes_ok. Qed.

Lemma address_corruption_detected_witness :
  m_addfriend (<[3%nat := 9]> (full_address demo_body)) [104; 105] demo_m (still_world 0 100)
  = Some (FAERR_BADCHECKSUM, demo_m, still_world 0 100).
Proof.
  apply (address_corruption_detected demo_body [104; 105] 3 0 9 demo_m (still_world 0 100)).
  - reflexivity.
  - exact demo_body_ok.
  - unfold is_u8. lia.
  - reflexivity.
  - discriminate.
  - reflexivity.
Defined.

Lemma m_addfriend_found_witness :
  wp (m_addfriend (full_address demo_body) [104; 105])
    (fun r m' _ => friend_found demo_m (pk 1) r m') demo_m (still_world 0 100).
Proof.
  apply (m_addfriend_found demo_body [104; 105] demo_m (still_world 0 100)).
  - reflexivity.
  - exact demo_body_ok.
  - simpl. lia.
  - reflexivity.
  - reflexivity.
  - reflexivity.
  - reflexivity.
Defined.

Definition demo_requests : Friend_Requests := callback_friendrequest (set_nospam 5 fr_zero).

Lemma friend_request_once_witness :
  friendreq_handlepacket demo_requests (pk 1) (le_bytes 4 5 ++ [104; 105])
  = (0, addto_receivedlist demo_requests (pk 1), Some (pk 1, [104; 105])) /\
  friendreq_handlepacket (addto_receivedlist demo_requests (pk 1)) (pk 1) (le_bytes 4 5 ++ [1])
  = (1, addto_receivedlist demo_requests (pk 1), None).
Proof.
  assert (E : friendreq_handlepacket demo_requests (pk 1) (le_bytes 4 5 ++ [104; 105])
              = (0, addto_receivedlist demo_requests (pk 1), Some (pk 1, [104; 105])))
    by (vm_compute; reflexivity).
  split; [exact E|].
  destruct (friend_request_once demo_requests (addto_receivedlist demo_requests (pk 1)) (pk 1)
              (le_bytes 4 5 ++ [104; 105]) (pk 1, [104; 105]) eq_refl E) as (_ & _ & _ & Hno).
  apply (Hno [] (le_bytes 4 5 ++ [1])). unfold MAX_RECEIVED_STORED. simpl. lia.
Defined.

Definition demo_receiver : Messenger :=
  set_m_friendlist [set_f_receives_read_receipts 1 demo_online] demo_m.

Lemma message_receipt_round_trip_witness :
  friend_packet 100 0 PACKET_ID_RECEIPT (le_bytes 4 (htonl 3)) demo_receiver (still_world 0 100)
  = call_cb read_receipt (Ev_receipt 0 3) demo_receiver (still_world 0 100).
Proof.
  apply (message_receipt_round_trip 100 0 3 [104; 105] demo_receiver (still_world 0 100)
           (set_f_receives_read_receipts 1 demo_online)).
  - unfold is_u32. lia.
  - reflexivity.
  - lia.
  - reflexivity.
  - discriminate.
Defined.

Lemma short_message_length_witness :
  wp (friend_packet 100 1 PACKET_ID_MESSAGE [5]) (fun _ m' _ =>
    exists n, m_events m' = m_events demo_m ++ [Ev_message 1 [] n] /\ 65532 <= n) demo_m (still_world 0 100).
Proof.
  apply (short_message_length 100 1 [5] demo_m (still_world 0 100) demo_online).
  - simpl. lia.
  - lia.
  - reflexivity.
  - reflexivity.
  - apply list_elem_of_here.
Defined.

Lemma demo_m_wf : messenger_wf demo_m.
Proof.
  split.
  - destruct (idle_dht_wf (pk 2) (sk 2)). by split.
  - split; reflexivity.
  - repeat constructor; unfold demo_online; cbn [set_f_client_id set_f_status set_f_crypt_connection_id
      mfriend_zero f_client_id f_info f_name]; cbn [length]; rewrite ?length_zeros; reflexivity.
  - split; [reflexivity|]. cbn. lia.
Qed.

Lemma Messenger_save_size_witness :
  wp Messenger_save (fun b m' _ => m' = demo_m /\ length b = Messenger_size demo_m) demo_m (still_world 0 100).
Proof. apply (Messenger_save_size demo_m (still_world 0 100)). exact demo_m_wf. Defined.
End witnesses.
