(* ===== verification/MessengerInv.v ===== *)
(** * The invariant of a whole instance

    [instance_wf] is what holds of a [Messenger] at every moment, from [initMessenger] on:
    the sizes of the arrays and the ranges of the lengths and statuses, in all of its layers,
    and the two tables of handlers.  Each function of the interface and the main loop keep it. *)

From S2P Require Import Prelude MiscTools Network Host LosslessUDP LosslessInv LosslessSafe Crypto NetCrypto CryptoThms Ping DHTLists DHT DHTDistance DHTSafe DHTThms FriendRequests LANDiscovery Frame NetCryptoInv Messenger MessengerThms.
From stdpp Require Import gmap.
Local Open Scope Z_scope.
Local Open Scope tox_scope.

(** ** The DHT *)

Section dht.
Context `{CryptoBoxLaws} (n : Networking_Core) (ch : gmap Z crypto_handler).

Record dht_inv (d : DHT) : Prop := {
  di_dht : dht_wf d;
  di_crypto : nc_wf n ch (dht_c d)
}.

Lemma typed_keeps {A} (m : M DHT A) : keeps m -> typed dht_inv m any.
Proof.
  intros Hm. apply typed_wp. intros d w [Hd Hc]. eapply wp_keeps; [done|done|].
  intros a d' w' [H1 _ H3]. split; [|done]. split; [done|by rewrite H3].
Qed.

Lemma typed_reads {A} (m : M DHT A) : reads m -> typed dht_inv m any.
Proof.
  intros Hm. apply typed_wp. intros d w Hd. eapply wp_reads; [done|apply Hd|]. intros. by split.
Qed.

Lemma typed_in_nc {A} (m : M Net_Crypto A) Q : typed (nc_wf n ch) m Q -> typed dht_inv (in_nc m) Q.
Proof.
  intros Hm. eapply typed_zoom; [exact Hm|by intros d []|]. intros d c [[] ?] Hc. by split.
Qed.

Lemma dht_inv_friends d l : dht_inv d -> Forall friend_ok l -> dht_inv (set_friends_list l d).
Proof. intros [[] Hc] Hl. by split. Qed.

Lemma typed_DHT_addfriend id : length id = CLIENT_ID_SIZE -> typed dht_inv (DHT_addfriend id) any.
Proof.
  intros Hid. apply typed_wp. intros d w Hd. apply wp_DHT_addfriend; [by split|]. intros _ x w'.
  split; [|done]. apply dht_inv_friends; [done|]. apply Forall_take, Forall_app.
  split; [apply Hd|]. apply Forall_singleton. by apply added_friend_ok.
Qed.

Lemma typed_DHT_delfriend id : typed dht_inv (DHT_delfriend id) any.
Proof.
  apply typed_wp. intros d w Hd. apply wp_DHT_delfriend; [by split|]. intros r i w' _.
  split; [|done]. apply dht_inv_friends; [done|]. apply del_friend_ok, Hd.
Qed.

(** Everything [DHT_load] does leaves the crypto layer alone. *)
Lemma steady_zoom_other {S T A B} (f : S -> B) (get : S -> T) set (m : M T A) :
  (forall s t, f (set t s) = f s) -> steady f (zoom get set m).
Proof. intros Hf. apply (steady_zoom f (fun _ : T => tt)); [done|auto]. Qed.

Ltac steady_dht :=
  repeat (steady_steps; try (apply steady_zoom_other; done)).

Lemma steady_random_words {S B} (f : S -> B) k : steady f (random_words k).
Proof. induction k; cbn [random_words]; steady_steps. Qed.
#[local] Hint Resolve steady_random_words : steady.

Lemma steady_getnodes a k id : steady dht_c (getnodes a k id).
Proof. unfold getnodes, is_gettingnodes, add_gettingnodes. steady_dht. Qed.
#[local] Hint Resolve steady_getnodes : steady.

Lemma steady_in_ping {A} (m : M PING A) : steady dht_c (in_ping m).
Proof. apply steady_zoom_other. done. Qed.
#[local] Hint Resolve steady_in_ping : steady.

Lemma steady_DHT_bootstrap a k : steady dht_c (DHT_bootstrap a k).
Proof. unfold DHT_bootstrap. steady_dht. Qed.
#[local] Hint Resolve steady_DHT_bootstrap : steady.

Lemma steady_DHT_load data : steady dht_c (DHT_load data).
Proof. unfold DHT_load, load_friend. steady_dht. Qed.

Lemma typed_DHT_load data : typed dht_inv (DHT_load data) any.
Proof.
  apply typed_wp. intros d w Hd. eapply wp_steady; [apply steady_DHT_load|].
  eapply wp_mono; [apply wp_DHT_load, Hd|]. intros a d' w' Hd' Hc. split; [|done]. split; [done|].
  rewrite Hc. apply Hd.
Qed.

Lemma typed_send_friendrequest k num data : typed dht_inv (send_friendrequest k num data) any.
Proof.
  apply typed_reads. intros d w Hd. unfold send_friendrequest. wp_step; [by wp_step|]. do 3 wp_step.
  apply wp_create_request. intros [p|] w'; [|by wp_step]. wp_step.
  eapply wp_reads; [apply reads_DHT_getfriendip|done|]. intros a w1. wp_step; [by wp_step|].
  wp_step; [by repeat wp_step|]. wp_step. eapply wp_reads; [apply reads_route_tofriend|done|]. intros. by wp_step.
Qed.
End dht.

#[export] Hint Resolve typed_in_nc typed_DHT_delfriend typed_DHT_load typed_send_friendrequest : typed.

(** ** The messenger *)

Record mfriend_wf (f : Friend) : Prop := {
  mf_id : length (f_client_id f) = 32%nat;
  mf_status : NOFRIEND <= f_status f <= FRIEND_ONLINE;
  mf_info : length (f_info f) = 1024%nat;
  mf_info_size : 0 <= f_info_size f < 984;
  mf_name : length (f_name f) = 128%nat;
  mf_statusmessage : (length (f_statusmessage f) <= 128)%nat;
  mf_statusmessage_length : 0 <= f_statusmessage_length f <= 128;
  mf_message_id : is_u32 (f_message_id f);
  mf_timeout : is_u32 (f_friendrequest_timeout f);
  mf_times : is_u64 (f_friendrequest_lastsent f) /\ is_u64 (f_ping_lastrecv f) /\ is_u64 (f_ping_lastsent f)
}.

Record fr_wf (fr : Friend_Requests) : Prop := {
  fw_len : length (received_requests fr) = MAX_RECEIVED_STORED;
  fw_keys : Forall (fun k => length k = 32%nat) (received_requests fr);
  fw_index : (received_requests_index fr <= MAX_RECEIVED_STORED)%nat
}.

(** An instance on the socket and handlers [n], with the handlers of requests [ch]: the
    invariants of the layers below, the sizes of the arrays of the messenger and of each
    friend, and the ranges of the lengths and of the statuses.  Nothing is said about
    [f_crypt_connection_id] and little about [cc_number], a 16-bit number: they may be those of
    a connection that has been closed since.  The functions that are given them check them
    as their sources do, and are [None] where an index that is not checked is out of range. *)
Record instance_wf (n : Networking_Core) (ch : gmap Z crypto_handler) (m : Messenger) : Prop := {
  mw_dht : dht_inv n ch (m_dht m);
  mw_fr : fr_wf (m_fr m);
  mw_friends : Forall mfriend_wf (m_friendlist m);
  mw_name : length (m_name m) = 128%nat;
  mw_name_length : 0 <= m_name_length m <= 128;
  mw_statusmessage : length (m_statusmessage m) = 128%nat;
  mw_statusmessage_length : 0 <= m_statusmessage_length m <= 128;
  mw_userstatus : USERSTATUS_NONE <= m_userstatus m < USERSTATUS_INVALID
}.

Lemma mfriend_zero_wf : mfriend_wf mfriend_zero.
Proof. split; cbn; rewrite ?length_zeros; try done; try lia; uarith. Qed.

(** [mf_solve]: an update of some fields keeps a friend well formed. *)
Ltac mf_sizes := unfold NOFRIEND, FRIEND_ADDED, FRIEND_REQUESTED, FRIEND_CONFIRMED, FRIEND_ONLINE,
  FRIENDREQUEST_TIMEOUT, MAX_NAME_LENGTH, MAX_STATUSMESSAGE_LENGTH, CLIENT_ID_SIZE in *; csize.
Ltac mf_solve :=
  cbv beta in *; destruct_and?;
  lazymatch goal with
  | |- mfriend_wf mfriend_zero => apply mfriend_zero_wf
  | H : mfriend_wf ?f |- mfriend_wf _ => destruct H; split;
      cbn [f_client_id f_crypt_connection_id f_friendrequest_lastsent f_friendrequest_timeout f_status f_info f_name
        f_name_sent f_statusmessage f_statusmessage_length f_statusmessage_sent f_userstatus f_userstatus_sent
        f_info_size f_message_id f_receives_read_receipts f_friendrequest_nospam f_ping_lastrecv f_ping_lastsent
        set_f_client_id set_f_crypt_connection_id set_f_friendrequest_lastsent set_f_friendrequest_timeout
        set_f_status set_f_info set_f_name set_f_name_sent set_f_statusmessage set_f_statusmessage_length
        set_f_statusmessage_sent set_f_userstatus set_f_userstatus_sent set_f_info_size set_f_message_id
        set_f_receives_read_receipts set_f_friendrequest_nospam set_f_ping_lastrecv set_f_ping_lastsent];
      mf_sizes; rewrite ?length_take, ?length_insert, ?length_memcpy by lia;  try done; try lia; try uarith;
      split_and?; try done; try uarith
  end.
#[export] Hint Extern 1 (mfriend_wf _) => solve [mf_solve] : typed.

Section messenger.
Context `{CryptoBoxLaws} (n : Networking_Core) (ch : gmap Z crypto_handler).

Lemma typed_in_dht {A} (m : M DHT A) Q : typed (dht_inv n ch) m Q -> typed (instance_wf n ch) (in_dht m) Q.
Proof.
  intros Hm. eapply typed_zoom; [exact Hm|by intros s []|]. intros s d [] Hd. by split.
Qed.

Lemma typed_in_crypto {A} (m : M Net_Crypto A) Q : typed (nc_wf n ch) m Q -> typed (instance_wf n ch) (in_crypto m) Q.
Proof. intros Hm. by apply typed_in_dht, typed_in_nc. Qed.

Lemma typed_in_ludp {A} (m : M Lossless_UDP A) Q : typed (ludp_inv n) m Q -> typed (instance_wf n ch) (in_ludp m) Q.
Proof. intros Hm. by apply typed_in_crypto, typed_ludp. Qed.

Lemma set_friends_wf m l : instance_wf n ch m -> Forall mfriend_wf l -> instance_wf n ch (set_m_friendlist l m).
Proof. intros [] Hl. by split. Qed.

Lemma typed_get_mfriend i : typed (instance_wf n ch) (get_mfriend i) mfriend_wf.
Proof.
  unfold get_mfriend. typed_steps. apply typed_liftO. intros f Hf. eapply Forall_lookup_1; [|exact Hf].
  by match goal with H : instance_wf _ _ _ |- _ => destruct H end.
Qed.

Lemma typed_mod_mfriend i g :
  (forall f, mfriend_wf f -> mfriend_wf (g f)) -> typed (instance_wf n ch) (mod_mfriend i g) any.
Proof.
  intros Hg. apply typed_mod. intros m Hm. apply set_friends_wf; [done|].
  apply Forall_alter_keep; [done|apply Hm].
Qed.

Lemma typed_put_friend i f : mfriend_wf f -> typed (instance_wf n ch) (put_friend i f) any.
Proof.
  intros Hf. apply typed_mod. intros m Hm. apply set_friends_wf; [done|]. case_if.
  - apply Forall_app. split; [apply Hm|by constructor].
  - apply Forall_insert; [apply Hm|done].
Qed.

Lemma typed_call_cb cb e : typed (instance_wf n ch) (call_cb cb e) any.
Proof. apply typed_mod. intros m Hm. case_bool_decide; [|done]. destruct Hm. by split. Qed.

Lemma friend_slot_wf m : instance_wf n ch m -> mfriend_wf (snd (friend_slot m)).
Proof.
  intros Hm. unfold friend_slot. destruct (first_index _ _) as [i|]; [|apply mfriend_zero_wf]. cbn [snd].
  rewrite nth_lookup. destruct (m_friendlist m !! i) as [f|] eqn:E; [|apply mfriend_zero_wf].
  eapply Forall_lookup_1; [apply (mw_friends _ _ _ Hm)|exact E].
Qed.

Lemma typed_realloc_friendlist k : typed (instance_wf n ch) (realloc_friendlist k) any.
Proof. unfold realloc_friendlist. typed_steps. Qed.

Lemma typed_empty_statusmessage :
  typed (instance_wf n ch) empty_statusmessage (fun l => (length l <= 1)%nat).
Proof. unfold empty_statusmessage. typed_steps. destruct a; simpl; lia. Qed.
End messenger.

#[export] Hint Resolve typed_in_dht typed_in_crypto typed_in_ludp typed_get_mfriend typed_put_friend
  typed_call_cb typed_realloc_friendlist typed_empty_statusmessage : typed.
#[export] Hint Extern 2 (typed _ (mod_mfriend _ _) _) =>
  apply typed_mod_mfriend; intros; solve [mf_solve] : typed.

(** ** Every function keeps it *)

Section operations.
Context `{CryptoBoxLaws} (n : Networking_Core) (ch : gmap Z crypto_handler).
Let I : Messenger -> Prop := instance_wf n ch.

Lemma typed_m_addfriend address data :
  (32 <= length address)%nat -> typed I (m_addfriend address data) any.
Proof.
  intros Ha. unfold m_addfriend, I. typed_step; [typed_steps|].
  assert (Hd : (length data < 984)%nat) by (unfold MAX_DATA_SIZE in *; lia).
  assert (Hid : length (take crypto_box_PUBLICKEYBYTES address) = 32%nat) by (rewrite length_take; csize; lia).
  cbv zeta. do 2 (typed_step; [typed_steps|]). eapply typed_bind; [apply typed_get|]. intros m Hm.
  pose proof (friend_slot_wf n ch m Hm) as Hf. destruct (friend_slot m) as [i f0]. cbn [snd] in Hf.
  typed_steps. apply typed_in_dht. by eapply typed_any, typed_DHT_addfriend.
Qed.

Lemma typed_m_addfriend_norequest id :
  length id = 32%nat -> typed I (m_addfriend_norequest id) any.
Proof.
  intros Hid. unfold m_addfriend_norequest, I. eapply typed_bind; [apply typed_get|]. intros m Hm.
  pose proof (friend_slot_wf n ch m Hm) as Hf. destruct (friend_slot m) as [i f0]. cbn [snd] in Hf.
  typed_steps. apply typed_in_dht. eapply typed_any, typed_DHT_addfriend. done.
Qed.

Lemma typed_m_delfriend i : typed I (m_delfriend i) any.
Proof.
  unfold m_delfriend, I. typed_steps. apply typed_mod. intros m Hm. apply set_friends_wf; [done|].
  apply Forall_take. match goal with H : instance_wf _ _ ?a |- Forall _ (m_friendlist ?a) => apply H end.
Qed.

Lemma typed_write_cryptpacket_id i p data : typed I (write_cryptpacket_id i p data) any.
Proof. unfold write_cryptpacket_id, I. typed_steps. Qed.
#[local] Hint Resolve typed_write_cryptpacket_id : typed.

Lemma typed_m_sendmessage_withid i id message : typed I (m_sendmessage_withid i id message) any.
Proof. unfold m_sendmessage_withid, I. typed_steps. Qed.
#[local] Hint Resolve typed_m_sendmessage_withid : typed.

Lemma typed_m_sendmessage i message : typed I (m_sendmessage i message) any.
Proof. unfold m_sendmessage, I. typed_steps. Qed.

Lemma typed_m_sendaction i action : typed I (m_sendaction i action) any.
Proof. unfold m_sendaction, I. typed_steps. Qed.

Lemma typed_m_sendname i name : typed I (m_sendname i name) any.
Proof. unfold m_sendname, I. typed_steps. Qed.

Lemma typed_send_statusmessage i s : typed I (send_statusmessage i s) any.
Proof. unfold send_statusmessage, I. typed_steps. Qed.

Lemma typed_send_userstatus i s : typed I (send_userstatus i s) any.
Proof. unfold send_userstatus, I. typed_steps. Qed.

Lemma typed_send_ping i : typed I (send_ping i) any.
Proof. unfold send_ping, I. typed_steps. Qed.
#[local] Hint Resolve typed_m_sendname typed_send_statusmessage typed_send_userstatus typed_send_ping : typed.

Lemma typed_setfriendname i name : (128 <= length name)%nat -> typed I (setfriendname i name) any.
Proof. intros Hn. unfold setfriendname, I. typed_steps. Qed.

Lemma map_friends_wf (g : Friend -> Friend) l :
  (forall f, mfriend_wf f -> mfriend_wf (g f)) -> Forall mfriend_wf l -> Forall mfriend_wf (map g l).
Proof. intros Hg Hl. apply Forall_fmap. eapply Forall_impl; [exact Hl|]. exact Hg. Qed.

Lemma typed_setname name : typed I (setname name) any.
Proof.
  unfold setname, I. destruct (_ || _) eqn:E; [typed_steps|]. apply orb_false_iff in E as [E _].
  apply Nat.ltb_ge in E. unfold MAX_NAME_LENGTH in E. typed_steps. apply typed_mod. intros m [].
  split; try done; cbn [m_friendlist m_name m_name_length set_m_friendlist set_m_name_length set_m_name].
  - apply map_friends_wf; [|done]. intros. mf_solve.
  - rewrite length_memcpy; [done|lia|lia].
  - lia.
Qed.

Lemma typed_m_set_statusmessage s : typed I (m_set_statusmessage s) any.
Proof.
  unfold m_set_statusmessage, I. destruct (_ <? _)%nat eqn:E; [typed_steps|].
  apply Nat.ltb_ge in E. unfold MAX_STATUSMESSAGE_LENGTH in E. typed_steps. apply typed_mod. intros m [].
  split; try done; cbn [m_friendlist m_statusmessage m_statusmessage_length set_m_friendlist
    set_m_statusmessage_length set_m_statusmessage].
  - apply map_friends_wf; [|done]. intros. mf_solve.
  - rewrite length_memcpy; [done|lia|lia].
  - lia.
Qed.

(** A [USERSTATUS] is an unsigned number. *)
Lemma typed_m_set_userstatus s : 0 <= s -> typed I (m_set_userstatus s) any.
Proof.
  intros Hs. unfold m_set_userstatus, I. destruct (_ <=? _) eqn:E; [typed_steps|].
  apply Z.leb_gt in E. typed_steps. apply typed_mod. intros m [].
  split; try done; cbn [m_friendlist m_userstatus set_m_friendlist set_m_userstatus].
  apply map_friends_wf; [|done]. intros. mf_solve.
Qed.

Lemma typed_set_friend_statusmessage i s :
  (length s <= 128)%nat -> typed I (set_friend_statusmessage i s) any.
Proof. intros Hs. unfold set_friend_statusmessage, I. typed_steps. Qed.

Lemma typed_set_friend_userstatus i s : typed I (set_friend_userstatus i s) any.
Proof. unfold set_friend_userstatus, I. typed_steps. Qed.

Lemma typed_m_set_sends_receipts i yesno : typed I (m_set_sends_receipts i yesno) any.
Proof. unfold m_set_sends_receipts, I. typed_steps. Qed.

Lemma typed_check_friend_connectionstatus i s : typed I (check_friend_connectionstatus i s) any.
Proof. unfold check_friend_connectionstatus, I. typed_steps. Qed.
#[local] Hint Resolve typed_check_friend_connectionstatus : typed.

Lemma typed_set_friend_status i s :
  NOFRIEND <= s <= FRIEND_ONLINE -> typed I (set_friend_status i s) any.
Proof. intros Hs. unfold set_friend_status, I. typed_steps. Qed.

Lemma typed_set_status_added i : typed I (set_friend_status i FRIEND_ADDED) any.
Proof. by apply typed_set_friend_status. Qed.
Lemma typed_set_status_requested i : typed I (set_friend_status i FRIEND_REQUESTED) any.
Proof. by apply typed_set_friend_status. Qed.
Lemma typed_set_status_confirmed i : typed I (set_friend_status i FRIEND_CONFIRMED) any.
Proof. by apply typed_set_friend_status. Qed.
Lemma typed_set_status_online i : typed I (set_friend_status i FRIEND_ONLINE) any.
Proof. by apply typed_set_friend_status. Qed.
#[local] Hint Resolve typed_set_status_added typed_set_status_requested typed_set_status_confirmed
  typed_set_status_online typed_set_friend_userstatus : typed.

(** *** The main loop *)

(** An [if] whose branches do something or nothing. *)
Lemma typed_when (b : bool) (m : M Messenger unit) : typed I m any -> typed I (if b then m else retM tt) any.
Proof. intros Hm. destruct b; [done|by apply typed_ret]. Qed.

Lemma typed_friend_added t i : is_u64 t -> typed I (friend_added t i) any.
Proof. intros Ht. unfold friend_added, I. typed_steps. Qed.

Lemma typed_DHT_getfriendip id : typed (dht_inv n ch) (DHT_getfriendip id) any.
Proof. apply typed_reads, reads_DHT_getfriendip. Qed.
#[local] Hint Resolve typed_DHT_getfriendip : typed.

Lemma typed_friend_offline t i : is_u64 t -> typed I (friend_offline t i) any.
Proof.
  intros Ht. unfold friend_offline, I. eapply typed_bind; [eauto with typed|]. intros f Hf.
  typed_step; [|typed_steps]. eapply typed_bind; [apply typed_when; typed_steps|]. intros _ _.
  typed_steps. apply typed_in_crypto, typed_crypto_connect. destruct Hf. lia.
Qed.

Lemma typed_friend_sends t i : typed I (friend_sends t i) any.
Proof.
  unfold friend_sends, I. typed_step; [typed_steps|]. typed_step; [eauto with typed|].
  do 3 (eapply typed_bind; [apply typed_when; typed_steps|]; intros _ _). typed_steps.
Qed.

Lemma typed_friend_packet t i p data : is_u64 t -> typed I (friend_packet t i p data) any.
Proof.
  intros Ht. unfold friend_packet, I. cbv zeta.
  typed_step; [typed_steps|]. typed_step.
  { destruct (_ || _) eqn:E; [typed_steps|]. apply orb_false_iff in E as [E1 E2].
    apply Z.leb_gt in E1. unfold MAX_NAME_LENGTH in E1. typed_steps. }
  typed_step.
  { typed_steps. apply typed_set_friend_statusmessage. rewrite length_take. unfold MAX_STATUSMESSAGE_LENGTH. lia. }
  typed_step; [typed_steps|]. typed_step; [|typed_steps].
  eapply typed_bind; [eauto with typed|]. intros junk _. eapply typed_bind; [eauto with typed|]. intros f Hf.
  eapply typed_bind; [apply typed_when; typed_steps|]. intros _ _. typed_steps.
Qed.

Lemma typed_friend_lost i : typed I (friend_lost i) any.
Proof. unfold friend_lost, I. typed_steps. Qed.
#[local] Hint Resolve typed_friend_sends typed_friend_packet typed_friend_lost : typed.

Lemma typed_friend_online fuel t i : is_u64 t -> typed I (friend_online fuel t i) any.
Proof.
  intros Ht. unfold I. induction fuel as [|k IH]; cbn [friend_online]; [typed_steps|].
  typed_step; [eauto with typed|]. typed_step; [|typed_steps]. typed_step; [typed_steps|].
  typed_step; [typed_steps|]. typed_step. typed_step; [|typed_steps].
  typed_step; [typed_steps|]. typed_step; [typed_steps|].
  eapply typed_bind; [apply typed_when; typed_steps|]. intros _ _. done.
Qed.

Lemma typed_doFriends : typed I doFriends any.
Proof.
  unfold doFriends, I. eapply typed_bind; [eauto with typed|]. intros t Ht. typed_steps.
  unfold doFriend. eapply typed_bind; [by apply typed_friend_added|]. intros _ _.
  eapply typed_bind; [by apply typed_friend_offline|]. intros _ _. typed_steps. by apply typed_friend_online.
Qed.

Lemma typed_doInbound : typed I doInbound any.
Proof.
  unfold doInbound, I. eapply typed_bind; [apply typed_in_crypto, typed_inbound_loop|].
  intros [[[[c k] nonce] session]|] Hr; [|typed_steps]. destruct Hr as (Hk & Hn & Hs).
  typed_steps. by apply typed_in_crypto, typed_accept_crypto_inbound.
Qed.

(** *** Packets *)

Lemma handle_request_key pk sk packet k id data :
  handle_request pk sk packet = Some (k, id, data) -> length k = 32%nat.
Proof.
  unfold handle_request. destruct (_ && _) eqn:E; [|done]. apply andb_true_iff in E as [E _].
  apply andb_true_iff in E as [E _]. apply Nat.ltb_lt in E. cbv zeta.
  destruct (decrypt_data _ _ _ _) as [[|x l]|]; [done| |done]. intros Eq. apply (inj Some) in Eq. simplify_eq.
  csize. apply length_bytes_at. lia.
Qed.

Lemma addto_receivedlist_wf fr k : fr_wf fr -> length k = 32%nat -> fr_wf (addto_receivedlist fr k).
Proof.
  intros [H1 H2 H3] Hk. unfold addto_receivedlist. set (index := if (MAX_RECEIVED_STORED <=? received_requests_index fr)%nat then 0%nat
                else received_requests_index fr).
  assert (Hi : (index < MAX_RECEIVED_STORED)%nat).
  { subst index. destruct (Nat.leb_spec MAX_RECEIVED_STORED (received_requests_index fr));
      [unfold MAX_RECEIVED_STORED; lia|done]. }
  split; cbn.
  - by rewrite length_insert.
  - apply Forall_insert; [done|]. rewrite take_ge; [done|]. csize. lia.
  - lia.
Qed.

Lemma friendreq_handlepacket_wf fr k data r fr' ev :
  fr_wf fr -> length k = 32%nat -> friendreq_handlepacket fr k data = (r, fr', ev) -> fr_wf fr'.
Proof.
  intros Hf Hk. unfold friendreq_handlepacket. repeat (case_if; [by intros [= <- <- <-]|]).
  intros [= <- <- <-]. by apply addto_receivedlist_wf.
Qed.

Lemma typed_call_request cb source k data : length k = 32%nat -> typed I (call_request cb source k data) any.
Proof.
  intros Hk. destruct cb; cbn [call_request]; unfold I.
  - eapply typed_bind; [apply typed_get|]. intros m Hm.
    destruct (friendreq_handlepacket (m_fr m) k data) as [[r fr] ev] eqn:E.
    eapply typed_bind; [apply typed_mod|].
    { intros m' []. split; try done. cbn. eapply friendreq_handlepacket_wf; [apply Hm|exact Hk|exact E]. }
    intros _ _. eapply typed_bind; [instantiate (1 := any)|intros; typed_steps].
    destruct ev as [[k' d']|]; [|typed_steps]. apply typed_mod. intros m' []. by split.
  - apply typed_in_dht, typed_keeps, keeps_handle_NATping.
Qed.

Lemma typed_cryptopacket source packet :
  typed I (cryptopacket_handle m_dht set_m_dht call_request source packet) any.
Proof.
  unfold cryptopacket_handle, I. eapply typed_bind; [apply typed_get|]. intros m Hm. cbv zeta.
  typed_step; [|typed_steps]. typed_step; [typed_steps|]. typed_step.
  - destruct (handle_request _ _ _) as [[[k id] data]|] eqn:E; [|typed_steps].
    apply handle_request_key in E. typed_step; [typed_steps|].
    destruct (_ !! id) as [cb|]; [|typed_steps]. eapply typed_bind; [by apply typed_call_request|].
    intros; typed_steps.
  - eapply typed_bind; [|intros; typed_steps]. apply (typed_in_dht n ch), typed_reads, reads_route_packet.
Qed.

Lemma typed_dispatch cb source packet : typed I (dispatch cb source packet) any.
Proof.
  unfold dispatch, I. eapply typed_bind; [instantiate (1 := any)|intros; typed_steps].
  destruct cb; try solve [typed_steps].
  - apply typed_in_dht, typed_keeps, keeps_handle_ping_request.
  - apply typed_in_dht, typed_keeps, keeps_handle_ping_response.
  - apply typed_in_dht, typed_keeps, keeps_handle_getnodes.
  - apply typed_in_dht, typed_keeps, keeps_handle_sendnodes.
  - apply typed_cryptopacket.
  - apply typed_in_dht, typed_keeps. intros d w Hd. unfold handle_LANdiscovery.
    repeat (wp_step; [wp_step; by apply dht_step_refl|]). wp_step.
    eapply wp_keeps; [apply keeps_DHT_bootstrap|done|]. intros. by wp_step.
Qed.

Lemma typed_poll : typed I (networking_poll m_handlers dispatch) any.
Proof.
  intros m w Hm. eapply wlp_mono; [apply (wlp_networking_poll m_handlers dispatch I)|].
  - intros cb src data m1 w1 Hm1 _. eapply wlp_mono; [by apply typed_dispatch|]. by intros a m2 w2 [? _].
  - done.
  - by intros a m1 w1 H1.
Qed.

(** An instance and its host. *)
Definition both (p : Messenger * Host) : Prop := I (fst p).

Lemma typed_in_m {A} (m : M Messenger A) Q : typed I m Q -> typed both (in_m m) Q.
Proof. intros Hm. by eapply typed_zoom; [exact Hm|..]. Qed.

Lemma typed_in_host {A} (m : M Host A) : typed both (in_host m) any.
Proof.
  apply (typed_zoom both (fun _ => True)); [|done|done]. intros h w _. unfold wlp.
  by destruct (m h w) as [[[? ?] ?]|].
Qed.

Lemma typed_do_DHT : typed (dht_inv n ch) do_DHT any.
Proof. apply typed_keeps, keeps_do_DHT. Qed.

Lemma typed_LANdiscovery : typed both LANdiscovery any.
Proof.
  unfold LANdiscovery. eapply typed_bind; [apply typed_get|]. intros p Hp.
  eapply typed_bind; [eauto with typed|]. intros t _. typed_step; [|typed_steps].
  eapply typed_bind; [apply typed_in_host|]. intros _ _. eapply typed_bind; [eauto with typed|]. intros t' _.
  apply typed_in_m, typed_mod. intros m []. by split.
Qed.

Lemma typed_doMessenger : typed both doMessenger any.
Proof.
  unfold doMessenger.
  eapply typed_bind; [apply typed_in_m, typed_poll|]. intros _ _.
  eapply typed_bind; [apply typed_in_m, typed_in_dht, typed_do_DHT|]. intros _ _.
  eapply typed_bind; [apply typed_in_m, typed_in_crypto, typed_do_net_crypto|]. intros _ _.
  eapply typed_bind; [apply typed_in_m, typed_doInbound|]. intros _ _.
  eapply typed_bind; [apply typed_in_m, typed_doFriends|]. intros _ _.
  apply typed_LANdiscovery.
Qed.

(** *** Loading *)

Lemma typed_load_mfriend b : length b = SIZEOF_FRIEND -> typed I (load_mfriend b) any.
Proof.
  intros Hb. unfold SIZEOF_FRIEND in Hb. unfold load_mfriend. cbv zeta.
  assert (Hid : length (take crypto_box_PUBLICKEYBYTES b) = 32%nat) by (rewrite length_take, Hb; csize; lia).
  typed_step.
  - eapply typed_bind; [by apply typed_m_addfriend_norequest|]. intros fnum _.
    eapply typed_bind; [apply typed_setfriendname|intros; typed_steps].
    unfold bytes_at. rewrite length_take, length_drop, Hb. unfold MAX_NAME_LENGTH. lia.
  - typed_step; [|typed_steps]. eapply typed_bind; [apply typed_m_addfriend|intros; typed_steps].
    rewrite !length_app, Hid. lia.
Qed.

Lemma typed_load_friends size data :
  bytes_ok data -> 0 <= size <= Z.of_nat (length data) -> size mod Z.of_nat SIZEOF_FRIEND = 0 ->
  typed I (forM (seq 0 (Z.to_nat (u16 (size / Z.of_nat SIZEOF_FRIEND))))
             (fun i => load_mfriend (bytes_at (SIZEOF_FRIEND * i) SIZEOF_FRIEND data))) any.
Proof.
  intros Hd Hs Hm. apply typed_forM. intros i Hi. apply typed_load_mfriend, length_bytes_at.
  apply elem_of_seq in Hi. unfold SIZEOF_FRIEND in *. unfold u16 in Hi. lia.
Qed.

Lemma bytes_ok_take k l : bytes_ok l -> bytes_ok (take k l).
Proof. apply Forall_take. Qed.
Lemma bytes_ok_drop k l : bytes_ok l -> bytes_ok (drop k l).
Proof. apply Forall_drop. Qed.

Lemma typed_Messenger_load data : bytes_ok data -> typed I (Messenger_load data) any.
Proof.
  intros Hd. unfold Messenger_load. cbv zeta. typed_step; [typed_steps|]. typed_step; [typed_steps|].
  apply Z.ltb_ge in Heqb0.
  eapply typed_bind; [apply typed_in_crypto, typed_load_keys; rewrite length_take; lia|]. intros _ _.
  eapply typed_bind; [apply typed_mod; intros m [? []]; by split|]. intros _ _.
  set (size := le_val (bytes_at 68 4 data)).
  assert (0 <= size) by (apply le_val_range, bytes_ok_take, bytes_ok_drop; done).
  typed_step; [typed_steps|]. apply Z.ltb_ge in Heqb1.
  eapply typed_bind; [apply typed_in_dht, typed_DHT_load|]. intros r _. typed_step; [typed_steps|].
  set (data2 := drop 4 (drop (Z.to_nat size) (drop 72 data))).
  assert (Hd2 : bytes_ok data2) by (by repeat apply bytes_ok_drop).
  assert (Hl2 : Z.of_nat (List.length data2) = Z.of_nat (List.length data) - (32 + 32 + 4 * 3) - size).
  { subst data2. rewrite !length_drop. lia. }
  set (size2 := le_val (take 4 (drop (Z.to_nat size) (drop 72 data)))).
  assert (0 <= size2) by (apply le_val_range, bytes_ok_take; by repeat apply bytes_ok_drop).
  destruct (_ || _) eqn:E; [typed_steps|]. apply orb_false_iff in E as [E1 E2].
  apply Z.ltb_ge in E1. apply negb_false_iff, Z.eqb_eq in E2.
  eapply typed_bind; [instantiate (1 := any); typed_steps|]. intros nomem _. typed_step; [typed_steps|].
  eapply typed_bind; [apply typed_load_friends; [done|lia|done]|]. intros _ _.
  typed_step; [typed_steps|]. typed_step; [typed_steps|].
  eapply typed_bind; [apply typed_setname|intros; typed_steps].
Qed.

Lemma typed_save_friends l : typed I (save_friends l) any.
Proof. unfold I. induction l; cbn [save_friends]; typed_steps. Qed.

Lemma typed_Messenger_save : typed I Messenger_save any.
Proof. unfold Messenger_save. eapply typed_bind; [apply typed_get|]. intros m Hm.
  eapply typed_bind; [apply typed_save_friends|intros; typed_steps]. Qed.
End operations.

(** ** Reachable instances *)

(** The handlers an instance has registered, once and for all. *)
Definition main_table : gmap Z packet_handler :=
list_to_map [(NET_PACKET_PING_REQUEST, handle_ping_request_cb); (NET_PACKET_PING_RESPONSE, handle_ping_response_cb);
  (NET_PACKET_GET_NODES, handle_getnodes_cb); (NET_PACKET_SEND_NODES, handle_sendnodes_cb);
  (NET_PACKET_HANDSHAKE, handle_handshake_cb); (NET_PACKET_SYNC, handle_SYNC_cb); (NET_PACKET_DATA, handle_data_cb);
  (NET_PACKET_CRYPTO, cryptopacket_handle_cb); (NET_PACKET_LAN_DISCOVERY, handle_LANdiscovery_cb)].

Definition request_table : gmap Z crypto_handler :=
list_to_map [(CRYPTO_PACKET_FRIEND_REQ, friendreq_handlepacket_cb); (CRYPTO_PACKET_NAT_PING, handle_NATping_cb)].

(** What a client can call; arrays passed in have the sizes the interface documents. *)
Inductive tox_call :=
  | C_addfriend (address data : list Z)
  | C_addfriend_norequest (client_id : list Z)
  | C_delfriend (friendnumber : Z)
  | C_sendmessage (friendnumber : Z) (message : list Z)
  | C_sendmessage_withid (friendnumber theid : Z) (message : list Z)
  | C_sendaction (friendnumber : Z) (action : list Z)
  | C_setname (name : list Z)
  | C_set_statusmessage (status : list Z)
  | C_set_userstatus (status : Z)
  | C_set_sends_receipts (friendnumber yesno : Z)
  | C_callback_friendrequest
  | C_callback (cb : callback)
  | C_bootstrap (ip_port : IP_Port) (public_key : list Z)
  | C_isconnected
  | C_do
  | C_save
  | C_load (data : list Z).

Definition tox_call_ok (c : tox_call) : Prop :=
  match c with
  | C_addfriend address _ => length address = FRIEND_ADDRESS_SIZE
  | C_addfriend_norequest client_id => length client_id = CLIENT_ID_SIZE
  | C_set_userstatus status => 0 <= status
  | C_load data => bytes_ok data
  | _ => True
  end.

Section reachable.
Context `{CryptoBoxLaws}.

Definition run_tox (c : tox_call) : M (Messenger * Host) unit :=
match c with
| C_addfriend a d => in_m (m_addfriend a d) ;;; retM tt
| C_addfriend_norequest i => in_m (m_addfriend_norequest i) ;;; retM tt
| C_delfriend i => in_m (m_delfriend i) ;;; retM tt
| C_sendmessage i x => in_m (m_sendmessage i x) ;;; retM tt
| C_sendmessage_withid i k x => in_m (m_sendmessage_withid i k x) ;;; retM tt
| C_sendaction i x => in_m (m_sendaction i x) ;;; retM tt
| C_setname x => in_m (setname x) ;;; retM tt
| C_set_statusmessage x => in_m (m_set_statusmessage x) ;;; retM tt
| C_set_userstatus x => in_m (m_set_userstatus x) ;;; retM tt
| C_set_sends_receipts i x => in_m (m_set_sends_receipts i x) ;;; retM tt
| C_callback_friendrequest => in_m (modM m_callback_friendrequest) ;;; retM tt
| C_callback cb => in_m (modM (m_callback cb)) ;;; retM tt
| C_bootstrap a k => in_m (in_dht (DHT_bootstrap a k)) ;;; retM tt
| C_isconnected => in_m (in_dht DHT_isconnected) ;;; retM tt
| C_do => doMessenger
| C_save => in_m Messenger_save ;;; retM tt
| C_load data => in_m (Messenger_load data) ;;; retM tt
end.

(** A step of an instance: a call of the client that runs to its end, in any world (the
  clocks, the datagrams that have arrived, the memory), or anything that happens to the system
  outside.  A call whose behaviour C leaves undefined ([None]: a SYNC packet with more than
  eight requests, the overflow of [missing_packets], the use of memory that could not be
  allocated, or an index that is not checked) leads nowhere: C says nothing about
  what comes after it. *)
Inductive tox_step : Messenger * Host -> Messenger * Host -> Prop :=
  | ts_call p c w p' w' : tox_call_ok c -> run_tox c p w = Some (tt, p', w') -> tox_step p p'
  | ts_host m h h' : tox_step (m, h) (m, h').

(** The states an instance goes through. *)
Definition tox_reachable (p : Messenger * Host) : Prop :=
exists h w m h' w', initMessenger h w = Some (Some m, h', w') /\ rtc tox_step (m, h') p.

Lemma run_tox_typed n ch c : tox_call_ok c -> typed (both n ch) (run_tox c) any.
Proof.
  intros Hc. destruct c; cbn [run_tox]; try (eapply typed_bind; [apply typed_in_m|intros; by apply typed_ret]).
  - apply typed_m_addfriend. simpl in Hc. rewrite Hc. unfold FRIEND_ADDRESS_SIZE. csize. lia.
  - by apply typed_m_addfriend_norequest.
  - apply typed_m_delfriend.
  - apply typed_m_sendmessage.
  - apply typed_m_sendmessage_withid.
  - apply typed_m_sendaction.
  - apply typed_setname.
  - apply typed_m_set_statusmessage.
  - by apply typed_m_set_userstatus.
  - apply typed_m_set_sends_receipts.
  - apply typed_mod. intros m [? []]. by split.
  - apply typed_mod. intros m []. by split.
  - apply typed_in_dht, typed_keeps, keeps_DHT_bootstrap.
  - apply typed_in_dht, typed_reads. intros d w Hd. unfold DHT_isconnected. by repeat wp_step.
  - apply typed_doMessenger.
  - apply typed_Messenger_save.
  - by apply typed_Messenger_load.
Qed.

Lemma tox_steps_wf n ch p p' : rtc tox_step p p' -> instance_wf n ch (fst p) -> instance_wf n ch (fst p').
Proof.
  induction 1 as [|p p1 p2 Hs _ IH]; [done|]. intros Hp. apply IH.
  destruct Hs as [p c w p1 w1 Hc E|m h h1]; [|exact Hp].
  apply (wlp_run E (run_tox_typed n ch c Hc p w Hp)).
Qed.

(** The descriptor the system hands out next is not in use. *)
Definition fresh_socket (h : Host) : Prop := forall fd, head (h_socket h) = Some fd -> h_socks h !! fd = None.

(** [initMessenger] ends; it gives NULL and leaves no socket open, or a well formed
  instance on a new socket. *)
Lemma wp_initMessenger Q h w :
  (forall h' w', (fresh_socket h -> h_socks h' = h_socks h) -> Q None h' w') ->
  (forall fd m h' w', (fresh_socket h -> h_socks h !! fd = None) -> h_socks h' = <[fd := opened h 0 PORT]> (h_socks h) ->
     instance_wf (mkNet main_table fd) request_table m -> Q (Some m) h' w') ->
  wp initMessenger Q h w.
Proof.
  intros H1 H2. unfold initMessenger. wp_step. apply wp_alloc_fails. intros [] w1; [wp_step; by apply H1|].
  wp_step. apply wp_new_networking; [by intros; wp_step; apply H1|]. intros fd h1 w2 Hfd _ Hs.
  assert (Hf : fresh_socket h -> h_socks h !! fd = None) by auto.
  assert (Hk : forall w', wp (kill_networking (mkNet ∅ fd) ;;; retM None) Q h1 w').
  { intros w'. unfold kill_networking, sys_close. repeat wp_step. apply H1. intros. cbn. rewrite Hs.
    by apply delete_insert_id, Hf. }
  wp_step. unfold new_net_crypto. wp_step. apply wp_alloc_fails. intros [] w3; [by wp_step|].
  wp_step. apply wp_alloc_fails. intros [] w4; [by wp_step|].
  wp_step. cbv beta iota. wp_step. rewrite wp_zoom. apply wp_new_DHT_tables; [done|].
  intros w5. cbv beta iota. wp_step. apply wp_entropy. intros e w6. cbv zeta. do 3 wp_step.
  eapply H2; [done|done|]. clear H1 H2 Hk.
  split; cbn; rewrite ?length_zeros; try done; try lia; [|by repeat constructor].
  split; [pose proof (idle_dht_wf (zeros 32) (zeros 32)) as []; by split|].
  destruct (keypair_length e) as [L1 L2]. split; cbn; try done.
  split; [pose proof (new_lossless_udp_wf (mkNet ∅ fd)) as []; by split|cbn; f_equal].
Qed.

End reachable.
