(* ===== verification/MessengerLife.v ===== *)
(** * Messenger.c: the life of an instance

    From [initMessenger] to [cleanupMessenger]: the invariant of every layer of an
    instance, the socket it owns, and what its main loop does with the datagrams
    that have arrived. *)

From S2P Require Import Prelude MiscTools Network Host LosslessUDP LosslessInv LosslessSafe Crypto NetCrypto CryptoThms Ping DHTLists DHT DHTDistance DHTSafe DHTThms FriendRequests LANDiscovery Frame NetCryptoInv Messenger MessengerThms MessengerInv.
From stdpp Require Import gmap relations.
Local Open Scope Z_scope.
Local Open Scope tox_scope.

Section life.
Context `{CryptoBoxLaws}.

Lemma initMessenger_result h w m h' w' :
  initMessenger h w = Some (Some m, h', w') ->
  exists fd, (fresh_socket h -> h_socks h !! fd = None) /\ h_socks h' = <[fd := opened h 0 PORT]> (h_socks h) /\
    instance_wf (mkNet main_table fd) request_table m.
Proof.
  intros E. apply (wlp_run (Q := fun o h' _ => forall m, o = Some m -> exists fd,
    (fresh_socket h -> h_socks h !! fd = None) /\ h_socks h' = <[fd := opened h 0 PORT]> (h_socks h) /\
    instance_wf (mkNet main_table fd) request_table m) E); [|done].
  apply wp_wlp, wp_initMessenger; [done|]. intros fd m' h1 w1 ??? ? [= <-]. eauto.
Qed.

(** C4: The invariant of a whole instance, through any sequence of calls of the client since
    [initMessenger], with any datagrams and any answers of the system, as long as
    each call runs to its end in C (calls that run into undefined behaviour, such as a SYNC
    packet with more than eight requests or an allocation that fails unnoticed, are not
    followed): the arrays of the messenger, its DHT, its encrypted connections and
    its transport have the sizes they are declared with; the statuses of friends and
    connections are ones the code defines; the lengths stored with names, status messages and
    friend requests do not exceed their buffers; the transport satisfies its own
    invariant [ludp_wf]; and the tables of handlers are the ones [initMessenger] set up. *)
Theorem instance_invariant p :
  tox_reachable p -> exists fd, instance_wf (mkNet main_table fd) request_table (fst p).
Proof.
  intros (h & w & m & h' & w' & E & Hs). apply initMessenger_result in E as (fd & _ & _ & Hm).
  exists fd. exact (tox_steps_wf _ _ _ _ Hs Hm).
Qed.

(** ** The datagrams that have arrived *)

Lemma quiet_dispatch cb source packet : quiet (dispatch cb source packet).
Proof.
  unfold dispatch. apply quiet_bind; [|auto with quiet].
  destruct cb; try solve [apply quiet_zoom; auto with quiet|do 3 apply quiet_zoom; auto with quiet].
  apply quiet_cryptopacket_handle. intros [] *; cbn [call_request]; [quiet_steps|].
  apply quiet_zoom; auto with quiet.
Qed.

(** C10: [networking_poll] does what a main loop should with the datagrams that have
    arrived: at any moment in the life of an instance, polling is serving each of them
    once, in the order of arrival, by the handler that [initMessenger] registered for its
    first byte; the loop ends, and stops early only at an empty datagram. *)
Theorem poll_serves m h w :
  tox_reachable (m, h) ->
  networking_poll m_handlers dispatch m w = (forM (served (w_in w)) (serve dispatch main_table) ;;; popW) m w.
Proof.
  intros (h0 & w0 & m0 & h0' & w0' & E & Hs). apply initMessenger_result in E as (fd & _ & _ & Hm).
  apply (tox_steps_wf _ _ _ _ Hs) in Hm. simpl in Hm. unfold networking_poll. unfold bindM at 1, getW.
  apply (poll_loop_serves _ _ quiet_dispatch (instance_wf (mkNet main_table fd) request_table)); [..|exact Hm|lia].
  - intros s Hi. unfold m_handlers, net_crypto.
    by rewrite (proj2 (nw_ludp _ _ _ (di_crypto _ _ _ (mw_dht _ _ _ Hi)))).
  - intros cb src data s w1 Hi. eapply wlp_mono; [by apply typed_dispatch|]. by intros ??? [].
Qed.
End life.

(** ** Witnesses *)

Section witnesses.
#[local] Existing Instance ToyBox.box.
#[local] Existing Instance ToyBox.laws.

Definition demo_system : Host := mkHost 0 [] ∅ [3; 4; 5] true (fun _ => true) (Some [lo_name; [101]]) (fun _ => Some 7).

(** An instance right after it was made, with the world it was made in. *)
Definition demo_start : option (Messenger * Host * World) :=
match initMessenger demo_system (still_world 0 100) with
| Some (Some m, h, w) => Some (m, h, w)
| _ => None
end.

Lemma instance_invariant_witness :
match demo_start with
| Some (m, h, w) =>
  match run_tox (C_addfriend_norequest (pk 1)) (m, h) w with
  | Some (_, p, _) => length (m_friendlist (fst p)) = 1%nat /\
      exists fd, instance_wf (mkNet main_table fd) request_table (fst p)
  | None => False
  end
| None => False
end.
Proof.
  assert (Hc : match demo_start with
               | Some (m, h, w) =>
                 match run_tox (C_addfriend_norequest (pk 1)) (m, h) w with
                 | Some (_, p, _) => length (m_friendlist (fst p)) = 1%nat
                 | None => False
                 end
               | None => False
               end) by (vm_compute; reflexivity).
  unfold demo_start in *. destruct (initMessenger demo_system (still_world 0 100)) as [[[[m|] h] w]|] eqn:E; try done.
  destruct (run_tox (C_addfriend_norequest (pk 1)) (m, h) w) as [[[[] p] w2]|] eqn:E2; [|done].
  split; [exact Hc|]. apply (instance_invariant p).
  exists demo_system, (still_world 0 100), m, h, w. split; [exact E|]. eapply rtc_once, ts_call; [|exact E2]. reflexivity.
Defined.

(** Three datagrams: a ping request too short to be one, one of no known kind, and, behind
  an empty one, one that is left for the next poll. *)
Definition demo_datagrams : list (IP_Port * list Z) :=
[(ipp_zero, [0; 1; 2]); (ipp_zero, [99]); (ipp_zero, []); (ipp_zero, [1])].

Lemma poll_serves_witness :
match demo_start with
| Some (m, h, w) =>
  networking_poll m_handlers dispatch m (set_in demo_datagrams w) =
    (forM [(ipp_zero, [0; 1; 2]); (ipp_zero, [99])] (serve dispatch main_table) ;;; popW) m (set_in demo_datagrams w)
| None => False
end.
Proof.
  assert (Hc : match demo_start with Some _ => True | None => False end) by (vm_compute; exact I).
  unfold demo_start in *. destruct (initMessenger demo_system (still_world 0 100)) as [[[[m|] h] w]|] eqn:E; try done.
  apply (poll_serves m h (set_in demo_datagrams w)).
  exists demo_system, (still_world 0 100), m, h, w. split; [exact E|apply rtc_refl].
Defined.
End witnesses.
