(* ===== verification/MessengerSave.v ===== *)
(** * Messenger.c: saving and loading an instance

    What [Messenger_load] makes of the bytes [Messenger_save] wrote: the keys, the
    nospam number, the friends of the DHT, the friends of the messenger and the name. *)

From S2P Require Import Prelude MiscTools Network Host LosslessUDP LosslessInv LosslessSafe Crypto NetCrypto CryptoThms Ping DHTLists DHT DHTDistance DHTSafe DHTThms FriendRequests LANDiscovery Frame NetCryptoInv Messenger MessengerThms MessengerInv.
From stdpp Require Import gmap.
Local Open Scope Z_scope.
Local Open Scope tox_scope.

(** ** The fields of a saved friend *)

Lemma bytes_at_skip off n p q :
  (length p <= off)%nat -> bytes_at off n (p ++ q) = bytes_at (off - length p) n q.
Proof. intros H. unfold bytes_at. by rewrite drop_app_ge. Qed.

Lemma bytes_at_head n p q : (n <= length p)%nat -> bytes_at 0 n (p ++ q) = take n p.
Proof. intros H. unfold bytes_at. by rewrite drop_0, take_app_le. Qed.

Lemma nth_bytes_at k (l : list Z) : nth k l 0 = nth 0 (bytes_at k 1 l) 0.
Proof. unfold bytes_at. rewrite !nth_lookup, lookup_take_lt, lookup_drop, Nat.add_0_r by lia. done. Qed.

Section fields.
Context (ptr : list Z) (f : Friend) (Hp : length ptr = 8%nat) (Hf : mfriend_ok f).

(** [field]: skip the fields before the one at the offset. *)
Ltac field_lengths :=
  rewrite ?length_le_bytes, ?length_zeros, ?(mo_id _ Hf), ?(mo_info _ Hf), ?(mo_name _ Hf), ?Hp;
  unfold MAX_NAME_LENGTH; csize; cbn [length]; lia.
Ltac field :=
  unfold mfriend_bytes; repeat (rewrite bytes_at_skip by field_lengths);
  lazymatch goal with |- context [bytes_at ?o _ _] => replace o with 0%nat by field_lengths end.

Lemma saved_id : take crypto_box_PUBLICKEYBYTES (mfriend_bytes ptr f) = f_client_id f.
Proof. unfold mfriend_bytes. apply take_app_length'. by rewrite (mo_id _ Hf). Qed.

Lemma saved_status : nth 52 (mfriend_bytes ptr f) 0 = f_status f.
Proof. rewrite nth_bytes_at. field. by rewrite bytes_at_head. Qed.

Lemma saved_info n : (n <= 1024)%nat -> bytes_at 53 n (mfriend_bytes ptr f) = take n (f_info f).
Proof. intros Hn. field. apply bytes_at_head. rewrite (mo_info _ Hf). csize. lia. Qed.

Lemma saved_name : bytes_at 1077 MAX_NAME_LENGTH (mfriend_bytes ptr f) = f_name f.
Proof.
  field. rewrite bytes_at_head by (by rewrite (mo_name _ Hf)). apply take_ge. by rewrite (mo_name _ Hf).
Qed.

Lemma saved_info_size : bytes_at 1226 2 (mfriend_bytes ptr f) = le_bytes 2 (f_info_size f).
Proof. field. apply bytes_at_head. by rewrite length_le_bytes. Qed.

Lemma saved_nospam : bytes_at 1236 4 (mfriend_bytes ptr f) = le_bytes 4 (f_friendrequest_nospam f).
Proof. field. apply bytes_at_head. by rewrite length_le_bytes. Qed.
End fields.

(** ** Loading one friend *)

(** A friend whose saved form can be loaded again. *)
Record saveable (own : list Z) (f : Friend) : Prop := {
  sv_ok : mfriend_ok f;
  sv_id : bytes_ok (f_client_id f);
  sv_status : 0 <= f_status f;
  sv_request : 0 < f_status f < 3 ->
    f_client_id f <> own /\ 1 <= f_info_size f < 984 /\ is_u32 (f_friendrequest_nospam f)
}.

(** [g] is what [f] becomes: a friend to be confirmed keeps its name, one to whom a
    request must still be sent keeps the request. *)
Definition restored (f g : Friend) : Prop :=
  f_client_id g = f_client_id f /\
  if 3 <=? f_status f then f_status g = FRIEND_CONFIRMED /\ f_name g = f_name f
  else f_status g = FRIEND_ADDED /\ f_friendrequest_nospam g = f_friendrequest_nospam f /\
       f_info_size g = f_info_size f /\
       take (Z.to_nat (f_info_size f)) (f_info g) = take (Z.to_nat (f_info_size f)) (f_info f).

(** The DHT [d] has the friends of [d0], and at most one more, if they can be counted. *)
Definition grown (d0 d : DHT) : Prop :=
  Z.of_nat (num_friends d0) < 65535 ->
  friend_ids d0 `prefix_of` friend_ids d /\ (num_friends d <= num_friends d0 + 1)%nat.

Lemma grown_refl d : grown d d.
Proof. intros _. split; [done|lia]. Qed.

Lemma grown_append d f : grown d (set_friends_list (append_friend (friends_list d) f) d).
Proof.
  intros Hn. unfold friend_ids, num_friends in *. cbn [friends_list set_friends_list].
  rewrite append_friend_small by done. rewrite map_app, length_app. split; [by eexists|simpl; lia].
Qed.

(** The state while friends are loaded: [l] are those loaded so far. *)
Record loading (c : Net_Crypto) (ids : list (list Z)) (fr : Friend_Requests) (name : list Z) (l : list Friend)
    (m : Messenger) (w : World) : Prop := {
  ld_memory : w_nomem w = [];
  ld_crypto : dht_c (m_dht m) = c;
  ld_dht : ids `prefix_of` friend_ids (m_dht m) /\ (num_friends (m_dht m) <= length ids + length l)%nat;
  ld_fr : m_fr m = fr;
  ld_name : m_name m = name;
  ld_friends : Forall2 restored l (m_friendlist m);
  ld_ids : Forall (fun f => length (f_client_id f) = 32%nat) l
}.

Section load.
Context (c : Net_Crypto) (ids : list (list Z)) (fr : Friend_Requests) (name : list Z).

Lemma restored_live l l' : Forall2 restored l l' -> Forall (fun g => 0 < f_status g) l'.
Proof.
  induction 1 as [|f g l l' [_ Hg] _ IH]; constructor; [|done].
  unfold FRIEND_CONFIRMED, FRIEND_ADDED in *. destruct (3 <=? f_status f); lia.
Qed.

Lemma restored_ids l l' : Forall2 restored l l' -> map f_client_id l' = map f_client_id l.
Proof. induction 1 as [|f g l l' [Hg _] _ IH]; simpl; congruence. Qed.

(** A key nobody has is not found, and the slot for a new friend is at the end. *)
Lemma loading_new l m w id :
  loading c ids fr name l m w -> length id = 32%nat -> id ∉ map f_client_id l ->
  getfriend_id m id = -1 /\ friend_slot m = (length (m_friendlist m), mfriend_zero).
Proof.
  intros [] Hid Hn. pose proof (restored_live _ _ ld_friends0) as Hlive.
  pose proof (restored_ids _ _ ld_friends0) as Hids. unfold getfriend_id, friend_slot. split.
  - destruct (first_index _ _) as [i|] eqn:E; [|done].
    apply first_index_Some in E as (g & Hg & Hb & _). apply andb_true_iff in Hb as [_ Hb].
    apply memcmp_eq_true in Hb. destruct Hn. rewrite <- Hids.
    apply list_elem_of_fmap. exists g. split; [|by eapply list_elem_of_lookup_2].
    assert (length (f_client_id g) = 32%nat).
    { assert (Hgi : f_client_id g ∈ map f_client_id (m_friendlist m))
        by (apply list_elem_of_fmap; exists g; split; [done|by eapply list_elem_of_lookup_2]).
      rewrite Hids in Hgi. apply list_elem_of_fmap in Hgi as (f & -> & Hf).
      by apply (proj1 (Forall_forall _ _) ld_ids0). }
    rewrite !take_ge in Hb by (csize; lia). done.
  - destruct (first_index _ _) as [i|] eqn:E; [|done].
    apply first_index_Some in E as (g & Hg & Hb & _). eapply Forall_lookup_1 in Hlive; [|done].
    apply Z.eqb_eq in Hb. unfold NOFRIEND in Hb. lia.
Qed.

Lemma calm_DHT_addfriend id : calm (DHT_addfriend id).
Proof. unfold DHT_addfriend. calm_steps. apply calm_random_id. Qed.

(** The end of [m_addfriend] and [m_addfriend_norequest], with memory. *)
Lemma wp_add_end id (F : list Z -> Friend) m w (Q : Z -> Messenger -> World -> Prop) :
  w_nomem w = [] ->
  (forall d w', w_nomem w' = [] -> dht_c d = dht_c (m_dht m) -> grown (m_dht m) d ->
     Q (Z.of_nat (length (m_friendlist m))) (set_m_friendlist (m_friendlist m ++ [F [0]]) (set_m_dht d m)) w') ->
  wp (in_dht (DHT_addfriend id) ;;; sm <- empty_statusmessage ;;
      put_friend (length (m_friendlist m)) (F sm) ;;; retM (Z.of_nat (length (m_friendlist m)))) Q m w.
Proof.
  intros Hw HQ. wp_step. unfold in_dht. rewrite wp_zoom.
  assert (Hrest : forall d w', w_nomem w' = [] -> dht_c d = dht_c (m_dht m) ->
    grown (m_dht m) d ->
    wp (sm <- empty_statusmessage ;; put_friend (length (m_friendlist m)) (F sm) ;;;
        retM (Z.of_nat (length (m_friendlist m)))) Q (set_m_dht d m) w').
  { intros d w' Hw' Hc Hids. wp_step. unfold empty_statusmessage. wp_step. unfold wp at 1. rewrite alloc_works by done.
    do 2 wp_step. unfold put_friend. do 2 wp_step. cbn [m_friendlist set_m_dht]. rewrite Nat.eqb_refl. by apply HQ. }
  eapply wp_mono; [apply wp_calm; [apply calm_DHT_addfriend|done|apply (wp_DHT_addfriend _ _ _ (fun _ d _ =>
    dht_c d = dht_c (m_dht m) /\ grown (m_dht m) d))]|].
  - intros w'. split; [done|apply grown_refl].
  - intros _ x w'. split; [done|apply grown_append].
  - intros r d w' [[Hc Hids] Hw']. by apply Hrest.
Qed.

Lemma wp_addfriend_norequest_end id m w Q :
  w_nomem w = [] -> getfriend_id m id = -1 -> friend_slot m = (length (m_friendlist m), mfriend_zero) ->
  length id = 32%nat ->
  (forall d w' g, w_nomem w' = [] -> dht_c d = dht_c (m_dht m) -> grown (m_dht m) d ->
     f_client_id g = id -> f_status g = FRIEND_CONFIRMED ->
     Q (Z.of_nat (length (m_friendlist m))) (set_m_friendlist (m_friendlist m ++ [g]) (set_m_dht d m)) w') ->
  wp (m_addfriend_norequest id) Q m w.
Proof.
  intros Hw Hnew Hslot Hid HQ. unfold m_addfriend_norequest. do 2 wp_step. rewrite Hnew. simpl negb. cbv iota.
  wp_step. rewrite Nat.add_1_r. cbn [realloc_friendlist]. wp_step. unfold wp at 1. rewrite alloc_works by done. wp_step.
  simpl negb. cbv iota. rewrite Hslot.
  apply (wp_add_end id (fun sm => set_f_receives_read_receipts 1 (set_f_message_id 0 (set_f_userstatus USERSTATUS_NONE
      (set_f_statusmessage_length 1 (set_f_statusmessage sm
      (set_f_client_id (take CLIENT_ID_SIZE id) (set_f_friendrequest_lastsent 0
      (set_f_crypt_connection_id (-1) (set_f_status FRIEND_CONFIRMED mfriend_zero)))))))))); [done|].
  intros d w' Hw' Hc Hids. apply HQ; [done..| |done]. cbn. apply take_ge. by rewrite Hid.
Qed.

Lemma wp_addfriend_end body data m w Q :
  length body = 36%nat -> bytes_ok body -> (1 <= length data)%nat -> Z.of_nat (length data) < 984 ->
  w_nomem w = [] -> take 32 body <> take 32 (m_pk m) -> getfriend_id m (take 32 body) = -1 ->
  friend_slot m = (length (m_friendlist m), mfriend_zero) ->
  (forall d w' g, w_nomem w' = [] -> dht_c d = dht_c (m_dht m) -> grown (m_dht m) d ->
     f_client_id g = take 32 body -> f_status g = FRIEND_ADDED ->
     f_friendrequest_nospam g = le_val (bytes_at 32 4 body) -> f_info_size g = Z.of_nat (length data) ->
     take (length data) (f_info g) = data ->
     Q (Z.of_nat (length (m_friendlist m))) (set_m_friendlist (m_friendlist m ++ [g]) (set_m_dht d m)) w') ->
  wp (m_addfriend (full_address body) data) Q m w.
Proof.
  intros Hl Hb Hd1 Hd2 Hw Hown Hnew Hslot HQ. unfold m_addfriend.
  rewrite (proj2 (Z.leb_gt _ _)) by exact Hd2. cbv zeta.
  rewrite address_check, address_body, Z.eqb_refl by done. simpl negb. cbv iota.
  rewrite (proj2 (Nat.ltb_ge _ _)) by lia. do 2 wp_step.
  assert (Hk : take crypto_box_PUBLICKEYBYTES (full_address body) = take 32 body).
  { unfold full_address. rewrite take_app_le; [done|]. rewrite Hl. csize. lia. }
  assert (Hns : bytes_at crypto_box_PUBLICKEYBYTES 4 (full_address body) = bytes_at 32 4 body).
  { unfold full_address. apply bytes_at_app_l. rewrite Hl. csize. lia. }
  rewrite Hk, Hns. replace (memcmp_eq _ (take 32 body) (m_pk m)) with false.
  2: { symmetry. unfold memcmp_eq. apply bool_decide_eq_false. csize. by rewrite take_take. }
  rewrite Hnew. simpl negb. cbv iota. wp_step. rewrite Nat.add_1_r. cbn [realloc_friendlist].
  wp_step. unfold wp at 1. rewrite alloc_works by done. wp_step. simpl negb. cbv iota. rewrite Hslot.
  apply (wp_add_end (take 32 body) (fun sm =>
    set_f_friendrequest_nospam (le_val (bytes_at 32 4 body)) (set_f_receives_read_receipts 1
      (set_f_message_id 0 (set_f_info_size (Z.of_nat (length data))
      (set_f_info (memcpy (f_info mfriend_zero) data (length data)) (set_f_userstatus USERSTATUS_NONE
      (set_f_statusmessage_length 1 (set_f_statusmessage sm (set_f_client_id (take 32 body)
      (set_f_friendrequest_timeout FRIENDREQUEST_TIMEOUT (set_f_friendrequest_lastsent 0
      (set_f_crypt_connection_id (-1) (set_f_status FRIEND_ADDED mfriend_zero)))))))))))))); [done|].
  intros d w' Hw' Hc Hids. apply HQ; try done. cbn. unfold memcpy. rewrite firstn_all. apply take_app_length.
Qed.

Lemma alter_last (f : Friend -> Friend) l g : alter f (length l) (l ++ [g]) = l ++ [f g].
Proof. induction l; simpl; [done|]. unfold alter in *. simpl. by f_equal. Qed.

Lemma loading_snoc l f g m w d w' :
  loading c ids fr name l m w -> mfriend_ok f -> restored f g -> w_nomem w' = [] ->
  dht_c d = dht_c (m_dht m) -> grown (m_dht m) d -> Z.of_nat (length ids + length l) < 65535 ->
  loading c ids fr name (l ++ [f]) (set_m_friendlist (m_friendlist m ++ [g]) (set_m_dht d m)) w'.
Proof.
  intros [] Hok Hg Hw Hc Hids Hnum. destruct ld_dht0 as [Hp Hn]. destruct (Hids ltac:(lia)) as [Hp' Hn'].
  split; cbn; try done.
  - congruence.
  - split; [by etrans|]. rewrite length_app. simpl. lia.
  - apply Forall2_app; [done|]. by apply Forall2_cons_2, Forall2_nil_2.
  - apply Forall_app. split; [done|]. apply Forall_singleton, Hok.
Qed.

Lemma wp_load_mfriend_new ptr f l m w :
  length ptr = 8%nat -> saveable (self_public_key c) f -> f_status f <> 0 ->
  f_client_id f ∉ map f_client_id l -> length (self_public_key c) = 32%nat ->
  Z.of_nat (length ids + length l) < 65535 -> loading c ids fr name l m w ->
  wp (load_mfriend (mfriend_bytes ptr f)) (fun _ => loading c ids fr name (l ++ [f])) m w.
Proof.
  intros Hp [Hok Hid Hst Hreq] Hs Hnew Hown Hnum Hl. pose proof (mo_id _ Hok) as Hlen.
  destruct (loading_new _ _ _ _ Hl Hlen Hnew) as [Hget Hslot].
  unfold load_mfriend. rewrite saved_id, saved_status by done. cbv zeta.
  destruct (Z.leb_spec 3 (f_status f)) as [H3|H3].
  - wp_step. apply wp_addfriend_norequest_end; [apply Hl|done|done|done|].
    intros d w' g Hw' Hc Hids Hg1 Hg2. wp_step. unfold setfriendname. do 2 wp_step.
    unfold bad_friend, numfriends. cbn [m_friendlist set_m_friendlist]. rewrite length_app.
    rewrite (proj2 (Z.leb_gt _ _)), (proj2 (Z.ltb_ge _ _)) by (simpl; lia). cbn [orb].
    wp_step. unfold mod_mfriend. do 2 wp_step. wp_step. rewrite Nat2Z.id. cbn [m_friendlist set_m_friendlist].
    rewrite alter_last, saved_name by done.
    apply (loading_snoc l f (set_f_name (take MAX_NAME_LENGTH (f_name f)) g) m w d w' Hl Hok); [|done..].
    split; [done|]. rewrite (proj2 (Z.leb_le _ _)) by done. split; [done|]. cbn. apply take_ge. by rewrite (mo_name _ Hok).
  - rewrite (proj2 (Z.eqb_neq _ _)) by done. simpl negb. cbv iota.
    destruct (Hreq ltac:(lia)) as (Hne & Hsz & Hns).
    rewrite saved_nospam, saved_info_size by done. rewrite le_val_bytes.
    replace (f_info_size f mod 256 ^ Z.of_nat 2) with (f_info_size f)
      by (symmetry; apply Z.mod_small; change (256 ^ Z.of_nat 2) with 65536; lia).
    rewrite saved_info by (done || lia). set (data := take _ (f_info f)).
    assert (Hdl : length data = Z.to_nat (f_info_size f)).
    { subst data. rewrite length_take, (mo_info _ Hok). csize. lia. }
    set (body := f_client_id f ++ le_bytes 4 (f_friendrequest_nospam f)).
    assert (Hb32 : take 32 body = f_client_id f) by (by apply take_app_length').
    wp_step. change (body ++ le_bytes 2 (address_checksum body)) with (full_address body).
    apply wp_addfriend_end; try done.
    + subst body. by rewrite length_app, length_le_bytes, Hlen.
    + apply Forall_app. split; [done|apply le_bytes_ok].
    + lia.
    + lia.
    + apply Hl.
    + rewrite Hb32. unfold m_pk, net_crypto. rewrite (ld_crypto _ _ _ _ _ _ _ Hl).
      by rewrite (take_ge (self_public_key c)) by lia.
    + by rewrite Hb32.
    + intros d w' g Hw' Hc Hids Hg1 Hg2 Hg3 Hg4 Hg5. wp_step. apply (loading_snoc l f g m w d w' Hl Hok); [|done..].
      split; [congruence|]. rewrite (proj2 (Z.leb_gt _ _)) by done. split_and!; [done| |lia|fold data; by rewrite <- Hdl].
      rewrite Hg3. subst body. change 32%nat with crypto_box_PUBLICKEYBYTES; rewrite <- Hlen, bytes_at_app_r by (by rewrite length_le_bytes).
      rewrite le_val_bytes. by apply u32_small.
Qed.

(** An empty slot is not loaded. *)
Lemma wp_load_mfriend_empty ptr f l m w :
  length ptr = 8%nat -> mfriend_ok f -> f_status f = 0 -> loading c ids fr name l m w ->
  wp (load_mfriend (mfriend_bytes ptr f)) (fun _ => loading c ids fr name l) m w.
Proof. intros Hp Hok Hs Hl. unfold load_mfriend. rewrite saved_status, Hs by done. simpl. by wp_step. Qed.
End load.

(** ** The bytes of a whole instance *)

Lemma wp_save_friends_bytes l m w (Q : list Z -> Messenger -> World -> Prop) :
  Forall mfriend_ok l ->
  (forall ptrs w', length ptrs = length l -> Forall (fun p => length p = 8%nat) ptrs ->
     Q (concat (zip_with mfriend_bytes ptrs l)) m w') ->
  wp (save_friends l) Q m w.
Proof.
  intros Hl. revert w Q. induction Hl as [|f r Hf Hr IH]; intros w Q HQ; cbn [save_friends].
  { wp_step. by apply (HQ []). }
  wp_step. apply wp_junk_bytes. intros ptr w1 Hp _. wp_step. apply IH. intros ptrs w2 Hn Hps. wp_step.
  apply (HQ (ptr :: ptrs)); [simpl; congruence|by constructor].
Qed.

Section bytes.
Context (ptrs : list (list Z)) (l : list Friend).
Context (Hn : length ptrs = length l) (Hp : Forall (fun p => length p = 8%nat) ptrs) (Hl : Forall mfriend_ok l).

Lemma length_friends_bytes : length (concat (zip_with mfriend_bytes ptrs l)) = (SIZEOF_FRIEND * length l)%nat.
Proof.
  revert ptrs Hn Hp. induction Hl as [|f r Hf Hr IH]; intros [|p ps] Hn' Hp'; try done.
  apply Forall_cons in Hp' as [Hp1 Hp2]. cbn [zip_with concat length]. rewrite length_app, length_mfriend_bytes by done.
  rewrite IH; [lia|done|by injection Hn'|done].
Qed.

Lemma friends_bytes_at i f tl :
  l !! i = Some f -> exists p, length p = 8%nat /\
    bytes_at (SIZEOF_FRIEND * i) SIZEOF_FRIEND (concat (zip_with mfriend_bytes ptrs l) ++ tl) = mfriend_bytes p f.
Proof.
  revert ptrs i Hn Hp. induction Hl as [|g r Hg Hr IH]; intros [|p ps] i Hn' Hp' Hi; try done.
  apply Forall_cons in Hp' as [Hp1 Hp2]. cbn [zip_with concat]. rewrite <- app_assoc.
  pose proof (length_mfriend_bytes p g Hp1 Hg) as Hlen. destruct i as [|i].
  - injection Hi as ->. exists p. split; [done|]. rewrite Nat.mul_0_r, bytes_at_head by (by rewrite Hlen).
    apply take_ge. by rewrite Hlen.
  - destruct (IH Hr ps i ltac:(by injection Hn') Hp2 Hi) as (q & Hq & Eq). exists q. split; [done|].
    rewrite bytes_at_skip by (rewrite Hlen; lia). rewrite Hlen. rewrite <- Eq. f_equal. lia.
Qed.
End bytes.

Section whole.
Context `{CryptoBox}.

(** The friends in use. *)
Definition in_use (l : list Friend) : list Friend := filter (fun f => f_status f <> NOFRIEND) l.

(** The loop of [Messenger_load] over the saved friends. *)
Lemma wp_load_all c ids fr name ptrs l tl m w :
  length ptrs = length l -> Forall (fun p => length p = 8%nat) ptrs -> Forall (saveable (self_public_key c)) l ->
  NoDup (map f_client_id (in_use l)) -> length (self_public_key c) = 32%nat ->
  Z.of_nat (length ids + length l) < 65536 -> loading c ids fr name [] m w ->
  wp (forM (seq 0 (length l)) (fun i => load_mfriend (bytes_at (SIZEOF_FRIEND * i) SIZEOF_FRIEND
        (concat (zip_with mfriend_bytes ptrs l) ++ tl))))
    (fun _ => loading c ids fr name (in_use l)) m w.
Proof.
  intros Hn Hp Hl Hnd Hown Hnum Hm.
  assert (Hok : Forall mfriend_ok l) by (eapply Forall_impl; [exact Hl|]; by intros f []).
  eapply wp_mono; [apply (wp_forM_seq (fun i => loading c ids fr name (in_use (take i l)))); [|done]|].
  2: { intros [] m' w'. by rewrite Nat.add_0_l, firstn_all. }
  intros i m1 w1 Hi Hm1. destruct (lookup_lt_is_Some_2 l i) as [f Hf]; [lia|].
  destruct (friends_bytes_at ptrs l Hn Hp Hok i f tl Hf) as (p & Hpl & ->).
  pose proof (Forall_lookup_1 _ _ _ _ Hl Hf) as Hsv.
  rewrite (take_S_r _ _ _ Hf). unfold in_use in *. rewrite filter_app, filter_cons, filter_nil.
  case_decide as Hs.
  - apply wp_load_mfriend_new; try done.
    2: { pose proof (length_filter (fun f => f_status f <> NOFRIEND) (take i l)) as Hf'. rewrite length_take in Hf'. lia. }
    rewrite <- (take_drop_middle _ _ _ Hf), filter_app, filter_cons, decide_True, map_app in Hnd by done.
    cbn [map] in Hnd. apply NoDup_app in Hnd as (_ & Hnd & _). intros Hin. apply (Hnd _ Hin). by left.
  - rewrite app_nil_r. apply wp_load_mfriend_empty; [done|apply Hsv|done|done].
Qed.

Lemma le_val_small n z : 0 <= z < 256 ^ Z.of_nat n -> le_val (le_bytes n z) = z.
Proof. intros Hz. rewrite le_val_bytes. by apply Z.mod_small. Qed.

Lemma take_app_exact {A} n (p q : list A) : length p = n -> take n (p ++ q) = p.
Proof. intros <-. apply take_app_length. Qed.

Lemma drop_app_exact {A} n (p q : list A) : length p = n -> drop n (p ++ q) = q.
Proof. intros <-. apply drop_app_length. Qed.

(** [Messenger_load] of a file with the parts [keys], [nospam], [dht], [friends] and
  [name] works through them in order. *)
Lemma wp_load_parts keys nospam dht friends name num Q m w :
  let file := keys ++ le_bytes 4 nospam ++ le_bytes 4 (Z.of_nat (length dht)) ++ dht ++
              le_bytes 4 (Z.of_nat (length friends)) ++ friends ++ le_bytes 2 (Z.of_nat (length name)) ++ name in
  length keys = 64%nat -> is_u32 nospam -> Z.of_nat (length file) < 4294967295 -> (length name <= 128)%nat ->
  length friends = (SIZEOF_FRIEND * num)%nat -> Z.of_nat num < 65536 -> (1 <= length name)%nat ->
  w_nomem w = [] ->
  wp (in_crypto (load_keys keys) ;;;
      modM (fun m => set_m_fr (set_nospam nospam (m_fr m)) m) ;;;
      in_dht (DHT_load dht)) (fun r m1 w1 => r = 0 /\ w_nomem w1 = [] /\
    wp (forM (seq 0 num) (fun i => load_mfriend (bytes_at (SIZEOF_FRIEND * i) SIZEOF_FRIEND
          (friends ++ le_bytes 2 (Z.of_nat (length name)) ++ name))))
       (fun _ => wp (setname name) (fun _ => Q 0)) m1 w1) m w ->
  wp (Messenger_load file) Q m w.
Proof.
  intros file Hk Hns Hlen Hnm Hfr Hnum Hnm1 Hw Hrun.
  assert (Hfl : Z.of_nat (length file) = 64 + 12 + Z.of_nat (length dht) + Z.of_nat (length friends) + 2 + Z.of_nat (length name)).
  { subst file. rewrite !length_app, !length_le_bytes. lia. }
  unfold Messenger_load. cbv zeta. rewrite (proj2 (Z.eqb_neq _ _)) by lia. rewrite (proj2 (Z.ltb_ge _ _)) by lia.
  assert (E1 : take 64 file = keys) by (by apply take_app_exact).
  assert (E2 : bytes_at 64 4 file = le_bytes 4 nospam).
  { subst file. rewrite bytes_at_skip by lia. rewrite Hk, Nat.sub_diag. rewrite bytes_at_head by (by rewrite length_le_bytes).
    apply take_ge. by rewrite length_le_bytes. }
  assert (E3 : bytes_at 68 4 file = le_bytes 4 (Z.of_nat (length dht))).
  { subst file. do 2 rewrite bytes_at_skip by (rewrite ?length_le_bytes; lia). rewrite Hk, length_le_bytes.
    change (68 - 64 - 4)%nat with 0%nat. rewrite bytes_at_head by (by rewrite length_le_bytes).
    apply take_ge. by rewrite length_le_bytes. }
  assert (E4 : drop 72 file = dht ++ le_bytes 4 (Z.of_nat (length friends)) ++ friends ++
    le_bytes 2 (Z.of_nat (length name)) ++ name).
  { subst file. rewrite !app_assoc. rewrite <- !(app_assoc _ dht). rewrite <- !app_assoc.
    rewrite (app_assoc keys), (app_assoc (keys ++ _)). apply drop_app_exact.
    by rewrite !length_app, !length_le_bytes, Hk. }
  rewrite E1, E2, E3, E4. rewrite (le_val_small 4 nospam) by exact Hns.
  rewrite (le_val_small 4 (Z.of_nat (length dht))) by (change (256 ^ Z.of_nat 4) with 4294967296; lia).
  rewrite !wp_bind in Hrun. rewrite wp_bind. eapply wp_mono; [exact Hrun|]. clear Hrun. intros [] m1 w1 H1.
  rewrite wp_bind, wp_mod in H1. rewrite wp_bind, wp_mod. rewrite (proj2 (Z.ltb_ge _ _)) by lia.
  rewrite Nat2Z.id, take_app_length, drop_app_length. rewrite wp_bind. eapply wp_mono; [exact H1|]. clear H1.
  intros r m2 w2 (-> & Hw2 & H2). cbn [Z.eqb]. rewrite (take_app_exact 4), (drop_app_exact 4) by (by rewrite length_le_bytes).
  rewrite (le_val_small 4) by (change (256 ^ Z.of_nat 4) with 4294967296; lia).
  assert (Hmul : Z.of_nat (length friends) = Z.of_nat num * Z.of_nat SIZEOF_FRIEND) by (rewrite Hfr; lia).
  rewrite (proj2 (Z.ltb_ge _ _)) by lia. rewrite Hmul, Z_mod_mult. cbn [Z.eqb negb orb].
  rewrite wp_bind. apply (wp_mono _ (fun nomem m3 w3 => nomem = false /\ m3 = m2 /\ w3 = w2)).
  { destruct (_ =? 0); [by wp_step|]. unfold wp. by rewrite alloc_works. }
  intros ? ? ? (-> & -> & ->). rewrite Z.div_mul by done. replace (Z.to_nat (u16 (Z.of_nat num))) with num
    by (rewrite u16_small by (unfold is_u16; lia); lia).
  rewrite wp_bind. eapply wp_mono; [exact H2|]. clear H2. intros [] m4 w4 H4.
  rewrite <- Hmul, Nat2Z.id, drop_app_length. rewrite (proj2 (Z.ltb_ge _ _)) by lia.
  rewrite (take_app_exact 2), (drop_app_exact 2) by (by rewrite length_le_bytes).
  rewrite (le_val_small 2) by (change (256 ^ Z.of_nat 2) with 65536; lia).
  rewrite (proj2 (Z.eqb_eq _ _)) by lia. cbn [negb]. rewrite wp_bind. eapply wp_mono; [exact H4|]. intros. by wp_step.
Qed.
End whole.

(** * Claims *)

Section claims.
Context `{CryptoBox}.

(** An instance that can be saved: its friends, no key twice, fit the size fields, and those of
    the DHT, with those of the messenger that are added to them, its 16-bit counter. *)
Record saveable_instance (m : Messenger) : Prop := {
  si_wf : messenger_wf m;
  si_friends : Forall (saveable (m_pk m)) (m_friendlist m);
  si_nodup : NoDup (map f_client_id (in_use (m_friendlist m)));
  si_number : Z.of_nat (length (m_friendlist m)) < 65536;
  si_dht : NoDup (friend_ids (m_dht m)) /\
           Z.of_nat (num_friends (m_dht m) + length (m_friendlist m)) < 65536;
  si_size : Z.of_nat (Messenger_size m) < 4294967295;
  si_name : 1 <= m_name_length m;
  si_nospam : is_u32 (get_nospam (m_fr m))
}.

(** C9: Saving and loading an instance is a round trip: what [Messenger_save] writes,
    [Messenger_load] accepts in any new instance with memory; afterwards the keys, the
    nospam number and the name are those that were saved, the friends are the ones in use,
    in their order, each with its name if it was confirmed and with its request if that has
    yet to be answered, and the DHT looks for the keys it looked for before, in the same order,
    and perhaps for more.  The instance that is saved has a name, no friend twice, and not more
    friends than the size fields and the 16-bit counter of the DHT can count
    ([saveable_instance]). *)
Theorem Messenger_save_load m w :
  saveable_instance m ->
  wp Messenger_save (fun b _ _ =>
    forall m0 w0, dht_wf (m_dht m0) -> friends_list (m_dht m0) = [] -> m_friendlist m0 = [] ->
      length (m_name m0) = MAX_NAME_LENGTH -> w_nomem w0 = [] ->
      wp (Messenger_load b) (fun r m1 _ =>
        r = 0 /\
        save_keys (net_crypto m1) = save_keys (net_crypto m) /\
        get_nospam (m_fr m1) = get_nospam (m_fr m) /\
        getself_name m1 128 = getself_name m 128 /\
        Forall2 restored (in_use (m_friendlist m)) (m_friendlist m1) /\
        friend_ids (m_dht m) `prefix_of` friend_ids (m_dht m1)) m0 w0) m w.
Proof.
  intros [[Hd [Hk1 Hk2] Hok [Hn1 Hn2]] Hsv Hnd Hnum [Hdn Hdnum] Hsize Hname Hns].
  unfold Messenger_save. do 3 wp_step. apply wp_save_friends_bytes; [done|]. intros ptrs w1 Hpn Hp. wp_step.
  intros m0 w0 Hd0 Hf0 Hl0 Hnm0 Hw0.
  pose proof (length_friends_bytes ptrs (m_friendlist m) Hpn Hp Hok) as Hfl.
  assert (Hnl : length (take (Z.to_nat (m_name_length m)) (m_name m)) = Z.to_nat (m_name_length m)).
  { rewrite length_take, Hn1. lia. }
  set (name := take (Z.to_nat (m_name_length m)) (m_name m)) in *.
  rewrite <- Hfl. rewrite <- (length_DHT_save (m_dht m)) by done.
  replace (m_name_length m) with (Z.of_nat (length name)) at 1 by lia.
  assert (Hkeys : length (save_keys (net_crypto m)) = 64%nat).
  { unfold save_keys. rewrite length_app, Hk1, Hk2. done. }
  apply (wp_load_parts _ _ _ _ _ (length (m_friendlist m))); try done; try lia.
  { rewrite !length_app, !length_le_bytes, Hkeys, Hfl, Hnl, length_DHT_save by done.
    unfold Messenger_size in Hsize. csize. lia. }
  { unfold MAX_NAME_LENGTH in *. lia. }
  unfold in_crypto, in_dht, in_nc, load_keys. rewrite wp_bind, !wp_zoom. do 3 wp_step. rewrite wp_zoom.
  set (c := set_self_secret_key _ _). cbn [m_dht set_m_dht set_m_fr].
  assert (Hc : save_keys c = save_keys (net_crypto m)).
  { subst c. unfold save_keys at 1. cbn [self_public_key self_secret_key set_self_secret_key set_self_public_key].
    unfold save_keys. rewrite (take_app_exact _ (self_public_key _)) by done. f_equal. unfold bytes_at.
    rewrite (drop_app_exact _ (self_public_key _)) by done. apply take_ge. by rewrite Hk2. }
  assert (Hpk : self_public_key c = m_pk m) by (subst c; by apply take_app_exact).
  clearbody c. eapply wp_steady; [apply steady_DHT_load|].
  eapply wp_mono; [apply (DHT_load_saved (set_dht_c c (m_dht m0)) w0 (m_dht m)); try done; [lia|destruct Hd0; by split]|].
  intros r d1 w2 (-> & Hd1 & Hids & Hw2) Hsame. split_and!; [done|done|].
  eapply wp_mono; [apply (wp_load_all c (friend_ids (m_dht m)) (set_nospam (get_nospam (m_fr m)) (m_fr m0)) (m_name m0)); try done|].
  - by rewrite Hpk.
  - by rewrite Hpk.
  - unfold friend_ids. rewrite length_map. exact Hdnum.
  - split; cbn; try done.
    + split; [by rewrite Hids|]. rewrite <- Hids. unfold friend_ids, num_friends. rewrite length_map. lia.
    + by rewrite Hl0.
  - intros [] m1 w3 [_ Hc1 [Hd1' _] Hfr1 Hn1' Hf1 _]. unfold setname. 
    rewrite (proj2 (Nat.ltb_ge _ _)) by (unfold MAX_NAME_LENGTH in *; lia).
    rewrite (proj2 (Nat.eqb_neq _ _)) by lia. cbn [orb]. do 3 wp_step.
    unfold net_crypto, getself_name. cbn. rewrite Hc1, Hfr1. split_and!; [done|done|done| | |done].
    + rewrite Z.min_r, Nat2Z.id by (unfold MAX_NAME_LENGTH in *; lia).
      rewrite Z.min_r by (unfold MAX_NAME_LENGTH in *; lia). fold name.
      unfold memcpy. rewrite firstn_all. apply take_app_length.
    + apply Forall2_fmap_r. eapply Forall2_impl; [exact Hf1|]. by intros f g [].
Qed.
End claims.

(** ** Witness *)

Section witnesses.
#[local] Existing Instance ToyBox.box.
#[local] Existing Instance ToyBox.laws.

(** A friend that has been confirmed, an empty slot, and one who has yet to answer. *)
Definition demo_saved : Messenger :=
set_m_name_length 2 (set_m_name ([104; 105] ++ zeros 126) (set_m_friendlist
  [set_f_status FRIEND_ONLINE (set_f_client_id (pk 3) mfriend_zero); mfriend_zero;
   set_f_status FRIEND_REQUESTED (set_f_info_size 3 (set_f_client_id (pk 4) mfriend_zero))] demo_m)).

Lemma demo_saveable : saveable_instance demo_saved.
Proof.
  assert (Hpk : forall k, bytes_ok (pk k)) by (intros k; apply le_bytes_ok).
  assert (Hz : forall k s n, mfriend_ok (set_f_status s (set_f_info_size n (set_f_client_id (pk k) mfriend_zero)))).
  { intros k s n. split; [apply length_pk|by cbn; rewrite length_zeros..]. }
  split.
  - split; [destruct (idle_dht_wf (pk 2) (sk 2)); by split|by split| |split; [reflexivity|change (0 <= 2 <= 128); lia]].
    repeat apply Forall_cons_2; [apply (Hz 3 _ 0)| |apply Hz|apply Forall_nil_2]. by split; cbn; rewrite ?length_zeros.
  - repeat apply Forall_cons_2; [..|apply Forall_nil_2].
    + split; [apply (Hz 3 _ 0)|apply Hpk|cbn; unfold FRIEND_ONLINE; lia|cbn; unfold FRIEND_ONLINE; lia].
    + split; [by split; cbn; rewrite ?length_zeros|by apply Forall_replicate|cbn; lia|cbn; lia].
    + split; [apply Hz|apply Hpk|cbn; unfold FRIEND_REQUESTED; lia|]. intros _.
      split_and!; [discriminate|by vm_compute|by vm_compute|unfold is_u32; cbn; lia].
  - vm_compute. repeat constructor; set_solver.
  - cbn. lia.
  - split; [constructor|cbn; lia].
  - reflexivity.
  - cbn. lia.
  - unfold is_u32. cbn. lia.
Qed.

Lemma Messenger_save_load_witness :
wp Messenger_save (fun b _ _ =>
  wp (Messenger_load b) (fun r m1 _ => r = 0 /\ map f_client_id (m_friendlist m1) = [pk 3; pk 4] /\
    getself_name m1 128 = [104; 105]) (set_m_friendlist [] demo_m) (still_world 0 100))
  demo_saved (still_world 0 100).
Proof.
  eapply wp_mono; [apply (Messenger_save_load demo_saved (still_world 0 100)), demo_saveable|].
  intros b m1 w1 Hb. eapply wp_mono; [apply (Hb (set_m_friendlist [] demo_m) (still_world 0 100))|].
  - destruct (idle_dht_wf (pk 2) (sk 2)). by split.
  - reflexivity.
  - reflexivity.
  - reflexivity.
  - reflexivity.
  - intros r m2 w2 (Hr & _ & _ & Hn & Hf & _). split_and!; [exact Hr| |rewrite Hn; vm_compute; reflexivity].
    rewrite (restored_ids _ _ Hf). reflexivity.
Defined.
End witnesses.
