(* ===== verification/MessengerLoop.v ===== *)
(** * Messenger.c: reading the packets of a friend

    The [while] loop of [doFriends] that reads what an online friend has sent runs on
    fuel in the model ([friend_online]); here it is shown that the fuel [doFriend]
    gives it, one more than the number of packets waiting, is always enough, so that
    the loop ends. *)

From S2P Require Import Prelude MiscTools Network LosslessUDP LosslessInv LosslessSafe Crypto NetCrypto CryptoThms Ping DHTLists DHT DHTDistance DHTSafe DHTThms FriendRequests LANDiscovery Messenger MessengerThms.
Local Open Scope Z_scope.
Local Open Scope tox_scope.

(** ** The encrypted connection *)

(** Crypto connection [i] runs on a connection that exists and holds [n] unread
    packets. *)
Definition link_ok (i : Z) (n : nat) (s : Net_Crypto) : Prop :=
  ludp_wf (lossless_udp s) /\
  exists cc c, cc_at s i cc /\ conn_at (lossless_udp s) (cc_number cc) c /\
    recvqueue_conn c = Z.of_nat n.

Lemma recvqueue_read c n :
  recvqueue_conn c = Z.of_nat n -> recvqueue_conn c <> 0 ->
  exists k, n = S k /\ recvqueue_conn (snd (read_packet_conn c)) = Z.of_nat k.
Proof.
  intros Hn Hz. destruct n as [|k]; [done|]. exists k. split; [done|].
  unfold recvqueue_conn, read_packet_conn in *. simpl. uarith.
Qed.

Lemma cc_at_put s i cc cc' :
  cc_at s i cc -> cc_at (set_crypto_connections (<[Z.to_nat i := cc']> (crypto_connections s)) s) i cc'.
Proof.
  intros [Hi Hl]. split; [done|]. simpl. apply list_lookup_insert_eq. by eapply lookup_lt_Some.
Qed.

Section link.
Context `{CryptoBox}.

Lemma wp_write_link i n data s w :
  link_ok i n s -> wp (write_cryptpacket i data) (fun _ s' _ => link_ok i n s') s w.
Proof.
  intros Hs. pose proof Hs as (Hwf & cc & c & Hcc & Hc & Hn). unfold write_cryptpacket. do 2 wp_step.
  rewrite (cc_at_valid _ _ _ Hcc). simpl negb. cbv iota. wp_step; [by wp_step|]. wp_step.
  erewrite wp_get_cc by done. wp_step; [by wp_step|].
  destruct (encrypt_data_fast _ _ _) as [enc|]; [|by wp_step]. wp_step. unfold ludp. rewrite wp_zoom.
  eapply wp_write_packet; [done|done| |].
  - intros _. simpl. wp_step. by destruct s.
  - intros _ _ Hwf'. simpl. wp_step. unfold put_cc. do 2 wp_step.
    split; [done|]. eexists _, _. split_and!; [eapply cc_at_put; exact Hcc|by eapply conn_at_upd|done].
Qed.

Lemma wp_read_link i n s w :
  link_ok i n s ->
  wp (read_cryptpacket i) (fun r s' _ =>
    exists k, link_ok i k s' /\ (0 < fst r -> n = S k)) s w.
Proof.
  intros Hs. pose proof Hs as (Hwf & cc & c & Hcc & Hc & Hn). unfold read_cryptpacket. do 2 wp_step.
  rewrite (cc_at_valid _ _ _ Hcc). simpl negb. cbv iota. wp_step.
  erewrite wp_get_cc by done. wp_step; [wp_step; exists n; split; [done|simpl; lia]|].
  wp_step. unfold ludp. rewrite wp_zoom. apply wp_read_packet; [done| |].
  - intros _. simpl. wp_step. exists n. split; [by destruct s|simpl; lia].
  - intros c' Hc' Hne Hwf'. unfold conn_at in Hc, Hc'. rewrite Hc in Hc'. injection Hc' as <-.
    destruct (recvqueue_read c n Hn Hne) as (k & -> & Hk).
    assert (Hs' : link_ok i k (set_lossless_udp (upd (lossless_udp s) (cc_number cc) (snd (read_packet_conn c))) s)).
    { split; [done|]. exists cc, (snd (read_packet_conn c)). split_and!; [done|by eapply conn_at_upd|done]. }
    cbv beta iota zeta. wp_step; [wp_step; exists k; split; [done|simpl; lia]|].
    wp_step; [wp_step; exists k; split; [done|simpl; lia]|].
    destruct (decrypt_data_fast _ _ _) as [plain|]; [|wp_step; exists k; split; [done|simpl; lia]].
    wp_step. unfold put_cc. do 2 wp_step. exists k. split; [|done]. split; [done|].
    eexists _, _. split_and!; [eapply cc_at_put; exact Hcc|by eapply conn_at_upd|done].
Qed.

(** Closing: the transport stays well formed. *)
Lemma wp_kill_link i n s w :
  link_ok i n s -> wp (crypto_kill i) (fun _ s' _ => ludp_wf (lossless_udp s')) s w.
Proof. intros [Hwf _]. by apply wp_crypto_kill. Qed.
End link.

(** ** The loop *)

Section loop.
Context `{CryptoBox} (t0 : Z).

(** At time [t0] the friend has not timed out. *)
Definition awake (f : Friend) : Prop := t0 <= u64 (f_ping_lastrecv f + FRIEND_CONNECTION_TIMEOUT).

(** Friend [i] uses crypto connection [id], on which [n] packets wait, and has not timed
    out at time [t0]; and there is memory. *)
Definition loop_inv (i id : Z) (n : nat) (m : Messenger) (w : World) : Prop :=
  0 <= i /\ link_ok id n (net_crypto m) /\ w_nomem w = [] /\
  exists f, m_friendlist m !! Z.to_nat i = Some f /\ f_crypt_connection_id f = id /\ awake f.

Definition stays {A} (i id : Z) (n : nat) (x : M Messenger A) : Prop :=
  forall m w, loop_inv i id n m w -> wp x (fun _ => loop_inv i id n) m w.

Section rules.
Context (i id : Z) (n : nat).

Lemma stays_ret {A} (a : A) : stays i id n (retM a).
Proof. intros m w Hm. by wp_step. Qed.

Lemma stays_bind {A B} (x : M Messenger A) (k : A -> M Messenger B) :
  stays i id n x -> (forall a, stays i id n (k a)) -> stays i id n (bindM x k).
Proof. intros Hx Hk m w Hm. wp_step. eapply wp_mono; [by apply Hx|]. intros a m1 w1. apply Hk. Qed.

Lemma stays_get : stays i id n getM.
Proof. intros m w Hm. by wp_step. Qed.

Lemma stays_get_friend : stays i id n (get_mfriend i).
Proof.
  intros m w Hm. pose proof Hm as (Hi & _ & _ & f & Hf & _). unfold get_mfriend. do 2 wp_step.
  rewrite (proj2 (Z.ltb_ge _ _)) by done. apply wp_liftO. by exists f.
Qed.

Lemma stays_mod_friend g :
  (forall f, f_crypt_connection_id (g f) = f_crypt_connection_id f) -> (forall f, awake f -> awake (g f)) ->
  stays i id n (mod_mfriend i g).
Proof.
  intros Hg Ha m w (Hi & Hl & Hw & f & Hf & Hid & Haw). unfold mod_mfriend. wp_step. split_and!; [done..|].
  exists (g f). cbn [m_friendlist set_m_friendlist]. rewrite list_lookup_alter_eq, Hf. split_and!; [done|by rewrite Hg|by apply Ha].
Qed.

Lemma stays_call_cb cb e : stays i id n (call_cb cb e).
Proof. intros m w Hm. unfold call_cb. wp_step. by case_bool_decide. Qed.

Lemma stays_unix_time : stays i id n unix_time.
Proof.
  intros m w (Hi & Hl & Hw & Hf). eapply wp_mono; [apply wp_calm; [apply calm_unix_time|done|]|].
  - apply (wp_unix_time (fun _ m' _ => m' = m)). done.
  - by intros t m' w' [-> Hw'].
Qed.

Lemma stays_junk_bytes k : stays i id n (junk_bytes k).
Proof.
  intros m w (Hi & Hl & Hw & Hf). eapply wp_mono; [apply wp_calm; [apply calm_junk_bytes|done|]|].
  - apply (wp_junk_bytes k (fun _ m' _ => m' = m)). done.
  - by intros t m' w' [-> Hw'].
Qed.

Lemma stays_alloc {A} (k : bool -> M Messenger A) : stays i id n (k false) -> stays i id n (bindM alloc_fails k).
Proof.
  intros Hk m w Hm. pose proof Hm as (_ & _ & Hw & _). wp_step. unfold wp at 1.
  rewrite alloc_works by done. by apply Hk.
Qed.

Lemma stays_write data : stays i id n (in_crypto (write_cryptpacket id data)).
Proof.
  intros m w (Hi & Hl & Hw & Hf). unfold in_crypto, in_dht, in_nc. rewrite !wp_zoom.
  eapply wp_mono; [apply wp_calm; [|done|by apply (wp_write_link id n)]|].
  - unfold write_cryptpacket, get_cc, put_cc, ludp, write_packet, get_conn, put_conn. calm_steps.
  - intros r s w1 [Hs Hw1]. by split_and!.
Qed.

Lemma stays_write_id packet_id data : stays i id n (write_cryptpacket_id i packet_id data).
Proof.
  unfold write_cryptpacket_id. apply stays_bind; [apply stays_get|]. intros m0.
  case_if; [apply stays_ret|]. intros m w Hm. pose proof Hm as (Hi & _ & _ & f & Hf & Hid & _).
  wp_step. unfold get_mfriend. do 2 wp_step. rewrite (proj2 (Z.ltb_ge _ _)) by done.
  apply wp_liftO. exists f. split; [done|]. wp_step; [by wp_step|]. rewrite Hid. by apply stays_write.
Qed.
End rules.

Ltac stays_steps :=
  repeat (intros; cbv beta zeta;
    lazymatch goal with
    | |- stays _ _ _ (bindM alloc_fails _) => apply stays_alloc
    | |- stays _ _ _ (bindM _ _) => apply stays_bind
    | |- stays _ _ _ (if ?b then _ else _) => destruct b
    | |- stays _ _ _ (retM _) => apply stays_ret
    | |- stays _ _ _ getM => apply stays_get
    | |- stays _ _ _ (get_mfriend _) => apply stays_get_friend
    | |- stays _ _ _ (mod_mfriend _ _) => apply stays_mod_friend; [done|by auto]
    | |- stays _ _ _ (call_cb _ _) => apply stays_call_cb
    | |- stays _ _ _ unix_time => apply stays_unix_time
    | |- stays _ _ _ (junk_bytes _) => apply stays_junk_bytes
    | |- stays _ _ _ (write_cryptpacket_id _ _ _) => apply stays_write_id
    end).

Lemma stays_friend_sends i id n t : stays i id n (friend_sends t i).
Proof.
  unfold friend_sends, m_sendname, send_statusmessage, send_userstatus, send_ping. stays_steps.
Qed.

Lemma stays_friend_packet i id n t packet_id data :
  t0 <= u64 (t + FRIEND_CONNECTION_TIMEOUT) -> stays i id n (friend_packet t i packet_id data).
Proof.
  intros Ht. unfold friend_packet, set_friend_statusmessage, set_friend_userstatus. stays_steps.
Qed.

(** After the loop the friend is still there and the transport is sound. *)
Definition loop_end (i : Z) (m : Messenger) : Prop :=
  ludp_wf (lossless_udp (net_crypto m)) /\ exists f, m_friendlist m !! Z.to_nat i = Some f.

Lemma loop_inv_end i id n m w : loop_inv i id n m w -> loop_end i m.
Proof. intros (_ & (Hwf & _) & _ & f & Hf & _). by split; [|exists f]. Qed.

Lemma wp_friend_lost i id n m w :
  loop_inv i id n m w ->
  wp (friend_lost i) (fun _ m' _ => loop_end i m' /\
    exists f, m_friendlist m' !! Z.to_nat i = Some f /\ f_status f = FRIEND_CONFIRMED) m w.
Proof.
  intros (Hi & Hl & Hw & f & Hf & Hid & _).
  assert (Hget : forall m' w' f' (Q : Friend -> Messenger -> World -> Prop),
    m_friendlist m' !! Z.to_nat i = Some f' -> Q f' m' w' -> wp (get_mfriend i) Q m' w').
  { intros m' w' f' Q Hf' HQ. unfold get_mfriend. do 2 wp_step. rewrite (proj2 (Z.ltb_ge _ _)) by done.
    apply wp_liftO. by exists f'. }
  unfold friend_lost. wp_step. apply (Hget _ _ f); [done|]. wp_step. rewrite Hid.
  unfold in_crypto, in_dht, in_nc. rewrite !wp_zoom. eapply wp_mono; [by apply (wp_kill_link id n)|].
  intros r s w1 Hwf. wp_step. unfold mod_mfriend at 1. wp_step.
  unfold set_friend_status. wp_step. unfold check_friend_connectionstatus.
  change (FRIEND_CONFIRMED =? NOFRIEND) with false. cbv iota. wp_step.
  eapply Hget; [cbn; by rewrite list_lookup_alter_eq, Hf|].
  assert (Hfin : forall m1 w2, m_friendlist m1 !! Z.to_nat i = Some (set_f_crypt_connection_id (-1) f) ->
    ludp_wf (lossless_udp (net_crypto m1)) ->
    wp (mod_mfriend i (set_f_status FRIEND_CONFIRMED)) (fun _ m' _ => loop_end i m' /\
      exists f, m_friendlist m' !! Z.to_nat i = Some f /\ f_status f = FRIEND_CONFIRMED) m1 w2).
  { intros m1 w2 Hm1 Hwf1. unfold mod_mfriend. wp_step.
    assert (m_friendlist (set_m_friendlist (alter (set_f_status FRIEND_CONFIRMED) (Z.to_nat i) (m_friendlist m1)) m1)
      !! Z.to_nat i = Some (set_f_status FRIEND_CONFIRMED (set_f_crypt_connection_id (-1) f))) as E.
    { cbn [m_friendlist set_m_friendlist]. by rewrite list_lookup_alter_eq, Hm1. }
    split; [split; [done|by eexists]|]. by eexists. }
  wp_step.
  - unfold call_cb. wp_step. apply Hfin; case_bool_decide; try done; cbn; by rewrite list_lookup_alter_eq, Hf.
  - wp_step. apply Hfin; [|done]. cbn. by rewrite list_lookup_alter_eq, Hf.
Qed.

Lemma wp_friend_online t i id n fuel m w :
  t0 <= u64 (t + FRIEND_CONNECTION_TIMEOUT) -> loop_inv i id n m w -> (n < fuel)%nat ->
  wp (friend_online fuel t i) (fun _ m' _ => loop_end i m') m w.
Proof.
  intros Ht. revert n m w. induction fuel as [|k IH]; intros n m w Hm Hn; [lia|]. cbn [friend_online].
  pose proof Hm as (Hi & _ & _ & f & Hf & Hid & _). wp_step. unfold get_mfriend at 1. do 2 wp_step.
  rewrite (proj2 (Z.ltb_ge _ _)) by done. apply wp_liftO. exists f. split; [done|].
  wp_step; [|wp_step; by eapply loop_inv_end]. wp_step.
  eapply wp_mono; [by apply (stays_friend_sends i id n t)|]. intros ? m1 w1 Hm1. wp_step. rewrite Hid.
  pose proof Hm1 as (_ & Hl & Hw & f1 & Hf1 & Hid1).
  unfold in_crypto at 1, in_dht at 1, in_nc at 1. rewrite !wp_zoom.
  eapply wp_mono; [apply wp_calm; [|done|by apply (wp_read_link id n)]|].
  { unfold read_cryptpacket, get_cc, put_cc, ludp, read_packet, get_conn, put_conn. calm_steps. }
  intros [len temp] s w2 [(j & Hj & Hlen) Hw2]. cbn [fst] in Hlen. cbv beta iota.
  set (m2 := set_m_dht _ m1). assert (Hm2 : loop_inv i id j m2 w2) by (split_and!; [done|done|done|by exists f1]).
  clearbody m2. destruct (Z.ltb_spec 0 len) as [Hpos|Hneg].
  - specialize (Hlen Hpos). subst n. wp_step.
    eapply wp_mono; [by apply (stays_friend_packet i id j t)|]. intros ? m3 w3 Hm3. wp_step.
    pose proof Hm3 as (_ & _ & _ & f3 & Hf3 & _). unfold get_mfriend at 1. do 2 wp_step.
    rewrite (proj2 (Z.ltb_ge _ _)) by done. apply wp_liftO. exists f3. split; [done|]. wp_step. wp_step.
    + eapply wp_mono; [eapply wp_friend_lost; exact Hm3|]. intros ? m4 w4 [Hend (f4 & Hf4 & Hst)].
      destruct k; cbn [friend_online]; wp_step; unfold get_mfriend at 1; do 2 wp_step;
        rewrite (proj2 (Z.ltb_ge _ _)) by done; apply wp_liftO; exists f4; (split; [done|]); rewrite Hst;
        change (FRIEND_CONFIRMED =? FRIEND_ONLINE) with false; by wp_step.
    + wp_step. apply (IH j); [done|lia].
  - do 2 wp_step. wp_step; [|wp_step; by eapply loop_inv_end].
    eapply wp_mono; [by eapply wp_friend_lost|]. by intros ? m4 w4 [? _].
Qed.
End loop.

(** ** Killing a connection *)

Lemma wp_crypto_kill_gone i s w :
  ludp_wf (lossless_udp s) ->
  wp (crypto_kill i) (fun _ s' _ => is_cryptoconnected s' i = CONN_NO_CONNECTION) s w.
Proof.
  intros Hwf. apply wp_crypto_kill; [done|..].
  - intros Hno. unfold is_cryptoconnected. destruct (cc_valid s i) eqn:Hv; [|done].
    apply cc_valid_at in Hv as [cc Hcc]. apply Hno in Hcc as Hl. destruct Hcc as [_ Hcc].
    rewrite nth_lookup, Hcc. unfold cc_live in Hl. bool_to_prop. done.
  - intros cc l w' [_ Hcc] _ _. unfold is_cryptoconnected. cbn. case_if; [|done].
    rewrite nth_lookup. unfold ccs_without. cbv zeta.
    destruct (take _ _ !! Z.to_nat i) as [y|] eqn:E; [|done].
    apply lookup_take_Some in E as [E _]. rewrite list_lookup_insert_eq in E by (by eapply lookup_lt_Some).
    by injection E as <-.
Qed.

(** * Claims *)

Section claims.
Context `{CryptoBox}.

(** C32: the loop of [doFriends] that reads the packets of an online friend ends: with
  the fuel [doFriend] gives it, which is one more than the packets waiting on the
  friend's connection, it runs to the end, whatever the packets contain, as long as memory
  is available; every access is inside of its array but the one of [free_connections],
  behind the array of connections, when a friend that timed out is dropped: its value is
  taken to be arbitrary ([over_read]).  The friend stays in its place and the transport
  stays sound. *)
Theorem friend_loop_ends (m : Messenger) (w : World) (t i : Z) (f : Friend) (cc : Crypto_Connection)
  (c : Connection) :
w_nomem w = [] -> ludp_wf (lossless_udp (net_crypto m)) -> 0 <= i ->
m_friendlist m !! Z.to_nat i = Some f -> cc_at (net_crypto m) (f_crypt_connection_id f) cc ->
conn_at (lossless_udp (net_crypto m)) (cc_number cc) c ->
wp (friend_online (online_fuel m f) t i) (fun _ m' _ => loop_end i m') m w.
Proof.
intros Hw Hwf Hi Hf Hcc Hc.
assert (Hq : 0 <= recvqueue_conn c) by (unfold recvqueue_conn; pose proof (u32_range (recv_packetnum c - successful_read c)); unfold is_u32 in *; lia).
assert (H64 : forall k, 0 <= u64 k) by (intros k; apply u64_range).
apply (wp_friend_online 0 t i (f_crypt_connection_id f) (Z.to_nat (recvqueue_conn c))); [apply H64| |].
- split_and!; [done| |done|exists f; split_and!; [done..|apply H64]]. split; [done|]. exists cc, c. split_and!; [done..|lia].
- unfold online_fuel. rewrite (proj2 Hcc). rewrite (recvqueue_at _ _ _ Hc). lia.
Qed.

(** Deleting a friend that is not there cuts somebody else off: an empty slot of
  the friend list has all its fields zero, so its connection number is 0, a valid
  one; [m_delfriend] of such a slot closes crypto connection 0, whoever uses it. *)
Theorem m_delfriend_empty_slot (m : Messenger) (w : World) (i : Z) :
ludp_wf (lossless_udp (net_crypto m)) -> 0 <= i ->
m_friendlist m !! Z.to_nat i = Some mfriend_zero ->
wp (m_delfriend i) (fun _ m' _ => is_cryptoconnected (net_crypto m') 0 = CONN_NO_CONNECTION) m w.
Proof.
intros Hwf Hi Hf. unfold m_delfriend. do 2 wp_step.
assert (bad_friend m i = false) as Hb.
{ unfold bad_friend, numfriends. apply lookup_lt_Some in Hf. apply orb_false_iff.
  split; [apply Z.leb_gt|apply Z.ltb_ge]; lia. }
rewrite Hb. wp_step. unfold get_mfriend. do 2 wp_step. rewrite (proj2 (Z.ltb_ge _ _)) by done.
apply wp_liftO. exists mfriend_zero. split; [done|]. wp_step. unfold in_dht at 1. rewrite wp_zoom.
assert (Hrest : forall m1 w1, ludp_wf (lossless_udp (net_crypto m1)) ->
  wp (in_crypto (crypto_kill (f_crypt_connection_id mfriend_zero)) ;;;
      mod_mfriend i (fun _ => mfriend_zero) ;;;
      m <- getM ;;
      (let i := shrink friend_live (m_friendlist m) (length (m_friendlist m)) in
       modM (set_m_friendlist (take i (m_friendlist m))) ;;;
       ok <- realloc_friendlist i ;;
       retM (if (ok : bool) then 0 else FAERR_NOMEM)))
    (fun _ m' _ => is_cryptoconnected (net_crypto m') 0 = CONN_NO_CONNECTION) m1 w1).
{ intros m1 w1 H1. wp_step. unfold in_crypto, in_dht, in_nc. rewrite !wp_zoom.
  eapply wp_mono; [by apply (wp_crypto_kill_gone 0)|]. intros r s w2 Hs. wp_step. unfold mod_mfriend.
  do 3 wp_step. cbv zeta. do 3 wp_step. unfold realloc_friendlist. destruct (shrink _ _ _); by repeat wp_step. }
apply wp_DHT_delfriend; [by intros; apply Hrest|]. intros r k w1 _. by apply Hrest.
Qed.
End claims.

(** ** Witnesses *)

Section witnesses.
#[local] Existing Instance ToyBox.box.
#[local] Existing Instance ToyBox.laws.

Lemma friend_loop_ends_witness :
  wp (friend_online (online_fuel (demo_messenger (demo_nc demo_transport demo_cc)) demo_online) 100 1)
    (fun _ m' _ => loop_end 1 m') (demo_messenger (demo_nc demo_transport demo_cc)) (still_world 0 100).
Proof.
  apply (friend_loop_ends (demo_messenger (demo_nc demo_transport demo_cc)) (still_world 0 100) 100 1
           demo_online demo_cc demo_transport).
  - reflexivity.
  - apply demo_nc_wf, demo_transport_wf.
  - lia.
  - reflexivity.
  - split; [reflexivity|reflexivity].
  - reflexivity.
Defined.

Lemma m_delfriend_empty_slot_witness :
  is_cryptoconnected (net_crypto (demo_messenger (demo_nc demo_transport demo_cc))) 0 = CONN_ESTABLISHED /\
  wp (m_delfriend 0) (fun _ m' _ => is_cryptoconnected (net_crypto m') 0 = CONN_NO_CONNECTION)
    (demo_messenger (demo_nc demo_transport demo_cc)) (still_world 0 100).
Proof.
  split; [reflexivity|].
  apply (m_delfriend_empty_slot (demo_messenger (demo_nc demo_transport demo_cc)) (still_world 0 100) 0).
  - apply demo_nc_wf, demo_transport_wf.
  - lia.
  - reflexivity.
Defined.
End witnesses.
