(* ===== verification/Chat.v ===== *)
(** * Messenger.c: a conversation from end to end

    Two clients that are friends and online talk: [m_sendmessage], [m_sendmessage_withid]
    and [m_sendaction] at one end, the callbacks of [doFriends] at the other, and the read
    receipts that come back.  The calls of [Messenger] are traced down to the calls of
    [write_cryptpacket] and [read_cryptpacket] they make, which [Channel] speaks of; names,
    status messages, statuses and pings travel on the same connection. *)

From S2P Require Import Prelude MiscTools Network LosslessUDP LosslessInv LosslessSafe LosslessLink LosslessThms Crypto NetCrypto CryptoThms Session Channel Ping DHTLists DHT FriendRequests LANDiscovery Messenger MessengerThms.
From stdpp Require Import relations.
Local Open Scope Z_scope.
Local Open Scope tox_scope.

(** ** What is said *)

Inductive utterance :=
  | Says (id : Z) (text : list Z)
  | Does (text : list Z).

(** The four bytes after the packet id, as a number. *)
Definition wire_id (p : list Z) : Z := ntohl (le_val (take 4 (drop 1 p))).

(** What a packet says, the message it confirms, and the id of the message it carries. *)
Definition utterance_of (p : list Z) : option utterance :=
if nth 0 p 0 =? PACKET_ID_MESSAGE then Some (Says (wire_id p) (drop 5 p))
else if nth 0 p 0 =? PACKET_ID_ACTION then Some (Does (drop 1 p))
else None.
Definition receipt_of (p : list Z) : option Z :=
if (nth 0 p 0 =? PACKET_ID_RECEIPT) && negb (Z.of_nat (length (drop 1 p)) <? 4) then Some (wire_id p) else None.
Definition id_said (u : utterance) : option Z :=
match u with Says id _ => Some id | Does _ => None end.
Definition message_id (p : list Z) : option Z := u ← utterance_of p; id_said u.

(** The call of the client's function that shows an utterance of friend [i]. *)
Definition shown (i : Z) (u : utterance) : event :=
match u with
| Says _ text => Ev_message i text (Z.of_nat (length text))
| Does text => Ev_action i text
end.

(** What the client was shown of friend [i], and the receipts of that friend. *)
Definition is_shown (i : Z) (e : event) : bool :=
match e with Ev_message j _ _ | Ev_action j _ => j =? i | _ => false end.
Definition heard (i : Z) (m : Messenger) : list event := List.filter (is_shown i) (m_events m).
Definition confirms (i : Z) (e : event) : option Z :=
match e with Ev_receipt j id => if j =? i then Some id else None | _ => None end.
Definition confirmed (i : Z) (m : Messenger) : list Z := omap (confirms i) (m_events m).

(** A packet long enough for its id, and not too long. *)
Definition whole (p : list Z) : Prop :=
(nth 0 p 0 = PACKET_ID_MESSAGE -> (5 <= length p)%nat) /\ (length p <= 1024)%nat.

(** ** Friend [i] is online *)

Record online (i id : Z) (m : Messenger) : Prop := {
  on_index : 0 <= i;
  on_friend : exists f, m_friendlist m !! Z.to_nat i = Some f /\ f_status f = FRIEND_ONLINE /\ f_crypt_connection_id f = id;
  on_message : friend_message ∈ m_callbacks m;
  on_action : friend_action ∈ m_callbacks m;
  on_receipt : read_receipt ∈ m_callbacks m
}.

Lemma online_same i id m m' :
  online i id m -> m_friendlist m' = m_friendlist m -> m_callbacks m' = m_callbacks m -> online i id m'.
Proof. intros [? ? ? ? ?] E1 E2. split; by rewrite ?E1, ?E2. Qed.

Section trace.
Context `{CryptoBox}.

(** From [m] to [m'], the packets [W] are written on connection [id] and [R] read. *)
Definition calls (id : Z) (m m' : Messenger) (W R : list (list Z)) : Prop :=
forall wr rd nt, rtc (call_step id) (mkSide (net_crypto m) wr rd nt) (mkSide (net_crypto m') (wr ++ W) (rd ++ R) nt).

Lemma calls_none id m m' : net_crypto m' = net_crypto m -> calls id m m' [] [].
Proof. intros E wr rd nt. rewrite E, !app_nil_r. reflexivity. Qed.

Lemma calls_trans id m1 m2 m3 W1 W2 R1 R2 :
  calls id m1 m2 W1 R1 -> calls id m2 m3 W2 R2 -> calls id m1 m3 (W1 ++ W2) (R1 ++ R2).
Proof. intros H1 H2 wr rd nt. etrans; [apply H1|]. rewrite !app_assoc. apply H2. Qed.

(** How the client is told of the packets read, and what is written for them: everything
    said is shown, every receipt reported, and a receipt is only sent for a message. *)
Record answers (i : Z) (m m' : Messenger) (W R : list (list Z)) : Prop := {
  an_whole : Forall whole W;
  an_heard : Forall whole R -> heard i m' = heard i m ++ (shown i <$> omap utterance_of R);
  an_confirmed : confirmed i m' = confirmed i m ++ omap receipt_of R;
  an_receipts : Forall whole R -> omap receipt_of W `sublist_of` omap message_id R
}.

Lemma answers_trans i m1 m2 m3 W1 W2 R1 R2 :
  answers i m1 m2 W1 R1 -> answers i m2 m3 W2 R2 -> answers i m1 m3 (W1 ++ W2) (R1 ++ R2).
Proof.
  intros [A1 A2 A3 A4] [B1 B2 B3 B4]. split.
  - by apply Forall_app.
  - intros [HR1 HR2]%Forall_app. rewrite B2, A2, omap_app, fmap_app by done. by rewrite app_assoc.
  - rewrite B3, A3, omap_app. by rewrite app_assoc.
  - intros [HR1 HR2]%Forall_app. rewrite !omap_app. apply sublist_app; auto.
Qed.

Lemma answers_events i m1 m2 m3 W R : m_events m2 = m_events m1 -> answers i m2 m3 W R -> answers i m1 m3 W R.
Proof.
  intros Ee [A1 A2 A3 A4]. assert (heard i m2 = heard i m1) as EH by (unfold heard; by rewrite Ee).
  assert (confirmed i m2 = confirmed i m1) as EC by (unfold confirmed; by rewrite Ee).
  rewrite EH in A2. rewrite EC in A3. by split.
Qed.

(** ** Calls that say nothing *)

Definition same_log (i : Z) (m m' : Messenger) : Prop := heard i m' = heard i m /\ confirmed i m' = confirmed i m.

(** A packet that says nothing and confirms nothing. *)
Definition mute (p : list Z) : Prop := utterance_of p = None /\ receipt_of p = None /\ whole p.

Lemma mute_packet packet_id data :
  packet_id <> PACKET_ID_MESSAGE -> packet_id <> PACKET_ID_ACTION -> packet_id <> PACKET_ID_RECEIPT ->
  (length data < 1024)%nat -> mute (packet_id :: data).
Proof.
  intros Hm Ha Hr Hl. unfold mute, utterance_of, receipt_of, whole. cbn [nth length].
  rewrite (proj2 (Z.eqb_neq _ _) Hm), (proj2 (Z.eqb_neq _ _) Ha), (proj2 (Z.eqb_neq _ _) Hr).
  split_and!; [done|done|done|lia].
Qed.

Lemma mutes W : Forall mute W -> omap utterance_of W = [] /\ omap receipt_of W = [] /\ Forall whole W.
Proof.
  induction 1 as [|p W (Hu & Hr & Hw) _ (IHu & IHr & IHw)]; [done|]. simpl. rewrite Hu, Hr. auto.
Qed.

(** From [m] to [m'] only mute packets are written, and the client is told nothing of this
    friend's words. *)
Record aside (i id : Z) (m m' : Messenger) : Prop := {
  as_online : online i id m';
  as_calls : exists W, calls id m m' W [] /\ Forall mute W;
  as_log : same_log i m m'
}.

Lemma aside_trans i id m1 m2 m3 : aside i id m1 m2 -> aside i id m2 m3 -> aside i id m1 m3.
Proof.
  intros [_ (W1 & C1 & M1) [L1 L1']] [On (W2 & C2 & M2) [L2 L2']]. split; [done| |split; congruence].
  exists (W1 ++ W2). split; [exact (calls_trans _ _ _ _ _ _ _ _ C1 C2)|by apply Forall_app].
Qed.

Lemma aside_answers i id m m' : aside i id m m' -> exists W, calls id m m' W [] /\ omap utterance_of W = [] /\ answers i m m' W [].
Proof.
  intros [_ (W & C & M) [L1 L2]]. destruct (mutes W M) as (Hu & Hr & Hw). exists W. split_and!; [done..|].
  split; cbn [omap list_omap fmap list_fmap]; rewrite ?app_nil_r; try done. intros _. by rewrite Hr.
Qed.

Definition idle {A} (i id : Z) (x : M Messenger A) : Prop :=
forall m w, online i id m -> wlp x (fun _ m' _ => aside i id m m') m w.

Section rules.
Context (i id : Z).

Lemma aside_still m m' :
  online i id m -> net_crypto m' = net_crypto m -> m_friendlist m' = m_friendlist m ->
  m_callbacks m' = m_callbacks m -> m_events m' = m_events m -> aside i id m m'.
Proof.
  intros On E1 E2 E3 E4. split.
  - by eapply online_same.
  - exists []. split; [by apply calls_none|done].
  - unfold same_log, heard, confirmed. by rewrite E4.
Qed.

Lemma wlp_get_friend f m w (Q : Friend -> Messenger -> World -> Prop) :
  m_friendlist m !! Z.to_nat i = Some f -> Q f m w -> wlp (get_mfriend i) Q m w.
Proof. intros Hf HQ. unfold get_mfriend. do 2 wlp_step. wlp_step; [exact I|]. by rewrite Hf. Qed.

Lemma idle_ret {A} (a : A) : idle i id (retM a).
Proof. intros m w On. wlp_step. by apply aside_still. Qed.

Lemma idle_get : idle i id getM.
Proof. intros m w On. wlp_step. by apply aside_still. Qed.

Lemma idle_ub {A} : idle i id (@ubM Messenger A).
Proof. by intros m w _. Qed.

Lemma idle_bind {A B} (x : M Messenger A) (k : A -> M Messenger B) :
  idle i id x -> (forall a, idle i id (k a)) -> idle i id (bindM x k).
Proof.
  intros Hx Hk m w On. rewrite wlp_bind. eapply wlp_mono; [by apply Hx|]. intros a m1 w1 H1.
  eapply wlp_mono; [apply Hk, (as_online _ _ _ _ H1)|]. intros b m2 w2. by apply aside_trans.
Qed.

Lemma idle_get_friend : idle i id (get_mfriend i).
Proof.
  intros m w On. unfold get_mfriend. do 2 wlp_step. wlp_step; [exact I|].
  destruct (m_friendlist m !! Z.to_nat i); [|exact I]. cbn. by apply aside_still.
Qed.

Lemma idle_mod_friend g :
  (forall f, f_crypt_connection_id (g f) = f_crypt_connection_id f) -> (forall f, f_status (g f) = f_status f) ->
  idle i id (mod_mfriend i g).
Proof.
  intros G1 G2 m w On. pose proof On as [Hi (f & Hf & Hst & Hid) ? ? ?]. unfold mod_mfriend. wlp_step. split.
  - split; try done. exists (g f). cbn [m_friendlist set_m_friendlist]. rewrite list_lookup_alter_eq, Hf.
    by rewrite G1, G2.
  - exists []. split; [by apply calls_none|done].
  - done.
Qed.

(** A call of a function of the client that is not about words. *)
Lemma aside_event e m :
  online i id m -> is_shown i e = false -> confirms i e = None -> aside i id m (set_m_events (m_events m ++ [e]) m).
Proof.
  intros On He Hc. split; [by eapply online_same|exists []; split; [by apply calls_none|done]|].
  unfold same_log, heard, confirmed. cbn [m_events set_m_events].
  rewrite List.filter_app, omap_app. cbn [List.filter]. rewrite He. cbn. rewrite Hc. by rewrite !app_nil_r.
Qed.

Lemma idle_call_cb cb e : is_shown i e = false -> confirms i e = None -> idle i id (call_cb cb e).
Proof.
  intros He Hc m w On. unfold call_cb. wlp_step. case_bool_decide; [by apply aside_event|by apply aside_still].
Qed.

Lemma idle_unix_time : idle i id unix_time.
Proof. intros m w On. wlp_step. by apply aside_still. Qed.

Lemma idle_alloc_fails : idle i id alloc_fails.
Proof. intros m w On. wlp_step. by apply aside_still. Qed.

Lemma idle_junk_bytes k : idle i id (junk_bytes k).
Proof. intros m w On. apply wp_wlp, wp_junk_bytes. intros. by apply aside_still. Qed.

(** *** Writing *)

Lemma write_cryptpacket_result data s w : wlp (write_cryptpacket id data) (fun r _ _ => r = 0 \/ r = 1) s w.
Proof.
  unfold write_cryptpacket. do 2 wlp_step. wlp_step; [wlp_step; by left|]. wlp_step; [wlp_step; by left|].
  rewrite wlp_bind. eapply (wlp_mono _ (fun _ _ _ => True)); [by apply wlp_any|]. intros cc s1 w1 _.
  wlp_step; [wlp_step; by left|]. destruct (encrypt_data_fast _ _ _); [|wlp_step; by left].
  rewrite wlp_bind. eapply (wlp_mono _ (fun _ _ _ => True)); [by apply wlp_any|]. intros r s2 w2 _.
  wlp_step; [wlp_step; by left|]. unfold put_cc. do 2 wlp_step. wlp_step. by right.
Qed.

(** [write_cryptpacket_id] writes the packet, or nothing. *)
Lemma write_id_run packet_id data m w :
  online i id m ->
  wlp (write_cryptpacket_id i packet_id data) (fun r m' _ =>
    online i id m' /\ m_events m' = m_events m /\
    ((r = 0 /\ calls id m m' [] []) \/
     (r = 1 /\ (length data < 1024)%nat /\ calls id m m' [packet_id :: data] []))) m w.
Proof.
  intros On. pose proof On as [Hi (f & Hf & Hst & Hid) _ _ _]. unfold write_cryptpacket_id. do 2 wlp_step.
  assert (Hno : online i id m /\ m_events m = m_events m /\ ((0 = 0 /\ calls id m m [] []) \/
     (0 = 1 /\ (length data < 1024)%nat /\ calls id m m [packet_id :: data] []))).
  { split_and!; [done..|]. left. split; [done|by apply calls_none]. }
  wlp_step; [by wlp_step|]. rewrite wlp_bind. apply (wlp_get_friend f); [done|].
  wlp_step; [by wlp_step|].
  unfold in_crypto, in_dht, in_nc. rewrite !wlp_zoom, Hid.
  pose proof (write_cryptpacket_result ([packet_id] ++ data) (dht_c (m_dht m)) w) as Hr. unfold wlp in *.
  destruct (write_cryptpacket _ _ _ _) as [[[r s'] w']|] eqn:E; [|done].
  split_and!; [by eapply online_same|done|].
  destruct Hr as [->| ->]; [left|right]; (split; [done|]).
  - intros wr rd nt. rewrite !app_nil_r. apply rtc_once. by apply (call_write id _ _ _ 0 _ _ wr rd nt) in E.
  - split; [unfold MAX_DATA_SIZE in *; lia|]. intros wr rd nt. rewrite app_nil_r. apply rtc_once.
    by apply (call_write id _ _ _ 1 _ _ wr rd nt) in E.
Qed.

Lemma idle_write_id packet_id data :
  packet_id <> PACKET_ID_MESSAGE -> packet_id <> PACKET_ID_ACTION -> packet_id <> PACKET_ID_RECEIPT ->
  idle i id (write_cryptpacket_id i packet_id data).
Proof.
  intros Hm Ha Hr m w On. eapply wlp_mono; [by apply write_id_run|]. intros r m' w' (On' & He & Hc).
  split; [done| |unfold same_log, heard, confirmed; by rewrite He].
  destruct Hc as [[_ Hc]|(_ & Hl & Hc)]; eexists; (split; [exact Hc|]); [done|].
  apply Forall_singleton. by apply mute_packet.
Qed.
End rules.
End trace.

Create HintDb idle.
#[export] Hint Resolve idle_ret idle_get idle_ub idle_get_friend idle_unix_time idle_alloc_fails idle_junk_bytes : idle.

Ltac idle_steps :=
  repeat (intros; cbv beta zeta;
    lazymatch goal with
    | |- idle _ _ (bindM _ _) => apply idle_bind
    | |- idle _ _ (if ?b then _ else _) => destruct b
    | |- idle _ _ (mod_mfriend _ _) => apply idle_mod_friend; done
    | |- idle _ _ (call_cb _ _) => apply idle_call_cb; done
    | |- idle _ _ (write_cryptpacket_id _ _ _) => apply idle_write_id; done
    | |- idle _ _ _ => solve [auto with idle]
    end).

Section turns.
Context `{CryptoBox}.

Lemma idle_friend_sends i id t : idle i id (friend_sends t i).
Proof. unfold friend_sends, m_sendname, send_statusmessage, send_userstatus, send_ping. idle_steps. Qed.

Lemma idle_friend_packet i id t packet_id data :
  packet_id <> PACKET_ID_MESSAGE -> packet_id <> PACKET_ID_ACTION -> packet_id <> PACKET_ID_RECEIPT ->
  idle i id (friend_packet t i packet_id data).
Proof.
  intros Hm Ha Hr. unfold friend_packet, set_friend_statusmessage, set_friend_userstatus.
  rewrite (proj2 (Z.eqb_neq _ _) Hm), (proj2 (Z.eqb_neq _ _) Ha), (proj2 (Z.eqb_neq _ _) Hr). idle_steps.
Qed.

(** ** The packets that say something *)

(** What a packet [p] that was read leads to. *)
Definition handled (i id : Z) (p : list Z) (m m' : Messenger) : Prop :=
online i id m' /\ exists W, calls id m m' W [] /\ omap utterance_of W = [] /\ answers i m m' W [p].

Lemma call_cb_run cb e m w :
  cb ∈ m_callbacks m -> wlp (call_cb cb e) (fun _ m' _ => m' = set_m_events (m_events m ++ [e]) m) m w.
Proof. intros Hcb. unfold call_cb. wlp_step. by rewrite bool_decide_eq_true_2. Qed.

Lemma heard_event i e m :
  heard i (set_m_events (m_events m ++ [e]) m) = heard i m ++ (if is_shown i e then [e] else []).
Proof. unfold heard. cbn [m_events set_m_events]. rewrite List.filter_app. simpl. by destruct (is_shown i e). Qed.

Lemma confirmed_event i e m :
  confirmed i (set_m_events (m_events m ++ [e]) m) = confirmed i m ++ omap (confirms i) [e].
Proof. unfold confirmed. cbn [m_events set_m_events]. by rewrite omap_app. Qed.

Lemma handled_action i id t p m w :
  nth 0 p 0 = PACKET_ID_ACTION -> online i id m ->
  wlp (friend_packet t i PACKET_ID_ACTION (drop 1 p)) (fun _ m' _ => handled i id p m m') m w.
Proof.
  intros Hp On. unfold friend_packet.
  cbn [Z.eqb PACKET_ID_MESSAGE PACKET_ID_ACTION PACKET_ID_PING PACKET_ID_NICKNAME PACKET_ID_STATUSMESSAGE PACKET_ID_USERSTATUS Pos.eqb].
  eapply wlp_mono; [by apply call_cb_run, (on_action i id)|]. intros _ m' w' ->.
  split; [by eapply online_same|]. exists []. split_and!; [by apply calls_none|done|].
  unfold utterance_of, receipt_of, message_id.
  split; [done| | |intros _; apply sublist_nil_l].
  - intros _. rewrite heard_event. cbn. unfold utterance_of. rewrite Hp. cbn. by rewrite Z.eqb_refl.
  - rewrite confirmed_event. cbn. unfold receipt_of. rewrite Hp. done.
Qed.

Lemma handled_receipt i id t p m w :
  nth 0 p 0 = PACKET_ID_RECEIPT -> online i id m ->
  wlp (friend_packet t i PACKET_ID_RECEIPT (drop 1 p)) (fun _ m' _ => handled i id p m m') m w.
Proof.
  intros Hp On. unfold friend_packet.
  cbn [Z.eqb PACKET_ID_MESSAGE PACKET_ID_RECEIPT PACKET_ID_ACTION PACKET_ID_PING PACKET_ID_NICKNAME PACKET_ID_STATUSMESSAGE PACKET_ID_USERSTATUS Pos.eqb].
  assert (Hu : omap utterance_of [p] = []) by (cbn; unfold utterance_of; by rewrite Hp).
  assert (Hr : omap receipt_of [p] = if Z.of_nat (length (drop 1 p)) <? 4 then [] else [wire_id p]).
  { cbn [omap list_omap]. unfold receipt_of. rewrite Hp. cbn [Z.eqb PACKET_ID_RECEIPT Pos.eqb andb]. by destruct (_ <? 4). }
  destruct (Z.of_nat (length (drop 1 p)) <? 4).
  { wlp_step. split; [done|]. exists []. split_and!; [by apply calls_none|done|].
    split; [done|intros _; by rewrite Hu, app_nil_r|by rewrite Hr, app_nil_r|intros _; apply sublist_nil_l]. }
  eapply wlp_mono; [by apply call_cb_run, (on_receipt i id)|]. intros _ m' w' ->.
  split; [by eapply online_same|]. exists []. split_and!; [by apply calls_none|done|].
  split; [done| | |intros _; apply sublist_nil_l].
  - intros _. rewrite heard_event, Hu. done.
  - rewrite confirmed_event, Hr. cbn. by rewrite Z.eqb_refl.
Qed.

(** The receipt of a message. *)
Lemma wire_id_receipt p junk :
  (5 <= length p)%nat -> receipt_of (PACKET_ID_RECEIPT :: take 4 (drop 1 p ++ junk)) = Some (wire_id p).
Proof.
  intros Hl. unfold receipt_of, wire_id. cbn [nth drop]. rewrite take_app_le by (rewrite length_drop; lia).
  change (drop 0 ?l) with l. rewrite length_take, length_drop, take_take, Nat.min_id.
  rewrite (proj2 (Z.ltb_ge _ _)) by lia. done.
Qed.

Lemma handled_message i id t p m w :
  nth 0 p 0 = PACKET_ID_MESSAGE -> online i id m ->
  wlp (friend_packet t i PACKET_ID_MESSAGE (drop 1 p)) (fun _ m' _ => handled i id p m m') m w.
Proof.
  intros Hp On. unfold friend_packet.
  cbn [Z.eqb PACKET_ID_MESSAGE PACKET_ID_PING PACKET_ID_NICKNAME PACKET_ID_STATUSMESSAGE PACKET_ID_USERSTATUS Pos.eqb].
  pose proof On as [Hi (f & Hf & Hst & Hid) _ _ _].
  rewrite wlp_bind. apply wp_wlp, wp_junk_bytes. intros junk w1 _ _.
  rewrite wlp_bind. apply (wlp_get_friend i f); [done|]. rewrite wlp_bind.
  apply (wlp_mono _ (fun _ m1 _ => online i id m1 /\ m_events m1 = m_events m /\
    exists W, calls id m m1 W [] /\ (W = [] \/ W = [PACKET_ID_RECEIPT :: take 4 (drop 1 p ++ junk)]))).
  { case_if; [|wlp_step; split_and!; [done..|]; exists []; split; [by apply calls_none|by left]].
    rewrite wlp_bind. eapply wlp_mono; [by apply (write_id_run i id)|].
    intros r m1 w2 (On1 & He1 & Hc). wlp_step. split_and!; [done..|].
    destruct Hc as [[_ Hc]|(_ & _ & Hc)]; eexists; (split; [exact Hc|]); auto. }
  intros _ m1 w2 (On1 & He1 & W & Hc & HW). eapply wlp_mono; [by apply call_cb_run, (on_message i id)|].
  intros _ m' w' ->. split; [by eapply online_same|]. exists W.
  split_and!; [exact Hc|by destruct HW as [-> | ->]|].
  assert (Hu : utterance_of p = Some (Says (wire_id p) (drop 5 p))) by (unfold utterance_of; by rewrite Hp).
  split.
  - destruct HW as [-> | ->]; [done|]. apply Forall_singleton. split; [done|]. cbn [length].
    rewrite length_take. lia.
  - intros [[Hp5 Hpl] _]%Forall_cons. specialize (Hp5 Hp). rewrite heard_event. unfold heard. rewrite He1. cbn.
    rewrite Hu. cbn. rewrite Z.eqb_refl. do 2 f_equal. rewrite drop_drop. f_equal.
    rewrite !length_drop. unfold u16. rewrite Z.mod_small by lia. lia.
  - rewrite confirmed_event. unfold confirmed. rewrite He1. cbn. unfold receipt_of. by rewrite Hp.
  - intros [[Hp5 _] _]%Forall_cons. specialize (Hp5 Hp). destruct HW as [-> | ->]; [apply sublist_nil_l|].
    cbn [omap list_omap]. rewrite wire_id_receipt by done. unfold message_id. by rewrite Hu.
Qed.

(** A packet of a friend. *)
Lemma friend_packet_handled i id t p m w :
  online i id m -> wlp (friend_packet t i (nth 0 p 0) (drop 1 p)) (fun _ m' _ => handled i id p m m') m w.
Proof.
  intros On. destruct (Z.eq_dec (nth 0 p 0) PACKET_ID_MESSAGE) as [Hm|Hm].
  { rewrite Hm. by apply handled_message. }
  destruct (Z.eq_dec (nth 0 p 0) PACKET_ID_ACTION) as [Ha|Ha]; [rewrite Ha; by apply handled_action|].
  destruct (Z.eq_dec (nth 0 p 0) PACKET_ID_RECEIPT) as [Hr|Hr]; [rewrite Hr; by apply handled_receipt|].
  eapply wlp_mono; [by apply (idle_friend_packet i id)|]. intros ? m' w' Has.
  split; [exact (as_online _ _ _ _ Has)|]. apply aside_answers in Has as (W & Hc & Hu & [A1 A2 A3 A4]).
  exists W. split_and!; [done..|].
  assert (utterance_of p = None) as Ep by (unfold utterance_of; by rewrite (proj2 (Z.eqb_neq _ _) Hm), (proj2 (Z.eqb_neq _ _) Ha)).
  assert (receipt_of p = None) as Er by (unfold receipt_of; by rewrite (proj2 (Z.eqb_neq _ _) Hr)).
  split; [done|intros _; cbn; rewrite Ep; by apply A2|cbn; by rewrite Er|].
  intros _. cbn. unfold message_id. rewrite Ep. by apply A4.
Qed.

(** ** A turn of [doFriends] *)

(** From [m], calls on the connection lead to a state the client has the same reports in
    as in [m']; there the friend is either still online, or lost. *)
Definition outcome (i id : Z) (m m' : Messenger) (W R : list (list Z)) : Prop :=
exists mid, calls id m mid W R /\ omap utterance_of W = [] /\ answers i m mid W R /\
  ((m' = mid /\ online i id m') \/ (~ online i id m' /\ same_log i mid m')).

Lemma outcome_trans i id m1 m2 m3 W1 W2 R1 R2 :
  calls id m1 m2 W1 R1 -> omap utterance_of W1 = [] -> answers i m1 m2 W1 R1 -> outcome i id m2 m3 W2 R2 ->
  outcome i id m1 m3 (W1 ++ W2) (R1 ++ R2).
Proof.
  intros C1 U1 A1 (mid & C2 & U2 & A2 & D). exists mid.
  split_and!; [by eapply calls_trans|by rewrite omap_app, U1, U2|by eapply answers_trans|done].
Qed.

Lemma answers_none i m : answers i m m [] [].
Proof. split; [done|intros _; by rewrite app_nil_r|by rewrite app_nil_r|done]. Qed.

Lemma outcome_stay i id m : online i id m -> outcome i id m m [] [].
Proof. intros On. exists m. split_and!; [by apply calls_none|done|apply answers_none|by left]. Qed.

Lemma outcome_lost i id m m' : ~ online i id m' -> same_log i m m' -> outcome i id m m' [] [].
Proof. intros Off L. exists m. split_and!; [by apply calls_none|done|apply answers_none|by right]. Qed.

Definition confirmed_only (i : Z) (m : Messenger) : Prop :=
exists f, m_friendlist m !! Z.to_nat i = Some f /\ f_status f = FRIEND_CONFIRMED.

Lemma confirmed_offline i id m : confirmed_only i m -> ~ online i id m.
Proof. intros (f & Hf & Hs) [_ (f' & Hf' & Hs' & _) _ _ _]. rewrite Hf in Hf'. injection Hf' as <-. by rewrite Hs in Hs'. Qed.

Lemma friend_lost_run i id m w :
  online i id m -> wlp (friend_lost i) (fun _ m' _ => confirmed_only i m' /\ same_log i m m') m w.
Proof.
  intros On. pose proof On as [Hi (f & Hf & Hst & Hid) _ _ _]. unfold friend_lost.
  rewrite wlp_bind. apply (wlp_get_friend i f); [done|]. rewrite wlp_bind.
  unfold in_crypto, in_dht, in_nc. rewrite !wlp_zoom. apply wlp_any. intros _ s w1.
  unfold mod_mfriend at 1. do 2 wlp_step. unfold set_friend_status, check_friend_connectionstatus.
  change (FRIEND_CONFIRMED =? NOFRIEND) with false. cbv iota. rewrite !wlp_bind.
  eapply wlp_get_friend; [cbn; by rewrite list_lookup_alter_eq, Hf|].
  set (m1 := set_m_friendlist _ _).
  assert (Hf1 : m_friendlist m1 !! Z.to_nat i = Some (set_f_crypt_connection_id (-1) f)).
  { subst m1. cbn. by rewrite list_lookup_alter_eq, Hf. }
  apply (wlp_mono _ (fun _ m2 _ => m_friendlist m2 = m_friendlist m1 /\ same_log i m m2)).
  - wlp_step; [|by wlp_step]. unfold call_cb. wlp_step. case_bool_decide; [|done]. split; [done|].
    unfold same_log. by rewrite heard_event, confirmed_event, !app_nil_r.
  - intros ? m2 w2 [E2 L2]. unfold mod_mfriend. wlp_step. split; [|done].
    eexists. cbn [m_friendlist set_m_friendlist]. rewrite list_lookup_alter_eq, E2, Hf1. done.
Qed.

Lemma friend_online_off i t fuel m w :
  confirmed_only i m -> wlp (friend_online fuel t i) (fun _ m' _ => m' = m) m w.
Proof.
  intros (f & Hf & Hs). destruct fuel; cbn [friend_online]; rewrite wlp_bind;
    (apply (wlp_get_friend i f); [done|]); rewrite Hs; by wlp_step.
Qed.

Lemma read_run i id m w :
  online i id m ->
  wlp (in_crypto (read_cryptpacket id)) (fun r m' _ =>
    online i id m' /\ m_events m' = m_events m /\
    calls id m m' [] (if 0 <? fst r then [snd r] else [])) m w.
Proof.
  intros On. unfold in_crypto, in_dht, in_nc. rewrite !wlp_zoom. unfold wlp.
  destruct (read_cryptpacket _ _ _) as [[[r s'] w']|] eqn:E; [|done].
  split_and!; [by eapply online_same|done|]. intros wr rd nt. rewrite app_nil_r. apply rtc_once.
  apply (call_read id _ _ r _ _ wr rd nt) in E. destruct (0 <? fst r); [done|by rewrite app_nil_r].
Qed.

Lemma friend_online_run i id t fuel m w :
  online i id m -> wlp (friend_online fuel t i) (fun _ m' _ => exists W R, outcome i id m m' W R) m w.
Proof.
  revert m w. induction fuel as [|n IH]; intros m w On; cbn [friend_online];
    pose proof On as [Hi (f & Hf & Hst & Hid) _ _ _];
    rewrite wlp_bind; (apply (wlp_get_friend i f); [done|]); rewrite Hst, Z.eqb_refl; [exact I|].
  rewrite wlp_bind. eapply wlp_mono; [by apply (idle_friend_sends i id)|]. intros ? m1 w1 H1.
  pose proof (as_online _ _ _ _ H1) as On1. apply aside_answers in H1 as (W1 & C1 & U1 & A1).
  enough (Hrest : wlp (r <- in_crypto (read_cryptpacket (f_crypt_connection_id f)) ;;
    (let '(len, temp) := r in
     if 0 <? len then
       friend_packet t i (nth 0 temp 0) (drop 1 temp) ;;;
       f <- get_mfriend i ;;
       (if u64 (f_ping_lastrecv f + FRIEND_CONNECTION_TIMEOUT) <? t then friend_lost i else retM tt) ;;;
       friend_online n t i
     else
       m <- getM ;;
       if is_cryptoconnected (net_crypto m) (f_crypt_connection_id f) =? 4 then friend_lost i
       else retM tt)) (fun _ m' _ => exists W R, outcome i id m1 m' W R) m1 w1).
  { eapply wlp_mono; [exact Hrest|]. intros ? m' w' (W & R & Ho). exists (W1 ++ W), ([] ++ R). by eapply outcome_trans. }
  clear m w On C1 A1 Hf. rewrite wlp_bind, Hid. eapply wlp_mono; [by apply (read_run i)|].
  intros [len p] m2 w2 (On2 & E2 & C2). cbn [fst snd] in C2.
  assert (A2 : forall W R m', answers i m2 m' W R -> answers i m1 m' W R).
  { intros W R m'. by apply answers_events. }
  destruct (0 <? len).
  - rewrite wlp_bind. eapply wlp_mono; [by apply (friend_packet_handled i id)|].
    intros ? m3 w3 (On3 & W3 & C3 & U3 & A3). pose proof (calls_trans _ _ _ _ _ _ _ _ C2 C3) as C23. cbn in C23.
    pose proof On3 as [_ (f3 & Hf3 & _) _ _ _].
    assert (Hjoin : forall m' W R, outcome i id m3 m' W R -> exists W R, outcome i id m1 m' W R).
    { intros m' W R Ho. eexists _, _. eapply outcome_trans; [exact C23|exact U3|by apply A2|exact Ho]. }
    rewrite wlp_bind. apply (wlp_get_friend i f3); [done|]. rewrite wlp_bind. wlp_step.
    + eapply wlp_mono; [by apply (friend_lost_run i id)|]. intros ? m4 w4 [Hoff Hl].
      eapply wlp_mono; [by apply friend_online_off|]. intros ? m5 w5 ->.
      eapply Hjoin, outcome_lost; [by apply confirmed_offline|done].
    + wlp_step. eapply wlp_mono; [by apply IH|]. intros ? m' w' (W & R & Ho). by eapply Hjoin.
  - do 2 wlp_step. assert (Hstay : answers i m1 m2 [] []) by (apply A2, answers_none).
    wlp_step.
    + eapply wlp_mono; [by apply (friend_lost_run i id)|]. intros ? m4 w4 [Hoff Hl]. exists [], [].
      apply (outcome_trans _ _ _ m2 _ [] [] [] []); [done..|]. apply outcome_lost; [by apply confirmed_offline|done].
    + wlp_step. exists [], []. apply (outcome_trans _ _ _ m2 _ [] [] [] []); [done..|by apply outcome_stay].
Qed.

(** The turn for friend [i], who is online. *)
Lemma doFriend_run i id t m w :
  online i id m -> wlp (doFriend t i) (fun _ m' _ => exists W R, outcome i id m m' W R) m w.
Proof.
  intros On. pose proof On as [Hi (f & Hf & Hst & Hid) _ _ _]. unfold doFriend, friend_added, friend_offline.
  rewrite wlp_bind, wlp_bind. apply (wlp_get_friend i f); [done|]. rewrite Hst. cbn [Z.eqb FRIEND_ONLINE FRIEND_ADDED Pos.eqb].
  rewrite wlp_ret, wlp_bind, wlp_bind. apply (wlp_get_friend i f); [done|]. rewrite Hst.
  cbn [Z.eqb FRIEND_ONLINE FRIEND_REQUESTED FRIEND_CONFIRMED Pos.eqb orb]. rewrite wlp_ret. do 2 wlp_step.
  rewrite wlp_bind. apply (wlp_get_friend i f); [done|]. by apply friend_online_run.
Qed.
End turns.

(** ** The calls of the client *)

Section says.
Context `{CryptoBox}.

(** From [m] to [m'], [us] is said. *)
Definition speaks (i id : Z) (us : list utterance) (m m' : Messenger) : Prop :=
online i id m' /\ exists W, calls id m m' W [] /\ omap utterance_of W = us /\ answers i m m' W [].

Lemma speaks_run i id m m' W us :
  online i id m' -> m_events m' = m_events m -> calls id m m' W [] -> omap utterance_of W = us ->
  omap receipt_of W = [] -> Forall whole W -> speaks i id us m m'.
Proof.
  intros On He Hc Hu Hr Hw. split; [done|]. exists W. split_and!; [done..|].
  split; [done|intros _|..]; unfold heard, confirmed; rewrite ?He, ?app_nil_r; try done. intros _. by rewrite Hr.
Qed.

Lemma speaks_none i id m : online i id m -> speaks i id [] m m.
Proof. intros On. eapply speaks_run; [done|done|by apply calls_none|done..]. Qed.

Lemma wire_id_message theid text :
  is_u32 theid -> wire_id (PACKET_ID_MESSAGE :: le_bytes 4 (htonl theid) ++ text) = theid.
Proof.
  intros Hid. unfold wire_id. cbn [drop]. change (drop 0 ?l) with l.
  rewrite take_app_length' by (by rewrite length_le_bytes). rewrite le_val_bytes.
  rewrite (u32_small _ (htonl_range theid) : htonl theid mod 256 ^ Z.of_nat 4 = htonl theid).
  by apply ntohl_htonl.
Qed.

Lemma sendmessage_withid_says i id theid text m w :
  online i id m -> is_u32 theid ->
  wlp (m_sendmessage_withid i theid text) (fun r m' _ =>
    speaks i id (if r =? 0 then [] else [Says theid text]) m m') m w.
Proof.
  intros On Hid. unfold m_sendmessage_withid. wlp_step.
  { wlp_step. by apply speaks_none. }
  eapply wlp_mono; [by apply (write_id_run i id)|]. intros r m' w' (On' & He & [[-> Hc]|(-> & Hl & Hc)]).
  { by eapply speaks_run. }
  eapply speaks_run; [done|done|exact Hc| |done|].
  - cbn. unfold utterance_of. cbn [nth Z.eqb PACKET_ID_MESSAGE Pos.eqb]. by rewrite (wire_id_message theid text).
  - apply Forall_singleton. split; [intros _; cbn [length]; rewrite length_app, length_le_bytes; lia|].
    cbn [length]. lia.
Qed.

Lemma sendaction_says i id text m w :
  online i id m ->
  wlp (m_sendaction i text) (fun r m' _ => speaks i id (if r =? 0 then [] else [Does text]) m m') m w.
Proof.
  intros On. unfold m_sendaction.
  eapply wlp_mono; [by apply (write_id_run i id)|]. intros r m' w' (On' & He & [[-> Hc]|(-> & Hl & Hc)]).
  { by eapply speaks_run. }
  eapply speaks_run; [done|done|exact Hc|done|done|].
  apply Forall_singleton. split; [done|]. cbn [length]. lia.
Qed.

(** [m_sendmessage] chooses the id and returns it. *)
Lemma sendmessage_says i id text m w :
  online i id m ->
  wlp (m_sendmessage i text) (fun r m' _ =>
    speaks i id (if r =? 0 then [] else [Says r text]) m m') m w.
Proof.
  intros On. pose proof On as [Hi (f & Hf & Hst & Hid) ? ? ?]. unfold m_sendmessage. do 2 wlp_step.
  wlp_step. { wlp_step. by apply speaks_none. }
  rewrite wlp_bind. apply (wlp_get_friend i f); [done|].
  set (k := u32 (f_message_id f + 1)). set (k' := if k =? 0 then 1 else k).
  assert (Hk : is_u32 k' /\ k' <> 0).
  { pose proof (u32_range (f_message_id f + 1)) as Hr. fold k in Hr. subst k'.
    destruct (Z.eqb_spec k 0); [unfold is_u32; lia|done]. }
  unfold mod_mfriend. do 2 wlp_step. rewrite wlp_bind.
  eapply wlp_mono; [apply (sendmessage_withid_says i id); [|apply Hk]|].
  - split; try done. exists (set_f_message_id k f). cbn [m_friendlist set_m_friendlist].
    rewrite list_lookup_alter_eq, Hf. by split_and!.
  - intros r m' w' (On' & W & Hc & Hu & [A1 A2 A3 A4]). wlp_step. split; [done|]. exists W.
    split_and!; [done| |by split].
    destruct (Z.eqb_spec r 0) as [->|Hr]; cbn [negb]; [done|]. by rewrite (proj2 (Z.eqb_neq _ _) (proj2 Hk)).
Qed.
End says.

(** ** The conversation *)

(** One end: the client, what its program said with success, how many calls the program
    made, and the packets the transport has sent. *)
Record Party := mkParty {
  pt_m : Messenger;
  pt_said : list utterance;
  pt_calls : nat;
  pt_net : list pkt
}.

Section conversation.
Context `{CryptoBoxLaws}.

Definition set_net_crypto (s : Net_Crypto) (m : Messenger) : Messenger := set_m_dht (set_dht_c s (m_dht m)) m.

(** What an end does while friend [i] is online on connection [id]: the program speaks, or
    takes a turn of [doFriends]; the transport makes a step; or anything happens that
    leaves the friend, the connection and the reports about this friend's words alone. *)
Inductive party_step (i id : Z) (peer : list pkt) : Party -> Party -> Prop :=
  | pt_withid m w theid text r m' w' us n nt :
      online i id m -> is_u32 theid ->
      m_sendmessage_withid i theid text m w = Some (r, m', w') ->
      party_step i id peer (mkParty m us n nt)
        (mkParty m' (us ++ if r =? 0 then [] else [Says theid text]) (S n) nt)
  | pt_message m w text r m' w' us n nt :
      online i id m -> m_sendmessage i text m w = Some (r, m', w') ->
      party_step i id peer (mkParty m us n nt)
        (mkParty m' (us ++ if r =? 0 then [] else [Says r text]) (S n) nt)
  | pt_action m w text r m' w' us n nt :
      online i id m -> m_sendaction i text m w = Some (r, m', w') ->
      party_step i id peer (mkParty m us n nt)
        (mkParty m' (us ++ if r =? 0 then [] else [Does text]) (S n) nt)
  | pt_turn m w t m' w' us n nt :
      online i id m -> doFriend t i m w = Some (tt, m', w') ->
      party_step i id peer (mkParty m us n nt) (mkParty m' us (S n) nt)
  | pt_transport m cc c c' us n nt nt' :
      online i id m -> cc_at (net_crypto m) id cc -> conn_at (lossless_udp (net_crypto m)) (cc_number cc) c ->
      end_step peer (mkEnd c [] [] nt) (mkEnd c' [] [] nt') ->
      party_step i id peer (mkParty m us n nt)
        (mkParty (set_net_crypto (set_lossless_udp (upd (lossless_udp (net_crypto m)) (cc_number cc) c') (net_crypto m)) m)
           us n nt')
  | pt_other m m' cc c us n nt :
      online i id m -> online i id m' -> same_log i m m' ->
      cc_at (net_crypto m) id cc -> conn_at (lossless_udp (net_crypto m)) (cc_number cc) c ->
      cc_at (net_crypto m') id cc -> conn_at (lossless_udp (net_crypto m')) (cc_number cc) c ->
      party_step i id peer (mkParty m us n nt) (mkParty m' us n nt).

Inductive chat_step (i id j jd : Z) : Party * Party -> Party * Party -> Prop :=
  | chat_left a b a' : party_step i id (pt_net b) a a' -> chat_step i id j jd (a, b) (a', b)
  | chat_right a b b' : party_step j jd (pt_net a) b b' -> chat_step i id j jd (a, b) (a, b').

(** *** Calls are steps of the channel, and write at most 15 packets *)

Lemma calls_side id peer a b : rtc (call_step id) a b -> rtc (side_step id peer) a b.
Proof. induction 1; [constructor|]. eapply rtc_l; [by apply ss_call|done]. Qed.

Lemma calls_bound id key ns nr a b e cc :
  side_rel id key ns nr a e cc -> rtc (call_step id) a b -> (length (sd_wrote b) <= length (sd_wrote a) + 15)%nat.
Proof.
  intros R Hs. destruct (calls_rel _ _ _ _ _ _ Hs _ _ R) as (e' & cc' & He & R'). apply uses_bound in He.
  rewrite (length_crypt_stream _ _ _ _ (sr_wrote _ _ _ _ _ _ _ R)) in He.
  by rewrite (length_crypt_stream _ _ _ _ (sr_wrote _ _ _ _ _ _ _ R')) in He.
Qed.

(** *** The invariant *)

(** [sd] is the end of the channel of [p], which began as [m0]. *)
Record party_rel (i id : Z) (m0 : Messenger) (p : Party) (sd : Side) : Prop := {
  pr_nc : online i id (pt_m p) -> sd_nc sd = net_crypto (pt_m p);
  pr_net : sd_net sd = pt_net p;
  pr_said : omap utterance_of (sd_wrote sd) = pt_said p;
  pr_answers : answers i m0 (pt_m p) (sd_wrote sd) (sd_read sd);
  pr_calls : (length (sd_wrote sd) <= 15 * pt_calls p)%nat
}.

Lemma answers_log i m0 m m' W R : answers i m0 m W R -> same_log i m m' -> answers i m0 m' W R.
Proof. intros [A1 A2 A3 A4] [L1 L2]. split; rewrite ?L1, ?L2; done. Qed.

Section step.
Context (i id : Z) (key ns nr : list Z) (m0 : Messenger) (peer : list pkt).

(** A call of the program. *)
Lemma call_rel m m' mid us vs n nt W R sd e cc :
  online i id m -> party_rel i id m0 (mkParty m us n nt) sd -> side_rel id key ns nr sd e cc ->
  calls id m mid W R -> omap utterance_of W = vs -> answers i m mid W R ->
  (m' = mid \/ (~ online i id m' /\ same_log i mid m')) ->
  let sd' := mkSide (net_crypto mid) (sd_wrote sd ++ W) (sd_read sd ++ R) nt in
  rtc (call_step id) sd sd' /\ party_rel i id m0 (mkParty m' (us ++ vs) (S n) nt) sd'.
Proof.
  intros On [P1 P2 P3 P4 P5] Hsd Hc Hu Ha Hm. cbn [pt_m pt_said pt_calls pt_net] in *. specialize (P1 On).
  destruct sd as [s wr rd nt0]. cbn [sd_nc sd_wrote sd_read sd_net] in *. subst s nt0.
  specialize (Hc wr rd nt). pose proof (calls_bound _ _ _ _ _ _ _ _ Hsd Hc) as Hb. cbn [sd_wrote] in Hb.
  split; [done|]. pose proof (answers_trans _ _ _ _ _ _ _ _ P4 Ha) as A.
  split; cbn [pt_m pt_said pt_calls pt_net sd_nc sd_wrote sd_read sd_net]; [|done|by rewrite omap_app, P3, Hu| |lia].
  - intros On'. destruct Hm as [->|[Hoff _]]; [done|by destruct Hoff].
  - destruct Hm as [->|[_ Hl]]; [done|by eapply answers_log].
Qed.

Lemma speaks_rel m m' us vs n nt sd e cc :
  online i id m -> party_rel i id m0 (mkParty m us n nt) sd -> side_rel id key ns nr sd e cc ->
  speaks i id vs m m' ->
  exists sd', rtc (call_step id) sd sd' /\ party_rel i id m0 (mkParty m' (us ++ vs) (S n) nt) sd'.
Proof. intros On P Hsd (On' & W & Hc & Hu & Ha). eexists. eapply (call_rel m m' m' us vs); [done..|by left]. Qed.

Lemma party_step_rel p p' sd e cc :
  party_step i id peer p p' -> party_rel i id m0 p sd -> side_rel id key ns nr sd e cc ->
  exists sd', (rtc (call_step id) sd sd' \/ (side_step id peer sd sd' /\ online i id (pt_m p'))) /\ party_rel i id m0 p' sd'.
Proof.
  intros Hs P Hsd.
  assert (Hcall : forall p', (exists sd', rtc (call_step id) sd sd' /\ party_rel i id m0 p' sd') ->
    exists sd', (rtc (call_step id) sd sd' \/ (side_step id peer sd sd' /\ online i id (pt_m p'))) /\ party_rel i id m0 p' sd').
  { intros q (sd' & ? & ?). exists sd'. split; [by left|done]. }
  destruct Hs as [m w theid text r m' w' us n nt On Hid E|m w text r m' w' us n nt On E
    |m w text r m' w' us n nt On E|m w t m' w' us n nt On E|m c0 c c' us n nt nt' On Hcc Hc Hstep
    |m m' c0 c us n nt On On' Hlog Hcc Hc Hcc' Hc'].
  - eapply Hcall, speaks_rel; [done..|]. exact (wlp_run E (sendmessage_withid_says i id theid text m w On Hid)).
  - eapply Hcall, speaks_rel; [done..|]. exact (wlp_run E (sendmessage_says i id text m w On)).
  - eapply Hcall, speaks_rel; [done..|]. exact (wlp_run E (sendaction_says i id text m w On)).
  - destruct (wlp_run E (doFriend_run i id t m w On)) as (W & R & mid & Hc & Hu & Ha & Hend).
    rewrite <- (app_nil_r us). apply Hcall. eexists. eapply (call_rel m m' mid us []); [done..|]. naive_solver.
  - destruct P as [P1 P2 P3 P4 P5]. specialize (P1 On). destruct sd as [s wr rd nt0].
    cbn [pt_m pt_said pt_calls pt_net sd_nc sd_wrote sd_read sd_net] in *. subst s nt0.
    eexists. split; [right; split; [by apply (ss_transport id peer _ c0 c c')|by eapply online_same]|].
    split; cbn [pt_m pt_said pt_calls pt_net sd_nc sd_wrote sd_read sd_net]; try done. by eapply answers_log.
  - destruct P as [P1 P2 P3 P4 P5]. specialize (P1 On). destruct sd as [s wr rd nt0].
    cbn [pt_m pt_said pt_calls pt_net sd_nc sd_wrote sd_read sd_net] in *. subst s nt0.
    exists (mkSide (net_crypto m') wr rd nt). split; [right; split; [by eapply ss_other|done]|].
    split; cbn [pt_m pt_said pt_calls pt_net sd_nc sd_wrote sd_read sd_net]; try done. by eapply answers_log.
Qed.
End step.

Lemma chat_rel i id j jd h k m1 m2 x y c1 c2 z :
  channel_start id jd h k (net_crypto m1) (net_crypto m2) x y c1 c2 ->
  rtc (chat_step i id j jd) (mkParty m1 [] 0 [], mkParty m2 [] 0 []) z ->
  exists a b, rtc (channel_step id jd) (mkSide (net_crypto m1) [] [] [], mkSide (net_crypto m2) [] [] []) (a, b) /\
    party_rel i id m1 (fst z) a /\ party_rel j jd m2 (snd z) b.
Proof.
  intros Hst Hs. revert z Hs. refine (rtc_ind_r _ _ _ _).
  { exists (mkSide (net_crypto m1) [] [] []), (mkSide (net_crypto m2) [] [] []).
    split; [constructor|]. split; (split; [done|done|done|apply answers_none|simpl; lia]). }
  intros y0 z _ Hstep (a & b & Hch & Pa & Pb).
  destruct (channel_prefix _ _ _ _ _ _ _ _ _ _ _ _ Hst Hch) as (ea & eb & ca & cb & Ra & Rb & _).
  destruct Hstep as [p q p' Hp|p q q' Hq]; cbn [fst snd] in *.
  - rewrite <- (pr_net _ _ _ _ _ Pb) in Hp.
    destruct (party_step_rel _ _ _ _ _ _ _ _ _ _ _ _ Hp Pa Ra) as (a' & Ha & Pa'). exists a', b.
    split_and!; [|done..]. etrans; [exact Hch|]. destruct Ha as [Ha|[Ha _]]; [|by apply rtc_once, channel_left].
    apply (calls_side _ (sd_net b)) in Ha. clear -Ha.
    induction Ha as [|u v t Hu _ IH]; [done|]. eapply rtc_l; [by apply channel_left|done].
  - rewrite <- (pr_net _ _ _ _ _ Pa) in Hq.
    destruct (party_step_rel _ _ _ _ _ _ _ _ _ _ _ _ Hq Pb Rb) as (b' & Hb & Pb'). exists a, b'.
    split_and!; [|done..]. etrans; [exact Hch|]. destruct Hb as [Hb|[Hb _]]; [|by apply rtc_once, channel_right].
    apply (calls_side _ (sd_net a)) in Hb. clear -Hb.
    induction Hb as [|u v t Hu _ IH]; [done|]. eapply rtc_l; [by apply channel_right|done].
Qed.

(** One direction: what was shown at [b] is a prefix of what was said at [a]; what was
    confirmed at [a] was shown at [b]. *)
Lemma conveyed i id j jd m1 m2 p q a b :
  party_rel i id m1 p a -> party_rel j jd m2 q b ->
  sd_read b `prefix_of` sd_wrote a -> sd_read a `prefix_of` sd_wrote b ->
  exists l r, l `prefix_of` pt_said p /\ heard j (pt_m q) = heard j m2 ++ (shown j <$> l) /\
    confirmed i (pt_m p) = confirmed i m1 ++ r /\ r `sublist_of` omap id_said l.
Proof.
  intros [_ _ P3 P4 _] [_ _ Q3 Q4 _] [s Hs] [t Ht]. exists (omap utterance_of (sd_read b)), (omap receipt_of (sd_read a)).
  assert (Hw : Forall whole (sd_read b)).
  { pose proof (an_whole _ _ _ _ _ P4) as Hw. rewrite Hs in Hw. by apply Forall_app in Hw as [Hw _]. }
  split_and!.
  - rewrite <- P3, Hs, omap_app. by eexists.
  - by apply (an_heard _ _ _ _ _ Q4).
  - apply (an_confirmed _ _ _ _ _ P4).
  - pose proof (an_receipts _ _ _ _ _ Q4 Hw) as Hr. rewrite Ht, omap_app in Hr.
    etrans; [by apply sublist_inserts_r|]. etrans; [exact Hr|]. clear. 
    induction (sd_read b) as [|p l IH]; [done|]. cbn [omap list_omap]. unfold message_id at 1.
    destruct (utterance_of p) as [[n u|u]|]; cbn; by try apply sublist_skip.
Qed.

(** ** Claim *)

(** C5: a conversation arrives as it was held.  Two clients that have each other as an
    online friend, over an encrypted connection that was just made, call [m_sendmessage],
    [m_sendmessage_withid] and [m_sendaction] and take turns of [doFriends] as they like;
    names, statuses, pings and read receipts share the connection; the transport sends
    and acknowledges, and the network loses, repeats, delays and reorders datagrams.
    Then at any time what either client was shown of its friend, messages and actions
    with their texts and lengths, is a prefix of what the friend's program said, in the
    order it was said; and the read receipts that were reported are, in order, ids of
    messages that were indeed shown at the other end.  Two conditions: fewer than 286,331,148
    calls at each end; and, as for [link_in_order], no SYNC packet that asks for more than
    eight packets is delivered: an end sends one after nine or more packets were lost, and
    receiving it is a memory error ([SYNC_requests_overflow]). *)
Theorem chat_in_order i id j jd h k m1 m2 x y c1 c2 a b :
  channel_start id jd h k (net_crypto m1) (net_crypto m2) x y c1 c2 ->
  rtc (chat_step i id j jd) (mkParty m1 [] 0 [], mkParty m2 [] 0 []) (a, b) ->
  Z.of_nat (pt_calls a) < 286331148 -> Z.of_nat (pt_calls b) < 286331148 ->
  exists said1 said2 receipts1 receipts2,
    said1 `prefix_of` pt_said a /\ heard j (pt_m b) = heard j m2 ++ (shown j <$> said1) /\
    said2 `prefix_of` pt_said b /\ heard i (pt_m a) = heard i m1 ++ (shown i <$> said2) /\
    confirmed i (pt_m a) = confirmed i m1 ++ receipts1 /\ receipts1 `sublist_of` omap id_said said1 /\
    confirmed j (pt_m b) = confirmed j m2 ++ receipts2 /\ receipts2 `sublist_of` omap id_said said2.
Proof.
  intros Hst Hs Ba Bb. destruct (chat_rel _ _ _ _ _ _ _ _ _ _ _ _ _ Hst Hs) as (sa & sb & Hch & Pa & Pb). cbn [fst snd] in *.
  destruct (channel_prefix _ _ _ _ _ _ _ _ _ _ _ _ Hst Hch) as (ea & eb & ca & cb & _ & _ & Hp).
  pose proof (pr_calls _ _ _ _ _ Pa). pose proof (pr_calls _ _ _ _ _ Pb).
  destruct Hp as [Hab Hba]; [unfold bounded; lia..|].
  destruct (conveyed _ _ _ _ _ _ _ _ _ _ Pa Pb Hab Hba) as (l1 & r1 & ? & ? & ? & ?).
  destruct (conveyed _ _ _ _ _ _ _ _ _ _ Pb Pa Hba Hab) as (l2 & r2 & ? & ? & ? & ?).
  exists l1, l2, r1, r2. by split_and!.
Qed.
End conversation.

(** ** Witness *)

Section witnesses.
#[local] Existing Instance ToyBox.box.
#[local] Existing Instance ToyBox.laws.

Definition talker (h k : Z) : Messenger :=
set_m_callbacks [friend_message; friend_action; read_receipt]
  (demo_messenger (demo_nc (demo_conn demo_peer h k) demo_cc)).

Definition talk_conn (p : Party) : Connection :=
default conn_zero (tox_array_get (connections (lossless_udp (net_crypto (pt_m p)))) 0).
Definition talk_end (p : Party) : End := mkEnd (talk_conn p) [] [] (pt_net p).
Definition talk_cc (p : Party) : Crypto_Connection :=
default cc_zero (crypto_connections (net_crypto (pt_m p)) !! 0%nat).

(** The party after a step of its transport, a message, and a turn of [doFriends]. *)
Definition talk_put (p : Party) (e : End) : Party :=
mkParty (set_net_crypto (set_lossless_udp (upd (lossless_udp (net_crypto (pt_m p))) 0 (e_conn e)) (net_crypto (pt_m p))) (pt_m p))
  (pt_said p) (pt_calls p) (e_net e).
Definition talk_message (p : Party) (text : list Z) : Party :=
match m_sendmessage 1 text (pt_m p) (still_world 0 100) with
| Some (r, m, _) => mkParty m (pt_said p ++ if r =? 0 then [] else [Says r text]) (S (pt_calls p)) (pt_net p)
| None => p
end.
Definition talk_turn (p : Party) : Party :=
match doFriend 5 1 (pt_m p) (still_world 0 100) with
| Some (_, m, _) => mkParty m (pt_said p) (S (pt_calls p)) (pt_net p)
| None => p
end.

(** A message is sent, goes over the network and is shown. *)
Definition talk_sync (p : Party) : Party :=
talk_put p (end_send_SYNC (talk_end p) [] (set_recv_packetnum (osent_packetnum (talk_conn p)) (talk_conn p))).
Definition talk_A0 : Party := mkParty (talker 100 200) [] 0 [].
Definition talk_B0 : Party := mkParty (talker 200 100) [] 0 [].
Definition talk_A1 : Party := talk_message talk_A0 [104; 105].
Definition talk_A2 : Party := talk_put talk_A1 (end_send_DATA (talk_end talk_A1) 100).
Definition talk_A3 : Party := talk_sync talk_A2.
Definition talk_pkt (n : nat) : pkt := nth n (pt_net talk_A3) (PData 0 []).
Definition talk_B1 : Party := talk_put talk_B0 (end_recv (talk_end talk_B0) (talk_pkt 1)).
Definition talk_B2 : Party := talk_put talk_B1 (end_recv (talk_end talk_B1) (talk_pkt 0)).
Definition talk_B3 : Party := talk_sync talk_B2.
Definition talk_B4 : Party := talk_turn talk_B3.

(** Friend 1 is online on crypto connection 0, which is on transport 0. *)
Definition talk_ok (p : Party) : Prop :=
online 1 0 (pt_m p) /\ crypto_connections (net_crypto (pt_m p)) !! 0%nat = Some (talk_cc p) /\
cc_number (talk_cc p) = 0 /\ conn_at (lossless_udp (net_crypto (pt_m p))) 0 (talk_conn p).

Lemma talk_put_step peer p e :
  talk_ok p -> end_step peer (talk_end p) e -> e_wrote e = [] -> e_read e = [] ->
  party_step 1 0 peer p (talk_put p e).
Proof.
  intros (On & Hcc & Hn & Hc) He Hw Hr. destruct p as [m us n nt], e as [c' we re nt']. cbn in Hw, Hr. subst we re.
  pose proof (pt_transport 1 0 peer m (talk_cc (mkParty m us n nt)) (talk_conn (mkParty m us n nt)) c' us n nt nt') as Ht.
  rewrite Hn in Ht. by apply Ht.
Qed.

Lemma talk_message_step peer p text :
  online 1 0 (pt_m p) -> m_sendmessage 1 text (pt_m p) (still_world 0 100) <> None -> party_step 1 0 peer p (talk_message p text).
Proof.
  intros On. unfold talk_message. destruct (m_sendmessage _ _ _ _) as [[[r m'] w']|] eqn:E; [intros _|done].
  destruct p as [m us n nt]. by apply (pt_message 1 0 peer m (still_world 0 100) text r m' w').
Qed.

Lemma talk_turn_step peer p :
  online 1 0 (pt_m p) -> doFriend 5 1 (pt_m p) (still_world 0 100) <> None -> party_step 1 0 peer p (talk_turn p).
Proof.
  intros On. unfold talk_turn. destruct (doFriend _ _ _ _) as [[[[] m'] w']|] eqn:E; [intros _|done].
  destruct p as [m us n nt]. by apply (pt_turn 1 0 peer m (still_world 0 100) 5 m' w').
Qed.

Lemma online_dec i id m f :
  0 <= i -> m_friendlist m !! Z.to_nat i = Some f -> f_status f = FRIEND_ONLINE -> f_crypt_connection_id f = id ->
  m_callbacks m = [friend_message; friend_action; read_receipt] -> online i id m.
Proof. intros Hi Hf Hs Hid Hc. split; [done|by exists f|rewrite Hc; repeat constructor..]. Qed.

Ltac talk_online := eapply online_dec; [lia|vm_compute; reflexivity..].
Ltac talk_ok := split; [talk_online|split_and!; by vm_compute].

Lemma talk_A_run peer :
  party_step 1 0 peer talk_A0 talk_A1 /\ party_step 1 0 peer talk_A1 talk_A2 /\ party_step 1 0 peer talk_A2 talk_A3.
Proof.
  split_and!.
  - apply talk_message_step; [talk_online|by vm_compute].
  - apply talk_put_step; [talk_ok| |done..]. apply end_send_DATA_step. by vm_compute.
  - apply talk_put_step; [talk_ok| |done..]. apply end_send_SYNC_step, missing_none; by vm_compute.
Qed.

Lemma talk_B_run :
  let net := pt_net talk_A3 in
  party_step 1 0 net talk_B0 talk_B1 /\ party_step 1 0 net talk_B1 talk_B2 /\
  party_step 1 0 net talk_B2 talk_B3 /\ party_step 1 0 net talk_B3 talk_B4.
Proof.
  cbv zeta. split_and!.
  - apply talk_put_step; [talk_ok| |done..]. apply end_recv_data_step, list_elem_of_further, list_elem_of_here.
  - apply talk_put_step; [talk_ok| |done..]. apply end_recv_SYNC_step; [apply list_elem_of_here|by vm_compute|simpl; lia].
  - apply talk_put_step; [talk_ok| |done..]. apply end_send_SYNC_step, missing_none; by vm_compute.
  - apply talk_turn_step; [talk_online|by vm_compute].
Qed.

Lemma talk_run : rtc (chat_step 1 0 1 0) (talk_A0, talk_B0) (talk_A3, talk_B4).
Proof.
  destruct (talk_A_run (pt_net talk_B0)) as (A1 & A2 & A3). destruct talk_B_run as (B1 & B2 & B3 & B4).
  eapply rtc_l; [apply chat_left, A1|]. eapply rtc_l; [apply chat_left, A2|].
  eapply rtc_l; [apply chat_left, A3|]. eapply rtc_l; [apply chat_right, B1|].
  eapply rtc_l; [apply chat_right, B2|]. eapply rtc_l; [apply chat_right, B3|].
  apply rtc_once, chat_right, B4.
Qed.

Lemma chat_in_order_witness :
  heard 1 (pt_m talk_B4) = [Ev_message 1 [104; 105] 2] /\
  exists said1 said2 receipts1 receipts2,
    said1 `prefix_of` pt_said talk_A3 /\ heard 1 (pt_m talk_B4) = heard 1 (talker 200 100) ++ (shown 1 <$> said1) /\
    said2 `prefix_of` pt_said talk_B4 /\ heard 1 (pt_m talk_A3) = heard 1 (talker 100 200) ++ (shown 1 <$> said2) /\
    confirmed 1 (pt_m talk_A3) = confirmed 1 (talker 100 200) ++ receipts1 /\ receipts1 `sublist_of` omap id_said said1 /\
    confirmed 1 (pt_m talk_B4) = confirmed 1 (talker 200 100) ++ receipts2 /\ receipts2 `sublist_of` omap id_said said2.
Proof.
  split; [by vm_compute|].
  apply (chat_in_order 1 0 1 0 100 200 (talker 100 200) (talker 200 100) demo_cc demo_cc
           (demo_conn demo_peer 100 200) (demo_conn demo_peer 200 100)).
  - split.
    + split; [split; [lia|done]|done].
    + split; [split; [lia|done]|done].
    + split; done.
    + apply demo_established; unfold is_u32; lia.
    + apply demo_established; unfold is_u32; lia.
  - exact talk_run.
  - by vm_compute.
  - by vm_compute.
Defined.
End witnesses.
