(* ===== verification/ChatLive.v ===== *)
(** * A conversation recovers

    [Chat] shows that a client is shown nothing its friend did not say; here, that whatever
    the network has lost, everything a friend has said can always be shown.  The recovery
    of [LosslessLive] is carried out with a client as the program that reads: at its turn,
    [doFriends] reads all the packets that have arrived, and also writes on the connection
    (names, statuses, receipts). *)

From S2P Require Import Prelude MiscTools Network LosslessUDP LosslessInv LosslessSafe LosslessLink LosslessThms LosslessLive Crypto NetCrypto CryptoThms Session Channel ChannelLive Ping DHTLists DHT DHTThms FriendRequests LANDiscovery Messenger MessengerThms MessengerLoop Chat.
From stdpp Require Import relations.
Local Open Scope Z_scope.
Local Open Scope tox_scope.

(** ** A program that writes and reads *)

Lemma use_recent e e' : use_step e e' -> recent e -> recent e'.
Proof. by destruct 1. Qed.

Lemma uses_recent e e' : rtc use_step e e' -> recent e -> recent e'.
Proof. induction 1; eauto using use_recent. Qed.

Lemma use_wrote e e' : use_step e e' -> (length (e_wrote e) <= length (e_wrote e'))%nat.
Proof. intros Hs. exact (end_step_wrote [] _ _ (use_end [] _ _ Hs)). Qed.

Lemma uses_wrote e e' : rtc use_step e e' -> (length (e_wrote e) <= length (e_wrote e'))%nat.
Proof. induction 1 as [|e e1 e' Hs _ IH]; [done|]. apply use_wrote in Hs. lia. Qed.

Lemma live_uses h k a b b' :
  rtc use_step b b' -> live h k a b -> bounded (e_wrote a) -> bounded (e_wrote b') -> live h k a b'.
Proof.
  induction 1 as [b|b b1 b' Hs Hr IH]; intros Hl Ba Bb; [done|].
  pose proof (uses_wrote _ _ Hr) as L1. pose proof (use_wrote _ _ Hs) as L2. apply IH; [|done..].
  apply live_sym. eapply live_step; [by apply live_sym|by apply use_end|unfold bounded in *; lia|done|].
  by eapply use_recent, (lv_recent _ _ _ _ Hl).
Qed.

(** What reading and writing keep true of a connection. *)
Lemma uses_inv (Inv : Connection -> Prop) h k a b b' :
  (forall c, conn_wf c -> recvqueue_conn c <> 0 -> Inv c -> Inv (snd (read_packet_conn c))) ->
  (forall c data, Inv c -> Inv (write_packet_conn c data)) ->
  rtc use_step b b' -> live h k a b -> bounded (e_wrote a) -> bounded (e_wrote b') -> Inv (e_conn b) -> Inv (e_conn b').
Proof.
  intros Hr Hw. induction 1 as [b|b b1 b' Hs Hrest IH]; intros Hl Ba Bb Hi; [done|].
  pose proof (uses_wrote _ _ Hrest) as L1. apply IH; [|done..|].
  - apply (live_uses h k a b b1); [by apply rtc_once|done..|unfold bounded in *; lia].
  - pose proof Hl as [[[_ Wb] _ _ _] _ _ _]. destruct Hs as [c wr rd nt data ? ?|c wr rd nt Hq]; cbn [e_conn] in *; auto.
Qed.

Section opens.
Context `{CryptoBoxLaws}.

(** Every packet that is read from here on opens to a message. *)
Definition opens (key nr : list Z) (e : End) : Prop :=
forall e', rtc use_step e e' -> recvqueue_conn (e_conn e') <> 0 ->
  open_packet key (Nat.iter (length (open_stream key nr (e_read e'))) increment_nonce nr)
    (fst (read_packet_conn (e_conn e'))) <> None.

Lemma opens_uses key nr e e' : opens key nr e -> rtc use_step e e' -> opens key nr e'.
Proof. intros Ho Hr e2 H2. apply Ho. by etrans. Qed.

Lemma live_prefix h k a b : live h k a b -> e_read b `prefix_of` e_wrote a.
Proof.
  intros [[_ _ (s & t & r & v & o & D) _] _ _ _]. rewrite (di_del _ _ _ _ _ _ _ _ _ _ _ _ D). apply prefix_take.
Qed.

(** The packets of a stream that was written with [crypt_stream] open. *)
Lemma live_opens h k key nr msgs a b :
  live h k a b -> crypt_stream key nr msgs = Some (e_wrote a) -> bounded (e_wrote a) ->
  Z.of_nat (length (e_wrote b)) + 15 + 64 < 4294967296 -> opens key nr b.
Proof.
  intros Hl Hs Ba Bb e Hr Hq. pose proof (uses_bound _ _ Hr) as L.
  set (e1 := mkEnd (snd (read_packet_conn (e_conn e))) (e_wrote e) (e_read e ++ [fst (read_packet_conn (e_conn e))]) (e_net e)).
  assert (Hr1 : rtc use_step b e1).
  { eapply rtc_r; [exact Hr|]. subst e1. destruct e. by constructor. }
  assert (P : e_read e `prefix_of` e_wrote a) by (eapply live_prefix, live_uses; [exact Hr|exact Hl|done|unfold bounded; lia]).
  assert (P1 : e_read e1 `prefix_of` e_wrote a) by (eapply live_prefix, live_uses; [exact Hr1|exact Hl|done|unfold bounded; subst e1; simpl; lia]).
  pose proof (stream_round_trip _ _ _ _ _ Hs P) as E. pose proof (stream_round_trip _ _ _ _ _ Hs P1) as E1.
  subst e1. cbn [e_read] in *. rewrite open_stream_snoc in E1. intros Hn. rewrite Hn, app_nil_r, E in E1.
  apply (f_equal length) in E1. apply prefix_length in P1. rewrite (length_crypt_stream _ _ _ _ Hs) in P1.
  rewrite !length_take, length_app in *. simpl in *. lia.
Qed.
End opens.

(** ** A turn of [doFriends] *)

Section turn.
Context `{CryptoBoxLaws} (t i id : Z) (key ns nr : list Z).

(** Friend [i] has not timed out at time [t]. *)
Definition friend_awake (m : Messenger) : Prop := exists f, m_friendlist m !! Z.to_nat i = Some f /\ awake t f.

(** Friend [i] of [m] is online on the connection whose ends are [sd] and [e], and awake. *)
Record seat (m : Messenger) (sd : Side) (e : End) (cc : Crypto_Connection) : Prop := {
  se_online : online i id m;
  se_awake : friend_awake m;
  se_wf : ludp_wf (lossless_udp (net_crypto m));
  se_nc : sd_nc sd = net_crypto m;
  se_rel : side_rel id key ns nr sd e cc
}.

Lemma seat_loop m sd e cc n w :
  seat m sd e cc -> recvqueue_conn (e_conn e) = Z.of_nat n -> w_nomem w = [] -> loop_inv t i id n m w.
Proof.
  intros [[Hi (f & Hf & _ & Hid) _ _ _] (f' & Hf' & Haw) Hwf Hnc R] Hq Hw. simplify_eq. split_and!; [done| |done|by exists f].
  split; [done|]. exists cc, (e_conn e). rewrite <- Hnc. split_and!; [apply R|apply R|done].
Qed.

(** The side after the packets [W] are written and [R] read. *)
Definition side_after (m' : Messenger) (sd : Side) (W R : list (list Z)) : Side :=
mkSide (net_crypto m') (sd_wrote sd ++ W) (sd_read sd ++ R) (sd_net sd).

Lemma seat_calls m m' sd e cc W R n w' :
  seat m sd e cc -> calls id m m' W R -> online i id m' -> loop_inv t i id n m' w' ->
  exists e' cc', rtc use_step e e' /\ seat m' (side_after m' sd W R) e' cc' /\ recvqueue_conn (e_conn e') = Z.of_nat n.
Proof.
  intros [_ _ _ Hnc Rel] Hc On (_ & (Hwf & cc1 & c1 & Hcc1 & Hc1 & Hq) & _ & f1 & Hf1 & _ & Haw).
  destruct sd as [s wr rd nt]. cbn [sd_nc] in Hnc. subst s.
  destruct (calls_rel _ _ _ _ _ _ (Hc wr rd nt) _ _ Rel) as (e' & cc' & Hu & Rel'). exists e', cc'.
  split_and!; [done|split; [done|by exists f1|done..]|]. rewrite <- Hq. f_equal.
  apply (side_link_fun id (net_crypto m')); [by apply (side_rel_link _ _ _ _ _ _ _ Rel')|by exists cc1].
Qed.

(** From [m] to [m'], all the packets that have arrived are read. *)
Definition taken (m m' : Messenger) (sd : Side) (e : End) (W R : list (list Z)) : Prop :=
calls id m m' W R /\ omap utterance_of W = [] /\ answers i m m' W R /\
exists e' cc', rtc use_step e e' /\ seat m' (side_after m' sd W R) e' cc' /\ recvqueue_conn (e_conn e') = 0.

Lemma taken_trans m1 m2 m3 sd e e1 W1 W2 R1 R2 :
  calls id m1 m2 W1 R1 -> omap utterance_of W1 = [] -> answers i m1 m2 W1 R1 -> rtc use_step e e1 ->
  taken m2 m3 (side_after m2 sd W1 R1) e1 W2 R2 -> taken m1 m3 sd e (W1 ++ W2) (R1 ++ R2).
Proof.
  intros C1 U1 A1 He (C2 & U2 & A2 & e' & cc' & He' & S & Hq).
  split_and!; [by eapply calls_trans|by rewrite omap_app, U1, U2|by eapply answers_trans|].
  exists e', cc'. split_and!; [by etrans| |done]. unfold side_after in *. cbn [sd_wrote sd_read sd_net] in *.
  by rewrite !app_assoc.
Qed.

Lemma wp_idle {A} (x : M Messenger A) n m w :
  stays t i id n x -> idle i id x -> online i id m -> loop_inv t i id n m w ->
  wp x (fun _ m' w' => loop_inv t i id n m' w' /\ aside i id m m') m w.
Proof. intros Hs Hi On Hl. apply wp_wlp_and; [by apply Hs|by apply Hi]. Qed.

(** Reading, when packets are there and open. *)
Lemma wp_read_seat m w sd e cc n :
  seat m sd e cc -> recvqueue_conn (e_conn e) = Z.of_nat n -> w_nomem w = [] -> opens key nr e ->
  wp (in_crypto (read_cryptpacket id)) (fun r m' w' =>
    online i id m' /\ m_events m' = m_events m /\
    match n with
    | O => fst r <= 0 /\ m' = m /\ w_nomem w' = []
    | S k => 0 < fst r /\ calls id m m' [] [snd r] /\ loop_inv t i id k m' w'
    end) m w.
Proof.
  intros S Hq Hw Ho. pose proof S as [On _ Hwf Hnc R]. destruct (seat_loop _ _ _ _ _ _ S Hq Hw) as (Hi & Hl & _ & Hf).
  assert (Hrun : wp (read_cryptpacket id) (fun r s' w' => (read_outcome id (net_crypto m) cc (e_conn e) r s' /\
    exists k, link_ok id k s' /\ (0 < fst r -> n = Datatypes.S k)) /\ w_nomem w' = []) (net_crypto m) w).
  { apply wp_calm; [|done|].
    - unfold read_cryptpacket, get_cc, put_cc, ludp, read_packet, get_conn, put_conn. calm_steps.
    - apply wp_wlp_and; [|by apply wp_wlp, (wp_read_link id n)]. rewrite <- Hnc. apply wp_read_cryptpacket; apply R. }
  apply wp_Some in Hrun as (r & s' & w' & E & [Hout (k & Hk & Hn)] & Hw').
  unfold in_crypto, in_dht, in_nc. rewrite !wp_zoom. unfold wp. change (dht_c (m_dht m)) with (net_crypto m). rewrite E.
  split; [by eapply online_same|]. split; [done|]. destruct n as [|n].
  - destruct Hout as [(_ & Hr & ->)|[Hne _]]; [|by rewrite Hq in Hne]. split_and!; [done|by destruct m as [[] ]|done].
  - destruct Hout as [(Hz & _ & _)|[_ Hm]]; [by rewrite Hz in Hq|]. cbv zeta in Hm.
    pose proof (Ho e (rtc_refl _ _)) as Hop. rewrite <- (sr_read _ _ _ _ _ _ _ R), <- (sr_recv _ _ _ _ _ _ _ R) in Hop.
    rewrite (sr_key _ _ _ _ _ _ _ R) in Hm. destruct (open_packet _ _ _) as [msg|]; [|by destruct Hop; [rewrite Hq|]].
    destruct Hm as (Hr & _ & _). specialize (Hn Hr). injection Hn as <-. split_and!; [done| |].
    + intros wr rd nt. rewrite app_nil_r. apply rtc_once. apply (call_read id _ _ r _ _ wr rd nt) in E.
      by rewrite (proj2 (Z.ltb_lt _ _) Hr) in E.
    + by split_and!.
Qed.

(** The clock does not wrap around soon. *)
Context (Ht : t <= u64 (t + FRIEND_CONNECTION_TIMEOUT)).

Lemma wp_turn n fuel m w sd e cc :
  seat m sd e cc -> recvqueue_conn (e_conn e) = Z.of_nat n -> (n < fuel)%nat -> w_nomem w = [] -> opens key nr e ->
  wp (friend_online fuel t i) (fun _ m' _ => exists W R, taken m m' sd e W R) m w.
Proof.
  revert n m w sd e cc. induction fuel as [|fuel IH]; intros n m w sd e cc S Hq Hn Hw Ho; [lia|]. cbn [friend_online].
  pose proof S as [On _ _ _ _]. pose proof On as [Hi (f & Hf & Hst & Hid) _ _ _].
  assert (Hget : forall m' w' f' (Q : Friend -> Messenger -> World -> Prop),
    m_friendlist m' !! Z.to_nat i = Some f' -> Q f' m' w' -> wp (get_mfriend i) Q m' w').
  { intros m' w' f' Q Hf' HQ. unfold get_mfriend. do 2 wp_step. rewrite (proj2 (Z.ltb_ge _ _)) by done.
    apply wp_liftO. by exists f'. }
  wp_step. apply (Hget _ _ f); [done|]. rewrite Hst, Z.eqb_refl, Hid. wp_step.
  eapply wp_mono; [apply (wp_idle _ n); [apply stays_friend_sends|apply idle_friend_sends|done|by eapply seat_loop]|].
  intros ? m1 w1 [Hl1 Has]. pose proof (as_online _ _ _ _ Has) as On1. pose proof Hl1 as (_ & _ & Hw1 & _).
  apply aside_answers in Has as (W1 & C1 & U1 & A1).
  destruct (seat_calls _ _ _ _ _ _ _ _ _ S C1 On1 Hl1) as (e1 & cc1 & He1 & S1 & Hq1).
  assert (Ho1 : opens key nr e1) by by eapply opens_uses.
  wp_step. eapply wp_mono; [by apply (wp_read_seat m1 w1 _ e1 cc1 n S1)|].
  intros [len p] m2 w2 (On2 & Ev2 & Hcase). cbn [fst snd] in Hcase. destruct n as [|n].
  - destruct Hcase as (Hlen & -> & _). rewrite (proj2 (Z.ltb_ge _ _)) by done. do 2 wp_step.
    assert (is_cryptoconnected (net_crypto m1) id = CONN_ESTABLISHED) as ->.
    { pose proof S1 as [_ _ _ Hnc R]. cbn [sd_nc side_after] in Hnc. unfold is_cryptoconnected.
      pose proof (sr_at _ _ _ _ _ _ _ R) as Hat. cbn [sd_nc side_after] in Hat. rewrite (cc_at_valid _ _ _ Hat).
      destruct Hat as [_ Hat]. rewrite nth_lookup, Hat. apply (sr_status _ _ _ _ _ _ _ R). }
    cbn [Z.eqb CONN_ESTABLISHED Pos.eqb]. wp_step. exists W1, [].
    split_and!; [done..|]. exists e1, cc1. by split_and!.
  - destruct Hcase as (Hlen & C2 & Hl2). rewrite (proj2 (Z.ltb_lt _ _)) by done.
    destruct (seat_calls _ _ _ _ _ _ _ _ _ S1 C2 On2 Hl2) as (e2 & cc2 & He2 & S2 & Hq2).
    wp_step. eapply wp_mono; [apply wp_wlp_and; [by apply (stays_friend_packet t i id n t)|by apply (friend_packet_handled i id)]|].
    intros ? m3 w3 [Hl3 (On3 & W3 & C3 & U3 & A3)]. pose proof Hl3 as (_ & _ & Hw3 & f3 & Hf3 & _ & Haw3).
    destruct (seat_calls _ _ _ _ _ _ _ _ _ S2 C3 On3 Hl3) as (e3 & cc3 & He3 & S3 & Hq3).
    wp_step. apply (Hget _ _ f3); [done|]. wp_step.
    rewrite (proj2 (Z.ltb_ge _ _)) by exact Haw3.
    wp_step. eapply wp_mono; [apply (IH n m3 w3 _ e3 cc3 S3); [done|lia|done|]|].
    + eapply opens_uses; [exact Ho1|]. by etrans.
    + intros ? m4 w4 (W & R & Htk). exists (W1 ++ W3 ++ W), ([] ++ [p] ++ R).
      eapply taken_trans; [exact C1|exact U1|exact A1|exact He1|].
      eapply (taken_trans m1 m3 m4 _ e1 e3); [|exact U3| |by etrans|].
      * pose proof (calls_trans _ _ _ _ _ _ _ _ C2 C3) as C23. by rewrite app_nil_r in C23.
      * by eapply answers_events.
      * unfold side_after in *. cbn [sd_wrote sd_read sd_net] in *. by rewrite !app_nil_r in *.
Qed.

Lemma wp_doFriend_turn m w sd e cc :
  seat m sd e cc -> w_nomem w = [] -> opens key nr e ->
  wp (doFriend t i) (fun _ m' _ => exists W R, taken m m' sd e W R) m w.
Proof.
  intros S Hw Ho. pose proof S as [On _ _ Hnc R]. pose proof On as [Hi (f & Hf & Hst & Hid) _ _ _].
  assert (Hget : forall w' (Q : Friend -> Messenger -> World -> Prop), Q f m w' -> wp (get_mfriend i) Q m w').
  { intros w' Q HQ. unfold get_mfriend. do 2 wp_step. rewrite (proj2 (Z.ltb_ge _ _)) by done.
    apply wp_liftO. by exists f. }
  unfold doFriend, friend_added, friend_offline. wp_step. wp_step. apply Hget. rewrite Hst.
  cbn [Z.eqb FRIEND_ONLINE FRIEND_ADDED Pos.eqb]. do 3 wp_step. apply Hget. rewrite Hst.
  cbn [Z.eqb FRIEND_ONLINE FRIEND_REQUESTED FRIEND_CONFIRMED Pos.eqb orb]. do 4 wp_step. apply Hget.
  assert (Hq : 0 <= recvqueue_conn (e_conn e)) by (unfold recvqueue_conn; pose proof (u32_range (recv_packetnum (e_conn e) - successful_read (e_conn e))); unfold is_u32 in *; lia).
  apply (wp_turn (Z.to_nat (recvqueue_conn (e_conn e))) _ m w sd e cc S); [lia| |done|done].
  unfold online_fuel. rewrite Hid. pose proof (sr_at _ _ _ _ _ _ _ R) as [_ Hat]. rewrite Hnc in Hat. rewrite Hat.
  pose proof (sr_conn _ _ _ _ _ _ _ R) as Hc. rewrite Hnc in Hc. rewrite (recvqueue_at _ _ _ Hc). lia.
Qed.
End turn.

(** ** A network that forgets, again *)

Definition party_recent (id : Z) (p : Party) : Prop :=
side_recent id (mkSide (net_crypto (pt_m p)) [] [] (pt_net p)).

(** The party when the network has only the packets [nt] of it. *)
Definition under_way (p : Party) (nt : list pkt) : Party := mkParty (pt_m p) (pt_said p) (pt_calls p) nt.

(** The transport alone. *)
Lemma transport_only peer e e' :
  end_step peer e e' -> length (e_wrote e') = length (e_wrote e) -> length (e_read e') = length (e_read e) ->
  e_wrote e' = e_wrote e /\ e_read e' = e_read e /\ ip_port (e_conn e') = ip_port (e_conn e) /\
  end_step peer (mkEnd (e_conn e) [] [] (e_net e)) (mkEnd (e_conn e') [] [] (e_net e')).
Proof.
  destruct 1 as [c we re nt data|c we re nt num Hn|c we re nt req c' Hm|c we re nt counter rn sn reqs now dst H1 H2 H3 H4 H5
    |c we re nt num payload now Hin|c we re nt Hq]; cbn [e_conn e_wrote e_read e_net]; rewrite ?length_app; intros Lw Lr;
    try (simpl in *; lia); split_and!; try done; try by constructor.
  - unfold send_DATA_conn. by repeat case_if.
  - unfold missing_packets_conn in Hm. destruct (_ <=? recvqueue_conn c); [by injection Hm as <- <-|].
    destruct (missing_loop _ _ _ _); [|done]. injection Hm as <- <-. by case_if.
  - unfold recv_conn, advance_recv, store_recv. by repeat case_if.
Qed.

Lemma end_step_read peer e e' : end_step peer e e' -> (length (e_read e) <= length (e_read e'))%nat.
Proof. destruct 1; simpl; rewrite ?length_app; lia. Qed.

Lemma timely_read x y :
  timely_step x y -> (length (e_read (fst x)) <= length (e_read (fst y)))%nat /\
    (length (e_read (snd x)) <= length (e_read (snd y)))%nat.
Proof.
  destruct 1 as [x y [a b a' Hs|a b b' Hs] _ _|]; [| |done]; apply end_step_read in Hs; simpl; lia.
Qed.

Lemma timely_reads x y :
  rtc timely_step x y -> (length (e_read (fst x)) <= length (e_read (fst y)))%nat /\
    (length (e_read (snd x)) <= length (e_read (snd y)))%nat.
Proof. induction 1 as [|x y z Hu _ IH]; [done|]. apply timely_read in Hu. lia. Qed.

Section chat.
Context `{CryptoBoxLaws}.

(** A step of either party, or the network loses packets. *)
Inductive timely_chat (i id j jd : Z) : Party * Party -> Party * Party -> Prop :=
  | tc_step x y :
      chat_step i id j jd x y -> party_recent id (fst y) -> party_recent jd (snd y) -> timely_chat i id j jd x y
  | tc_lose a b na nb :
      na ⊆ pt_net a -> nb ⊆ pt_net b -> timely_chat i id j jd (a, b) (under_way a na, under_way b nb).

Lemma party_step_calls i id peer p p' : party_step i id peer p p' -> (pt_calls p <= pt_calls p')%nat.
Proof. destruct 1; simpl; lia. Qed.

Lemma timely_calls i id j jd x y :
  timely_chat i id j jd x y -> (pt_calls (fst x) <= pt_calls (fst y))%nat /\ (pt_calls (snd x) <= pt_calls (snd y))%nat.
Proof.
  destruct 1 as [x y [a b a' Hs|a b b' Hs] _ _|]; [| |done]; apply party_step_calls in Hs; simpl; lia.
Qed.

(** *** What holds in any state that is reached *)

Definition few_calls (p : Party) : Prop := Z.of_nat (15 * pt_calls p) + 64 < 4294967296.

Lemma few_bounded i id key ns nr m0 p sd e cc :
  party_rel i id m0 p sd -> side_rel id key ns nr sd e cc -> few_calls p -> bounded (e_wrote e).
Proof.
  intros P R Hc. unfold bounded, few_calls in *. rewrite (length_crypt_stream _ _ _ _ (sr_wrote _ _ _ _ _ _ _ R)).
  pose proof (pr_calls _ _ _ _ _ P). lia.
Qed.

(** A step of one party, seen by the transports. *)
Lemma party_live i id key n1 n2 m0 h k peer p p' sd e cc eb :
  party_step i id peer p p' -> party_recent id p' -> peer = e_net eb ->
  party_rel i id m0 p sd -> side_rel id key n1 n2 sd e cc -> live h k e eb ->
  few_calls p' -> bounded (e_wrote eb) ->
  exists sd' e' cc', party_rel i id m0 p' sd' /\ side_rel id key n1 n2 sd' e' cc' /\ live h k e' eb.
Proof.
  intros Hs Hrec -> P R Hl Hc Bb. pose proof (party_step_calls _ _ _ _ _ Hs) as Hm.
  destruct (party_step_rel _ _ _ _ _ _ _ _ _ _ _ _ Hs P R) as (sd' & Hcase & P'). destruct Hcase as [Hcall|[Hside On']].
  - destruct (calls_rel _ _ _ _ _ _ Hcall _ _ R) as (e' & cc' & Hu & R'). exists sd', e', cc'. split_and!; [done..|].
    apply live_sym. eapply live_uses; [exact Hu|by apply live_sym|done|by eapply few_bounded].
  - destruct (side_step_rel _ _ _ _ _ _ _ _ _ Hside R) as (e' & cc' & He & R'). exists sd', e', cc'. split_and!; [done..|].
    destruct He as [->|He]; [done|]. eapply live_step; [done..|eapply few_bounded; [exact P|exact R|unfold few_calls in *; lia]|done|].
    apply (side_rel_recent _ _ _ _ _ _ _ R'). intros c Hc'. rewrite (pr_nc _ _ _ _ _ P' On') in Hc'.
    rewrite (pr_net _ _ _ _ _ P'). by apply Hrec.
Qed.

Lemma chat_live i id j jd h k m1 m2 x y c1 c2 z :
  channel_start id jd h k (net_crypto m1) (net_crypto m2) x y c1 c2 -> tokens c1 c2 ->
  is_u8 (send_counter c1) -> is_u8 (send_counter c2) ->
  rtc (timely_chat i id j jd) (mkParty m1 [] 0 [], mkParty m2 [] 0 []) z -> few_calls (fst z) -> few_calls (snd z) ->
  exists sa sb ea eb ca cb, party_rel i id m1 (fst z) sa /\ party_rel j jd m2 (snd z) sb /\
    side_rel id (cc_shared_key x) (cc_sent_nonce x) (cc_sent_nonce y) sa ea ca /\
    side_rel jd (cc_shared_key x) (cc_sent_nonce y) (cc_sent_nonce x) sb eb cb /\ live h k ea eb.
Proof.
  intros [[Hx Hc1] [Hy Hc2] [[Hsx Hsy] Hkey H12 H21] He1 He2] Ht Hu1 Hu2 Hs. revert z Hs. refine (rtc_ind_r _ _ _ _).
  { intros _ _. exists (mkSide (net_crypto m1) [] [] []), (mkSide (net_crypto m2) [] [] []), (fresh_end c1), (fresh_end c2), x, y.
    split_and!; [split; [done|done|done|apply answers_none|simpl; lia]..|by split|by split|by apply live_fresh]. }
  intros u z _ Hstep IH Fa Fb. pose proof (timely_calls _ _ _ _ _ _ Hstep) as [La Lb].
  destruct IH as (sa & sb & ea & eb & ca & cb & Pa & Pb & Ra & Rb & Hl); [unfold few_calls in *; lia..|].
  destruct Hstep as [u z [a b a' Hp|a b b' Hp] Hra Hrb|a b na nb Hna Hnb]; cbn [fst snd] in *.
  - destruct (party_live i id (cc_shared_key x) (cc_sent_nonce x) (cc_sent_nonce y) m1 h k (pt_net b) a a' sa ea ca eb Hp Hra) as (sa' & ea' & ca' & Pa' & Ra' & Hl'); try done.
    + by rewrite (sr_net _ _ _ _ _ _ _ Rb), (pr_net _ _ _ _ _ Pb).
    + by eapply few_bounded.
    + exists sa', sb, ea', eb, ca', cb. by split_and!.
  - apply live_sym in Hl.
    destruct (party_live j jd (cc_shared_key x) (cc_sent_nonce y) (cc_sent_nonce x) m2 k h (pt_net a) b b' sb eb cb ea Hp Hrb) as (sb' & eb' & cb' & Pb' & Rb' & Hl'); try done.
    + by rewrite (sr_net _ _ _ _ _ _ _ Ra), (pr_net _ _ _ _ _ Pa).
    + eapply few_bounded; [exact Pa|exact Ra|done].
    + exists sa, sb', ea, eb', ca, cb'. split_and!; [done..|by apply live_sym].
  - exists (with_packets sa na), (with_packets sb nb), (with_net ea na), (with_net eb nb), ca, cb.
    assert (Hlose : forall i id m p s nt, party_rel i id m p s -> party_rel i id m (under_way p nt) (with_packets s nt)).
    { intros i0 id0 m0 p s nt [? ? ? ? ?]. by split. }
    split_and!; [by apply Hlose|by apply Hlose|by apply side_rel_packets|by apply side_rel_packets|].
    apply live_lose; [done|..].
    + by rewrite (sr_net _ _ _ _ _ _ _ Ra), (pr_net _ _ _ _ _ Pa).
    + by rewrite (sr_net _ _ _ _ _ _ _ Rb), (pr_net _ _ _ _ _ Pb).
Qed.

(** *** The two clients go on *)

(** What a client does when its program says nothing more: turns of [doFriends], at time
    [t], and steps of the transport. *)
Inductive quiet_step (t i id : Z) (peer : list pkt) : Party -> Party -> Prop :=
  | qs_turn m w m' w' us n nt :
      online i id m -> doFriend t i m w = Some (tt, m', w') ->
      quiet_step t i id peer (mkParty m us n nt) (mkParty m' us (S n) nt)
  | qs_transport m cc c c' us n nt nt' :
      online i id m -> cc_at (net_crypto m) id cc -> conn_at (lossless_udp (net_crypto m)) (cc_number cc) c ->
      end_step peer (mkEnd c [] [] nt) (mkEnd c' [] [] nt') ->
      quiet_step t i id peer (mkParty m us n nt)
        (mkParty (set_net_crypto (set_lossless_udp (upd (lossless_udp (net_crypto m)) (cc_number cc) c') (net_crypto m)) m)
           us n nt').

(** Such a step of either client, whose clocks show [t] and [u]; or the network loses packets. *)
Inductive resume (t i id u j jd : Z) : Party * Party -> Party * Party -> Prop :=
  | rs_left a b a' : quiet_step t i id (pt_net b) a a' -> party_recent id a' -> party_recent jd b -> resume t i id u j jd (a, b) (a', b)
  | rs_right a b b' : quiet_step u j jd (pt_net a) b b' -> party_recent id a -> party_recent jd b' -> resume t i id u j jd (a, b) (a, b')
  | rs_lose a b na nb :
      na ⊆ pt_net a -> nb ⊆ pt_net b -> resume t i id u j jd (a, b) (under_way a na, under_way b nb).

(** The conversation goes on: these are steps of it. *)
Lemma quiet_party t i id peer p p' : quiet_step t i id peer p p' -> party_step i id peer p p'.
Proof. destruct 1; [by eapply pt_turn|by eapply pt_transport]. Qed.

Lemma resume_timely t i id u j jd x y : resume t i id u j jd x y -> timely_chat i id j jd x y.
Proof.
  destruct 1 as [a b a' Hs Ha Hb|a b b' Hs Ha Hb|a b na nb Ha Hb]; [..|by apply tc_lose];
    apply quiet_party in Hs; (apply tc_step; [|done..]); by constructor.
Qed.

Lemma resume_swap t i id u j jd x y :
  resume t i id u j jd x y -> resume u j jd t i id (snd x, fst x) (snd y, fst y).
Proof. destruct 1; by constructor. Qed.

Lemma resumes_swap t i id u j jd a b a' b' :
  rtc (resume t i id u j jd) (a, b) (a', b') -> rtc (resume u j jd t i id) (b, a) (b', a').
Proof.
  intros Hr. change (rtc (resume u j jd t i id) (snd (a, b), fst (a, b)) (snd (a', b'), fst (a', b'))).
  induction Hr as [|x y z H1 _ IH]; [apply rtc_refl|]. eapply rtc_l; [by apply resume_swap|done].
Qed.

(** Client [p], which began as [m0] and has said [us], is online on the connection whose
    ends are [sd] and [e]. *)
Definition party_at (t i id : Z) (key ns nr : list Z) (m0 : Messenger) (us : list utterance) (p : Party) (sd : Side) (e : End) : Prop :=
party_rel i id m0 p sd /\ pt_said p = us /\ exists cc, seat t i id key ns nr (pt_m p) sd e cc.

Lemma party_at_recent t i id key ns nr m0 us p sd e :
  party_at t i id key ns nr m0 us p sd e -> recent e -> party_recent id p.
Proof.
  intros (P & _ & cc & [On _ _ Hnc R]) He c Hc counter rn sn reqs. cbn [sd_nc sd_net e_conn e_net] in *.
  rewrite <- Hnc in Hc. rewrite <- (pr_net _ _ _ _ _ P). by apply (proj2 (side_rel_recent _ _ _ _ _ _ _ R) He).
Qed.

Lemma party_at_net t i id key ns nr m0 us p sd e : party_at t i id key ns nr m0 us p sd e -> e_net e = pt_net p.
Proof. intros (P & _ & cc & [_ _ _ _ R]). by rewrite (sr_net _ _ _ _ _ _ _ R), (pr_net _ _ _ _ _ P). Qed.

Lemma party_at_lose t i id key ns nr m0 us p sd e nt :
  party_at t i id key ns nr m0 us p sd e ->
  party_at t i id key ns nr m0 us (under_way p nt) (with_packets sd nt) (with_net e nt).
Proof.
  intros ([? ? ? ? ?] & Hu & cc & [? ? ? ? R]). split; [by split|]. split; [done|]. exists cc.
  split; [done..|by apply side_rel_packets].
Qed.

(** The transport runs. *)
Lemma party_at_transport t i id key ns nr m0 us peer p sd e e' :
  party_at t i id key ns nr m0 us p sd e -> end_step peer e e' -> conn_wf (e_conn e') -> status (e_conn e) = 3 ->
  length (e_wrote e') = length (e_wrote e) -> length (e_read e') = length (e_read e) ->
  exists p' sd', quiet_step t i id peer p p' /\ party_at t i id key ns nr m0 us p' sd' e'.
Proof.
  intros ([P1 P2 P3 P4 P5] & Hu & cc & [On Haw Hwf Hnc [S1 S2 S3 S4 S5 S6 S7 S8 S9]]) Hs Hw Hst Lw Lr.
  destruct (transport_only _ _ _ Hs Lw Lr) as (Ew & Er & Eip & Hs0). destruct p as [m vs n nt], sd as [s wr rd nt0].
  cbn [pt_m pt_said pt_calls pt_net sd_nc sd_wrote sd_read sd_net] in *. subst s nt0. rewrite S9 in Hs0.
  set (m' := set_net_crypto (set_lossless_udp (upd (lossless_udp (net_crypto m)) (cc_number cc) (e_conn e')) (net_crypto m)) m).
  exists (mkParty m' vs n (e_net e')), (mkSide (net_crypto m') wr rd (e_net e')). split; [by apply (qs_transport t i id peer m cc (e_conn e))|].
  split; [|split; [done|]].
  - split; try done. cbn [pt_m sd_wrote sd_read]. by eapply answers_log.
  - exists cc. split; cbn [pt_m]; [by eapply online_same|done| |done|].
    + eapply (ludp_wf_upd _ _ (e_conn e)); [done|done|done|done|by rewrite Hst].
    + split; cbn [sd_nc sd_wrote sd_read sd_net]; rewrite ?Ew, ?Er; try done. by eapply conn_at_upd.
Qed.

(** A turn of [doFriends]. *)
Lemma party_at_turn t i id key ns nr m0 us peer p sd e :
  party_at t i id key ns nr m0 us p sd e -> t <= u64 (t + FRIEND_CONNECTION_TIMEOUT) -> opens key nr e ->
  exists p' sd' e', quiet_step t i id peer p p' /\ rtc use_step e e' /\ recvqueue_conn (e_conn e') = 0 /\
    party_at t i id key ns nr m0 us p' sd' e'.
Proof.
  intros (P & Hu & cc & S) Ht Ho. destruct p as [m vs n nt]. cbn [pt_m pt_said] in *. subst vs.
  pose proof S as [On _ _ _ R]. pose proof (pr_net _ _ _ _ _ P) as Hn. cbn [pt_net] in Hn.
  destruct (proj1 (wp_Some _ _ _ _) (wp_doFriend_turn t i id key ns nr Ht m (still_world 0 0) sd e cc S eq_refl Ho))
    as ([] & m' & w' & E & W & Rd & Hc & Hv & Ha & e' & cc' & He & S' & Hq).
  destruct (call_rel i id key ns nr m0 m m' m' us [] n nt W Rd sd e cc On P R Hc Hv Ha (or_introl eq_refl)) as [_ P'].
  rewrite app_nil_r in P'. exists (mkParty m' us (Datatypes.S n) nt), (side_after m' sd W Rd), e'.
  split; [by eapply qs_turn|]. split_and!; [done|done|]. unfold side_after in *. rewrite Hn in *. split; [done|].
  split; [done|by exists cc'].
Qed.

Section talk.
Context (t i id u j jd h k : Z) (key n1 n2 : list Z) (m1 m2 : Messenger) (ua ub : list utterance).

(** From any two clients with these ends, the conversation can go on until [P] holds. *)
Definition talking (P : End -> End -> Prop) (ea eb : End) : Prop :=
forall pa pb sa sb, party_at t i id key n1 n2 m1 ua pa sa ea -> party_at u j jd key n2 n1 m2 ub pb sb eb ->
  exists pa' pb' sa' sb' ea' eb', rtc (resume t i id u j jd) (pa, pb) (pa', pb') /\
    party_at t i id key n1 n2 m1 ua pa' sa' ea' /\ party_at u j jd key n2 n1 m2 ub pb' sb' eb' /\ P ea' eb'.

Lemma talking_step (P : End -> End -> Prop) x y :
  live h k (fst x) (snd x) -> bounded (e_wrote (fst x)) -> bounded (e_wrote (snd x)) -> timely_step x y ->
  length (e_wrote (fst y)) = length (e_wrote (fst x)) -> length (e_wrote (snd y)) = length (e_wrote (snd x)) ->
  length (e_read (fst y)) = length (e_read (fst x)) -> length (e_read (snd y)) = length (e_read (snd x)) ->
  talking P (fst y) (snd y) -> talking P (fst x) (snd x).
Proof.
  intros Hl Ba Bb Hs Wa Wb La Lb HP pa pb sa sb Pa Pb.
  assert (live h k (fst y) (snd y)) as [[[Ya Yb] _ _ _] _ _ _] by (eapply live_timely; [done..| |]; unfold bounded in *; lia).
  pose proof Hl as [[_ [Sa Sb] _ _] _ [Ra Rb] _].
  assert (exists pa1 pb1 sa1 sb1, resume t i id u j jd (pa, pb) (pa1, pb1) /\
    party_at t i id key n1 n2 m1 ua pa1 sa1 (fst y) /\ party_at u j jd key n2 n1 m2 ub pb1 sb1 (snd y)) as (pa1 & pb1 & sa1 & sb1 & H1 & Pa1 & Pb1).
  { destruct Hs as [x y [ea eb ea' Hs|ea eb eb' Hs] Ra' Rb'|ea eb na nb Hna Hnb]; cbn [fst snd] in *.
    - rewrite (party_at_net _ _ _ _ _ _ _ _ _ _ _ Pb) in Hs.
      destruct (party_at_transport _ _ _ _ _ _ _ _ _ _ _ _ _ Pa Hs Ya Sa Wa La) as (pa1 & sa1 & Hst & Pa1).
      exists pa1, pb, sa1, sb. split_and!; [|done..]. constructor; [done|by eapply party_at_recent..].
    - rewrite (party_at_net _ _ _ _ _ _ _ _ _ _ _ Pa) in Hs.
      destruct (party_at_transport _ _ _ _ _ _ _ _ _ _ _ _ _ Pb Hs Yb Sb Wb Lb) as (pb1 & sb1 & Hst & Pb1).
      exists pa, pb1, sa, sb1. split_and!; [|done..]. constructor; [done|by eapply party_at_recent..].
    - rewrite (party_at_net _ _ _ _ _ _ _ _ _ _ _ Pa) in Hna. rewrite (party_at_net _ _ _ _ _ _ _ _ _ _ _ Pb) in Hnb.
      exists (under_way pa na), (under_way pb nb), (with_packets sa na), (with_packets sb nb).
      split_and!; [by apply rs_lose|by apply party_at_lose..]. }
  destruct (HP _ _ _ _ Pa1 Pb1) as (pa' & pb' & sa' & sb' & ea' & eb' & Hr & H').
  exists pa', pb', sa', sb', ea', eb'. split; [by eapply rtc_l|done].
Qed.

Lemma talking_still (P : End -> End -> Prop) x y :
  rtc timely_step x y -> live h k (fst x) (snd x) -> bounded (e_wrote (fst x)) -> bounded (e_wrote (snd x)) ->
  length (e_wrote (fst y)) = length (e_wrote (fst x)) -> length (e_wrote (snd y)) = length (e_wrote (snd x)) ->
  length (e_read (fst y)) = length (e_read (fst x)) -> length (e_read (snd y)) = length (e_read (snd x)) ->
  talking P (fst y) (snd y) -> talking P (fst x) (snd x).
Proof.
  induction 1 as [x|x y z H1 H2 IH]; intros Hl Ba Bb Wa Wb La Lb HP; [done|].
  destruct (timely_wrote _ _ H1) as [? ?]. destruct (timely_wrotes _ _ H2) as [? ?].
  destruct (timely_read _ _ H1) as [? ?]. destruct (timely_reads _ _ H2) as [? ?].
  eapply talking_step; [exact Hl|done|done|exact H1|lia..|]. apply IH; [|unfold bounded in *; lia|unfold bounded in *; lia|lia..|done].
  eapply live_timely; [done..| |]; unfold bounded in *; lia.
Qed.

#[export] Instance talking_progress : u <= u64 (u + FRIEND_CONNECTION_TIMEOUT) -> Progress h k 15 (fun _ => True) talking.
Proof.
  intros Hu. split.
  - intros P a b HP pa pb sa sb Pa Pb. exists pa, pb, sa, sb, a, b. by split_and!; [apply rtc_refl|..].
  - intros P Q a b HP HQ pa pb sa sb Pa Pb.
    destruct (HP _ _ _ _ Pa Pb) as (pa1 & pb1 & sa1 & sb1 & a1 & b1 & Hr1 & Pa1 & Pb1 & H1).
    destruct (HQ _ _ H1 _ _ _ _ Pa1 Pb1) as (pa2 & pb2 & sa2 & sb2 & a2 & b2 & Hr2 & H2).
    exists pa2, pb2, sa2, sb2, a2, b2. split; [by etrans|done].
  - intros P a b a' b' Hl Ba Bb [Hr [W1 W2] [R1 R2]] HP.
    apply (talking_still P (a, b) (a', b')); cbn [fst snd]; congruence || done.
  - intros Inv a b Hr Hw Hl Ba Bb _ Hi pa pb sa sb Pa Pb. pose proof Pa as (_ & _ & ca & Sa).
    assert (Ho : opens key n1 b) by (eapply live_opens; [exact Hl|exact (sr_wrote _ _ _ _ _ _ _ (se_rel _ _ _ _ _ _ _ _ _ _ Sa))|done|lia]).
    destruct (party_at_turn _ _ _ _ _ _ _ _ (pt_net pa) _ _ _ Pb Hu Ho) as (pb' & sb' & b' & Hs & Hus & Hq & Pb').
    pose proof (uses_bound _ _ Hus) as Lb.
    assert (Hl' : live h k a b') by (eapply live_uses; [done..|unfold bounded; lia]).
    pose proof (lv_recent _ _ _ _ Hl') as [Ra' Rb'].
    exists pa, pb', sa, sb', a, b'. split_and!; try done.
    + apply rtc_once. constructor; [done|by eapply party_at_recent..].
    + eapply (uses_inv Inv); [exact Hr|exact Hw|exact Hus|exact Hl|done|unfold bounded; lia|done].
Qed.
End talk.

(** Everything that was written by [p] when it had said [us] has been read at [q]. *)
Lemma party_heard t i id u j jd key n1 n2 m1 m2 us vs p q sp sq ep eq :
  party_at t i id key n1 n2 m1 us p sp ep -> party_at u j jd key n2 n1 m2 vs q sq eq -> e_read eq = e_wrote ep ->
  heard j (pt_m q) = heard j m2 ++ (shown j <$> us).
Proof.
  intros (P & <- & cp & [_ _ _ _ Rp]) (Q & _ & cq & [_ _ _ _ Rq]) E.
  assert (sd_read sq = sd_wrote sp) as Er.
  { rewrite (sr_read _ _ _ _ _ _ _ Rq), E. by apply open_crypt_stream, (sr_wrote _ _ _ _ _ _ _ Rp). }
  rewrite (an_heard _ _ _ _ _ (pr_answers _ _ _ _ _ Q)), Er; [by rewrite (pr_said _ _ _ _ _ P)|rewrite Er].
  apply (an_whole _ _ _ _ _ (pr_answers _ _ _ _ _ P)).
Qed.

(** Two clients whose ends are live can go on until each has shown what the other said. *)
Lemma talk_recovers t i id u j jd h k key n1 n2 m1 m2 ua ub pa pb sa sb ea eb :
  party_at t i id key n1 n2 m1 ua pa sa ea -> party_at u j jd key n2 n1 m2 ub pb sb eb -> live h k ea eb ->
  t <= u64 (t + FRIEND_CONNECTION_TIMEOUT) -> u <= u64 (u + FRIEND_CONNECTION_TIMEOUT) ->
  Z.of_nat (length (e_wrote ea) + 45) + 64 < 4294967296 -> Z.of_nat (length (e_wrote eb) + 45) + 64 < 4294967296 ->
  (lost (e_conn ea) (e_conn eb) <= 8)%nat -> (lost (e_conn eb) (e_conn ea) <= 8)%nat ->
  exists pa' pb', rtc (resume t i id u j jd) (pa, pb) (pa', pb') /\ pt_said pa' = ua /\ pt_said pb' = ub /\
    heard j (pt_m pb') = heard j m2 ++ (shown j <$> ua) /\ heard i (pt_m pa') = heard i m1 ++ (shown i <$> ub).
Proof.
  intros Pa Pb Hl Ht Hu Ba Bb Hab Hba. assert (Wa : bounded (e_wrote ea)) by (unfold bounded; lia).
  assert (Hp : phase h k (e_wrote ea) (e_read ea) 15 (fun _ => True) 3 ea eb) by (split; [done..|split; [done|lia]|done|done]).
  pose proof (talking_progress t i id u j jd h k key n1 n2 m1 m2 ua ub Hu) as E1.
  destruct (recover_one h k _ _ Wa 15 _ (talking t i id u j jd key n1 n2 m1 m2 ua ub) 0 _ _ Hp Hab _ _ _ _ Pa Pb)
    as (pa1 & pb1 & sa1 & sb1 & ea1 & eb1 & Hr1 & Pa1 & Pb1 & [Hl1 W1 [_ W2] _ Hb1] & R1 & Ha1).
  assert (Wb : bounded (e_wrote eb1)) by (unfold bounded; lia).
  assert (Hp1 : phase k h (e_wrote eb1) (e_read eb1) 15 (fun _ => True) 3 eb1 ea1).
  { split; [by apply live_sym|done|split; [done|rewrite W1; lia]|done..]. }
  pose proof (talking_progress u j jd t i id k h key n2 n1 m2 m1 ub ua Ht) as E2.
  destruct (recover_one k h _ _ Wb 15 _ (talking u j jd t i id key n2 n1 m2 m1 ub ua) 0 _ _ Hp1 Hb1 _ _ _ _ Pb1 Pa1)
    as (pb2 & pa2 & sb2 & sa2 & eb2 & ea2 & Hr2 & Pb2 & Pa2 & [_ V1 _ V3 _] & R2 & _).
  exists pa2, pb2. split_and!.
  - etrans; [exact Hr1|by apply resumes_swap].
  - by destruct Pa2 as (_ & ? & _).
  - by destruct Pb2 as (_ & ? & _).
  - eapply party_heard; [exact Pa1|exact Pb2|by rewrite V3, R1, W1].
  - eapply party_heard; [exact Pb2|exact Pa2|by rewrite R2, V1].
Qed.

(** ** Claim *)

(** Client [p] can go on at time [t]: friend [i] is online on connection [id] and has not
    timed out, the connections of the transport are well-formed, and that of the friend
    is [c]; the clock and the packet numbers do not wrap around. *)
Record ready (t i id : Z) (p : Party) (c : Connection) : Prop := {
  rd_online : online i id (pt_m p);
  rd_awake : friend_awake t i (pt_m p);
  rd_wf : ludp_wf (lossless_udp (net_crypto (pt_m p)));
  rd_link : side_link id (net_crypto (pt_m p)) c;
  rd_clock : t <= u64 (t + FRIEND_CONNECTION_TIMEOUT);
  rd_calls : Z.of_nat (pt_calls p) < 286331145
}.

(** C8: everything a friend has said can always be shown, whatever the network has lost.
    Two clients that have each other as an online friend, over an encrypted connection
    that was just made and whose ends have heard of each other ([tokens], as
    [handshake_agreement] shows), talk: they call [m_sendmessage], [m_sendmessage_withid]
    and [m_sendaction] and take turns of [doFriends], while the network loses, repeats,
    delays and reorders datagrams, only it does not hold a SYNC packet back for 247
    others.  In any state that is reached with both still online and not timed out
    ([ready]), even if everything under way is lost, there is a way on: turns of
    [doFriends], at the time each clock shows, and steps of the transports lead, with
    nothing more said, to a state in which each client has been shown all that the other
    said: the messages and actions, with their texts and lengths, in order and once each.
    The names, statuses, pings and receipts that the turns themselves write do not hinder
    it.  (At most eight packets are missing in each direction, see [link_recovers]; fewer
    than 286,331,145 calls at each end.) *)
Theorem chat_recovers t i id u j jd h k m1 m2 x y c1 c2 a b ca cb :
  channel_start id jd h k (net_crypto m1) (net_crypto m2) x y c1 c2 -> tokens c1 c2 ->
  is_u8 (send_counter c1) -> is_u8 (send_counter c2) ->
  rtc (timely_chat i id j jd) (mkParty m1 [] 0 [], mkParty m2 [] 0 []) (a, b) ->
  ready t i id a ca -> ready u j jd b cb -> (lost ca cb <= 8)%nat -> (lost cb ca <= 8)%nat ->
  exists a' b', rtc (resume t i id u j jd) (under_way a [], under_way b []) (a', b') /\
    pt_said a' = pt_said a /\ pt_said b' = pt_said b /\
    heard j (pt_m b') = heard j m2 ++ (shown j <$> pt_said a) /\
    heard i (pt_m a') = heard i m1 ++ (shown i <$> pt_said b).
Proof.
  intros Hst Htok Hu1 Hu2 Hs [Oa Aa Fa La Ht Ba] [Ob Ab Fb Lb Hu Bb] Hab Hba.
  destruct (chat_live i id j jd h k m1 m2 x y c1 c2 (a, b) Hst Htok Hu1 Hu2 Hs) as (sa & sb & ea & eb & da & db & Pa & Pb & Ra & Rb & Hl);
    [unfold few_calls; simpl; lia..|]. cbn [fst snd] in *.
  pose proof (pr_nc _ _ _ _ _ Pa Oa) as Na. pose proof (pr_nc _ _ _ _ _ Pb Ob) as Nb. rewrite <- Na in La. rewrite <- Nb in Lb.
  rewrite (side_link_fun _ _ _ _ La (side_rel_link _ _ _ _ _ _ _ Ra)) in *.
  rewrite (side_link_fun _ _ _ _ Lb (side_rel_link _ _ _ _ _ _ _ Rb)) in *.
  pose proof (pr_calls _ _ _ _ _ Pa). pose proof (pr_calls _ _ _ _ _ Pb).
  eapply (talk_recovers t i id u j jd h k (cc_shared_key x) (cc_sent_nonce x) (cc_sent_nonce y));
    [apply party_at_lose; split; [exact Pa|split; [done|by exists da]]|apply party_at_lose; split; [exact Pb|split; [done|by exists db]]
    |apply live_lose; [exact Hl|set_solver..]|done|done| | |done|done].
  - simpl. rewrite (length_crypt_stream _ _ _ _ (sr_wrote _ _ _ _ _ _ _ Ra)). lia.
  - simpl. rewrite (length_crypt_stream _ _ _ _ (sr_wrote _ _ _ _ _ _ _ Rb)). lia.
Qed.
End chat.

(** ** Witness *)

Section witnesses.
#[local] Existing Instance ToyBox.box.
#[local] Existing Instance ToyBox.laws.

(** A message is said and sent, and its packet is lost. *)
Definition talk_lost : Party := under_way talk_A2 [].

Definition talk_packet : list Z := slot_payload (sendbuffer (talk_conn talk_A2)) 100.

Lemma talk_lost_wf : ludp_wf (lossless_udp (net_crypto (pt_m talk_lost))).
Proof.
  assert (lossless_udp (net_crypto (pt_m talk_lost)) =
    lossless_udp (demo_nc (send_DATA_conn (write_packet_conn (demo_conn demo_peer 100 200) talk_packet)) demo_cc)) as -> by by vm_compute.
  apply demo_nc_wf, send_DATA_conn_wf, write_packet_conn_wf; [|by apply Nat.leb_le; vm_compute].
  by apply (demo_established 100 200); unfold is_u32; lia.
Qed.

Definition talk_friend (p : Party) : Friend := default mfriend_zero (m_friendlist (pt_m p) !! 1%nat).

Lemma talk_ready t p f cc :
  m_callbacks (pt_m p) = [friend_message; friend_action; read_receipt] ->
  m_friendlist (pt_m p) !! 1%nat = Some f /\ f_status f = FRIEND_ONLINE /\ f_crypt_connection_id f = 0 /\
    (t <=? u64 (f_ping_lastrecv f + FRIEND_CONNECTION_TIMEOUT)) = true ->
  ludp_wf (lossless_udp (net_crypto (pt_m p))) ->
  crypto_connections (net_crypto (pt_m p)) !! 0%nat = Some cc /\ conn_at (lossless_udp (net_crypto (pt_m p))) (cc_number cc) (talk_conn p) ->
  (t <=? u64 (t + FRIEND_CONNECTION_TIMEOUT)) = true -> Z.of_nat (pt_calls p) < 286331145 ->
  ready t 1 0 p (talk_conn p).
Proof.
  intros Hcb (Hf & Hst & Hid & Haw) Hwf [Hcc Hc] Ht Hn. split; [by eapply online_dec|exists f|done|exists cc|by apply Z.leb_le|done].
  - split; [done|by apply Z.leb_le].
  - by split.
Qed.

Lemma chat_recovers_witness :
  pt_said talk_lost = [Says 1 [104; 105]] /\ heard 1 (pt_m talk_B0) = [] /\ lost (talk_conn talk_lost) (talk_conn talk_B0) = 1%nat /\
  exists a' b', rtc (resume 3 1 0 7 1 0) (talk_lost, talk_B0) (a', b') /\
    pt_said a' = [Says 1 [104; 105]] /\ pt_said b' = [] /\
    heard 1 (pt_m b') = [Ev_message 1 [104; 105] 2] /\ heard 1 (pt_m a') = [].
Proof.
  split_and!; [by vm_compute..|].
  apply (chat_recovers 3 1 0 7 1 0 100 200 (talker 100 200) (talker 200 100) demo_cc demo_cc
           (demo_conn demo_peer 100 200) (demo_conn demo_peer 200 100) talk_lost talk_B0 (talk_conn talk_lost) (talk_conn talk_B0)).
  - split.
    + split; [split; [lia|done]|done].
    + split; [split; [lia|done]|done].
    + split; done.
    + apply demo_established; unfold is_u32; lia.
    + apply demo_established; unfold is_u32; lia.
  - unfold tokens. by vm_compute.
  - by unfold is_u8; simpl.
  - by unfold is_u8; simpl.
  - assert (R : forall p, pt_net p = [] \/ (exists num q, pt_net p = [PData num q]) -> party_recent 0 p).
    { intros p Hn c _ counter rn sn q. cbn. destruct Hn as [E|(num & d & E)]; rewrite E;
        [by intros ?%not_elem_of_nil|by intros ?%list_elem_of_singleton]. }
    destruct (talk_A_run []) as (A1 & A2 & _).
    eapply rtc_l; [apply (tc_step 1 0 1 0 (talk_A0, talk_B0) (talk_A1, talk_B0)); [by constructor|apply R; by left..]|].
    eapply rtc_l; [apply (tc_step 1 0 1 0 (talk_A1, talk_B0) (talk_A2, talk_B0)); [by constructor|apply R; right; by eexists _, _|apply R; by left]|].
    apply rtc_once. apply (tc_lose 1 0 1 0 talk_A2 talk_B0 [] []); set_solver.
  - apply (talk_ready 3 talk_lost (talk_friend talk_lost) (talk_cc talk_lost)); [by vm_compute|split_and!; by vm_compute|exact talk_lost_wf|split; by vm_compute|by vm_compute..].
  - apply (talk_ready 7 talk_B0 (talk_friend talk_B0) (talk_cc talk_B0)); [by vm_compute|split_and!; by vm_compute| |split; by vm_compute|by vm_compute..].
    apply demo_nc_wf. by apply (demo_established 200 100); unfold is_u32; lia.
  - apply Nat.leb_le. by vm_compute.
  - apply Nat.leb_le. by vm_compute.
Defined.
End witnesses.
