(* ===== verification/Tox.v ===== *)
(** * tox.c: the public interface

    Each function of the interface casts its [void *] argument to [Messenger *] and
    calls the function of Messenger.c or DHT.c of the same purpose.  tox.h repeats the
    constants and the address type of the library's own headers, for a client that sees
    only tox.h; [tox_header_agrees] says that the copies agree with the originals. *)

From S2P Require Import Prelude MiscTools Network Host LosslessUDP Crypto NetCrypto Ping DHTLists DHT FriendRequests LANDiscovery Messenger.
Local Open Scope Z_scope.
Local Open Scope tox_scope.

Section tox.
Context `{CryptoBox}.

Definition tox_getaddress := getaddress.
Definition tox_addfriend := m_addfriend.
Definition tox_addfriend_norequest := m_addfriend_norequest.
Definition tox_getfriend_id := getfriend_id.
Definition tox_getclient_id := getclient_id.
Definition tox_delfriend := m_delfriend.
Definition tox_friendstatus := m_friendstatus.
Definition tox_sendmessage := m_sendmessage.
Definition tox_sendmessage_withid := m_sendmessage_withid.
Definition tox_sendaction := m_sendaction.
Definition tox_setname := setname.
Definition tox_getselfname := getself_name.
Definition tox_getname := getname.
Definition tox_set_statusmessage := m_set_statusmessage.
Definition tox_set_userstatus := m_set_userstatus.
Definition tox_get_statusmessage_size := m_get_statusmessage_size.
Definition tox_copy_statusmessage := m_copy_statusmessage.
Definition tox_copy_self_statusmessage := m_copy_self_statusmessage.
Definition tox_get_userstatus := m_get_userstatus.
Definition tox_get_selfuserstatus := m_get_self_userstatus.
Definition tox_set_sends_receipts := m_set_sends_receipts.
Definition tox_callback_friendrequest := m_callback_friendrequest.
Definition tox_callback_friendmessage := m_callback friend_message.
Definition tox_callback_action := m_callback friend_action.
Definition tox_callback_namechange := m_callback friend_namechange.
Definition tox_callback_statusmessage := m_callback friend_statusmessagechange.
Definition tox_callback_userstatus := m_callback friend_userstatuschange.
Definition tox_callback_read_receipt := m_callback read_receipt.
Definition tox_callback_connectionstatus := m_callback friend_connectionstatuschange.
Definition tox_bootstrap (ip_port : IP_Port) (public_key : list Z) : M Messenger unit :=
in_dht (DHT_bootstrap ip_port public_key).
Definition tox_isconnected : M Messenger Z := in_dht DHT_isconnected.
Definition tox_new := initMessenger.
Definition tox_kill := cleanupMessenger.
Definition tox_do := doMessenger.
Definition tox_size := Messenger_size.
Definition tox_save := Messenger_save.
Definition tox_load := Messenger_load.
End tox.

(** ** tox.h *)

Definition TOX_MAX_NAME_LENGTH : nat := 128.
Definition TOX_MAX_STATUSMESSAGE_LENGTH : nat := 128.
Definition TOX_CLIENT_ID_SIZE : nat := 32.
Definition TOX_FRIEND_ADDRESS_SIZE : nat := TOX_CLIENT_ID_SIZE + 4 + 2.

(** The members of the union [tox_IP] are views of the same four bytes, kept as [c]. *)
Record tox_IP_Port := mk_tox_IP_Port { tox_ip : list Z; tox_port : Z; tox_padding : Z }.

(** The object in memory, and what the library takes it for: [IP_Port] of network.h. *)
Definition tox_IP_Port_bytes (a : tox_IP_Port) : list Z :=
  tox_ip a ++ le_bytes 2 (tox_port a) ++ le_bytes 2 (tox_padding a).
Definition tox_IP_i (a : tox_IP_Port) : Z := le_val (tox_ip a).

(** The status of a friend, the errors of [tox_addfriend], the status of a user. *)
Definition TOX_FRIENDSTATUS : list Z := seqZ 0 5.
Definition TOX_FAERR : list Z := [-1; -2; -3; -4; -5; -6; -7; -8].
Definition TOX_USERSTATUS : list Z := seqZ 0 4.

(** A client compiled against tox.h means what the library means: the sizes and the
    numbers are the same, and an address is laid out in memory as the library reads it. *)
Theorem tox_header_agrees :
  (TOX_MAX_NAME_LENGTH = MAX_NAME_LENGTH /\ TOX_MAX_STATUSMESSAGE_LENGTH = MAX_STATUSMESSAGE_LENGTH /\
   TOX_CLIENT_ID_SIZE = CLIENT_ID_SIZE /\ TOX_FRIEND_ADDRESS_SIZE = FRIEND_ADDRESS_SIZE) /\
  TOX_FRIENDSTATUS = [NOFRIEND; FRIEND_ADDED; FRIEND_REQUESTED; FRIEND_CONFIRMED; FRIEND_ONLINE] /\
  TOX_FAERR = [FAERR_TOOLONG; FAERR_NOMESSAGE; FAERR_OWNKEY; FAERR_ALREADYSENT; FAERR_UNKNOWN;
               FAERR_BADCHECKSUM; FAERR_SETNEWNOSPAM; FAERR_NOMEM] /\
  TOX_USERSTATUS = [USERSTATUS_NONE; USERSTATUS_AWAY; USERSTATUS_BUSY; USERSTATUS_INVALID] /\
  forall a, length (tox_ip a) = 4%nat -> bytes_ok (tox_ip a) ->
    tox_IP_Port_bytes a = ipp_bytes (mkIPP (tox_IP_i a) (tox_port a) (tox_padding a)).
Proof.
  split_and!; try reflexivity. intros a Hl Ha. unfold tox_IP_Port_bytes, ipp_bytes, tox_IP_i. cbn [ip port padding].
  rewrite <- Hl at 1. by rewrite le_bytes_val.
Qed.
